(* ===== verification/_CoqProject ===== *)
-Q . S2P
Prelude.v
Iqueue.v
IkcpBase.v
IkcpCb.v
IkcpSnd.v
IkcpRcv.v
IkcpInput.v
IkcpFlush.v
KcpSpec.v
IkcpArq.v
IkcpEffects.v
KcpMessages.v
IkcpProgress.v
Simulator.v
KcpTest.v
KcpServer.v
Delay.v
KcpClient.v
Mmpool.v
MemPool.v
Llist.v
Counting.v
ThreadPool.v
ThreadPoolSpec.v
Tp.v
CopyOnUpdate.v
SmartPtr.v
CText.v
Epoll.v
LoadGen.v
TcpDelay.v
EchoServers.v
Websocket.v
Reactor.v
