(* ===== verification/Prelude.v ===== *)
(** * Verification of the C programs of the CppMisc repository

    CppMisc is a collection of programs.  The ones with logic of their own are
    modelled here: the KCP protocol (kcp_learn/), the two pool allocators
    (mempool/), the two thread pools (threadpool/), the servers that are built around
    epoll (epoll/, c10M/, websocket/), the map of muduo/ and the smart pointers of
    unique_ptr/ and stupid_ptr/.  A definition has the name of the function it
    translates; where one function is split into several definitions, one per loop or
    phase, they are composed in the order of the code.

    ** The parts

    - The KCP connection, kcp_learn/ikcp.c and ikcp.h.  [Iqueue] is the intrusive
      queue of the macros IQUEUE_*, on the links themselves, with the list operation
      each macro implements; the other files use the lists.  [IkcpBase] is the
      segment and its wire header, [IkcpCb] the control block ([ikcpcb], one field
      per field of struct IKCPCB that the code reads), its creation, release and
      settings, [IkcpSnd] ikcp_send and the reaction to acknowledgements, [IkcpRcv]
      ikcp_recv, the list of acknowledgements to send and ikcp_parse_data,
      [IkcpInput] ikcp_input, [IkcpFlush] ikcp_flush, ikcp_update and ikcp_check.
      The invariant is [IkcpCb.kcp_wf]; every operation preserves it.
    - Two connections and the network between them: [KcpSpec] has the contracts of
      the entry points, [IkcpArq] the system of two ends whose datagrams are lost,
      repeated, delayed and reordered at will, [KcpMessages] the same system with the
      boundaries of the messages, [IkcpEffects] what one datagram achieves and
      [IkcpProgress] that the system can always go on to deliver everything.
    - The network simulator of kcp_learn/test.h: [Simulator]; the latency test of
      kcp_learn/test.cpp, two connections over it: [KcpTest].
    - The demo hosts: [KcpServer] is kcp_learn/server.c as one end of the system of
      [KcpMessages], [KcpClient] kcp_learn/client.c, and the two programs together over
      the network; [Delay] is kcp_learn/delay.c, the objects they exchange.  [TcpDelay] is
      the same test over TCP, kcp_learn/tcp/: client and server over two byte streams.
    - The allocators: [Mmpool] is mempool/mmpool.c, [MemPool] mempool/mem_pool.c.
      Addresses are integers and a block is an address and a size, so that overlap
      and overrun can be stated.
    - The thread pools: [Llist] has the list macros both use, [ThreadPool] the
      transition system of threadpool/thread_pool.c and its invariants,
      [ThreadPoolSpec] what follows from them, [Tp] threadpool/tp.c.  [CopyOnUpdate]
      is the shared map of muduo/copy_on_update.cc; [Counting] has the lemmas that count
      the threads at a place.
    - The smart pointers of unique_ptr/ and stupid_ptr/: [SmartPtr].
    - The servers: [Epoll] is the loop that epoll/epoll_v1.c, epoll/epoll_v2.c,
      c10M/server.c, websocket/websocket.c and websocket/epoll_websocket.c share,
      against the class [Epoll.App] of what an application does with the bytes;
      [EchoServers] has four instances, [Websocket] the WebSocket server, and
      [Reactor] the reactor of c10M/reactor.c, which has an event table of its own.
      [LoadGen] is the client that opens connections to them, c10M/client.c; [CText] has
      the strings and numbers that the servers and it write and read.

    This file has what the others share: integers of the C types, the result type
    [res] with its faults, record update, lists and automation.

    ** What the theorems show

    - Delivery: the bytes (delivered_prefix) and the messages (messages_delivered) an
      application receives are a prefix of what the other sent; when all queues are
      empty, all of it (delivery_complete); from every state that can be reached there is a
      way to deliver all of it, also when every datagram on the way is lost
      (delivery_always_possible), unless a receive window does not fit the header
      (window_of_65536_looks_closed); a segment is held until it has arrived
      (nothing_forgotten).
    - Each entry point of KCP: totality and absence of faults on any input
      (ikcp_input_wf, ikcp_recv_outcomes), exact effect (ikcp_send_bytes,
      ikcp_send_message_mode, ikcp_recv_reassembles, parse_data_in_order,
      acknowledged_exactly, rto_follows_rtt, ikcp_check_spec), the wire format between
      hosts of any byte order (segment_crosses_hosts), the datagrams of a flush against a
      description of its own of what has to be sent (flush_sends), retransmission while
      updates go on (overdue_segment_is_sent), resources (ikcp_create_wf,
      ikcp_release_frees).
    - The simulator: the exact rate of loss (loses_exactly_lostrate) and a
      first-in-first-out network (network_keeps_order).
    - The KCP programs, when malloc does not fail: the latency test never reports its error
      (test_never_errs); the server answers every message that fits a datagram, with any
      peer (server_echoes), and a message that is longer than every datagram that comes
      after it stops it (long_message_blocks); the client gets its objects back
      (client_gets_objects_back).
    - The test over TCP: its rows are numbered as long as the server loses no bytes, and
      nothing outside the objects is touched, but for a malloc that fails and the sixth
      object of delay_test2 (delay_rows_numbered); delay_test1 comes to
      its end when the sockets can hold the hundred objects (delay_test1_finishes) and never
      to its first answer when they cannot (delay_test1_deadlocks).
    - The allocators: what is handed out lies in the pool and meets nothing handed out
      before (alloc_small_carves, mp_alloc_carves), everything is given back once
      (mp_destory_pool_frees), and the requests for which
      the code goes past the end of the pool (mp_alloc_overrun).
    - The thread pools, for every interleaving: jobs are neither lost nor run twice
      (jobs_accounted), mutual exclusion and exact counters (pool_mutual_exclusion),
      no lost wake-up of a job (no_job_left_behind), remove_workers leaves a worker
      (remove_workers_keeps_one), the only accesses to freed memory
      (faults_only_on_freed_workers), a shutdown that ends (shutdown_ends_every_worker)
      and one that does not (destroy_can_miss_a_worker).
    - The shared map, for every interleaving: readers without the lock see a map that
      nobody changes or removes (readers_see_snapshots), maps are removed when nobody has
      them (maps_are_released), the mutex is no deadlock (some_thread_runs), and update
      loses entries when a reader is active (update_forgets_other_keys).
    - The smart pointers: one owner per object, nothing deleted twice or read after it is
      deleted, as long as nothing is copied (one_owner).
    - The servers, for every sequence of events: memory safety and echo
      (echo_server_echoes, reactor_event_safe, reactor_echoes), the WebSocket
      handshake and frames (handshark_accepts, websocket_echoes).  For the load generator,
      with any answers of the kernel: the count of the connections, to whom it sends and
      when main ends (load_generator_counts).

    ** Conventions

    An operation that can fault returns [res]: [Ok], or [Err] with the fault: an access
    outside an object, a null pointer, a division by zero, a failed assertion, or
    [Diverges] when a loop has used up its fuel.  Fuel is a number of rounds that the
    loop cannot exceed when the loop ends: ikcp_input takes one round per 24 bytes of
    the datagram, the readers of strings one per byte, the walks of queues one per
    node.  Theorems that state a result say [returns], so they include that the fuel
    is enough.  Theorems that state [safely] name the only faults that can occur.

    malloc may fail in every call: ikcp_send, ikcp_input, ikcp_create and the allocators are
    stated for that.  A connection whose malloc is refused between two fragments of a message
    either stops at an assertion or, under NDEBUG, queues part of the message; theorems about
    whole messages over many calls therefore assume [IkcpCb.malloc_never_fails], or that a
    refusal stops the program ([IkcpCb.refusals_stop]), in their statement.  Memory that
    malloc returns has any contents.

    A machine integer is a [Z] and every operation that can leave the range of its type
    is written with the wrap-around of that type.  The delivery theorems are about
    connections that have numbered fewer than 2^31 segments, the range in which the
    code compares sequence numbers.

    What is not under src/ is a parameter: malloc and the allocator hooks
    ([IkcpCb.Env]), the byte order ([IkcpBase.Host]), posix_memalign and malloc of the
    allocators ([Mmpool.Libc]), the scheduler (the choice of the next step), the
    answers of the kernel to accept, recv, send and malloc (arguments of each event),
    gettimeofday and rand ([Simulator.Machine]), SHA1 and the base64 filter of OpenSSL.

    ** Not modelled

    Printed text and logs (ikcp_log formats its arguments; the reads of the receive buffer
    that printf does for %s are modelled, in [EchoServers] and [Websocket]); the calls
    that open sockets and start threads in the main functions; signal handlers; the remaining
    directories, which exercise one call of the operating system, one feature of C++ or
    one library each and print the result; the generated files of CMake. *)

From Stdlib Require Export ZArith Lia Bool.
From stdpp Require Export prelude list numbers gmap.

#[export] Set Default Goal Selector "!".

(** ** Machine integers

    A C integer of width [w] is a [Z]; every operation that may leave the range
    of its type is written with the wrap-around of the type, [u8], [u16], [u32]
    and [u64] for the unsigned types and [i32] for the two's complement [int]. *)

Declare Scope c_scope.
Delimit Scope c_scope with c.
Open Scope Z_scope.

Definition u8 (z : Z) : Z := z mod 256.
Definition u16 (z : Z) : Z := z mod 65536.
Definition u32 (z : Z) : Z := z mod 4294967296.
Definition u64 (z : Z) : Z := z mod 18446744073709551616.

(** The conversion to [int] (32 bits, two's complement). *)
Definition i32 (z : Z) : Z :=
  let m := z mod 4294967296 in
  if m <? 2147483648 then m else m - 4294967296.

(** [x] is a value of type [unsigned int], of type [int]. *)
Definition is_u32 (z : Z) : Prop := 0 <= z < 4294967296.
Definition is_i32 (z : Z) : Prop := -2147483648 <= z < 2147483648.
Definition is_byte (z : Z) : Prop := 0 <= z < 256.

Notation "a +u b" := (u32 (a + b)) (at level 50, left associativity) : c_scope.
Notation "a -u b" := (u32 (a - b)) (at level 50, left associativity) : c_scope.
Notation "a *u b" := (u32 (a * b)) (at level 40, left associativity) : c_scope.

(** Arithmetic on wrapped values: expose every division and let [lia] finish. *)
Ltac wrap_lia :=
  unfold u8, u16, u32, u64, i32, is_u32, is_i32, is_byte in *; simpl in *;
  repeat match goal with
         | |- context [if ?b then _ else _] => destruct b eqn:?
         | H : context [if ?b then _ else _] |- _ => destruct b eqn:?
         end;
  Z.to_euclidean_division_equations; lia.

Lemma u8_range z : 0 <= u8 z < 256.
Proof. wrap_lia. Qed.
Lemma u16_range z : 0 <= u16 z < 65536.
Proof. wrap_lia. Qed.
Lemma u32_range z : 0 <= u32 z < 4294967296.
Proof. wrap_lia. Qed.
Lemma i32_range z : -2147483648 <= i32 z < 2147483648.
Proof. wrap_lia. Qed.
Lemma u32_small z : 0 <= z < 4294967296 -> u32 z = z.
Proof. intros H. apply Z.mod_small, H. Qed.
Lemma u16_small z : 0 <= z < 65536 -> u16 z = z.
Proof. intros H. apply Z.mod_small, H. Qed.
Lemma u8_small z : 0 <= z < 256 -> u8 z = z.
Proof. intros H. apply Z.mod_small, H. Qed.
Lemma i32_small z : -2147483648 <= z < 2147483648 -> i32 z = z.
Proof. intros H. wrap_lia. Qed.
Lemma u32_idem z : u32 (u32 z) = u32 z.
Proof. apply u32_small, u32_range. Qed.
Lemma i32_u32 z : i32 (u32 z) = i32 z.
Proof. unfold i32, u32. rewrite Z.mod_mod by lia. done. Qed.
Lemma u32_i32 z : u32 (i32 z) = u32 z.
Proof. wrap_lia. Qed.
Lemma u32_add_l a b : u32 (u32 a + b) = u32 (a + b).
Proof. unfold u32. apply Zplus_mod_idemp_l. Qed.
Lemma u32_add_r a b : u32 (a + u32 b) = u32 (a + b).
Proof. unfold u32. apply Zplus_mod_idemp_r. Qed.
Lemma u32_sub_l a b : u32 (u32 a - b) = u32 (a - b).
Proof. unfold u32. apply Zminus_mod_idemp_l. Qed.
Lemma u32_sub_r a b : u32 (a - u32 b) = u32 (a - b).
Proof. unfold u32. apply Zminus_mod_idemp_r. Qed.

Create HintDb cint.
#[export] Hint Resolve u8_range u16_range u32_range i32_range u32_small : cint.
Create Rewrite HintDb cint.
#[export] Hint Rewrite u32_idem i32_u32 u32_i32 u32_add_l u32_add_r u32_sub_l u32_sub_r : cint.

(** ** Outcomes

    A C function returns a value, or its execution leaves the defined part of
    the language or stops the process. *)

Inductive fault : Set :=
  | OutOfBounds     (* a read or a write outside the object *)
  | Uninitialised   (* a read of memory that was never written *)
  | NullDeref       (* an access through a null pointer *)
  | DivByZero
  | Aborted         (* a failed assert, or abort() *)
  | Diverges.       (* a loop that never ends *)

#[export] Instance fault_eq_dec : EqDecision fault.
Proof. solve_decision. Defined.

Inductive res (A : Type) : Type :=
  | Ok (a : A)
  | Err (e : fault).
Arguments Ok {A} a.
Arguments Err {A} e.

#[export] Instance res_ret : MRet res := fun A a => Ok a.
#[export] Instance res_bind : MBind res := fun A B f m =>
  match m with Ok a => f a | Err e => Err e end.

Lemma bind_Ok {A B} (m : res A) (f : A -> res B) b :
  (m ≫= f) = Ok b <-> exists a, m = Ok a /\ f a = Ok b.
Proof.
  destruct m as [a|e]; cbn; split; try naive_solver; intros; try discriminate.
Qed.

Lemma bind_ret {A B} (a : A) (f : A -> res B) : (Ok a ≫= f) = f a.
Proof. done. Qed.

(** Two results are related by [P] when the call succeeds with a value in [P]. *)
Definition returns {A} (m : res A) (P : A -> Prop) : Prop :=
  exists a, m = Ok a /\ P a.

Lemma returns_Ok {A} (a : A) (P : A -> Prop) : P a -> returns (Ok a) P.
Proof. intros. by exists a. Qed.
Lemma returns_bind {A B} (m : res A) (f : A -> res B) (P : A -> Prop) (Q : B -> Prop) :
  returns m P -> (forall a, P a -> returns (f a) Q) -> returns (m ≫= f) Q.
Proof. intros (a & -> & Ha) Hf. apply (Hf a Ha). Qed.
Lemma returns_mono {A} (m : res A) (P Q : A -> Prop) :
  returns m P -> (forall a, P a -> Q a) -> returns m Q.
Proof. intros (a & -> & Ha) H. exists a. auto. Qed.

(** Total correctness up to an allowed set of faults: the call returns a value in
    [Q], or stops with a fault in [E]. *)
Definition safely {A} (E : fault -> Prop) (m : res A) (Q : A -> Prop) : Prop :=
  match m with Ok a => Q a | Err e => E e end.

Lemma safely_bind {A B} (E : fault -> Prop) (m : res A) (f : A -> res B)
    (P : A -> Prop) (Q : B -> Prop) :
  safely E m P -> (forall a, P a -> safely E (f a) Q) -> safely E (m ≫= f) Q.
Proof. destruct m as [a|e]; cbn; auto. Qed.
Lemma safely_mono {A} (E E' : fault -> Prop) (m : res A) (P Q : A -> Prop) :
  safely E m P -> (forall e, E e -> E' e) -> (forall a, P a -> Q a) -> safely E' m Q.
Proof. destruct m; cbn; auto. Qed.
Lemma safely_returns {A} (m : res A) (Q : A -> Prop) :
  safely (fun _ => False) m Q <-> returns m Q.
Proof.
  split.
  - destruct m; cbn; [|done]. by apply returns_Ok.
  - intros (a & -> & ?). done.
Qed.

(** Unsigned division, undefined for a zero divisor. *)
Definition c_divu (a b : Z) : res Z := if b =? 0 then Err DivByZero else Ok (a / b).

Lemma c_divu_ok a b : 0 < b -> c_divu a b = Ok (a / b).
Proof. intros Hb. unfold c_divu. by destruct (Z.eqb_spec b 0); [lia|]. Qed.

(** ** Functional record update

    [r <| f := v |>] is [r] with field [f] set to [v].  A record [R] gives one
    instance of [Eta R], its eta expansion, and one of [Settable f] per field,
    which [derive_setter] computes from it. *)

Class Eta (R : Type) := eta : R -> R.
Class Settable {R T : Type} (proj : R -> T) := upd : (T -> T) -> R -> R.

Ltac derive_setter :=
  lazymatch goal with
  | |- @Settable ?R ?T ?proj =>
      let f := fresh "f" in
      let r := fresh "r" in
      intros f r;
      let e := eval cbv [eta] in (eta r) in
      let e := eval hnf in e in
      let g := eval pattern (proj r) in e in
      lazymatch g with
      | ?G _ => let e' := eval cbv beta in (G (f (proj r))) in exact e'
      end
  end.

Notation "r <| f := v |>" := (upd (proj := f) (fun _ => v) r)
  (at level 12, f at level 20, left associativity).
Notation "r <| f ::= g |>" := (upd (proj := f) g r)
  (at level 12, f at level 20, left associativity).

(** ** Lists *)

Lemma filter_keep {A} (P : A -> Prop) `{!forall x, Decision (P x)} (l : list A) :
  (forall x, x ∈ l -> P x) -> filter P l = l.
Proof.
  induction l as [|x l IH]; intros Hx; [done|].
  rewrite filter_cons_True by (apply Hx; by left). f_equal. apply IH. intros. apply Hx. by right.
Qed.

Lemma filter_none {A} (P : A -> Prop) `{!forall x, Decision (P x)} (l : list A) :
  (forall x, x ∈ l -> ~ P x) -> filter P l = [].
Proof.
  induction l as [|x l IH]; intros Hx; [done|].
  rewrite filter_cons_False by (apply Hx; by left). apply IH. intros. apply Hx. by right.
Qed.

(** ** Arrays of bytes *)

(** Storing bytes at an offset. *)
Definition store_at (b : list Z) (i : nat) (bytes : list Z) : res (list Z) :=
  if (i + length bytes <=? length b)%nat
  then Ok (take i b ++ bytes ++ drop (i + length bytes) b) else Err OutOfBounds.

Lemma store_at_Ok b i bytes :
  (i + length bytes <= length b)%nat ->
  store_at b i bytes = Ok (take i b ++ bytes ++ drop (i + length bytes) b).
Proof. intros Hl. unfold store_at. by destruct (Nat.leb_spec (i + length bytes) (length b)); [|lia]. Qed.

Lemma store_front_Ok b bytes :
  (length bytes <= length b)%nat ->
  exists b', store_at b 0 bytes = Ok b' /\ length b' = length b /\ take (length bytes) b' = bytes.
Proof.
  intros Hl. rewrite store_at_Ok by lia. rewrite take_0, Nat.add_0_l, app_nil_l.
  eexists. split; [done|]. rewrite take_app_length, length_app, length_drop. split; [lia|done].
Qed.

(** A decidable statement about closed terms, by evaluation. *)
Ltac by_decide := apply (bool_decide_unpack _); vm_compute; exact I.
(** An equation both of whose sides evaluate. *)
Ltac evaluated := vm_compute; reflexivity.

#[export] Instance is_u32_dec z : Decision (is_u32 z).
Proof. unfold is_u32. apply _. Defined.
#[export] Instance is_i32_dec z : Decision (is_i32 z).
Proof. unfold is_i32. apply _. Defined.
#[export] Instance is_byte_dec z : Decision (is_byte z).
Proof. unfold is_byte. apply _. Defined.
