(* ===== verification/Iqueue.v ===== *)
(** * The intrusive circular queue of kcp_learn/ikcp.h

    The macros IQUEUE_INIT, IQUEUE_ADD, IQUEUE_ADD_TAIL, IQUEUE_DEL,
    IQUEUE_IS_EMPTY, the foreach loop and the splice, modelled on the links
    themselves: a store of [IQUEUEHEAD] cells, every assignment of a macro one
    update of the store, in the order the macro writes them.  [is_queue] relates
    a store to the list of the node addresses of a queue, and each macro is
    shown to implement the list operation the rest of the development uses in
    its place (cons, snoc, removal, emptiness, traversal, append), touching no
    cell of any other queue. *)

From S2P Require Import Prelude.

(** ** The store of links *)

Record IQUEUEHEAD := mkHead { next : Z; prev : Z }.
Abbreviation links := (gmap Z IQUEUEHEAD).

Definition get_next (h : links) (p : Z) : res Z :=
  match h !! p with Some c => Ok (next c) | None => Err OutOfBounds end.
Definition get_prev (h : links) (p : Z) : res Z :=
  match h !! p with Some c => Ok (prev c) | None => Err OutOfBounds end.
Definition set_next (h : links) (p v : Z) : res links :=
  match h !! p with
  | Some c => Ok (<[p := mkHead v (prev c)]> h)
  | None => Err OutOfBounds
  end.
Definition set_prev (h : links) (p v : Z) : res links :=
  match h !! p with
  | Some c => Ok (<[p := mkHead (next c) v]> h)
  | None => Err OutOfBounds
  end.

(** ** The macros *)

Definition iqueue_init (h : links) (ptr : Z) : res links :=
  h ← set_next h ptr ptr;
  set_prev h ptr ptr.

Definition iqueue_add (h : links) (node head : Z) : res links :=
  h ← set_prev h node head;
  n ← get_next h head;
  h ← set_next h node n;
  n ← get_next h head;
  h ← set_prev h n node;
  set_next h head node.

Definition iqueue_add_tail (h : links) (node head : Z) : res links :=
  p ← get_prev h head;
  h ← set_prev h node p;
  h ← set_next h node head;
  p ← get_prev h head;
  h ← set_next h p node;
  set_prev h head node.

Definition iqueue_del (h : links) (entry : Z) : res links :=
  n ← get_next h entry;
  p ← get_prev h entry;
  h ← set_prev h n p;
  p ← get_prev h entry;
  n ← get_next h entry;
  h ← set_next h p n;
  h ← set_next h entry 0;
  set_prev h entry 0.

Definition iqueue_del_init (h : links) (entry : Z) : res links :=
  h ← iqueue_del h entry;
  iqueue_init h entry.

Definition iqueue_is_empty (h : links) (entry : Z) : res bool :=
  n ← get_next h entry;
  Ok (bool_decide (entry = n)).

(** [iqueue_foreach_entry]: the nodes the loop visits, in order.  The loop has
    no bound of its own: [fuel] is the number of iterations allowed. *)
Fixpoint iqueue_visit (fuel : nat) (h : links) (pos head : Z) : res (list Z) :=
  match fuel with
  | O => Err Diverges
  | S fuel =>
      if decide (pos = head) then Ok []
      else
        n ← get_next h pos;
        l ← iqueue_visit fuel h n head;
        Ok (pos :: l)
  end.

Definition iqueue_foreach_entry (fuel : nat) (h : links) (head : Z) : res (list Z) :=
  pos ← get_next h head;
  iqueue_visit fuel h pos head.

Definition iqueue_splice_nonempty (h : links) (list head : Z) : res links :=
  first ← get_next h list;
  last ← get_prev h list;
  at_ ← get_next h head;
  h ← set_prev h first head;
  h ← set_next h head first;
  h ← set_next h last at_;
  set_prev h at_ last.

Definition iqueue_splice (h : links) (list head : Z) : res links :=
  e ← iqueue_is_empty h list;
  if (e : bool) then Ok h else iqueue_splice_nonempty h list head.

Definition iqueue_splice_init (h : links) (list head : Z) : res links :=
  h ← iqueue_splice h list head;
  iqueue_init h list.

(** ** The two link maps of a store

    Everything a macro does is described by two partial functions, the successor
    and the predecessor of each cell. *)

Definition nxt (h : links) (p : Z) : option Z := next <$> h !! p.
Definition prv (h : links) (p : Z) : option Z := prev <$> h !! p.

Lemma set_next_spec h p v :
  is_Some (h !! p) ->
  returns (set_next h p v) (fun h' =>
    (forall q, nxt h' q = if decide (q = p) then Some v else nxt h q) /\
    (forall q, prv h' q = prv h q) /\ dom h' = dom h /\
    (forall q, q <> p -> h' !! q = h !! q)).
Proof.
  intros [c Hc]. unfold set_next. rewrite Hc. apply returns_Ok. repeat split.
  - intros q. unfold nxt. destruct (decide (q = p)) as [->|]; by simplify_map_eq.
  - intros q. unfold prv. destruct (decide (q = p)) as [->|]; by simplify_map_eq.
  - rewrite dom_insert_L. apply elem_of_dom_2 in Hc. set_solver.
  - intros q ?. by simplify_map_eq.
Qed.

Lemma set_prev_spec h p v :
  is_Some (h !! p) ->
  returns (set_prev h p v) (fun h' =>
    (forall q, prv h' q = if decide (q = p) then Some v else prv h q) /\
    (forall q, nxt h' q = nxt h q) /\ dom h' = dom h /\
    (forall q, q <> p -> h' !! q = h !! q)).
Proof.
  intros [c Hc]. unfold set_prev. rewrite Hc. apply returns_Ok. repeat split.
  - intros q. unfold prv. destruct (decide (q = p)) as [->|]; by simplify_map_eq.
  - intros q. unfold nxt. destruct (decide (q = p)) as [->|]; by simplify_map_eq.
  - rewrite dom_insert_L. apply elem_of_dom_2 in Hc. set_solver.
  - intros q ?. by simplify_map_eq.
Qed.

Lemma get_next_nxt h p v : nxt h p = Some v -> get_next h p = Ok v.
Proof. unfold nxt, get_next. destruct (h !! p); naive_solver. Qed.
Lemma get_prev_prv h p v : prv h p = Some v -> get_prev h p = Ok v.
Proof. unfold prv, get_prev. destruct (h !! p); naive_solver. Qed.
Lemma nxt_alloc h p v : nxt h p = Some v -> is_Some (h !! p).
Proof. unfold nxt. destruct (h !! p); naive_solver. Qed.
Lemma prv_alloc h p v : prv h p = Some v -> is_Some (h !! p).
Proof. unfold prv. destruct (h !! p); naive_solver. Qed.
Lemma alloc_dom (h h' : links) p : dom h' = dom h -> is_Some (h !! p) -> is_Some (h' !! p).
Proof. intros Hd. by rewrite <- !elem_of_dom, Hd. Qed.

(** One assignment of a macro: run it and keep what it changed. *)
Ltac step_link :=
  lazymatch goal with
  | |- returns (get_next ?h ?p ≫= _) _ => erewrite (get_next_nxt h p) by eauto; cbn [mbind res_bind]
  | |- returns (get_prev ?h ?p ≫= _) _ => erewrite (get_prev_prv h p) by eauto; cbn [mbind res_bind]
  | |- returns (set_next _ _ _ ≫= _) _ =>
      eapply returns_bind;
      [ apply set_next_spec; eauto using alloc_dom
      | let h := fresh "h" in let N := fresh "N" in let P := fresh "P" in
        let D := fresh "D" in let F := fresh "F" in
        intros h (N & P & D & F); cbn beta ]
  | |- returns (set_prev _ _ _ ≫= _) _ =>
      eapply returns_bind;
      [ apply set_prev_spec; eauto using alloc_dom
      | let h := fresh "h" in let N := fresh "N" in let P := fresh "P" in
        let D := fresh "D" in let F := fresh "F" in
        intros h (P & N & D & F); cbn beta ]
  | |- returns (set_next _ _ _) _ =>
      eapply returns_mono; [apply set_next_spec; eauto using alloc_dom|]
  | |- returns (set_prev _ _ _) _ =>
      eapply returns_mono; [apply set_prev_spec; eauto using alloc_dom|]
  end.

(** ** Queues *)

Definition linked (h : links) (a b : Z) : Prop := nxt h a = Some b /\ prv h b = Some a.

(** The links lead from [a] through the nodes of [l] to [b], and back. *)
Fixpoint path (h : links) (a : Z) (l : list Z) (b : Z) : Prop :=
  match l with
  | [] => linked h a b
  | x :: l => linked h a x /\ path h x l b
  end.

Definition is_queue (h : links) (head : Z) (l : list Z) : Prop :=
  NoDup (head :: l) /\ path h head l head.

Lemma path_app h a l1 x l2 b :
  path h a (l1 ++ x :: l2) b <-> path h a l1 x /\ path h x l2 b.
Proof.
  revert a. induction l1 as [|y l1 IH]; intros a; cbn; [done|]. rewrite IH. tauto.
Qed.

Lemma path_ext h h' a l b :
  (forall p, p ∈ a :: l -> nxt h' p = nxt h p) ->
  (forall p, p ∈ l ++ [b] -> prv h' p = prv h p) ->
  path h a l b -> path h' a l b.
Proof.
  revert a. induction l as [|x l IH]; intros a Hn Hp; cbn; unfold linked.
  - rewrite Hn, Hp by set_solver. done.
  - intros [[??] ?]. rewrite Hn, Hp by set_solver. split; [done|].
    apply IH; [..|done]; intros; [apply Hn|apply Hp]; set_solver.
Qed.

(** A queue can be read from any of its nodes. *)
Lemma is_queue_rotate h head l1 x l2 :
  is_queue h head (l1 ++ x :: l2) -> is_queue h x (l2 ++ head :: l1).
Proof.
  intros [Hnd Hp]. split.
  - enough (x :: l2 ++ head :: l1 ≡ₚ head :: l1 ++ x :: l2) as ->; [done|]. solve_Permutation.
  - apply path_app in Hp as [??]. by apply path_app.
Qed.

Lemma path_first h a l b : path h a l b -> exists f, nxt h a = Some f /\ prv h f = Some a /\
  f = hd b l.
Proof. destruct l as [|x l]; cbn; unfold linked; naive_solver. Qed.

Lemma path_last h a l b : path h a l b -> exists p, prv h b = Some p /\ nxt h p = Some b /\
  p ∈ a :: l.
Proof.
  revert a. induction l as [|x l IH]; intros a Hp; cbn in Hp.
  - destruct Hp. exists a. split_and!; [done..|by left].
  - destruct Hp as [_ Hp]. destruct (IH _ Hp) as (p & ? & ? & ?). exists p.
    split_and!; [done..|by right].
Qed.

Lemma path_snoc h a l x b : path h a (l ++ [x]) b <-> path h a l x /\ linked h x b.
Proof. apply path_app. Qed.

(** Cells outside a queue do not matter to it. *)
Lemma is_queue_frame h h' head l :
  (forall p, p ∈ head :: l -> h' !! p = h !! p) ->
  is_queue h head l -> is_queue h' head l.
Proof.
  intros Hf [Hnd Hp]. split; [done|]. eapply path_ext; [..|done]; intros p Hin;
    unfold nxt, prv; rewrite Hf by set_solver; done.
Qed.

(** *** Insertion *)

(** The links after [node] was inserted right after [a], [f] being the old successor. *)
Lemma path_insert h h' a node f l b :
  NoDup (node :: a :: l) -> node <> b -> f = hd b l -> (b ∈ l -> False) ->
  (forall q, nxt h' q = if decide (q = a) then Some node
                        else if decide (q = node) then Some f else nxt h q) ->
  (forall q, prv h' q = if decide (q = f) then Some node
                        else if decide (q = node) then Some a else prv h q) ->
  path h a l b -> path h' a (node :: l) b.
Proof.
  intros Hnd Hnb -> Hb N P Hp. inversion Hnd as [|?? Hn1 Hnd1]; subst.
  inversion Hnd1 as [|?? Ha Hndl]; subst. cbn [path]. split.
  { split; [rewrite N|rewrite P]; destruct l; cbn; repeat case_decide; set_solver. }
  destruct l as [|x l]; cbn in *.
  { split; [rewrite N|rewrite P]; repeat case_decide; set_solver. }
  destruct Hp as [_ Hp]. split.
  { split; [rewrite N|rewrite P]; repeat case_decide; set_solver. }
  inversion Hndl; subst.
  apply (path_ext h); [..|done]; intros p Hin; [rewrite N|rewrite P];
    repeat case_decide; set_solver.
Qed.

(** What an operation on a queue guarantees: the queue becomes [l'], no cell
    appears or disappears, and only the cells of [touched] change. *)
Definition queue_post (h : links) (head : Z) (l' touched : list Z) (h' : links) : Prop :=
  is_queue h' head l' /\ dom h' = dom h /\ (forall q, q ∉ touched -> h' !! q = h !! q).

Lemma iqueue_add_head h node head l :
  is_queue h head l -> is_Some (h !! node) -> node ∉ head :: l ->
  returns (iqueue_add h node head) (queue_post h head (node :: l) (node :: head :: l)).
Proof.
  intros [Hnd Hp] Hal Hni. destruct (path_first _ _ _ _ Hp) as (f & Hf & Hb & ->).
  pose proof (nxt_alloc _ _ _ Hf) as Hah. pose proof (prv_alloc _ _ _ Hb) as Haf.
  assert (hd head l <> node) by (destruct l; cbn; set_solver).
  assert (head <> node) by set_solver.
  unfold iqueue_add. step_link.
  assert (nxt h0 head = Some (hd head l)) by (rewrite N; done).
  step_link. step_link.
  assert (nxt h1 head = Some (hd head l)) by (rewrite N0, decide_False by done; done).
  step_link. step_link. step_link. intros h' (N2 & P2 & D2 & F2). unfold queue_post.
  inversion Hnd; subst.
  split_and!; [|congruence|intros q Hq; rewrite F2, F1, F0, F by (destruct l; set_solver); done].
  split.
  { apply NoDup_cons. split; [set_solver|]. apply NoDup_cons. set_solver. }
  eapply (path_insert h); eauto; [apply NoDup_cons; set_solver|..];
    intros q; rewrite ?N2, ?N1, ?N0, ?N, ?P2, ?P1, ?P0, ?P; done.
Qed.

(** IQUEUE_ADD inserts right after any node of the queue; with the head as that
    node it is the list's cons. *)
Lemma iqueue_add_after h node p head l1 l2 :
  is_queue h head (l1 ++ p :: l2) -> is_Some (h !! node) -> node ∉ head :: l1 ++ p :: l2 ->
  returns (iqueue_add h node p)
    (queue_post h head (l1 ++ p :: node :: l2) (node :: head :: l1 ++ p :: l2)).
Proof.
  intros Hq Hal Hni. apply is_queue_rotate in Hq.
  eapply returns_mono; [apply (iqueue_add_head _ _ _ _ Hq Hal); set_solver|].
  intros h' (Hq' & Hd & Hf). split_and!; [|done|intros; apply Hf; set_solver].
  change (node :: l2 ++ head :: l1) with ((node :: l2) ++ head :: l1) in Hq'.
  by apply is_queue_rotate in Hq'.
Qed.

(** *** Insertion at the tail *)

Lemma iqueue_add_tail_spec h node head l :
  is_queue h head l -> is_Some (h !! node) -> node ∉ head :: l ->
  returns (iqueue_add_tail h node head) (queue_post h head (l ++ [node]) (node :: head :: l)).
Proof.
  intros Hq Hal Hni.
  assert (exists p l', is_queue h p l' /\ prv h head = Some p /\ nxt h p = Some head /\
    hd p l' = head /\ head :: l ≡ₚ p :: l' /\
    (forall h', is_queue h' p (node :: l') -> is_queue h' head (l ++ [node])))
    as (p & l' & Hq' & Hp & Hn & Hhd & Hperm & Hback).
  { destruct l as [|x l0 _] using rev_ind.
    - exists head, []. destruct Hq as [? [??]]. split_and!; try done.
    - exists x, (head :: l0). pose proof Hq as [_ [_ [??]]%path_snoc].
      apply is_queue_rotate in Hq as Hq'. split_and!; try done.
      + by rewrite Permutation_swap, (Permutation_cons_append l0 x).
      + intros h' Hh. change (node :: head :: l0) with ([node] ++ head :: l0) in Hh.
        apply is_queue_rotate in Hh. by rewrite <- app_assoc. }
  destruct Hq' as [Hnd Hpath]. pose proof (nxt_alloc _ _ _ Hn). pose proof (prv_alloc _ _ _ Hp).
  assert (p ∈ head :: l) by (rewrite Hperm; by left).
  assert (node ∉ p :: l') as [? ?]%not_elem_of_cons by by rewrite <- Hperm.
  apply not_elem_of_cons in Hni as Hni'. destruct Hni' as [? _]. clear Hperm.
  unfold iqueue_add_tail. step_link. step_link. step_link.
  assert (prv h1 head = Some p) by (rewrite P0, P, decide_False by done; done).
  step_link. step_link. step_link. intros h' (P2 & N2 & D2 & F2).
  split_and!; [|congruence|
    intros q [? Hq0]%not_elem_of_cons;
    assert (q <> p /\ q <> head) as [? ?] by (split; intros ->; apply Hq0; [done|by left]);
    by rewrite F2, F1, F0, F].
  assert (NoDup (node :: p :: l')) as Hnd' by (apply NoDup_cons; split; [set_solver|done]).
  apply NoDup_cons in Hnd as [? ?]. apply Hback. split; [by rewrite (Permutation_swap node p)|].
  apply (path_insert h h' p node head l' p); try done;
    intros q; rewrite ?N2, ?N1, ?N0, ?N, ?P2, ?P1, ?P0, ?P; done.
Qed.

(** *** Removal *)

Lemma path_remove h h' x y p l :
  NoDup (x :: y :: l) -> nxt h x = Some y -> prv h x = Some p ->
  (forall q, nxt h' q = if decide (q = x) then Some 0
                        else if decide (q = p) then Some y else nxt h q) ->
  (forall q, prv h' q = if decide (q = x) then Some 0
                        else if decide (q = y) then Some p else prv h q) ->
  path h y l x -> path h' y l y.
Proof.
  intros [Hx [Hy Hnd]%NoDup_cons]%NoDup_cons Hn Hp N P Hpath.
  apply not_elem_of_cons in Hx as [Hxy Hx].
  destruct l as [|z l0 _] using rev_ind.
  - destruct Hpath as [? Hp']. assert (p = y) as -> by congruence.
    split; [rewrite N|rewrite P]; repeat case_decide; done.
  - apply path_snoc in Hpath as [Hpath [Hz Hp']]. assert (p = z) as -> by congruence.
    apply NoDup_app in Hnd as (Hnd & Hdis & _).
    apply not_elem_of_app in Hx as [? Hxz], Hy as [? Hyz].
    assert (z ∉ l0) by (intros Hin; apply (Hdis z Hin); by left).
    rewrite list_elem_of_singleton in Hxz, Hyz.
    apply path_snoc. split.
    + apply (path_ext h); [..|done]; intros q Hin; [rewrite N|rewrite P];
        repeat case_decide; set_solver.
    + split; [rewrite N|rewrite P]; repeat case_decide; done.
Qed.

Lemma iqueue_del_first h x y l :
  is_queue h x (y :: l) ->
  returns (iqueue_del h x) (fun h' => is_queue h' y l /\ h' !! x = Some (mkHead 0 0) /\
    dom h' = dom h /\ forall q, q ∉ x :: y :: l -> h' !! q = h !! q).
Proof.
  intros [Hnd Hp]. destruct (path_last _ _ _ _ Hp) as (p & Hprv & Hnxt & Hin).
  pose proof Hp as [[Hxy Hyx] Hp']. pose proof (nxt_alloc _ _ _ Hnxt).
  pose proof (nxt_alloc _ _ _ Hxy). pose proof (prv_alloc _ _ _ Hyx).
  assert (y <> x) as Hne by (apply NoDup_cons in Hnd as [? _]; set_solver).
  assert (p <> x) as Hpx by congruence.
  assert (p ∈ y :: l) as Hin' by (apply elem_of_cons in Hin as [->|?]; done).
  unfold iqueue_del. step_link. step_link. step_link.
  assert (prv h0 x = Some p) by (rewrite P, decide_False by done; done).
  assert (nxt h0 x = Some y) by (rewrite N; done).
  do 4 step_link. step_link. intros h' (P2 & N2 & D2 & F2).
  split_and!; [split|..]; [by apply NoDup_cons in Hnd as []|..|congruence|].
  - apply (path_remove h h' x y p); try done;
      intros q; rewrite ?N2, ?N1, ?N0, ?N, ?P2, ?P1, ?P0, ?P; done.
  - assert (nxt h' x = Some 0 /\ prv h' x = Some 0) as [Ha Hb].
    { rewrite N2, N1, P2, !decide_True by done. done. }
    unfold nxt, prv in Ha, Hb. destruct (h' !! x) as [[]|]; naive_solver.
  - intros q Hq. apply not_elem_of_cons in Hq as [? Hq]. pose proof Hq as [? _]%not_elem_of_cons.
    assert (q <> p) by (intros ->; done). by rewrite F2, F1, F0, F.
Qed.

(** C36: IQUEUE_DEL of a node in the middle of a queue, first or last included, leaves the
    queue without that node, detaches the node, and writes no cell of any other queue. *)
Lemma iqueue_del_spec h x head l1 l2 :
  is_queue h head (l1 ++ x :: l2) ->
  returns (iqueue_del h x) (fun h' =>
    queue_post h head (l1 ++ l2) (head :: l1 ++ x :: l2) h' /\ h' !! x = Some (mkHead 0 0)).
Proof.
  intros Hq. apply is_queue_rotate in Hq as Hr. destruct l2 as [|y l2]; cbn in Hr.
  - eapply returns_mono; [apply (iqueue_del_first _ _ _ _ Hr)|]. intros h' (? & ? & ? & Hf).
    rewrite app_nil_r. split; [|done]. split_and!; try done. intros q Hni. apply Hf. set_solver.
  - eapply returns_mono; [apply (iqueue_del_first _ _ _ _ Hr)|]. intros h' (Hq' & ? & ? & Hf).
    apply is_queue_rotate in Hq'. split; [|done]. split_and!; try done. intros q Hni. apply Hf. set_solver.
Qed.

(** *** Emptiness, initialisation and traversal *)

Lemma iqueue_init_spec h ptr :
  is_Some (h !! ptr) -> returns (iqueue_init h ptr) (queue_post h ptr [] [ptr]).
Proof.
  intros Hal. unfold iqueue_init. step_link. step_link. intros h' (P2 & N2 & D2 & F2).
  split_and!; [split|congruence|intros q ?; rewrite F2, F by set_solver; done].
  - apply NoDup_singleton.
  - split; [rewrite N2, N|rewrite P2]; by rewrite decide_True.
Qed.

Lemma iqueue_is_empty_spec h head l :
  is_queue h head l -> iqueue_is_empty h head = Ok (bool_decide (l = [])).
Proof.
  intros [Hnd Hp]. destruct (path_first _ _ _ _ Hp) as (f & Hf & _ & ->).
  unfold iqueue_is_empty. rewrite (get_next_nxt _ _ _ Hf). cbn. f_equal.
  apply bool_decide_ext. destruct l as [|x l]; cbn; [done|].
  apply NoDup_cons in Hnd as [Hni _]. apply not_elem_of_cons in Hni as [Hni _]. done.
Qed.

Lemma iqueue_visit_path fuel h a head l :
  path h a l head -> a <> head -> head ∉ l -> (length l + 1 < fuel)%nat ->
  iqueue_visit fuel h a head = Ok (a :: l).
Proof.
  revert a fuel. induction l as [|x l IH]; intros a [|fuel] Hp Hne Hni Hlen; cbn in *; try lia;
    rewrite decide_False by done.
  - destruct Hp as [Hn _]. rewrite (get_next_nxt _ _ _ Hn). cbn.
    destruct fuel; [lia|]. cbn. by rewrite decide_True.
  - destruct Hp as [[Hn _] Hp]. rewrite (get_next_nxt _ _ _ Hn). cbn.
    apply not_elem_of_cons in Hni as [? ?]. rewrite IH; [done|done|done|done|lia].
Qed.

Lemma iqueue_foreach_spec fuel h head l :
  is_queue h head l -> (length l < fuel)%nat -> iqueue_foreach_entry fuel h head = Ok l.
Proof.
  intros [Hnd Hp] Hf. apply NoDup_cons in Hnd as [Hni _].
  unfold iqueue_foreach_entry. destruct (path_first _ _ _ _ Hp) as (f & Hn & _ & ->).
  rewrite (get_next_nxt _ _ _ Hn). cbn. destruct l as [|x l]; cbn in *.
  - destruct fuel; [lia|]. cbn. by rewrite decide_True.
  - apply not_elem_of_cons in Hni as [? ?]. apply iqueue_visit_path; [tauto|done|done|lia].
Qed.

(** ** A queue of two nodes *)

Definition demo_links : links :=
  <[100 := mkHead 1 2]> (<[1 := mkHead 2 100]> (<[2 := mkHead 100 1]> ∅)).

Lemma demo_is_queue : is_queue demo_links 100 [1; 2].
Proof. split; [by_decide|]. repeat split; vm_compute; reflexivity. Qed.

Lemma iqueue_del_spec_witness :
  is_queue demo_links 100 ([1] ++ 2 :: []) /\
  returns (iqueue_del demo_links 2) (fun h' =>
    queue_post demo_links 100 ([1] ++ []) [100; 1; 2] h' /\ h' !! 2 = Some (mkHead 0 0)).
Proof.
  split; [apply demo_is_queue|]. apply (iqueue_del_spec demo_links 2 100 [1] []), demo_is_queue.
Defined.

Lemma iqueue_foreach_spec_witness :
  is_queue demo_links 100 [1; 2] /\ iqueue_foreach_entry 3 demo_links 100 = Ok [1; 2].
Proof.
  split; [apply demo_is_queue|].
  apply (iqueue_foreach_spec 3 demo_links 100 [1; 2] demo_is_queue). by_decide.
Defined.
