(* ===== verification/IkcpBase.v ===== *)
(** * kcp_learn/ikcp.c: constants, integer helpers, the segment and its header

    The protocol constants, [_imin_], [_imax_], [_ibound_] and [_itimediff], the
    struct IKCPSEG, and the little-endian encoding of the 24-byte header.  The
    encoders have two bodies, chosen by the preprocessor for the host; [Host]
    carries the choice and what it must respect. *)

From S2P Require Import Prelude.

(** ** Constants *)

Definition IKCP_RTO_NDL : Z := 30.
Definition IKCP_RTO_MIN : Z := 100.
Definition IKCP_RTO_DEF : Z := 200.
Definition IKCP_RTO_MAX : Z := 60000.
Definition IKCP_CMD_PUSH : Z := 81.
Definition IKCP_CMD_ACK : Z := 82.
Definition IKCP_CMD_WASK : Z := 83.
Definition IKCP_CMD_WINS : Z := 84.
Definition IKCP_ASK_SEND : Z := 1.
Definition IKCP_ASK_TELL : Z := 2.
Definition IKCP_WND_SND : Z := 32.
Definition IKCP_WND_RCV : Z := 128.
Definition IKCP_MTU_DEF : Z := 1400.
Definition IKCP_INTERVAL : Z := 100.
Definition IKCP_OVERHEAD : Z := 24.
Definition IKCP_DEADLINK : Z := 20.
Definition IKCP_THRESH_INIT : Z := 2.
Definition IKCP_THRESH_MIN : Z := 2.
Definition IKCP_PROBE_INIT : Z := 7000.
Definition IKCP_PROBE_LIMIT : Z := 120000.
Definition IKCP_FASTACK_LIMIT : Z := 5.

(** ** Integer helpers *)

Definition _imin_ (a b : Z) : Z := if a <=? b then a else b.
Definition _imax_ (a b : Z) : Z := if a >=? b then a else b.
Definition _ibound_ (lower middle upper : Z) : Z := _imin_ (_imax_ lower middle) upper.
Definition _itimediff (later earlier : Z) : Z := i32 (u32 (later - earlier)).

Lemma imin_min a b : _imin_ a b = Z.min a b.
Proof. unfold _imin_. destruct (Z.leb_spec a b); lia. Qed.
Lemma imax_max a b : _imax_ a b = Z.max a b.
Proof. unfold _imax_. rewrite Z.geb_leb. destruct (Z.leb_spec b a); lia. Qed.

Lemma itimediff_i32 a b : _itimediff a b = i32 (a - b).
Proof. apply i32_u32. Qed.
Lemma itimediff_range a b : -2147483648 <= _itimediff a b < 2147483648.
Proof. apply i32_range. Qed.

(** The sign of a time difference is the sign of the distance on the circle of
    2^32 stamps, whenever the two stamps are less than half the circle apart. *)
Lemma itimediff_near a b d :
  -2147483648 <= d < 2147483648 -> u32 a = u32 (b + d) -> _itimediff a b = d.
Proof. intros Hd He. rewrite itimediff_i32. wrap_lia. Qed.

(** The tests of the code, on the offset of a stamp from a base. *)
Lemma itimediff_lt0 a b : _itimediff a b < 0 <-> 2147483648 <= u32 (a - b).
Proof. rewrite itimediff_i32. wrap_lia. Qed.
Lemma itimediff_ge0 a b : 0 <= _itimediff a b <-> u32 (a - b) < 2147483648.
Proof. rewrite itimediff_i32. wrap_lia. Qed.
Lemma itimediff_gt0 a b : 0 < _itimediff a b <-> 0 < u32 (a - b) < 2147483648.
Proof. rewrite itimediff_i32. wrap_lia. Qed.

(** ** The segment *)

(** [data] holds the bytes of the flexible array at the end of the struct. *)
Record IKCPSEG := mkSeg {
  seg_conv : Z; seg_cmd : Z; seg_frg : Z; seg_wnd : Z; seg_ts : Z; seg_sn : Z;
  seg_una : Z; seg_len : Z; seg_resendts : Z; seg_rto : Z; seg_fastack : Z;
  seg_xmit : Z; seg_data : list Z }.

#[export] Instance eta_IKCPSEG : Eta IKCPSEG := fun s =>
  mkSeg (seg_conv s) (seg_cmd s) (seg_frg s) (seg_wnd s) (seg_ts s) (seg_sn s)
        (seg_una s) (seg_len s) (seg_resendts s) (seg_rto s) (seg_fastack s)
        (seg_xmit s) (seg_data s).
#[export] Instance set_seg_conv : Settable seg_conv := ltac:(derive_setter).
#[export] Instance set_seg_cmd : Settable seg_cmd := ltac:(derive_setter).
#[export] Instance set_seg_frg : Settable seg_frg := ltac:(derive_setter).
#[export] Instance set_seg_wnd : Settable seg_wnd := ltac:(derive_setter).
#[export] Instance set_seg_ts : Settable seg_ts := ltac:(derive_setter).
#[export] Instance set_seg_sn : Settable seg_sn := ltac:(derive_setter).
#[export] Instance set_seg_una : Settable seg_una := ltac:(derive_setter).
#[export] Instance set_seg_len : Settable seg_len := ltac:(derive_setter).
#[export] Instance set_seg_resendts : Settable seg_resendts := ltac:(derive_setter).
#[export] Instance set_seg_rto : Settable seg_rto := ltac:(derive_setter).
#[export] Instance set_seg_fastack : Settable seg_fastack := ltac:(derive_setter).
#[export] Instance set_seg_xmit : Settable seg_xmit := ltac:(derive_setter).
#[export] Instance set_seg_data : Settable seg_data := ltac:(derive_setter).

#[export] Instance IKCPSEG_eq_dec : EqDecision IKCPSEG.
Proof. solve_decision. Defined.

(** memcpy of [seg->len] bytes out of [seg->data]. *)
Definition seg_bytes (s : IKCPSEG) : list Z := take (Z.to_nat (seg_len s)) (seg_data s).

(** ** Encoding and decoding *)

(** What the preprocessor and the compiler know about the host. *)
Class Host := {
  IWORDS_BIG_ENDIAN : bool;
  IWORDS_MUST_ALIGN : bool;
  host_big_endian : bool;
  (** a big-endian host is one the header recognises, or one where it falls
      back to bytewise access *)
  host_declared : host_big_endian = true -> IWORDS_BIG_ENDIAN || IWORDS_MUST_ALIGN = true }.

#[export] Instance x86_64 : Host.
Proof. refine {| IWORDS_BIG_ENDIAN := false; IWORDS_MUST_ALIGN := false; host_big_endian := false |}.
  discriminate. Defined.

(** The representation of an unsigned integer in [n] bytes, least significant first. *)
Fixpoint le_bytes (n : nat) (v : Z) : list Z :=
  match n with O => [] | S n => v mod 256 :: le_bytes n (v / 256) end.
Fixpoint le_val (l : list Z) : Z :=
  match l with [] => 0 | b :: l => b + 256 * le_val l end.

(** The object representation that memcpy moves. *)
Definition host_bytes `{Host} (n : nat) (v : Z) : list Z :=
  if host_big_endian then rev (le_bytes n v) else le_bytes n v.
Definition host_val `{Host} (l : list Z) : Z :=
  if host_big_endian then le_val (rev l) else le_val l.

(** The encoders return the bytes they store at [p]; [p] advances past them. *)
Definition ikcp_encode8u (c : Z) : list Z := [u8 c].

Definition ikcp_encode16u `{Host} (w : Z) : list Z :=
  if IWORDS_BIG_ENDIAN || IWORDS_MUST_ALIGN
  then [Z.land w 255; u8 (Z.shiftr w 8)]
  else host_bytes 2 w.

Definition ikcp_encode32u `{Host} (l : Z) : list Z :=
  if IWORDS_BIG_ENDIAN || IWORDS_MUST_ALIGN
  then [u8 (Z.land (Z.shiftr l 0) 255); u8 (Z.land (Z.shiftr l 8) 255);
        u8 (Z.land (Z.shiftr l 16) 255); u8 (Z.land (Z.shiftr l 24) 255)]
  else host_bytes 4 l.

(** The decoders return the value and the advanced pointer; a read past the end
    of the object is a fault. *)
Definition ikcp_decode8u (p : list Z) : res (Z * list Z) :=
  match p with b :: p => Ok (b, p) | _ => Err OutOfBounds end.

Definition ikcp_decode16u `{Host} (p : list Z) : res (Z * list Z) :=
  match p with
  | b0 :: b1 :: p =>
      Ok (if IWORDS_BIG_ENDIAN || IWORDS_MUST_ALIGN
          then u16 (b0 + Z.shiftl b1 8) else host_val [b0; b1], p)
  | _ => Err OutOfBounds
  end.

Definition ikcp_decode32u `{Host} (p : list Z) : res (Z * list Z) :=
  match p with
  | b0 :: b1 :: b2 :: b3 :: p =>
      Ok (if IWORDS_BIG_ENDIAN || IWORDS_MUST_ALIGN
          then
            let l := b3 in
            let l := u32 (b2 + u32 (Z.shiftl l 8)) in
            let l := u32 (b1 + u32 (Z.shiftl l 8)) in
            u32 (b0 + u32 (Z.shiftl l 8))
          else host_val [b0; b1; b2; b3], p)
  | _ => Err OutOfBounds
  end.

(** The casts of the code: [cmd] and [frg] to IUINT8, [wnd] to IUINT16. *)
Definition ikcp_encode_seg `{Host} (seg : IKCPSEG) : list Z :=
  ikcp_encode32u (seg_conv seg) ++ ikcp_encode8u (u8 (seg_cmd seg)) ++
  ikcp_encode8u (u8 (seg_frg seg)) ++ ikcp_encode16u (u16 (seg_wnd seg)) ++
  ikcp_encode32u (seg_ts seg) ++ ikcp_encode32u (seg_sn seg) ++
  ikcp_encode32u (seg_una seg) ++ ikcp_encode32u (seg_len seg).

Definition ikcp_getconv `{Host} (ptr : list Z) : res Z :=
  '(conv, _) ← ikcp_decode32u ptr; Ok conv.

(** The part of the header that ikcp_input decodes once [conv] is checked. *)
Record header := mkHeader {
  h_cmd : Z; h_frg : Z; h_wnd : Z; h_ts : Z; h_sn : Z; h_una : Z; h_len : Z }.

Definition decode_header `{Host} (data : list Z) : res (header * list Z) :=
  '(cmd, data) ← ikcp_decode8u data;
  '(frg, data) ← ikcp_decode8u data;
  '(wnd, data) ← ikcp_decode16u data;
  '(ts, data) ← ikcp_decode32u data;
  '(sn, data) ← ikcp_decode32u data;
  '(una, data) ← ikcp_decode32u data;
  '(len, data) ← ikcp_decode32u data;
  Ok (mkHeader cmd frg wnd ts sn una len, data).

(** ** Facts about the encoding *)

Lemma length_le_bytes n v : length (le_bytes n v) = n.
Proof. revert v. induction n; intros; cbn; auto. Qed.

Lemma le_bytes_byte n v : Forall is_byte (le_bytes n v).
Proof.
  revert v. induction n; intros v; cbn; constructor; [|done]. unfold is_byte.
  apply Z.mod_pos_bound. lia.
Qed.

Lemma le_val_bytes n v : le_val (le_bytes n v) = v mod 256 ^ Z.of_nat n.
Proof.
  revert v. induction n as [|n IH]; intros v; cbn [le_bytes le_val].
  - by rewrite Z.mod_1_r.
  - rewrite IH, Nat2Z.inj_succ, Z.pow_succ_r by lia.
    rewrite Z.rem_mul_r by (try apply Z.pow_pos_nonneg; lia). lia.
Qed.

Lemma le_bytes_val l : Forall is_byte l -> le_bytes (length l) (le_val l) = l.
Proof.
  induction 1 as [|b l Hb Hl IH]; cbn; [done|]. unfold is_byte in Hb. f_equal.
  - rewrite Z.mul_comm, Z_mod_plus_full. apply Z.mod_small, Hb.
  - replace ((b + 256 * le_val l) / 256) with (le_val l); [done|].
    rewrite Z.mul_comm, Z.div_add by lia. rewrite Z.div_small by lia. lia.
Qed.

Lemma byte_shift v k : 0 <= k -> u8 (Z.land (Z.shiftr v k) 255) = (v / 2 ^ k) mod 256.
Proof.
  intros Hk. rewrite Z.shiftr_div_pow2 by done. change 255 with (Z.ones 8).
  rewrite Z.land_ones by lia. apply Z.mod_mod. lia.
Qed.

Section Encoding.
Context `{H : Host}.

Lemma length_host_bytes n v : length (host_bytes n v) = n.
Proof. unfold host_bytes. destruct host_big_endian; rewrite ?length_rev; apply length_le_bytes. Qed.

Lemma host_bytes_byte n v : Forall is_byte (host_bytes n v).
Proof. unfold host_bytes. destruct host_big_endian; [apply Forall_rev|]; apply le_bytes_byte. Qed.

Lemma host_val_le_bytes n v : host_val (host_bytes n v) = le_val (le_bytes n v).
Proof. unfold host_val, host_bytes. destruct host_big_endian; [by rewrite rev_involutive|done]. Qed.

Lemma ikcp_encode16u_le w : 0 <= w < 65536 -> ikcp_encode16u w = le_bytes 2 w.
Proof.
  intros Hw. unfold ikcp_encode16u, host_bytes. destruct (_ || _) eqn:E.
  - cbn [le_bytes]. change 255 with (Z.ones 8). rewrite Z.land_ones by lia.
    rewrite Z.shiftr_div_pow2 by lia. done.
  - destruct host_big_endian eqn:B; [|done].
    rewrite (host_declared B) in E. discriminate.
Qed.

Lemma ikcp_encode32u_le l : ikcp_encode32u l = le_bytes 4 l.
Proof.
  unfold ikcp_encode32u, host_bytes. destruct (_ || _) eqn:E.
  - rewrite !byte_shift by lia. cbn [le_bytes].
    rewrite !Z.div_div by lia. rewrite Z.div_1_r. done.
  - destruct host_big_endian eqn:B; [|done].
    rewrite (host_declared B) in E. discriminate.
Qed.

Lemma ikcp_decode16u_le p l :
  Forall is_byte p -> length p = 2%nat -> ikcp_decode16u (p ++ l) = Ok (le_val p, l).
Proof.
  intros Hb Hl. destruct p as [|b0 [|b1 [|]]]; try discriminate Hl.
  rewrite !Forall_cons in Hb. unfold is_byte in Hb. cbn [ikcp_decode16u app].
  unfold host_val. destruct (_ || _) eqn:E.
  - rewrite Z.shiftl_mul_pow2 by lia. cbn [le_val]. do 2 f_equal. rewrite u16_small; lia.
  - destruct host_big_endian eqn:B; [|done].
    rewrite (host_declared B) in E. discriminate.
Qed.

Lemma ikcp_decode32u_le p l :
  Forall is_byte p -> length p = 4%nat -> ikcp_decode32u (p ++ l) = Ok (le_val p, l).
Proof.
  intros Hb Hl. destruct p as [|b0 [|b1 [|b2 [|b3 [|]]]]]; try discriminate Hl.
  rewrite !Forall_cons in Hb. unfold is_byte in Hb. cbn [ikcp_decode32u app].
  unfold host_val. destruct (_ || _) eqn:E.
  - rewrite !Z.shiftl_mul_pow2 by lia. cbn [le_val]. do 2 f_equal.
    repeat (rewrite u32_small; [|split; [|]]); lia.
  - destruct host_big_endian eqn:B; [|done].
    rewrite (host_declared B) in E. discriminate.
Qed.

Lemma ikcp_decode32u_bytes v l :
  ikcp_decode32u (le_bytes 4 v ++ l) = Ok (u32 v, l).
Proof.
  rewrite ikcp_decode32u_le by auto using le_bytes_byte, length_le_bytes.
  by rewrite le_val_bytes.
Qed.
Lemma ikcp_decode16u_bytes v l :
  ikcp_decode16u (le_bytes 2 v ++ l) = Ok (u16 v, l).
Proof.
  rewrite ikcp_decode16u_le by auto using le_bytes_byte, length_le_bytes.
  by rewrite le_val_bytes.
Qed.

(** The bytes of a header, the same on every host. *)
Definition header_bytes (s : IKCPSEG) : list Z :=
  le_bytes 4 (seg_conv s) ++ [u8 (seg_cmd s)] ++ [u8 (seg_frg s)] ++
  le_bytes 2 (u16 (seg_wnd s)) ++ le_bytes 4 (seg_ts s) ++ le_bytes 4 (seg_sn s) ++
  le_bytes 4 (seg_una s) ++ le_bytes 4 (seg_len s).

Lemma ikcp_encode_seg_bytes s : ikcp_encode_seg s = header_bytes s.
Proof.
  unfold ikcp_encode_seg, header_bytes, ikcp_encode8u. rewrite !ikcp_encode32u_le.
  rewrite ikcp_encode16u_le by apply u16_range. unfold u8. rewrite !Z.mod_mod by lia. done.
Qed.

Lemma length_header_bytes s : length (header_bytes s) = 24%nat.
Proof. unfold header_bytes. rewrite !length_app, !length_le_bytes. done. Qed.
Lemma header_bytes_byte s : Forall is_byte (header_bytes s).
Proof.
  unfold header_bytes. rewrite !Forall_app, !Forall_singleton.
  split_and!; auto using le_bytes_byte; apply u8_range.
Qed.

Definition header_of (s : IKCPSEG) : header :=
  mkHeader (u8 (seg_cmd s)) (u8 (seg_frg s)) (u16 (seg_wnd s)) (u32 (seg_ts s))
    (u32 (seg_sn s)) (u32 (seg_una s)) (u32 (seg_len s)).


Theorem decode_encode_seg s rest :
  ('(conv, data) ← ikcp_decode32u (ikcp_encode_seg s ++ rest);
   '(h, data) ← decode_header data;
   Ok (conv, h, data)) = Ok (u32 (seg_conv s), header_of s, rest).
Proof.
  rewrite ikcp_encode_seg_bytes. unfold header_bytes. rewrite <- !app_assoc.
  rewrite ikcp_decode32u_bytes. cbn [mbind res_bind]. unfold decode_header.
  cbn [app ikcp_decode8u mbind res_bind].
  rewrite ikcp_decode16u_bytes. cbn [mbind res_bind].
  repeat (rewrite ikcp_decode32u_bytes; cbn [mbind res_bind]).
  unfold header_of. by rewrite u16_small by apply u16_range.
Qed.

(** *** Decoding arbitrary bytes *)

Lemma le_val_range l : Forall is_byte l -> 0 <= le_val l < 256 ^ Z.of_nat (length l).
Proof.
  intros Hb. rewrite <- (le_bytes_val l Hb), le_val_bytes, length_le_bytes.
  apply Z.mod_pos_bound, Z.pow_pos_nonneg; lia.
Qed.

Lemma ikcp_decode8u_ok data :
  Forall is_byte data -> (1 <= length data)%nat ->
  exists v, ikcp_decode8u data = Ok (v, drop 1 data) /\ is_byte v.
Proof. intros Hb Hl. destruct Hb; cbn in *; [lia|]. eauto. Qed.
Lemma ikcp_decode16u_ok data :
  Forall is_byte data -> (2 <= length data)%nat ->
  exists v, ikcp_decode16u data = Ok (v, drop 2 data) /\ 0 <= v < 65536.
Proof.
  intros Hb Hl. pose proof (Forall_take _ 2 _ Hb) as Ht. exists (le_val (take 2 data)).
  assert (length (take 2 data) = 2%nat) as Hl2 by (rewrite length_take; lia).
  pose proof (le_val_range _ Ht) as Hr. rewrite Hl2 in Hr. split; [|done].
  rewrite <- (take_drop 2 data) at 1. by apply ikcp_decode16u_le.
Qed.
Lemma ikcp_decode32u_ok data :
  Forall is_byte data -> (4 <= length data)%nat ->
  exists v, ikcp_decode32u data = Ok (v, drop 4 data) /\ is_u32 v.
Proof.
  intros Hb Hl. pose proof (Forall_take _ 4 _ Hb) as Ht. exists (le_val (take 4 data)).
  assert (length (take 4 data) = 4%nat) as Hl4 by (rewrite length_take; lia).
  pose proof (le_val_range _ Ht) as Hr. rewrite Hl4 in Hr. split; [|done].
  rewrite <- (take_drop 4 data) at 1. by apply ikcp_decode32u_le.
Qed.

Definition header_wf (h : header) : Prop :=
  is_byte (h_cmd h) /\ is_byte (h_frg h) /\ 0 <= h_wnd h < 65536 /\ is_u32 (h_ts h) /\
  is_u32 (h_sn h) /\ is_u32 (h_una h) /\ is_u32 (h_len h).

Lemma decode_header_ok data :
  Forall is_byte data -> (20 <= length data)%nat ->
  exists h, decode_header data = Ok (h, drop 20 data) /\ header_wf h.
Proof.
  intros Hb Hl. unfold decode_header.
  assert (forall n, Forall is_byte (drop n data)) as Hd by (intros; by apply Forall_drop).
  destruct (ikcp_decode8u_ok data) as (cmd & -> & ?); [done|lia|]. cbn [mbind res_bind].
  destruct (ikcp_decode8u_ok (drop 1 data)) as (frg & -> & ?);
    [done|rewrite length_drop; lia|]. cbn [mbind res_bind]. rewrite drop_drop.
  destruct (ikcp_decode16u_ok (drop (1 + 1) data)) as (wnd & -> & ?);
    [done|rewrite length_drop; lia|]. cbn [mbind res_bind]. rewrite drop_drop.
  destruct (ikcp_decode32u_ok (drop (1 + 1 + 2) data)) as (ts & -> & ?);
    [done|rewrite length_drop; lia|]. cbn [mbind res_bind]. rewrite drop_drop.
  destruct (ikcp_decode32u_ok (drop (1 + 1 + 2 + 4) data)) as (sn & -> & ?);
    [done|rewrite length_drop; lia|]. cbn [mbind res_bind]. rewrite drop_drop.
  destruct (ikcp_decode32u_ok (drop (1 + 1 + 2 + 4 + 4) data)) as (una & -> & ?);
    [done|rewrite length_drop; lia|]. cbn [mbind res_bind]. rewrite drop_drop.
  destruct (ikcp_decode32u_ok (drop (1 + 1 + 2 + 4 + 4 + 4) data)) as (ln & -> & ?);
    [done|rewrite length_drop; lia|]. cbn [mbind res_bind]. rewrite drop_drop.
  eexists. split; [done|]. done.
Qed.
End Encoding.
