(* ===== verification/IkcpCb.v ===== *)
(** * kcp_learn/ikcp.c: the control block, its creation, release and settings

    The struct IKCPCB with the allocator it uses, ikcp_create, ikcp_release,
    ikcp_setoutput, the log test and the output call, ikcp_setmtu,
    ikcp_interval, ikcp_nodelay, ikcp_wndsize, ikcp_waitsnd, and the
    well-formedness invariant [kcp_wf] that every operation of the protocol
    preserves. *)

From S2P Require Import Prelude IkcpBase.

(** ** The control block

    A queue is the list of its segments, first to last ([Iqueue] shows that the
    macros of ikcp.h implement these lists).  [buffer] is the capacity of the
    array it points to, [None] for NULL; [acklist] is the array, a cell that was
    never written being [None]; [output] and [writelog] say whether the callback
    is set.  [nalloc] and [live] belong to the allocator: the number of requests
    made so far and the number of blocks not yet freed. *)

Record ikcpcb := mkCb {
  conv : Z; mtu : Z; mss : Z; state : Z;
  snd_una : Z; snd_nxt : Z; rcv_nxt : Z;
  ts_recent : Z; ts_lastack : Z; ssthresh : Z;
  rx_rttval : Z; rx_srtt : Z; rx_rto : Z; rx_minrto : Z;
  snd_wnd : Z; rcv_wnd : Z; rmt_wnd : Z; cwnd : Z; probe : Z;
  current : Z; interval : Z; ts_flush : Z; xmit : Z;
  nrcv_buf : Z; nsnd_buf : Z; nrcv_que : Z; nsnd_que : Z;
  nodelay : Z; updated : Z; ts_probe : Z; probe_wait : Z;
  dead_link : Z; incr : Z;
  snd_queue : list IKCPSEG; rcv_queue : list IKCPSEG;
  snd_buf : list IKCPSEG; rcv_buf : list IKCPSEG;
  acklist : option (list (option Z)); ackcount : Z; ackblock : Z;
  user : Z; buffer : option Z;
  fastresend : Z; fastlimit : Z; nocwnd : Z; stream : Z; logmask : Z;
  output : bool; writelog : bool;
  nalloc : nat; live : Z }.

#[export] Instance eta_ikcpcb : Eta ikcpcb := fun k =>
  mkCb (conv k) (mtu k) (mss k) (state k) (snd_una k) (snd_nxt k) (rcv_nxt k)
    (ts_recent k) (ts_lastack k) (ssthresh k) (rx_rttval k) (rx_srtt k) (rx_rto k)
    (rx_minrto k) (snd_wnd k) (rcv_wnd k) (rmt_wnd k) (cwnd k) (probe k) (current k)
    (interval k) (ts_flush k) (xmit k) (nrcv_buf k) (nsnd_buf k) (nrcv_que k) (nsnd_que k)
    (nodelay k) (updated k) (ts_probe k) (probe_wait k) (dead_link k) (incr k)
    (snd_queue k) (rcv_queue k) (snd_buf k) (rcv_buf k) (acklist k) (ackcount k)
    (ackblock k) (user k) (buffer k) (fastresend k) (fastlimit k) (nocwnd k) (stream k)
    (logmask k) (output k) (writelog k) (nalloc k) (live k).
#[export] Instance set_conv : Settable conv := ltac:(derive_setter).
#[export] Instance set_mtu : Settable mtu := ltac:(derive_setter).
#[export] Instance set_mss : Settable mss := ltac:(derive_setter).
#[export] Instance set_state : Settable state := ltac:(derive_setter).
#[export] Instance set_snd_una : Settable snd_una := ltac:(derive_setter).
#[export] Instance set_snd_nxt : Settable snd_nxt := ltac:(derive_setter).
#[export] Instance set_rcv_nxt : Settable rcv_nxt := ltac:(derive_setter).
#[export] Instance set_ts_recent : Settable ts_recent := ltac:(derive_setter).
#[export] Instance set_ts_lastack : Settable ts_lastack := ltac:(derive_setter).
#[export] Instance set_ssthresh : Settable ssthresh := ltac:(derive_setter).
#[export] Instance set_rx_rttval : Settable rx_rttval := ltac:(derive_setter).
#[export] Instance set_rx_srtt : Settable rx_srtt := ltac:(derive_setter).
#[export] Instance set_rx_rto : Settable rx_rto := ltac:(derive_setter).
#[export] Instance set_rx_minrto : Settable rx_minrto := ltac:(derive_setter).
#[export] Instance set_snd_wnd : Settable snd_wnd := ltac:(derive_setter).
#[export] Instance set_rcv_wnd : Settable rcv_wnd := ltac:(derive_setter).
#[export] Instance set_rmt_wnd : Settable rmt_wnd := ltac:(derive_setter).
#[export] Instance set_cwnd : Settable cwnd := ltac:(derive_setter).
#[export] Instance set_probe : Settable probe := ltac:(derive_setter).
#[export] Instance set_current : Settable current := ltac:(derive_setter).
#[export] Instance set_interval : Settable interval := ltac:(derive_setter).
#[export] Instance set_ts_flush : Settable ts_flush := ltac:(derive_setter).
#[export] Instance set_xmit : Settable xmit := ltac:(derive_setter).
#[export] Instance set_nrcv_buf : Settable nrcv_buf := ltac:(derive_setter).
#[export] Instance set_nsnd_buf : Settable nsnd_buf := ltac:(derive_setter).
#[export] Instance set_nrcv_que : Settable nrcv_que := ltac:(derive_setter).
#[export] Instance set_nsnd_que : Settable nsnd_que := ltac:(derive_setter).
#[export] Instance set_nodelay : Settable nodelay := ltac:(derive_setter).
#[export] Instance set_updated : Settable updated := ltac:(derive_setter).
#[export] Instance set_ts_probe : Settable ts_probe := ltac:(derive_setter).
#[export] Instance set_probe_wait : Settable probe_wait := ltac:(derive_setter).
#[export] Instance set_dead_link : Settable dead_link := ltac:(derive_setter).
#[export] Instance set_incr : Settable incr := ltac:(derive_setter).
#[export] Instance set_snd_queue : Settable snd_queue := ltac:(derive_setter).
#[export] Instance set_rcv_queue : Settable rcv_queue := ltac:(derive_setter).
#[export] Instance set_snd_buf : Settable snd_buf := ltac:(derive_setter).
#[export] Instance set_rcv_buf : Settable rcv_buf := ltac:(derive_setter).
#[export] Instance set_acklist : Settable acklist := ltac:(derive_setter).
#[export] Instance set_ackcount : Settable ackcount := ltac:(derive_setter).
#[export] Instance set_ackblock : Settable ackblock := ltac:(derive_setter).
#[export] Instance set_user : Settable user := ltac:(derive_setter).
#[export] Instance set_buffer : Settable buffer := ltac:(derive_setter).
#[export] Instance set_fastresend : Settable fastresend := ltac:(derive_setter).
#[export] Instance set_fastlimit : Settable fastlimit := ltac:(derive_setter).
#[export] Instance set_nocwnd : Settable nocwnd := ltac:(derive_setter).
#[export] Instance set_stream : Settable stream := ltac:(derive_setter).
#[export] Instance set_logmask : Settable logmask := ltac:(derive_setter).
#[export] Instance set_output : Settable output := ltac:(derive_setter).
#[export] Instance set_writelog : Settable writelog := ltac:(derive_setter).
#[export] Instance set_nalloc : Settable nalloc := ltac:(derive_setter).
#[export] Instance set_live : Settable live := ltac:(derive_setter).

(** ** The allocator and assert

    malloc is outside the program: [libc_malloc n size] says whether the [n]-th
    request, of [size] bytes, succeeds.  The program's own hook, installed by
    ikcp_allocator, is asked instead when it is set.  A fresh block holds bytes the
    program cannot rely on, [fresh_byte n].  [ndebug] is whether the program was
    compiled with NDEBUG, which turns assert off. *)

Record Env := mkEnv {
  libc_malloc : nat -> Z -> bool;
  ikcp_malloc_hook : option (nat -> Z -> bool);
  fresh_byte : nat -> nat -> Z;
  ndebug : bool }.
Existing Class Env.

Definition ikcp_allocator (env : Env) (new_malloc : option (nat -> Z -> bool)) : Env :=
  mkEnv (libc_malloc env) new_malloc (fresh_byte env) (ndebug env).

(** The first [size] bytes of the block of request [n] before anything is stored in it. *)
Definition fresh `{env : Env} (n : nat) (size : Z) : list Z :=
  (fun i => u8 (fresh_byte env n i)) <$> seq 0 (Z.to_nat size).

(** memcpy out of an object: reading past its end is a fault. *)
Definition c_memcpy (src : list Z) (n : Z) : res (list Z) :=
  if n <=? Z.of_nat (length src) then Ok (take (Z.to_nat n) src) else Err OutOfBounds.

Definition c_assert `{env : Env} (b : bool) : res unit :=
  if b || ndebug env then Ok tt else Err Aborted.

Definition malloc_succeeds `{env : Env} (n : nat) (size : Z) : bool :=
  match ikcp_malloc_hook env with
  | Some hook => hook n size
  | None => libc_malloc env n size
  end.

(** The assumption of the theorems that need every block: no request is refused. *)
Definition malloc_never_fails `{env : Env} : Prop := forall n size, malloc_succeeds n size = true.

(** A refused request is never mistaken for a granted one: either assert is compiled in and
    stops the program there, or no request is refused. *)
Definition refusals_stop `{env : Env} : Prop := ndebug env = false \/ malloc_never_fails.

(** Whether the block was granted, and the allocator's new state. *)
Definition ikcp_malloc `{env : Env} (kcp : ikcpcb) (size : Z) : bool * ikcpcb :=
  let ok := malloc_succeeds (nalloc kcp) size in
  (ok, kcp <| nalloc ::= S |> <| live ::= fun n => if ok then n + 1 else n |>).

Definition ikcp_free (kcp : ikcpcb) : ikcpcb := kcp <| live ::= fun n => n - 1 |>.

(** sizeof on an LP64 host *)
Definition sizeof_IKCPSEG : Z := 72.
Definition sizeof_IKCPCB : Z := 272.

Definition ikcp_segment_new `{Env} (kcp : ikcpcb) (size : Z) : bool * ikcpcb :=
  ikcp_malloc kcp (sizeof_IKCPSEG + size).
Definition ikcp_segment_delete (kcp : ikcpcb) : ikcpcb := ikcp_free kcp.

(** ** Log mask and output *)

Definition IKCP_LOG_OUTPUT : Z := 1.

Definition ikcp_canlog (kcp : ikcpcb) (mask : Z) : Z :=
  if (Z.land mask (logmask kcp) =? 0) || negb (writelog kcp) then 0 else 1.

(** The bytes between [buffer] and [ptr], and the datagrams handed to the
    output callback so far. *)
Record outbuf := mkOut { pending : list Z; sent : list (list Z) }.

Definition ikcp_output `{Env} (kcp : ikcpcb) (data : list Z) (w : outbuf) : res outbuf :=
  _ ← c_assert (output kcp);
  if decide (data = []) then Ok w
  else if output kcp then Ok (mkOut (pending w) (sent w ++ [data]))
  else Err NullDeref.

(** ** Creation and release *)

(** The values ikcp_create assigns, for an allocator that served [n] requests and has
    [blocks] blocks out. *)
Definition initial_cb (conv0 user0 : Z) (n : nat) (blocks : Z) : ikcpcb := {|
  conv := conv0; mtu := IKCP_MTU_DEF; mss := u32 (IKCP_MTU_DEF - IKCP_OVERHEAD); state := 0;
  snd_una := 0; snd_nxt := 0; rcv_nxt := 0; ts_recent := 0; ts_lastack := 0;
  ssthresh := IKCP_THRESH_INIT; rx_rttval := 0; rx_srtt := 0; rx_rto := IKCP_RTO_DEF;
  rx_minrto := IKCP_RTO_MIN; snd_wnd := IKCP_WND_SND; rcv_wnd := IKCP_WND_RCV;
  rmt_wnd := IKCP_WND_RCV; cwnd := 0; probe := 0; current := 0; interval := IKCP_INTERVAL;
  ts_flush := IKCP_INTERVAL; xmit := 0; nrcv_buf := 0; nsnd_buf := 0; nrcv_que := 0;
  nsnd_que := 0; nodelay := 0; updated := 0; ts_probe := 0; probe_wait := 0;
  dead_link := IKCP_DEADLINK; incr := 0; snd_queue := []; rcv_queue := []; snd_buf := [];
  rcv_buf := []; acklist := None; ackcount := 0; ackblock := 0; user := user0;
  buffer := None; fastresend := 0; fastlimit := IKCP_FASTACK_LIMIT; nocwnd := 0; stream := 0;
  logmask := 0; output := false; writelog := false; nalloc := n; live := blocks |}.

(** The result, [None] for NULL, and the number of blocks left allocated.  The first
    request is the control block, the second the buffer; when the second fails the
    first is given back. *)
Definition ikcp_create `{Env} (conv0 user0 : Z) : option ikcpcb * Z :=
  let '(ok, kcp) := ikcp_malloc (initial_cb conv0 user0 0 0) sizeof_IKCPCB in
  if negb ok then (None, live kcp)
  else
    let size := u32 (u32 (mtu kcp + IKCP_OVERHEAD) * 3) in
    let '(ok, kcp) := ikcp_malloc kcp size in
    if negb ok then (None, live (ikcp_free kcp))
    else
      let kcp := kcp <| buffer := Some size |> in
      (Some kcp, live kcp).

(** A loop of ikcp_release: delete the segments of a queue, first to last. *)
Fixpoint free_segments (queue : list IKCPSEG) (kcp : ikcpcb) : ikcpcb :=
  match queue with
  | [] => kcp
  | _ :: queue => free_segments queue (ikcp_segment_delete kcp)
  end.

(** The block of [kcp] itself is the last to go; [live] of the result is what
    the connection still holds. *)
Definition ikcp_release (kcp : ikcpcb) : ikcpcb :=
  let kcp := free_segments (snd_buf kcp) kcp <| snd_buf := [] |> in
  let kcp := free_segments (rcv_buf kcp) kcp <| rcv_buf := [] |> in
  let kcp := free_segments (snd_queue kcp) kcp <| snd_queue := [] |> in
  let kcp := free_segments (rcv_queue kcp) kcp <| rcv_queue := [] |> in
  let kcp := if buffer kcp is Some _ then ikcp_free kcp else kcp in
  let kcp := if acklist kcp is Some _ then ikcp_free kcp else kcp in
  let kcp := kcp <| nrcv_buf := 0 |> <| nsnd_buf := 0 |> <| nrcv_que := 0 |>
                 <| nsnd_que := 0 |> <| ackcount := 0 |> <| buffer := None |>
                 <| acklist := None |> in
  ikcp_free kcp.

Definition ikcp_setoutput (kcp : ikcpcb) (out : bool) : ikcpcb := kcp <| output := out |>.

(** ** Settings *)

Definition ikcp_setmtu `{Env} (kcp : ikcpcb) (mtu0 : Z) : Z * ikcpcb :=
  if (mtu0 <? 50) || (mtu0 <? IKCP_OVERHEAD) then (-1, kcp)
  else
    let size := u32 (u32 (mtu0 + IKCP_OVERHEAD) * 3) in
    let '(ok, kcp) := ikcp_malloc kcp size in
    if negb ok then (-2, kcp)
    else
      let kcp := kcp <| mtu := mtu0 |> in
      let kcp := kcp <| mss := u32 (mtu kcp - IKCP_OVERHEAD) |> in
      let kcp := if buffer kcp is Some _ then ikcp_free kcp else kcp in
      (0, kcp <| buffer := Some size |>).

Definition ikcp_interval (kcp : ikcpcb) (interval0 : Z) : Z * ikcpcb :=
  let i := if interval0 >? 5000 then 5000 else if interval0 <? 10 then 10 else interval0 in
  (0, kcp <| interval := i |>).

Definition ikcp_nodelay (kcp : ikcpcb) (nodelay0 interval0 resend nc : Z) : Z * ikcpcb :=
  let kcp :=
    if nodelay0 >=? 0 then
      kcp <| nodelay := nodelay0 |>
          <| rx_minrto := if nodelay0 =? 0 then IKCP_RTO_MIN else IKCP_RTO_NDL |>
    else kcp in
  let kcp :=
    if interval0 >=? 0 then
      let i := if interval0 >? 5000 then 5000 else if interval0 <? 10 then 10 else interval0 in
      kcp <| interval := i |>
    else kcp in
  let kcp := if resend >=? 0 then kcp <| fastresend := resend |> else kcp in
  let kcp := if nc >=? 0 then kcp <| nocwnd := nc |> else kcp in
  (0, kcp).

Definition ikcp_wndsize (kcp : ikcpcb) (sndwnd rcvwnd : Z) : Z * ikcpcb :=
  let kcp := if sndwnd >? 0 then kcp <| snd_wnd := sndwnd |> else kcp in
  let kcp := if rcvwnd >? 0 then kcp <| rcv_wnd := _imax_ rcvwnd IKCP_WND_RCV |> else kcp in
  (0, kcp).

Definition ikcp_waitsnd (kcp : ikcpcb) : Z := i32 (u32 (nsnd_buf kcp + nsnd_que kcp)).

(** ** Well-formedness *)

(** The distance of a segment ahead of [base], on the circle of sequence numbers. *)
Definition off (base : Z) (s : IKCPSEG) : Z := u32 (seg_sn s - base).

(** The offsets of the segments increase strictly and lie in [lo, hi). *)
Fixpoint window (base lo hi : Z) (l : list IKCPSEG) : Prop :=
  match l with
  | [] => lo <= hi
  | s :: l => lo <= off base s /\ window base (off base s + 1) hi l
  end.

(** A segment whose payload is what [len] says, of at most [m] bytes. *)
Definition seg_wf (m : Z) (s : IKCPSEG) : Prop :=
  is_u32 (seg_sn s) /\ is_byte (seg_frg s) /\ seg_len s = Z.of_nat (length (seg_data s)) /\
  seg_len s <= m /\ Forall is_byte (seg_data s).

Definition qlen (l : list IKCPSEG) : Z := Z.of_nat (length l).

(** The acks recorded in [acklist] and not yet sent. *)
Definition pack (ps : list (Z * Z)) : list (option Z) :=
  ps ≫= fun '(sn, ts) => [Some sn; Some ts].

Record ack_rep (k : ikcpcb) (ps : list (Z * Z)) : Prop := {
  ack_count : ackcount k = Z.of_nat (length ps);
  ack_range : Forall (fun '(sn, ts) => is_u32 sn /\ is_u32 ts) ps;
  ack_block : is_u32 (ackblock k);
  ack_array : match acklist k with
              | None => ps = [] /\ ackblock k = 0
              | Some l => exists rest, l = pack ps ++ rest /\ Z.of_nat (length l) = 2 * ackblock k
              end }.

(** The number of blocks the connection holds: the control block, the buffer, the ack
    array and the segments. *)
Definition blocks (k : ikcpcb) : Z :=
  1 + (if buffer k is Some _ then 1 else 0) + (if acklist k is Some _ then 1 else 0) +
  qlen (snd_queue k) + qlen (snd_buf k) + qlen (rcv_queue k) + qlen (rcv_buf k).

(** Blocks allocated and not reachable from the control block. *)
Definition leaked (k : ikcpcb) : Z := live k - blocks k.

(** Sending side: counters, the window of sequence numbers in flight, the segments. *)
Record snd_wf (k : ikcpcb) : Prop := {
  wf_snd_una : is_u32 (snd_una k);
  wf_snd_nxt : is_u32 (snd_nxt k);
  wf_inflight : u32 (snd_nxt k - snd_una k) <= 65535;
  wf_snd_buf : window (snd_una k) 0 (u32 (snd_nxt k - snd_una k)) (snd_buf k);
  wf_nsnd_buf : nsnd_buf k = qlen (snd_buf k);
  wf_nsnd_que : nsnd_que k = u32 (qlen (snd_queue k));
  wf_snd_segs : Forall (seg_wf (mss k)) (snd_buf k);
  wf_snd_queue : Forall (seg_wf (mss k)) (snd_queue k);
  wf_snd_wnd : 0 < snd_wnd k < 2147483648;
  wf_rmt_wnd : 0 <= rmt_wnd k < 65536 }.

(** Receiving side: [rcv_buf] is sorted ahead of [rcv_nxt]. *)
Record rcv_wf (k : ikcpcb) : Prop := {
  wf_rcv_nxt : is_u32 (rcv_nxt k);
  wf_rcv_wnd : 128 <= rcv_wnd k < 2147483648;
  wf_rcv_buf : window (rcv_nxt k) 0 2147483648 (rcv_buf k);
  wf_nrcv_buf : nrcv_buf k = qlen (rcv_buf k);
  wf_nrcv_que : nrcv_que k = qlen (rcv_queue k);
  wf_rcv_que_max : qlen (rcv_queue k) < 2147483648;
  wf_rcv_segs : Forall (seg_wf 2147483647) (rcv_buf k);
  wf_rcv_queue : Forall (seg_wf 2147483647) (rcv_queue k) }.

(** Sizes, timers and congestion state. *)
Record ctl_wf (k : ikcpcb) : Prop := {
  wf_mtu : 50 <= mtu k < 1073741824;
  wf_mss : mss k = mtu k - IKCP_OVERHEAD;
  wf_buffer : buffer k = Some ((mtu k + IKCP_OVERHEAD) * 3);
  wf_interval : 10 <= interval k <= 5000;
  wf_minrto : 10 <= rx_minrto k <= 100;
  wf_rto : 10 <= rx_rto k <= 60000;
  wf_cwnd : is_u32 (cwnd k);
  wf_incr : is_u32 (incr k);
  wf_ssthresh : is_u32 (ssthresh k);
  wf_current : is_u32 (current k);
  wf_ts_flush : is_u32 (ts_flush k);
  wf_probe_wait : 0 <= probe_wait k <= 120000 }.

(** [snd_una] is the first unacknowledged sequence number. *)
Definition una_tight (k : ikcpcb) : Prop :=
  match snd_buf k with
  | [] => snd_una k = snd_nxt k
  | s :: _ => seg_sn s = snd_una k
  end.

Record kcp_wf (k : ikcpcb) : Prop := {
  kcp_wf_snd :> snd_wf k;
  kcp_wf_rcv :> rcv_wf k;
  kcp_wf_ctl :> ctl_wf k;
  kcp_wf_una : una_tight k;
  kcp_wf_acks : exists ps, ack_rep k ps;
  kcp_wf_live : leaked k = 0 }.

(** ** Windows of sequence numbers *)

Lemma off_range base s : 0 <= off base s < 4294967296.
Proof. apply u32_range. Qed.

Lemma window_le base lo hi l : window base lo hi l -> lo <= hi.
Proof. revert lo. induction l as [|s l IH]; intros lo; cbn; [done|]. intros [? ?%IH]. lia. Qed.

Lemma window_weaken base lo hi lo' hi' l :
  window base lo hi l -> lo' <= lo -> hi <= hi' -> window base lo' hi' l.
Proof.
  revert lo lo'. induction l as [|s l IH]; intros lo lo'; cbn; [lia|].
  intros [? Hw] ??. split; [lia|]. eapply IH; [done|lia|lia].
Qed.

Lemma window_elem base lo hi l s : window base lo hi l -> s ∈ l -> lo <= off base s < hi.
Proof.
  revert lo. induction l as [|t l IH]; intros lo; cbn; [set_solver|].
  intros [? Hw] [->|Hin]%elem_of_cons.
  - apply window_le in Hw. lia.
  - specialize (IH _ Hw Hin). lia.
Qed.

(** Moving the base forward by [d] moves every offset back by [d]. *)
Lemma window_rebase base lo hi d l :
  window base lo hi l -> 0 <= d <= lo -> window (u32 (base + d)) (lo - d) (hi - d) l.
Proof.
  revert lo. induction l as [|s l IH]; intros lo; cbn; [lia|]. intros [Hlo Hw] Hd.
  assert (off (u32 (base + d)) s = off base s - d) as ->.
  { pose proof (off_range base s). unfold off in *. rewrite u32_sub_r.
    replace (seg_sn s - (base + d)) with ((seg_sn s - base) - d) by lia.
    rewrite <- u32_sub_l. apply u32_small. lia. }
  split; [lia|]. replace (off base s - d + 1) with (off base s + 1 - d) by lia.
  apply IH; [done|lia].
Qed.

Lemma window_snoc base lo hi l s :
  window base lo hi l -> hi <= off base s -> window base lo (off base s + 1) (l ++ [s]).
Proof.
  revert lo. induction l as [|t l IH]; intros lo; cbn.
  - pose proof (off_range base s). lia.
  - intros [? Hw] ?. split; [done|]. by apply IH.
Qed.

Lemma window_app base lo hi l1 l2 :
  window base lo hi (l1 ++ l2) <-> exists m, window base lo m l1 /\ window base m hi l2.
Proof.
  revert lo. induction l1 as [|s l1 IH]; intros lo; cbn.
  - split.
    + intros Hw. exists lo. split; [lia|done].
    + intros (m & ? & Hw). eapply window_weaken; [done|lia|lia].
  - rewrite IH. naive_solver.
Qed.

Lemma window_sublist base lo hi l l' :
  sublist l' l -> window base lo hi l -> window base lo hi l'.
Proof.
  intros Hs. revert lo. induction Hs as [|s l1 l2 Hs IH|s l1 l2 Hs IH]; intros lo; cbn.
  - done.
  - intros [? Hw]. split; [done|]. by apply IH.
  - intros [? Hw]. apply IH. eapply window_weaken; [done|lia|lia].
Qed.

(** Within a window, the sequence number determines the segment. *)
Lemma window_sn_lt base lo hi s l t :
  window base lo hi (s :: l) -> t ∈ l -> off base s < off base t.
Proof. cbn. intros [_ Hw] Ht. pose proof (window_elem _ _ _ _ _ Hw Ht). lia. Qed.

Lemma off_inj base s t :
  is_u32 (seg_sn s) -> is_u32 (seg_sn t) -> off base s = off base t -> seg_sn s = seg_sn t.
Proof. unfold off. intros. wrap_lia. Qed.

Lemma qlen_cons s l : qlen (s :: l) = qlen l + 1.
Proof. unfold qlen. cbn [length]. lia. Qed.
Lemma qlen_app l1 l2 : qlen (l1 ++ l2) = qlen l1 + qlen l2.
Proof. unfold qlen. rewrite length_app. lia. Qed.
Lemma qlen_nonneg l : 0 <= qlen l.
Proof. unfold qlen. lia. Qed.
Lemma qlen_nil : qlen [] = 0.
Proof. done. Qed.

Create Rewrite HintDb queue.
#[export] Hint Rewrite qlen_cons qlen_app qlen_nil : queue.

(** A part of the invariant that a step does not read is carried over. *)
Ltac carry_wf :=
  lazymatch goal with
  | H : snd_wf _ |- snd_wf _ => destruct H; constructor; cbn; assumption
  | H : rcv_wf _ |- rcv_wf _ => destruct H; constructor; cbn; assumption
  | H : ctl_wf _ |- ctl_wf _ => destruct H; constructor; cbn; assumption
  end.

(** ** Creation, release and settings *)

Lemma free_segments_spec l k :
  free_segments l k = k <| live := live k - qlen l |>.
Proof.
  revert k. induction l as [|s l IH]; intros k; cbn [free_segments].
  - rewrite qlen_nil, Z.sub_0_r. by destruct k.
  - rewrite IH, qlen_cons. unfold ikcp_segment_delete, ikcp_free. cbn.
    replace (live k - 1 - qlen l) with (live k - (qlen l + 1)) by lia. reflexivity.
Qed.

Section Life.
Context `{env : Env}.

(** C34: ikcp_create gives a well-formed connection, or NULL with nothing left allocated,
    whichever of its two requests fails. *)
Theorem ikcp_create_wf conv0 user0 :
  let '(r, blocks) := ikcp_create conv0 user0 in
  match r with
  | None => blocks = 0
  | Some k => kcp_wf k /\ blocks = live k /\ conv k = conv0 /\ user k = user0 /\ ack_rep k []
  end.
Proof.
  unfold ikcp_create, ikcp_malloc. cbn zeta iota.
  destruct (malloc_succeeds _ _); cbn [negb]; [|done].
  destruct (malloc_succeeds _ _); cbn [negb]; [|done].
  set (k := _ <| buffer := Some _ |>).
  assert (ack_rep k []) as Ha by (constructor; done).
  split_and!; try done. constructor; [..|by exists []|done]; try done;
    constructor; cbn; unfold is_u32, IKCP_OVERHEAD, IKCP_RTO_DEF, IKCP_RTO_MIN; try done; lia.
Qed.

(** ikcp_release gives back every block the connection holds. *)
Theorem ikcp_release_frees k : kcp_wf k -> live (ikcp_release k) = 0.
Proof.
  intros H. pose proof (kcp_wf_live _ H) as Hl. unfold leaked, blocks in Hl.
  unfold ikcp_release. rewrite !free_segments_spec. cbn.
  destruct (buffer k); cbn; destruct (acklist k); cbn; lia.
Qed.

(** A new mtu is safe when every segment that waits or is in flight fits it.  A refused
    call changes nothing but the count of requests. *)
Theorem ikcp_setmtu_wf k mtu0 :
  kcp_wf k -> mtu0 < 1073741824 ->
  (50 <= mtu0 -> Forall (seg_wf (mtu0 - IKCP_OVERHEAD)) (snd_buf k ++ snd_queue k)) ->
  let '(r, k') := ikcp_setmtu k mtu0 in
  kcp_wf k' /\ (r = 0 -> mtu k' = mtu0 /\ 50 <= mtu0) /\
  (r <> 0 -> k' = k \/ k' = k <| nalloc ::= S |> <| live ::= fun n => n |>) /\
  (r = -1 <-> mtu0 < 50).
Proof.
  intros [Hs Hr Hc Hu [ps Ha] Hl] Hm Hfit. unfold ikcp_setmtu, IKCP_OVERHEAD in *.
  destruct (Z.ltb_spec mtu0 50); cbn [orb].
  { split_and!; [|lia|by left|lia]. constructor; eauto. }
  destruct (Z.ltb_spec mtu0 24); [lia|].
  unfold ikcp_malloc. cbn zeta iota. destruct (malloc_succeeds _ _); cbn [negb].
  2:{ split_and!; [|lia|by right|lia]. destruct Ha.
      constructor; try carry_wf; try done. exists ps. by constructor. }
  specialize (Hfit ltac:(lia)). apply Forall_app in Hfit as [Hfb Hfq].
  assert (u32 (u32 (mtu0 + 24) * 3) = (mtu0 + 24) * 3) as -> by (rewrite (u32_small (mtu0 + 24)) by lia; apply u32_small; lia).
  assert (buffer k <> None) as Hb by (rewrite (wf_buffer _ Hc); done).
  cbn -[Z.mul Z.add]. destruct (buffer k) as [cap|] eqn:Eb; [|done].
  split_and!; try done; [|lia].
  assert (u32 (mtu0 - 24) = mtu0 - 24) as E by (apply u32_small; lia).
  destruct Hs, Hc, Ha. constructor; try carry_wf; try done.
  - constructor; cbn; try assumption; by rewrite E.
  - exists ps. by constructor.
  - unfold leaked, blocks in *. cbn. rewrite Eb in Hl. lia.
Qed.

Lemma clamp_interval i :
  10 <= (if i >? 5000 then 5000 else if i <? 10 then 10 else i) <= 5000.
Proof. destruct (Z.gtb_spec i 5000), (Z.ltb_spec i 10); lia. Qed.

(** The other settings keep every connection well formed, whatever their arguments. *)
Theorem ikcp_settings_wf k a b c d :
  kcp_wf k -> is_i32 a -> is_i32 b -> is_i32 c -> is_i32 d ->
  kcp_wf (snd (ikcp_interval k a)) /\ kcp_wf (snd (ikcp_wndsize k a b)) /\
  kcp_wf (snd (ikcp_nodelay k a b c d)).
Proof.
  unfold is_i32. intros [Hs Hr Hc Hu [ps Ha] Hl] ????. destruct Ha. split_and!.
  - unfold ikcp_interval. cbn [snd]. pose proof (clamp_interval a). destruct Hc.
    constructor; try carry_wf; try done; try (by constructor); exists ps; by constructor.
  - unfold ikcp_wndsize. cbn [snd]. destruct Hs, Hr.
    destruct (Z.gtb_spec a 0), (Z.gtb_spec b 0); cbn; constructor; try carry_wf; try done;
      try (exists ps; by constructor); constructor; cbn; try done;
      unfold IKCP_WND_RCV; rewrite ?imax_max; lia.
  - unfold ikcp_nodelay. cbn [snd]. destruct Hc.
    set (k1 := if a >=? 0 then _ else k).
    assert (exists x y, k1 = k <| nodelay := x |> <| rx_minrto := y |> /\ 10 <= y <= 100) as (x & y & -> & Hy).
    { subst k1. destruct (a >=? 0).
      - exists a, (if a =? 0 then 100 else 30). split; [done|]. destruct (_ =? 0); lia.
      - exists (nodelay k), (rx_minrto k). split; [by destruct k|done]. }
    set (k2 := if b >=? 0 then _ else _).
    assert (exists z, k2 = k <| nodelay := x |> <| rx_minrto := y |> <| interval := z |> /\
      10 <= z <= 5000) as (z & -> & Hz).
    { subst k2. destruct (b >=? 0).
      - eexists. split; [reflexivity|]. apply clamp_interval.
      - exists (interval k). done. }
    destruct (c >=? 0), (d >=? 0); constructor; try carry_wf; try done;
      try (exists ps; by constructor); by constructor.
Qed.
End Life.

(** ** A connection to evaluate on

    Every request for memory succeeds, and assert is on. *)

Definition demo_env : Env := mkEnv (fun _ _ => true) None (fun _ _ => 0) false.

(** ikcp_create(7, NULL), and an output callback. *)
Definition demo_cb : ikcpcb := Eval vm_compute in
  ikcp_setoutput (default (initial_cb 0 0 0 0) (fst (@ikcp_create demo_env 7 0))) true.

#[export] Instance seg_wf_dec m s : Decision (seg_wf m s).
Proof. unfold seg_wf. apply _. Defined.
#[export] Instance window_dec base lo hi l : Decision (window base lo hi l).
Proof. revert lo. induction l; intros lo; cbn; apply _. Defined.

(** Well-formedness of a connection without pending acknowledgements, by evaluation. *)
Ltac kcp_wf_by_evaluation :=
  constructor;
  [ constructor; by_decide | constructor; by_decide | constructor; by_decide | vm_compute; reflexivity
  | exists []; constructor; [by_decide|by constructor|by_decide|vm_compute; by split] | by_decide ].

Lemma demo_cb_acks : ack_rep demo_cb [].
Proof. constructor; [by_decide|by constructor|by_decide|by split]. Qed.

Lemma demo_cb_wf : kcp_wf demo_cb.
Proof. kcp_wf_by_evaluation. Qed.

Lemma ikcp_release_frees_witness : kcp_wf demo_cb /\ live (ikcp_release demo_cb) = 0.
Proof. split; [apply demo_cb_wf|]. apply ikcp_release_frees, demo_cb_wf. Defined.

Lemma ikcp_setmtu_wf_witness :
  kcp_wf demo_cb /\
  let '(r, k') := @ikcp_setmtu demo_env demo_cb 576 in
  kcp_wf k' /\ (r = 0 -> mtu k' = 576 /\ 50 <= 576) /\
  (r <> 0 -> k' = demo_cb \/ k' = demo_cb <| nalloc ::= S |> <| live ::= fun n => n |>) /\
  (r = -1 <-> 576 < 50).
Proof.
  split; [apply demo_cb_wf|].
  apply (@ikcp_setmtu_wf demo_env demo_cb 576); [apply demo_cb_wf|lia|]. intros _. constructor.
Defined.
