(* ===== verification/IkcpSnd.v ===== *)
(** * kcp_learn/ikcp.c: the sending side

    ikcp_send (fragmentation, and filling up the last segment in stream mode) and
    what an incoming header does to the segments in flight: ikcp_update_ack,
    ikcp_shrink_buf, ikcp_parse_ack, ikcp_parse_una and ikcp_parse_fastack. *)

From S2P Require Import Prelude IkcpBase IkcpCb.

(** ** ikcp_send *)

(** A segment as ikcp_send leaves it: only [len], [frg] and [data] are assigned,
    ikcp_flush assigns the rest before any of it is read. *)
Definition queued_seg (len frg : Z) (data : list Z) : IKCPSEG :=
  mkSeg 0 0 frg 0 0 0 0 len 0 0 0 0 data.

(** The user's buffer, [None] for NULL. *)
Definition advance (buf : option (list Z)) (n : Z) : option (list Z) :=
  drop (Z.to_nat n) <$> buf.

(** The payload copied out of the user's buffer into the fresh block [n]. *)
Definition copy_in `{Env} (n : nat) (buf : option (list Z)) (size : Z) : res (list Z) :=
  match buf with
  | Some b => c_memcpy b size
  | None => Ok (fresh n size)
  end.

(** Stream mode: the last queued segment is replaced by one that also holds the
    first bytes of the buffer.  The result is [inl ret] for an early return. *)
Definition send_append `{Env} (kcp : ikcpcb) (buf : option (list Z)) (len : Z)
  : res (Z * ikcpcb + ikcpcb * option (list Z) * Z) :=
  match last (snd_queue kcp) with
  | None => Ok (inr (kcp, buf, len))
  | Some old =>
      if seg_len old <? mss kcp then
        let capacity := i32 (u32 (mss kcp - seg_len old)) in
        let extend := if len <? capacity then len else capacity in
        let n := nalloc kcp in
        let '(ok, kcp) := ikcp_segment_new kcp (i32 (u32 (seg_len old + extend))) in
        _ ← c_assert ok;
        if negb ok then Ok (inl (-2, kcp))
        else
          bytes ← copy_in n buf extend;
          let seg := queued_seg (u32 (seg_len old + extend)) 0 (seg_bytes old ++ bytes) in
          let kcp := kcp <| snd_queue := removelast (snd_queue kcp) ++ [seg] |> in
          Ok (inr (ikcp_segment_delete kcp, advance buf extend, len - extend))
      else Ok (inr (kcp, buf, len))
  end.

(** The fragment loop; [todo] is the number of iterations left, [count - i]. *)
Fixpoint send_fragments `{Env} (todo : nat) (i count : Z) (kcp : ikcpcb)
    (buf : option (list Z)) (len : Z) : res (Z * ikcpcb) :=
  match todo with
  | O => Ok (0, kcp)
  | S todo =>
      let size := if len >? i32 (mss kcp) then i32 (mss kcp) else len in
      let n := nalloc kcp in
      let '(ok, kcp) := ikcp_segment_new kcp size in
      _ ← c_assert ok;
      if negb ok then Ok (-2, kcp)
      else
        bytes ← (if len >? 0 then copy_in n buf size else Ok (fresh n size));
        let frg := if stream kcp =? 0 then count - i - 1 else 0 in
        let seg := queued_seg (u32 size) frg bytes in
        let kcp := kcp <| snd_queue ::= fun q => q ++ [seg] |>
                       <| nsnd_que ::= fun n => u32 (n + 1) |> in
        send_fragments todo (i + 1) count kcp (advance buf size) (len - size)
  end.

(** The number of fragments, computed in [unsigned int]. *)
Definition send_count (kcp : ikcpcb) (len : Z) : res Z :=
  if len <=? i32 (mss kcp) then Ok 1
  else n ← c_divu (u32 (u32 (len + mss kcp) - 1)) (mss kcp); Ok (i32 n).

Definition send_message `{Env} (kcp : ikcpcb) (buf : option (list Z)) (len : Z)
  : res (Z * ikcpcb) :=
  count ← send_count kcp len;
  if count >=? IKCP_WND_RCV then Ok (-2, kcp)
  else
    let count := if count =? 0 then 1 else count in
    send_fragments (Z.to_nat count) 0 count kcp buf len.

Definition ikcp_send `{Env} (kcp : ikcpcb) (buf : option (list Z)) (len : Z)
  : res (Z * ikcpcb) :=
  _ ← c_assert (0 <? mss kcp);
  if len <? 0 then Ok (-1, kcp)
  else if negb (stream kcp =? 0) then
    r ← send_append kcp buf len;
    match r with
    | inl ret => Ok ret
    | inr (kcp, buf, len) =>
        if len <=? 0 then Ok (0, kcp) else send_message kcp buf len
    end
  else send_message kcp buf len.

(** ** What acknowledgements do *)

(** Signed arithmetic is the two's complement of the host; [update_ack_exact]
    shows where it does not wrap. *)
Definition ikcp_update_ack (kcp : ikcpcb) (rtt : Z) : ikcpcb :=
  let kcp :=
    if rx_srtt kcp =? 0 then
      kcp <| rx_srtt := rtt |> <| rx_rttval := Z.quot rtt 2 |>
    else
      let delta := i32 (rtt - rx_srtt kcp) in
      let delta := if delta <? 0 then - delta else delta in
      let kcp := kcp <| rx_rttval := i32 (Z.quot (i32 (3 * rx_rttval kcp) + delta) 4) |> in
      let kcp := kcp <| rx_srtt := Z.quot (i32 (i32 (7 * rx_srtt kcp) + rtt)) 8 |> in
      if rx_srtt kcp <? 1 then kcp <| rx_srtt := 1 |> else kcp in
  let rto := i32 (u32 (rx_srtt kcp + _imax_ (interval kcp) (u32 (i32 (4 * rx_rttval kcp))))) in
  kcp <| rx_rto := i32 (_ibound_ (u32 (rx_minrto kcp)) (u32 rto) IKCP_RTO_MAX) |>.

Definition ikcp_shrink_buf (kcp : ikcpcb) : ikcpcb :=
  match snd_buf kcp with
  | seg :: _ => kcp <| snd_una := seg_sn seg |>
  | [] => kcp <| snd_una := snd_nxt kcp |>
  end.

(** The loop of ikcp_parse_ack: the segments left, and whether one was deleted. *)
Fixpoint parse_ack_loop (sn : Z) (l : list IKCPSEG) : list IKCPSEG * bool :=
  match l with
  | [] => ([], false)
  | seg :: next =>
      if sn =? seg_sn seg then (next, true)
      else if _itimediff sn (seg_sn seg) <? 0 then (l, false)
      else let '(l', b) := parse_ack_loop sn next in (seg :: l', b)
  end.

Definition ikcp_parse_ack (kcp : ikcpcb) (sn : Z) : ikcpcb :=
  if (_itimediff sn (snd_una kcp) <? 0) || (_itimediff sn (snd_nxt kcp) >=? 0) then kcp
  else
    let '(l, found) := parse_ack_loop sn (snd_buf kcp) in
    if found then
      ikcp_segment_delete (kcp <| snd_buf := l |>) <| nsnd_buf ::= fun n => u32 (n - 1) |>
    else kcp.

(** The loop of ikcp_parse_una over the segments [l] of [snd_buf]. *)
Fixpoint parse_una_loop (una : Z) (l : list IKCPSEG) (kcp : ikcpcb) : ikcpcb :=
  match l with
  | [] => kcp
  | seg :: next =>
      if _itimediff una (seg_sn seg) >? 0 then
        parse_una_loop una next
          (ikcp_segment_delete (kcp <| snd_buf := next |>) <| nsnd_buf ::= fun n => u32 (n - 1) |>)
      else kcp
  end.

Definition ikcp_parse_una (kcp : ikcpcb) (una : Z) : ikcpcb :=
  parse_una_loop una (snd_buf kcp) kcp.

(** The loop of ikcp_parse_fastack (IKCP_FASTACK_CONSERVE is not defined). *)
Fixpoint parse_fastack_loop (sn : Z) (l : list IKCPSEG) : list IKCPSEG :=
  match l with
  | [] => []
  | seg :: next =>
      if _itimediff sn (seg_sn seg) <? 0 then l
      else if negb (sn =? seg_sn seg) then
        seg <| seg_fastack ::= fun n => u32 (n + 1) |> :: parse_fastack_loop sn next
      else seg :: parse_fastack_loop sn next
  end.

Definition ikcp_parse_fastack (kcp : ikcpcb) (sn ts : Z) : ikcpcb :=
  if (_itimediff sn (snd_una kcp) <? 0) || (_itimediff sn (snd_nxt kcp) >=? 0) then kcp
  else kcp <| snd_buf ::= parse_fastack_loop sn |>.

(** ** The segments in flight *)

Ltac unwf H := destruct H as [Huna Hnxt Hfl Hbuf Hnb Hnq Hsegs Hqueue Hsw Hrw].

(** The fields a step of an acknowledgement leaves alone. *)
Definition same_but_snd_buf (k k' : ikcpcb) : Prop :=
  k' = k <| snd_buf := snd_buf k' |> <| nsnd_buf := nsnd_buf k' |> <| live := live k' |>.

(** Dropping segments from [snd_buf] keeps the sending side well formed. *)
Lemma snd_wf_sublist k k' :
  snd_wf k -> same_but_snd_buf k k' -> sublist (snd_buf k') (snd_buf k) ->
  nsnd_buf k' = qlen (snd_buf k') -> snd_wf k'.
Proof.
  intros H Hk Hs En. unwf H.
  assert (Forall (seg_wf (mss k)) (snd_buf k')) as Hsegs'.
  { eapply Forall_forall. intros s Hin. rewrite Forall_forall in Hsegs. apply Hsegs.
    apply (elem_of_submseteq (snd_buf k')); [done|]. by apply sublist_submseteq. }
  assert (window (snd_una k) 0 (u32 (snd_nxt k - snd_una k)) (snd_buf k')) as Hbuf'
    by by eapply window_sublist.
  rewrite Hk. constructor; cbn; assumption.
Qed.

Lemma ikcp_shrink_buf_wf k : snd_wf k -> snd_wf (ikcp_shrink_buf k) /\ una_tight (ikcp_shrink_buf k).
Proof.
  intros H. unwf H. unfold ikcp_shrink_buf, una_tight. destruct (snd_buf k) as [|s l] eqn:E.
  - cbn. rewrite E. split; [|done]. constructor; cbn; rewrite ?E, ?Z.sub_diag; done.
  - cbn. rewrite E. split; [|done]. pose proof Hbuf as [Ho Hw].
    apply Forall_cons in Hsegs as Hs. destruct Hs as [(Hsn & _) _].
    assert (u32 (snd_una k + off (snd_una k) s) = seg_sn s) as Hb by (unfold off; wrap_lia).
    pose proof (window_rebase (snd_una k) (off (snd_una k) s) (u32 (snd_nxt k - snd_una k))
      (off (snd_una k) s) (s :: l)) as Hr.
    rewrite Hb in Hr. pose proof (off_range (snd_una k) s) as Hor.
    assert (off (snd_una k) s <= u32 (snd_nxt k - snd_una k)) as Hle
      by (apply window_le in Hw; lia).
    assert (u32 (snd_nxt k - seg_sn s) = u32 (snd_nxt k - snd_una k) - off (snd_una k) s) as Hd.
    { unfold off in *. wrap_lia. }
    constructor; cbn; rewrite ?E, ?Hd; try done; [lia|].
    rewrite Z.sub_diag in Hr. apply Hr; [|lia]. cbn. split; [lia|done].
Qed.

Lemma parse_una_loop_eq una l k :
  parse_una_loop una l k =
    match l with
    | s :: l' =>
        if _itimediff una (seg_sn s) >? 0 then
          parse_una_loop una l'
            (ikcp_segment_delete (k <| snd_buf := l' |>) <| nsnd_buf ::= fun n => u32 (n - 1) |>)
        else k
    | [] => k
    end.
Proof. by destruct l. Qed.

(** What [una] acknowledges: a prefix of the segments in flight. *)
Fixpoint after_una (una : Z) (l : list IKCPSEG) : list IKCPSEG :=
  match l with
  | [] => []
  | s :: l' => if _itimediff una (seg_sn s) >? 0 then after_una una l' else l
  end.

Lemma after_una_suffix una l : exists d, l = d ++ after_una una l.
Proof.
  induction l as [|s l [d IH]]; cbn; [by exists []|]. destruct (_ >? 0); [|by exists []].
  exists (s :: d). cbn. by f_equal.
Qed.

Lemma parse_una_loop_spec una l k :
  snd_buf k = l -> nsnd_buf k = qlen l -> qlen l < 4294967296 ->
  let k' := parse_una_loop una l k in
  snd_buf k' = after_una una l /\ nsnd_buf k' = qlen (after_una una l) /\
  live k' = live k - (qlen l - qlen (after_una una l)) /\ same_but_snd_buf k k'.
Proof.
  revert k. induction l as [|s l IH]; intros k Hb Hn Hl; cbn [parse_una_loop after_una].
  - rewrite Hb, Hn. split_and!; [done|done|lia|]. unfold same_but_snd_buf. by destruct k.
  - destruct (_ >? 0).
    + autorewrite with queue in *. pose proof (qlen_nonneg l).
      match goal with |- context [parse_una_loop una l ?k1] => specialize (IH k1) end.
      cbn in IH. destruct IH as (H1 & H2 & H3 & H4); [done| |lia|].
      { rewrite Hn, Z.add_simpl_r. apply u32_small. lia. }
      cbn. rewrite H1, H2, H3. split_and!; [done|done|lia|].
      unfold same_but_snd_buf in *. rewrite H4 at 1. reflexivity.
    + rewrite Hb, Hn. split_and!; [done|done|lia|]. unfold same_but_snd_buf. by destruct k.
Qed.

Lemma snd_buf_short k : snd_wf k -> qlen (snd_buf k) <= 65535.
Proof.
  intros H. unwf H.
  assert (forall base lo hi l, window base lo hi l -> qlen l <= hi - lo) as Hq.
  { intros base lo hi l. revert lo. induction l as [|s l IH]; intros lo; cbn.
    - rewrite qlen_nil. lia.
    - intros [? ?%IH]. rewrite qlen_cons. lia. }
  apply Hq in Hbuf. lia.
Qed.

(** With [snd_una] the first number in flight, the prefix is a filter. *)
Lemma itimediff_off base s sn :
  is_u32 (seg_sn s) -> off base s <= 65535 -> u32 (sn - base) < 2147483648 ->
  _itimediff sn (seg_sn s) = u32 (sn - base) - off base s.
Proof.
  intros Hs Ho Hp. pose proof (off_range base s). pose proof (u32_range (sn - base)).
  apply itimediff_near; [lia|]. unfold off in *. wrap_lia.
Qed.

Lemma seg_off_small k s : snd_wf k -> s ∈ snd_buf k ->
  is_u32 (seg_sn s) /\ off (snd_una k) s < u32 (snd_nxt k - snd_una k) <= 65535.
Proof.
  intros H Hin. unwf H. rewrite Forall_forall in Hsegs. destruct (Hsegs s Hin) as [? _].
  pose proof (window_elem _ _ _ _ _ Hbuf Hin). split; [done|lia].
Qed.

Lemma after_una_filter base lo hi una l :
  window base lo hi l -> hi <= 65536 -> Forall (fun s => is_u32 (seg_sn s)) l ->
  u32 (una - base) < 2147483648 ->
  after_una una l = filter (fun s => _itimediff una (seg_sn s) <= 0) l.
Proof.
  intros Hw Hhi Hsn Hu. revert lo Hw. induction Hsn as [|s l Hs Hsn IH]; intros lo Hw; [done|].
  pose proof Hw as [Ho Hw']. pose proof (window_le _ _ _ _ Hw') as Hle. cbn [after_una].
  rewrite filter_cons. pose proof (itimediff_off base s una Hs ltac:(lia) Hu) as Hd.
  destruct (Z.gtb_spec (_itimediff una (seg_sn s)) 0) as [Hg|Hg].
  - rewrite decide_False by lia. by eapply IH.
  - rewrite decide_True by lia. f_equal. symmetry. apply filter_keep. intros t Ht.
    pose proof (window_elem _ _ _ _ _ Hw' Ht). rewrite Forall_forall in Hsn.
    rewrite (itimediff_off base) by (try apply Hsn; try done; lia). lia.
Qed.

(** A cumulative acknowledgement [una] removes from the segments in flight exactly
    those before [una]; a stale one removes none. *)
Theorem parse_una_exact k una :
  snd_wf k -> una_tight k ->
  snd_buf (ikcp_parse_una k una) =
    if _itimediff una (snd_una k) <? 0 then snd_buf k
    else filter (fun s => _itimediff una (seg_sn s) <= 0) (snd_buf k).
Proof.
  intros H Ht. pose proof (snd_buf_short _ H) as Hl.
  destruct (parse_una_loop_spec una (snd_buf k) k) as (H1 & _);
    [done|apply H|lia|]. unfold ikcp_parse_una. rewrite H1. unwf H.
  destruct (Z.ltb_spec (_itimediff una (snd_una k)) 0) as [Hs|Hs].
  - unfold una_tight in Ht. destruct (snd_buf k) as [|s l]; [done|]. cbn. rewrite Ht.
    destruct (Z.gtb_spec (_itimediff una (snd_una k)) 0); [lia|done].
  - apply itimediff_ge0 in Hs. eapply (after_una_filter (snd_una k)); [done|lia| |done].
    eapply Forall_impl; [done|]. by intros s [? _].
Qed.

(** *** ikcp_parse_ack *)

Lemma in_flight_off k sn :
  snd_wf k ->
  (_itimediff sn (snd_una k) <? 0) || (_itimediff sn (snd_nxt k) >=? 0) = false <->
  u32 (sn - snd_una k) < u32 (snd_nxt k - snd_una k).
Proof.
  intros H. unwf H. rewrite orb_false_iff, Z.ltb_ge, Z.geb_leb, Z.leb_gt.
  rewrite itimediff_ge0, itimediff_lt0.
  assert (u32 (sn - snd_nxt k) =
    u32 (u32 (sn - snd_una k) - u32 (snd_nxt k - snd_una k))) as ->.
  { rewrite u32_sub_l, u32_sub_r. f_equal. lia. }
  pose proof (u32_range (sn - snd_una k)). pose proof (u32_range (snd_nxt k - snd_una k)).
  set (p := u32 (sn - _)) in *. set (w := u32 (snd_nxt k - _)) in *. wrap_lia.
Qed.

Lemma parse_ack_loop_filter base lo hi sn l :
  window base lo hi l -> hi <= 65536 -> Forall (fun s => is_u32 (seg_sn s)) l ->
  u32 (sn - base) < 2147483648 -> is_u32 sn ->
  let '(l', found) := parse_ack_loop sn l in
  l' = filter (fun s => seg_sn s <> sn) l /\ sublist l' l /\
  qlen l' = qlen l - (if found then 1 else 0).
Proof.
  intros Hw Hhi Hsn Hp Hsn'. revert lo Hw. induction Hsn as [|s l Hs Hsn IH]; intros lo Hw; [done|].
  pose proof Hw as [Ho Hw']. pose proof (window_le _ _ _ _ Hw') as Hle. cbn [parse_ack_loop].
  pose proof (itimediff_off base s sn Hs ltac:(lia) Hp) as Hd. rewrite Forall_forall in Hsn.
  rewrite filter_cons. destruct (Z.eqb_spec sn (seg_sn s)) as [He|Hne].
  - rewrite decide_False by congruence. autorewrite with queue. split_and!; [|by constructor|lia].
    symmetry. apply filter_keep. intros t Ht Hc.
    pose proof (window_elem _ _ _ _ _ Hw' Ht). unfold off in *. rewrite Hc, He in *. lia.
  - rewrite decide_True by congruence. destruct (Z.ltb_spec (_itimediff sn (seg_sn s)) 0) as [Hl|Hl].
    + split_and!; [|done|lia]. f_equal. symmetry. apply filter_keep. intros t Ht Hc.
      pose proof (window_elem _ _ _ _ _ Hw' Ht). unfold off in *. rewrite Hc in *. lia.
    + specialize (IH _ Hw'). destruct (parse_ack_loop sn l) as [l' b].
      destruct IH as (-> & Hsub & Hq). autorewrite with queue.
      split_and!; [done|by constructor|rewrite Hq; lia].
Qed.

(** A selective acknowledgement removes exactly the segment it names. *)
Theorem parse_ack_exact k sn :
  snd_wf k -> is_u32 sn ->
  snd_buf (ikcp_parse_ack k sn) = filter (fun s => seg_sn s <> sn) (snd_buf k).
Proof.
  intros H Hsn. unfold ikcp_parse_ack. pose proof (in_flight_off k sn H) as Hf.
  destruct (_ || _) eqn:E.
  - symmetry. apply filter_keep. intros s Hin Hs.
    destruct (seg_off_small _ _ H Hin) as [_ Ho]. unfold off in Ho. rewrite Hs in Ho.
      discriminate (proj2 Hf (proj1 Ho)).
  - destruct Hf as [Hf _]. specialize (Hf eq_refl). unwf H.
    pose proof (parse_ack_loop_filter _ _ _ sn _ Hbuf ltac:(lia)) as Hspec.
    destruct (parse_ack_loop sn (snd_buf k)) as [l found] eqn:El.
    destruct Hspec as (Hfil & Hsub & Hq); [|lia|done|].
    { eapply Forall_impl; [done|]. by intros s [? _]. }
    destruct found; cbn; [done|]. symmetry. apply filter_keep.
    intros s Hin Hs.
    assert (length (filter (fun s => seg_sn s <> sn) (snd_buf k)) < length (snd_buf k))%nat
      by by (eapply length_filter_lt; [done|]; intros Hc; apply Hc).
    unfold qlen in Hq. rewrite Hfil in Hq. lia.
Qed.

(** Everything an incoming acknowledgement must keep, except that [snd_una] is
    brought forward by the ikcp_shrink_buf that follows. *)
Definition acks_wf (k k' : ikcpcb) : Prop :=
  (snd_wf k -> snd_wf k') /\ (rcv_wf k -> rcv_wf k') /\ (ctl_wf k -> ctl_wf k') /\
  (forall ps, ack_rep k ps -> ack_rep k' ps) /\ leaked k' = leaked k.

Lemma same_but_snd_buf_wf k k' :
  snd_wf k -> same_but_snd_buf k k' -> sublist (snd_buf k') (snd_buf k) ->
  nsnd_buf k' = qlen (snd_buf k') ->
  live k' = live k - (qlen (snd_buf k) - qlen (snd_buf k')) -> acks_wf k k'.
Proof.
  intros H Hk Hs Hn Hlv. split_and!.
  - intros _. by eapply snd_wf_sublist.
  - rewrite Hk. intros. carry_wf.
  - rewrite Hk. intros. carry_wf.
  - rewrite Hk. intros ps []. by constructor.
  - unfold leaked, blocks. rewrite Hlv, Hk. cbn. lia.
Qed.

Lemma same_but_snd_buf_refl k : same_but_snd_buf k k.
Proof. unfold same_but_snd_buf. by destruct k. Qed.

Lemma ikcp_parse_una_wf k una : snd_wf k -> acks_wf k (ikcp_parse_una k una).
Proof.
  intros H. pose proof (snd_buf_short _ H) as Hl.
  destruct (parse_una_loop_spec una (snd_buf k) k) as (H1 & H2 & H3 & H4);
    [done|apply H|lia|]. change (parse_una_loop una (snd_buf k) k) with (ikcp_parse_una k una) in *.
  apply same_but_snd_buf_wf; [done|done| |by rewrite H1|by rewrite H1].
  rewrite H1. destruct (after_una_suffix una (snd_buf k)) as [d E]. rewrite E at 2.
  by apply sublist_inserts_l.
Qed.

Lemma ikcp_parse_ack_wf k sn : snd_wf k -> is_u32 sn -> acks_wf k (ikcp_parse_ack k sn).
Proof.
  intros H Hsn. pose proof (snd_buf_short _ H) as Hl. pose proof (in_flight_off k sn H) as Hf.
  assert (acks_wf k k) by done.
  unfold ikcp_parse_ack. destruct (_ || _); [done|]. destruct Hf as [Hf _]. specialize (Hf eq_refl).
  pose proof H as H'. unwf H'.
  pose proof (parse_ack_loop_filter _ _ _ sn _ Hbuf ltac:(lia)) as Hspec.
  destruct (parse_ack_loop sn (snd_buf k)) as [l found].
  destruct Hspec as (_ & Hsub & Hq); [|lia|done|].
  { eapply Forall_impl; [done|]. by intros s [? _]. }
  destruct found; [|done]. pose proof (qlen_nonneg l).
  apply same_but_snd_buf_wf; cbn; [done|by destruct k|done|rewrite Hnb, u32_small; lia|lia].
Qed.

(** *** ikcp_parse_fastack *)

Definition bump (s : IKCPSEG) : IKCPSEG := s <| seg_fastack ::= fun n => u32 (n + 1) |>.

Lemma parse_fastack_loop_map base lo hi sn l :
  window base lo hi l -> hi <= 65536 -> Forall (fun s => is_u32 (seg_sn s)) l ->
  u32 (sn - base) < 2147483648 -> is_u32 sn ->
  parse_fastack_loop sn l =
    (fun s => if 0 <? _itimediff sn (seg_sn s) then bump s else s) <$> l.
Proof.
  intros Hw Hhi Hsn Hp Hsn'. revert lo Hw. induction Hsn as [|s l Hs Hsn IH]; intros lo Hw; [done|].
  pose proof Hw as [Ho Hw']. pose proof (window_le _ _ _ _ Hw') as Hle.
  cbn [parse_fastack_loop fmap list_fmap].
  pose proof (itimediff_off base s sn Hs ltac:(lia) Hp) as Hd. rewrite Forall_forall in Hsn.
  destruct (Z.ltb_spec (_itimediff sn (seg_sn s)) 0) as [Hl|Hl].
  - destruct (Z.ltb_spec 0 (_itimediff sn (seg_sn s))) as [?|_]; [lia|]. f_equal. symmetry.
    rewrite <- (list_fmap_id l) at 2. apply list_fmap_ext. intros i t Ht%list_elem_of_lookup_2.
    pose proof (window_elem _ _ _ _ _ Hw' Ht).
    rewrite (itimediff_off base) by (try apply Hsn; try done; lia).
    destruct (Z.ltb_spec 0 (u32 (sn - base) - off base t)); [lia|done].
  - rewrite (IH _ Hw').
    destruct (Z.eqb_spec sn (seg_sn s)) as [He|Hne]; cbn [negb].
    + rewrite <- He, itimediff_i32, Z.sub_diag. done.
    + assert (0 < _itimediff sn (seg_sn s)) as Hg.
      { assert (_itimediff sn (seg_sn s) <> 0); [|lia]. rewrite itimediff_i32.
        unfold is_u32 in *. intros ?. apply Hne. wrap_lia. }
      by destruct (Z.ltb_spec 0 (_itimediff sn (seg_sn s))); [|lia].
Qed.

(** Fast acknowledgement counts, for the largest [sn] acknowledged by a datagram,
    every segment in flight before [sn], and changes nothing else. *)
Theorem parse_fastack_exact k sn ts :
  snd_wf k -> is_u32 sn ->
  ikcp_parse_fastack k sn ts =
    if u32 (sn - snd_una k) <? u32 (snd_nxt k - snd_una k)
    then k <| snd_buf :=
           (fun s => if 0 <? _itimediff sn (seg_sn s) then bump s else s) <$> snd_buf k |>
    else k.
Proof.
  intros H Hsn. unfold ikcp_parse_fastack. pose proof (in_flight_off k sn H) as Hf.
  destruct (_ || _) eqn:E.
  - destruct (Z.ltb_spec (u32 (sn - snd_una k)) (u32 (snd_nxt k - snd_una k))) as [Hlt|]; [|done].
    discriminate (proj2 Hf Hlt).
  - destruct Hf as [Hf _]. specialize (Hf eq_refl).
    destruct (Z.ltb_spec (u32 (sn - snd_una k)) (u32 (snd_nxt k - snd_una k))); [|lia].
    unwf H. unfold upd, set_snd_buf.
    rewrite (parse_fastack_loop_map _ _ _ _ _ Hbuf); [done|lia| |lia|done].
    eapply Forall_impl; [done|]. by intros s [? _].
Qed.

Lemma window_map base lo hi f l :
  (forall s, seg_sn (f s) = seg_sn s) -> window base lo hi l -> window base lo hi (f <$> l).
Proof.
  intros Hf. revert lo. induction l as [|s l IH]; intros lo; cbn; [done|].
  unfold off. rewrite Hf. intros [? ?]. auto.
Qed.

Lemma ikcp_parse_fastack_wf k sn ts :
  snd_wf k -> is_u32 sn -> acks_wf k (ikcp_parse_fastack k sn ts) /\
  (una_tight k -> una_tight (ikcp_parse_fastack k sn ts)).
Proof.
  intros H Hsn. rewrite (parse_fastack_exact k sn ts H Hsn). destruct (_ <? _); [|done].
  set (f := fun s => if _ : bool then bump s else s).
  assert (forall s, seg_sn (f s) = seg_sn s) as Hf by (intros s; unfold f; by destruct (_ <? _)).
  split; [split_and!|].
  - intros _. unwf H. constructor; cbn; try done.
    + by apply window_map.
    + unfold qlen. by rewrite length_fmap.
    + apply Forall_fmap. eapply Forall_impl; [done|]. intros s. unfold f. cbn.
      by destruct (_ <? _).
  - intros. carry_wf.
  - intros. carry_wf.
  - intros ps []. by constructor.
  - unfold leaked, blocks, qlen. cbn. rewrite length_fmap. done.
  - unfold una_tight. cbn. destruct (snd_buf k); cbn; [done|]. by rewrite Hf.
Qed.

(** *** ikcp_update_ack *)

(** Whatever the measured round trip and even if the estimators wrap, the
    retransmission timeout stays between the configured minimum and IKCP_RTO_MAX. *)
Theorem update_ack_rto_bounds k rtt :
  0 <= rx_minrto k <= IKCP_RTO_MAX ->
  rx_minrto k <= rx_rto (ikcp_update_ack k rtt) <= IKCP_RTO_MAX.
Proof.
  intros Hm. unfold ikcp_update_ack. cbn [rx_rto upd set_rx_rto].
  set (k1 := if rx_srtt k =? 0 then _ else _).
  assert (rx_minrto k1 = rx_minrto k) as ->.
  { subst k1. cbn. repeat case_match; done. }
  set (r := u32 (i32 _)). pose proof (u32_range (i32 (u32 (rx_srtt k1 +
    _imax_ (interval k1) (u32 (i32 (4 * rx_rttval k1))))))) as Hr. fold r in Hr.
  unfold _ibound_, IKCP_RTO_MAX in *. rewrite imin_min, imax_max, (u32_small (rx_minrto k)) by lia.
  rewrite i32_small; lia.
Qed.

(** The estimators: Jacobson's recurrences, in integers, with the smoothed round trip kept at 1
    or more after the first measurement. *)
Definition srtt_spec (srtt rtt : Z) : Z :=
  if srtt =? 0 then rtt else Z.max 1 ((7 * srtt + rtt) / 8).
Definition rttval_spec (srtt rttval rtt : Z) : Z :=
  if srtt =? 0 then rtt / 2 else (3 * rttval + Z.abs (rtt - srtt)) / 4.

(** Below 2^28 ms (three days) nothing wraps: the estimators are the recurrences,
    they stay below the bound, and the timeout is the clamped sum. *)
Theorem update_ack_exact k rtt :
  0 <= rtt < 268435456 -> 0 <= rx_srtt k < 268435456 -> 0 <= rx_rttval k < 268435456 ->
  0 <= interval k <= 5000 -> 0 <= rx_minrto k <= IKCP_RTO_MAX ->
  let k' := ikcp_update_ack k rtt in
  rx_srtt k' = srtt_spec (rx_srtt k) rtt /\
  rx_rttval k' = rttval_spec (rx_srtt k) (rx_rttval k) rtt /\
  0 <= rx_srtt k' < 268435456 /\ 0 <= rx_rttval k' < 268435456 /\
  rx_rto k' = Z.min (Z.max (rx_minrto k) (rx_srtt k' + Z.max (interval k) (4 * rx_rttval k')))
                IKCP_RTO_MAX.
Proof.
  intros Hrtt Hs Hv Hi Hm. unfold ikcp_update_ack.
  set (k1 := if rx_srtt k =? 0 then _ else _).
  assert (rx_minrto k1 = rx_minrto k /\ interval k1 = interval k) as [Em Ei].
  { subst k1. cbn. repeat case_match; done. }
  assert (rx_srtt k1 = srtt_spec (rx_srtt k) rtt /\
    rx_rttval k1 = rttval_spec (rx_srtt k) (rx_rttval k) rtt /\
    0 <= rx_srtt k1 < 268435456 /\ 0 <= rx_rttval k1 < 268435456) as (E1 & E2 & B1 & B2).
  { subst k1. unfold srtt_spec, rttval_spec. destruct (Z.eqb_spec (rx_srtt k) 0) as [E|E]; cbn.
    - rewrite Z.quot_div_nonneg by lia. split_and!; try done; Z.to_euclidean_division_equations; lia.
    - rewrite (i32_small (rtt - rx_srtt k)) by lia.
      assert ((if rtt - rx_srtt k <? 0 then - (rtt - rx_srtt k) else rtt - rx_srtt k) =
        Z.abs (rtt - rx_srtt k)) as -> by (destruct (Z.ltb_spec (rtt - rx_srtt k) 0); lia).
      rewrite (i32_small (3 * rx_rttval k)), (i32_small (7 * rx_srtt k)) by lia.
      rewrite (i32_small (7 * rx_srtt k + rtt)) by lia. rewrite !Z.quot_div_nonneg by lia.
      set (q := (3 * rx_rttval k + _) / 4). set (p := (7 * rx_srtt k + rtt) / 8).
      assert (0 <= q < 268435456) by (subst q; Z.to_euclidean_division_equations; lia).
      assert (0 <= p < 268435456) by (subst p; Z.to_euclidean_division_equations; lia).
      rewrite (i32_small q) by lia.
      destruct (Z.ltb_spec p 1); cbn; split_and!; try done; lia. }
  cbn. rewrite Em, Ei. split_and!; try done; try lia.
  unfold _ibound_. rewrite !imin_min, !imax_max. unfold IKCP_RTO_MAX in *.
  rewrite (i32_small (4 * rx_rttval k1)), (u32_small (4 * rx_rttval k1)) by lia.
  set (t := rx_srtt k1 + Z.max (interval k) (4 * rx_rttval k1)).
  assert (0 <= t < 2147483648) by lia.
  rewrite (u32_small t), (i32_small t), (u32_small t), (u32_small (rx_minrto k)) by lia.
  apply i32_small. lia.
Qed.

Lemma ikcp_update_ack_wf k rtt :
  ctl_wf k -> acks_wf k (ikcp_update_ack k rtt) /\
  (una_tight k -> una_tight (ikcp_update_ack k rtt)).
Proof.
  intros H. pose proof (update_ack_rto_bounds k rtt) as Hb.
  assert (exists a b, ikcp_update_ack k rtt = k <| rx_srtt := a |> <| rx_rttval := b |>
    <| rx_rto := rx_rto (ikcp_update_ack k rtt) |>) as (a & b & E).
  { unfold ikcp_update_ack. destruct (rx_srtt k =? 0); cbn; [by do 2 eexists|].
    destruct (_ <? 1); by do 2 eexists. }
  rewrite E. set (r := rx_rto _) in *. clearbody r. destruct H. unfold IKCP_RTO_MAX in Hb.
  split; [split_and!|].
  - intros. carry_wf.
  - intros. carry_wf.
  - intros _. constructor; cbn; try assumption. lia.
  - intros ps []. by constructor.
  - done.
  - done.
Qed.

(** ** Correctness of ikcp_send *)

(** A successful allocation followed by IQUEUE_ADD_TAIL on [snd_queue]. *)
Definition push_seg (k : ikcpcb) (seg : IKCPSEG) : ikcpcb :=
  k <| nalloc ::= S |> <| live ::= fun n => n + 1 |>
    <| snd_queue ::= fun q => q ++ [seg] |> <| nsnd_que ::= fun n => u32 (n + 1) |>.

(** A failed allocation. *)
Definition failed_alloc (k : ikcpcb) : ikcpcb := k <| nalloc ::= S |> <| live ::= fun n => n |>.

Lemma failed_alloc_wf k : kcp_wf k -> kcp_wf (failed_alloc k).
Proof.
  intros [? ? ? ? [ps []] ?]. constructor; try carry_wf; try done. exists ps. by constructor.
Qed.

Lemma push_seg_wf k seg : kcp_wf k -> seg_wf (mss k) seg -> kcp_wf (push_seg k seg).
Proof.
  intros [Hs ? ? ? [ps []] Hl] Hseg. constructor; try carry_wf; try done.
  - unwf Hs. constructor; cbn; try assumption.
    + rewrite Hnq, u32_add_l, qlen_app. done.
    + apply Forall_app. split; [done|]. by apply Forall_singleton.
  - exists ps. by constructor.
  - unfold leaked, blocks in *. cbn. rewrite qlen_app. unfold qlen in *. cbn. lia.
Qed.

(** The user's side of the contract of ikcp_send: [len] bytes are there to be read. *)
Definition user_buf (buf : option (list Z)) (len : Z) : Prop :=
  match buf with
  | Some b => len <= Z.of_nat (length b) /\ Forall is_byte b
  | None => True
  end.

Lemma user_buf_advance buf len n :
  user_buf buf len -> 0 <= n -> user_buf (advance buf n) (len - n).
Proof.
  destruct buf as [b|]; cbn; [|done]. intros [? ?] ?. rewrite length_drop. split; [lia|].
  by apply Forall_drop.
Qed.

Lemma fresh_bytes `{Env} n size : 0 <= size ->
  Forall is_byte (fresh n size) /\ Z.of_nat (length (fresh n size)) = size.
Proof.
  intros Hs. unfold fresh. rewrite length_fmap, length_seq. split; [|lia].
  apply Forall_fmap, Forall_forall. intros i _. apply u8_range.
Qed.

Lemma copy_in_spec `{Env} n buf len size :
  user_buf buf len -> 0 <= size <= len ->
  exists bytes, copy_in n buf size = Ok bytes /\ Forall is_byte bytes /\
    Z.of_nat (length bytes) = size.
Proof.
  destruct buf as [b|]; cbn; intros Hu Hs.
  - destruct Hu. unfold c_memcpy. destruct (Z.leb_spec size (Z.of_nat (length b))); [|lia].
    eexists. split; [done|]. split; [by apply Forall_take|]. rewrite length_take. lia.
  - eexists. split; [done|]. apply fresh_bytes. lia.
Qed.

Section Send.
Context `{env : Env}.

(** The assert behind a refused allocation, the only stop of ikcp_send. *)
Definition refused (e : fault) : Prop :=
  e = Aborted /\ ndebug env = false /\ exists n size, malloc_succeeds n size = false.

(** Without assert the call goes on from a refused allocation. *)
Definition short_of_memory : Prop :=
  ndebug env = true /\ exists n size, malloc_succeeds n size = false.

Lemma assert_granted n size :
  safely refused (c_assert (malloc_succeeds n size)) (fun _ =>
    malloc_succeeds n size = true \/ short_of_memory).
Proof.
  unfold c_assert, refused, short_of_memory.
  destruct (malloc_succeeds n size) eqn:E, (ndebug env); cbn; eauto 6.
Qed.

(** With or without NDEBUG, and whatever the allocator answers. *)
Lemma send_fragments_wf todo i count k buf len :
  kcp_wf k -> user_buf buf len -> 0 <= len < 2147483648 -> count = i + Z.of_nat todo ->
  0 <= i -> count <= 128 ->
  safely refused (send_fragments todo i count k buf len)
    (fun '(r, k') => kcp_wf k' /\ (r = 0 \/ r = -2)).
Proof.
  revert i k buf len. induction todo as [|todo IH]; intros i k buf len Hk Hu Hl Hc Hi Hc128;
    cbn [send_fragments].
  { split; [done|by left]. }
  pose proof (wf_mtu _ Hk) as [? ?]. pose proof (wf_mss _ Hk) as Hmss.
  unfold IKCP_OVERHEAD in *. rewrite (i32_small (mss k)) by lia.
  set (size := if len >? mss k then mss k else len).
  assert (0 <= size <= len /\ size <= mss k) as [Hsize Hsm]
    by (subst size; destruct (Z.gtb_spec len (mss k)); lia).
  clearbody size. unfold ikcp_segment_new, ikcp_malloc. cbn zeta.
  eapply safely_bind; [apply assert_granted|].
  intros _ _. destruct (malloc_succeeds _ _); cbn [negb].
  2:{ split; [by apply failed_alloc_wf|by right]. }
  assert (exists bytes, (if len >? 0 then copy_in (nalloc k) buf size
    else Ok (fresh (nalloc k) size)) = Ok bytes /\ Forall is_byte bytes /\
    Z.of_nat (length bytes) = size) as (bytes & -> & Hby & Hlen).
  { destruct (len >? 0); [by eapply copy_in_spec|]. eexists. split; [done|]. apply fresh_bytes; lia. }
  cbn [mbind res_bind]. rewrite u32_small by lia.
  match goal with |- context [queued_seg size ?f bytes] => set (frg := f) end.
  apply (IH (i + 1) (push_seg k (queued_seg size frg bytes))); try lia.
  - apply push_seg_wf; [done|]. unfold seg_wf, is_u32, is_byte. cbn. split_and!; try done; try lia;
      subst frg; cbn; destruct (_ =? _); lia.
  - apply user_buf_advance; [done|lia].
Qed.

Lemma send_message_wf k buf len :
  kcp_wf k -> user_buf buf len -> 0 <= len < 2147483648 ->
  safely refused (send_message k buf len)
    (fun '(r, k') => kcp_wf k' /\ (r = 0 \/ r = -2)).
Proof.
  intros Hk Hu Hl. pose proof (wf_mtu _ Hk) as [? ?]. pose proof (wf_mss _ Hk) as Hmss.
  unfold IKCP_OVERHEAD in *. unfold send_message, send_count. rewrite (i32_small (mss k)) by lia.
  assert (forall c, 0 <= c -> safely refused
    (if c >=? IKCP_WND_RCV then Ok (-2, k) else
       let count := if c =? 0 then 1 else c in
       send_fragments (Z.to_nat count) 0 count k buf len)
    (fun '(r, k') => kcp_wf k' /\ (r = 0 \/ r = -2))) as Hgo.
  { intros c Hc. destruct (Z.geb_spec c IKCP_WND_RCV); [by split; [|right]|].
    unfold IKCP_WND_RCV in *. apply send_fragments_wf; try done; destruct (Z.eqb_spec c 0); lia. }
  destruct (Z.leb_spec len (mss k)); [by apply (Hgo 1)|].
  unfold c_divu. destruct (Z.eqb_spec (mss k) 0); [lia|]. cbn [mbind res_bind].
  apply Hgo. rewrite (u32_small (len + mss k)), (u32_small (len + mss k - 1)) by lia.
  rewrite i32_small; [apply Z.div_pos; lia|]. split.
  - pose proof (Z.div_pos (len + mss k - 1) (mss k)). lia.
  - apply Z.div_lt_upper_bound; nia.
Qed.

Lemma last_removelast {A} (l : list A) x : last l = Some x -> l = removelast l ++ [x].
Proof.
  intros Hl. apply last_Some in Hl as [l' ->]. by rewrite List.removelast_last.
Qed.

Definition append_post (buf : option (list Z)) (len : Z)
    (r : Z * ikcpcb + ikcpcb * option (list Z) * Z) : Prop :=
  match r with
  | inl (r, k') => kcp_wf k' /\ r = -2
  | inr (k', buf', len') => kcp_wf k' /\ exists n, 0 <= n <= len /\ buf' = advance buf n /\
      len' = len - n
  end.

Lemma advance_0 buf : advance buf 0 = buf.
Proof. by destruct buf. Qed.

Lemma send_append_wf k buf len :
  kcp_wf k -> user_buf buf len -> 0 <= len < 2147483648 ->
  safely refused (send_append k buf len) (append_post buf len).
Proof.
  intros Hk Hu Hl. pose proof (wf_mtu _ Hk) as [? ?]. pose proof (wf_mss _ Hk) as Hmss.
  unfold IKCP_OVERHEAD in *.
  assert (append_post buf len (inr (k, buf, len))) as Hsame.
  { split; [done|]. exists 0. rewrite advance_0. split_and!; [lia|lia|done|lia]. }
  unfold send_append. destruct (last (snd_queue k)) as [old|] eqn:E; [|done].
  destruct (Z.ltb_spec (seg_len old) (mss k)) as [Hlt|]; [|done].
  apply last_removelast in E as Eq. pose proof (wf_snd_queue _ Hk) as Hq. rewrite Eq in Hq.
  apply Forall_app in Hq as [Hq [(? & ? & Ho & ? & ?) _]%Forall_cons].
  rewrite (u32_small (mss k - seg_len old)), (i32_small (mss k - seg_len old)) by lia.
  set (ext := if len <? mss k - seg_len old then len else mss k - seg_len old).
  assert (0 <= ext <= len /\ seg_len old + ext <= mss k) as [Hext Hsum]
    by (subst ext; destruct (Z.ltb_spec len (mss k - seg_len old)); lia). clearbody ext.
  unfold ikcp_segment_new, ikcp_malloc. cbn zeta.
  eapply safely_bind; [apply assert_granted|].
  intros _ _. destruct (malloc_succeeds _ _); cbn [negb]; [|split; [by apply failed_alloc_wf|done]].
  destruct (copy_in_spec (nalloc k) buf len ext Hu Hext) as (bytes & -> & Hby & Hlen).
  cbn [mbind res_bind safely append_post]. split.
  2:{ exists ext. done. }
  rewrite (u32_small (seg_len old + ext)) by lia.
  assert (length (seg_bytes old) = length (seg_data old)) as Hsb.
  { unfold seg_bytes. rewrite length_take. lia. }
  destruct Hk as [Hs ? ? ? [ps []] Hlv]. constructor; try carry_wf; try done.
  - unwf Hs. constructor; cbn; try assumption.
    + rewrite Hnq. f_equal. rewrite Eq at 1. by rewrite !qlen_app.
    + apply Forall_app. split; [done|]. apply Forall_singleton.
      unfold seg_wf, is_u32, is_byte. cbn. rewrite length_app, Hsb. split_and!; try lia.
      apply Forall_app. split; [|done]. by apply Forall_take.
  - exists ps. by constructor.
  - unfold leaked, blocks in *. cbn. rewrite Eq in Hlv. rewrite qlen_app in *.
    unfold qlen in *. cbn in *. lia.
Qed.

(** ikcp_send keeps the connection well formed whatever the mode, the buffer and the
    allocator: it returns 0, -1 or -2, or assert stops it. *)
Theorem ikcp_send_wf k buf len :
  kcp_wf k -> user_buf buf len -> is_i32 len ->
  safely refused (ikcp_send k buf len)
    (fun '(r, k') => kcp_wf k' /\ (r = 0 \/ r = -2 \/ (r = -1 /\ len < 0))).
Proof.
  intros Hk Hu Hl. unfold is_i32 in Hl. unfold ikcp_send.
  pose proof (wf_mtu _ Hk) as [? ?]. pose proof (wf_mss _ Hk). unfold IKCP_OVERHEAD in *.
  destruct (Z.ltb_spec 0 (mss k)); [|lia]. unfold c_assert. cbn [orb mbind res_bind].
  destruct (Z.ltb_spec len 0); [cbn; auto 6|].
  assert (forall k' buf' len', kcp_wf k' -> user_buf buf' len' -> 0 <= len' < 2147483648 ->
    safely refused (send_message k' buf' len')
      (fun '(r, k') => kcp_wf k' /\ (r = 0 \/ r = -2 \/ (r = -1 /\ len < 0)))) as Hmsg.
  { intros. eapply safely_mono; [by apply send_message_wf|done|]. intros [? ?]. tauto. }
  destruct (negb _); [|apply Hmsg; done || lia].
  eapply safely_bind; [apply send_append_wf; done || lia|].
  intros [[r k']|[[k' buf'] len']]; cbn.
  - intros [? ->]. auto.
  - intros (Hk' & n & Hn & -> & ->). destruct (Z.leb_spec (len - n) 0); [cbn; auto 6|].
    apply Hmsg; [done|apply user_buf_advance; [done|lia]|lia].
Qed.

(** *** What is queued *)

Fixpoint fragments (frg : nat -> Z) (m todo : nat) (b : list Z) : list IKCPSEG :=
  match todo with
  | O => []
  | S t => queued_seg (Z.of_nat (length (take m b))) (frg t) (take m b)
           :: fragments frg m t (drop m b)
  end.

Lemma fragments_concat frg m todo b :
  (length b <= todo * m)%nat -> mjoin (seg_data <$> fragments frg m todo b) = b.
Proof.
  revert b. induction todo as [|t IH]; intros b Hb; cbn.
  - by destruct b; [|cbn in Hb; lia].
  - unfold mjoin in IH. rewrite IH by (rewrite length_drop; lia). apply take_drop.
Qed.

Lemma length_fragments frg m n b : length (fragments frg m n b) = n.
Proof. revert b. induction n as [|n IH]; intros b; cbn; [done|]. by rewrite IH. Qed.

(** All of [segs] queued, or, without assert, those before a refused allocation. *)
Definition queued_or_refused (k : ikcpcb) (segs : list IKCPSEG) : Z * ikcpcb -> Prop :=
  fun '(r, k') =>
    (r = 0 /\ k' = foldl push_seg k segs) \/
    (r = -2 /\ short_of_memory /\ exists j, (j < length segs)%nat /\
       k' = failed_alloc (foldl push_seg k (take j segs))).

Lemma send_fragments_outcome todo i count k b :
  0 < mss k < 2147483648 -> count = i + Z.of_nat todo -> Z.of_nat (length b) < 2147483648 ->
  safely refused (send_fragments todo i count k (Some b) (Z.of_nat (length b)))
    (queued_or_refused k
       (fragments (fun t => if stream k =? 0 then Z.of_nat t else 0)
          (Z.to_nat (mss k)) todo b)).
Proof.
  revert i k b. induction todo as [|t IH]; intros i k b Hm Hc Hb; [by left|].
  cbn [send_fragments fragments]. rewrite (i32_small (mss k)) by lia.
  set (size := if Z.of_nat (length b) >? mss k then mss k else Z.of_nat (length b)).
  set (m := Z.to_nat (mss k)).
  assert (take (Z.to_nat size) b = take m b /\ drop (Z.to_nat size) b = drop m b /\
    size = Z.of_nat (length (take m b))) as (Et & Ed & Es).
  { subst size m. rewrite length_take. destruct (Z.gtb_spec (Z.of_nat (length b)) (mss k)).
    - split_and!; [done|done|lia].
    - rewrite !take_ge, !drop_ge by lia. split_and!; [done|done|lia]. }
  assert (0 <= size <= Z.of_nat (length b)) as Hsz by (rewrite Es, length_take; lia).
  clearbody size. unfold ikcp_segment_new, ikcp_malloc. cbn zeta.
  eapply safely_bind; [apply assert_granted|]. intros [] Hm2.
  destruct (malloc_succeeds _ _); cbn [negb].
  2:{ right. destruct Hm2 as [|Hm2]; [done|]. split_and!; [done|done|]. exists 0%nat.
      split; [cbn; lia|by rewrite take_0]. }
  clear Hm2. assert ((if Z.of_nat (length b) >? 0 then copy_in (nalloc k) (Some b) size
           else Ok (fresh (nalloc k) size)) = Ok (take m b)) as ->.
  { destruct (Z.gtb_spec (Z.of_nat (length b)) 0).
    - cbn. unfold c_memcpy. destruct (Z.leb_spec size (Z.of_nat (length b))); [|lia].
      by rewrite Et.
    - destruct b; [|cbn in *; lia]. replace size with 0 by (cbn in *; lia).
      by rewrite take_nil. }
  cbn [mbind res_bind advance fmap option_fmap option_map]. rewrite Ed.
  replace (Z.of_nat (length b) - size) with (Z.of_nat (length (drop m b)))
    by (rewrite length_drop, Es, length_take; lia).
  rewrite (u32_small size) by lia. subst size.
  match goal with |- context [send_fragments t _ _ ?k1 _ _] => set (k' := k1) end.
  assert (k' = push_seg k (queued_seg (Z.of_nat (length (take m b)))
    (if stream k =? 0 then Z.of_nat t else 0) (take m b))) as ->.
  { subst k'. unfold push_seg. cbn. replace (count - i - 1) with (Z.of_nat t) by lia. done. }
  eapply safely_mono; [apply (IH (i + 1) (push_seg k _)); [done|lia|rewrite length_drop; lia]|done|].
  intros [r k2] [[-> ->]|(-> & Hs & j & Hj & ->)]; [by left|]. right. split_and!; [done|done|].
  exists (S j). split; [cbn [length]; apply -> Nat.succ_lt_mono; exact Hj|done].
Qed.

(** The number of fragments of a message of [len] bytes. *)
Definition frag_count (m len : Z) : Z := Z.max 1 ((len + m - 1) / m).

(** What a message of [n] fragments does. *)
Definition message_outcome (k : ikcpcb) (n : Z) (segs : list IKCPSEG) (x : Z * ikcpcb) : Prop :=
  if n >=? IKCP_WND_RCV then x = (-2, k) else queued_or_refused k segs x.

Lemma send_message_outcome k b :
  kcp_wf k -> Z.of_nat (length b) < 2147483648 ->
  let n := frag_count (mss k) (Z.of_nat (length b)) in
  safely refused (send_message k (Some b) (Z.of_nat (length b)))
    (message_outcome k n
       (fragments (fun t => if stream k =? 0 then Z.of_nat t else 0)
          (Z.to_nat (mss k)) (Z.to_nat n) b)).
Proof.
  intros Hk Hb n. pose proof (wf_mtu _ Hk) as [? ?]. pose proof (wf_mss _ Hk) as Hmss.
  unfold IKCP_OVERHEAD in *. set (len := Z.of_nat (length b)) in *.
  assert (send_count k len = Ok n) as Hcount.
  { unfold send_count, frag_count in *. rewrite (i32_small (mss k)) by lia.
    destruct (Z.leb_spec len (mss k)).
    - subst n. f_equal. assert ((len + mss k - 1) / mss k < 2); [|lia].
      apply Z.div_lt_upper_bound; lia.
    - unfold c_divu. destruct (Z.eqb_spec (mss k) 0); [lia|]. cbn [mbind res_bind].
      rewrite (u32_small (len + mss k)), (u32_small (len + mss k - 1)) by lia.
      assert (1 <= (len + mss k - 1) / mss k < 2147483648).
      { split; [apply Z.div_le_lower_bound; lia|apply Z.div_lt_upper_bound; nia]. }
      rewrite i32_small by lia. subst n. f_equal. lia. }
  unfold send_message, message_outcome. rewrite Hcount. cbn [mbind res_bind].
  destruct (Z.geb_spec n IKCP_WND_RCV); [done|]. unfold IKCP_WND_RCV in *.
  destruct (Z.eqb_spec n 0); [unfold frag_count in *; lia|].
  apply (send_fragments_outcome _ 0); [lia|unfold frag_count in *; lia|done].
Qed.

Lemma ikcp_send_message_outcome k b :
  kcp_wf k -> stream k = 0 -> Z.of_nat (length b) < 2147483648 ->
  let n := frag_count (mss k) (Z.of_nat (length b)) in
  safely refused (ikcp_send k (Some b) (Z.of_nat (length b)))
    (message_outcome k n (fragments Z.of_nat (Z.to_nat (mss k)) (Z.to_nat n) b)).
Proof.
  intros Hk Hs Hb n. unfold ikcp_send. pose proof (wf_mtu _ Hk) as [? ?].
  pose proof (wf_mss _ Hk) as Hmss. unfold IKCP_OVERHEAD in *.
  destruct (Z.ltb_spec 0 (mss k)); [|lia]. unfold c_assert. cbn [orb mbind res_bind].
  destruct (Z.ltb_spec (Z.of_nat (length b)) 0); [lia|]. rewrite Hs. cbn [Z.eqb negb].
  pose proof (send_message_outcome k b Hk Hb) as Hmo. cbn zeta in Hmo. by rewrite Hs in Hmo.
Qed.

(** When no refusal goes by unnoticed, a call that returns took the message whole or not at
    all. *)
Lemma ikcp_send_message_ok k b r k' :
  refusals_stop -> kcp_wf k -> stream k = 0 -> Z.of_nat (length b) < 2147483648 ->
  let n := frag_count (mss k) (Z.of_nat (length b)) in
  ikcp_send k (Some b) (Z.of_nat (length b)) = Ok (r, k') ->
  (r, k') = if n >=? IKCP_WND_RCV then (-2, k)
            else (0, foldl push_seg k (fragments Z.of_nat (Z.to_nat (mss k)) (Z.to_nat n) b)).
Proof.
  intros Hm Hk Hs Hb n H. pose proof (ikcp_send_message_outcome k b Hk Hs Hb) as Ho.
  cbn zeta in Ho. rewrite H in Ho. cbn [safely] in Ho. unfold message_outcome in Ho. fold n in Ho.
  destruct (_ >=? _); [done|]. destruct Ho as [[-> ->]|(_ & [Hnd (i & size & Hf)] & _)]; [done|].
  destruct Hm as [Hm|Hm]; [congruence|]. by rewrite Hm in Hf.
Qed.

Lemma ikcp_send_message_exact k b :
  malloc_never_fails -> kcp_wf k -> stream k = 0 -> Z.of_nat (length b) < 2147483648 ->
  let n := frag_count (mss k) (Z.of_nat (length b)) in
  ikcp_send k (Some b) (Z.of_nat (length b)) =
    Ok (if n >=? IKCP_WND_RCV then (-2, k)
        else (0, foldl push_seg k
               (fragments Z.of_nat (Z.to_nat (mss k)) (Z.to_nat n) b))).
Proof.
  intros Hm Hk Hs Hb n. pose proof (ikcp_send_message_outcome k b Hk Hs Hb) as Ho.
  destruct (ikcp_send _ _ _) as [[r k']|e] eqn:H.
  - f_equal. apply (ikcp_send_message_ok k b r k'); try done. by right.
  - destruct Ho as (_ & _ & i & size & Hf). by rewrite Hm in Hf.
Qed.

(** C26: Message mode, whatever the allocator answers: a message of 128 fragments or more is
    refused with -2 and nothing changes.  A shorter one is queued whole, as fragments of
    [mss] bytes numbered down to 0, and 0 is returned, unless an allocation is refused: then
    assert stops the program, or, in a program compiled with NDEBUG, -2 is returned with the
    fragments before it left in the queue. *)
Theorem ikcp_send_message_mode k b :
  kcp_wf k -> stream k = 0 -> Z.of_nat (length b) < 2147483648 ->
  let n := frag_count (mss k) (Z.of_nat (length b)) in
  let segs := fragments Z.of_nat (Z.to_nat (mss k)) (Z.to_nat n) b in
  safely (fun e => e = Aborted /\ ndebug env = false /\
                   exists i size, malloc_succeeds i size = false)
    (ikcp_send k (Some b) (Z.of_nat (length b)))
    (fun '(r, k') =>
       if n >=? IKCP_WND_RCV then r = -2 /\ k' = k
       else (r = 0 /\ k' = foldl push_seg k segs) \/
            (r = -2 /\ ndebug env = true /\ (exists i size, malloc_succeeds i size = false) /\
             exists j, (j < Z.to_nat n)%nat /\
               k' = failed_alloc (foldl push_seg k (take j segs)))).
Proof.
  intros Hk Hs Hb n segs. eapply safely_mono; [by apply ikcp_send_message_outcome|by intros e He|].
  intros [r k']. unfold message_outcome. fold n. destruct (_ >=? _); [by intros [= -> ->]|].
  intros [[-> ->]|(-> & [Hnd Hf] & j & Hj & ->)]; [by left|]. right.
  rewrite length_fragments in Hj. by split_and!; [| | |exists j].
Qed.

Definition queue_bytes (q : list IKCPSEG) : list Z := mjoin (seg_data <$> q).
Arguments queue_bytes : simpl never.

Lemma queue_bytes_app q1 q2 : queue_bytes (q1 ++ q2) = queue_bytes q1 ++ queue_bytes q2.
Proof. unfold queue_bytes. by rewrite fmap_app, join_app. Qed.

Lemma push_segs_queue k l : snd_queue (foldl push_seg k l) = snd_queue k ++ l.
Proof.
  revert k. induction l as [|s l IH]; intros k; cbn; [by rewrite app_nil_r|].
  rewrite IH. cbn. by rewrite <- app_assoc.
Qed.

Lemma frag_count_enough m len : 0 < m -> 0 <= len ->
  (Z.to_nat len <= Z.to_nat (frag_count m len) * Z.to_nat m)%nat.
Proof.
  intros Hm Hl. unfold frag_count. rewrite <- Z2Nat.inj_mul by lia. apply Z2Nat.inj_le; [lia|nia|].
  assert (len <= (len + m - 1) / m * m); [|nia]. Z.to_euclidean_division_equations. nia.
Qed.

End Send.

(** ** Frame and bytes, for any allocator *)

Arguments queue_bytes : simpl never.

Lemma queue_bytes_one s : queue_bytes [s] = seg_data s.
Proof. unfold queue_bytes. cbn. apply app_nil_r. Qed.

(** What ikcp_send may change. *)
Definition same_but_queue (k k' : ikcpcb) : Prop :=
  k' = k <| snd_queue := snd_queue k' |> <| nsnd_que := nsnd_que k' |>
         <| nalloc := nalloc k' |> <| live := live k' |>.

Lemma same_but_queue_trans k1 k2 k3 :
  same_but_queue k1 k2 -> same_but_queue k2 k3 -> same_but_queue k1 k3.
Proof. unfold same_but_queue. intros H1 H2. rewrite H2, H1. reflexivity. Qed.
Lemma same_but_queue_refl k : same_but_queue k k.
Proof. unfold same_but_queue. by destruct k. Qed.

(** The queue took the first [n] bytes of [b]; all of them when the call returned 0. *)
Definition took (k : ikcpcb) (b : list Z) (r : Z) (k' : ikcpcb) : Prop :=
  same_but_queue k k' /\ exists n, (n <= length b)%nat /\
    queue_bytes (snd_queue k') = queue_bytes (snd_queue k) ++ take n b /\
    (r = 0 -> n = length b).

Section SendAny.
Context `{env : Env}.

Lemma send_fragments_took todo i count k b r k' :
  0 < mss k < 2147483648 -> Z.of_nat (length b) < 2147483648 ->
  (length b <= todo * Z.to_nat (mss k))%nat ->
  send_fragments todo i count k (Some b) (Z.of_nat (length b)) = Ok (r, k') -> took k b r k'.
Proof.
  revert i k b. induction todo as [|t IH]; intros i k b Hm Hb Hlen; cbn [send_fragments].
  { intros [= <- <-]. split; [apply same_but_queue_refl|]. exists 0%nat.
    rewrite take_0, app_nil_r. split_and!; [lia|done|lia]. }
  rewrite (i32_small (mss k)) by lia.
  set (size := if Z.of_nat (length b) >? mss k then mss k else Z.of_nat (length b)).
  assert (0 <= size <= Z.of_nat (length b) /\ size <= mss k /\
    (size = mss k \/ size = Z.of_nat (length b))) as (Hsz & Hszm & Hor)
    by (subst size; destruct (Z.gtb_spec (Z.of_nat (length b)) (mss k)); lia).
  clearbody size. unfold ikcp_segment_new, ikcp_malloc. cbn zeta.
  destruct (malloc_succeeds _ _); intros H; apply bind_Ok in H as ([] & _ & H); cbn [negb] in H.
  2:{ injection H as <- <-. split; [by destruct k|]. exists 0%nat.
      rewrite take_0, app_nil_r. split_and!; [lia|done|lia]. }
  assert ((if Z.of_nat (length b) >? 0 then copy_in (nalloc k) (Some b) size
           else Ok (fresh (nalloc k) size)) = Ok (take (Z.to_nat size) b)) as E.
  { destruct (Z.gtb_spec (Z.of_nat (length b)) 0).
    - cbn. unfold c_memcpy. by destruct (Z.leb_spec size (Z.of_nat (length b))); [|lia].
    - destruct b; [|cbn in *; lia]. replace size with 0 by (cbn in *; lia). by rewrite take_nil. }
  rewrite E in H. cbn [mbind res_bind advance fmap option_fmap option_map] in H.
  replace (Z.of_nat (length b) - size) with (Z.of_nat (length (drop (Z.to_nat size) b))) in H
    by (rewrite length_drop; lia).
  apply (IH (i + 1) (push_seg k (queued_seg (u32 size) (if stream k =? 0 then count - i - 1 else 0)
    (take (Z.to_nat size) b)))) in H; [|done|rewrite length_drop; lia|].
  2:{ rewrite length_drop. change (mss (push_seg _ _)) with (mss k). nia. }
  destruct H as [Hs (n & Hn & Hq & Hr)]. rewrite length_drop in *. split.
  { eapply same_but_queue_trans; [|exact Hs]. reflexivity. }
  exists (Z.to_nat size + n)%nat. split_and!; [lia| |intros ->; rewrite Hr; lia].
  rewrite Hq. change (snd_queue (push_seg k ?s)) with (snd_queue k ++ [s]).
  rewrite queue_bytes_app, <- app_assoc, queue_bytes_one. cbn. by rewrite take_take_drop.
Qed.

Lemma send_message_took k b r k' :
  kcp_wf k -> Z.of_nat (length b) < 2147483648 ->
  send_message k (Some b) (Z.of_nat (length b)) = Ok (r, k') -> took k b r k'.
Proof.
  intros Hk Hb. pose proof (wf_mtu _ Hk) as Hmtu. pose proof (wf_mss _ Hk) as Hmss.
  unfold IKCP_OVERHEAD in *. unfold send_message. intros H. apply bind_Ok in H as (count & Hc & H).
  destruct (_ >=? _).
  { injection H as <- <-. split; [apply same_but_queue_refl|]. exists 0%nat.
    rewrite take_0, app_nil_r. split_and!; [lia|done|lia]. }
  apply send_fragments_took in H; [done|lia|done|]. clear H.
  unfold send_count in Hc. rewrite (i32_small (mss k)) in Hc by lia.
  destruct (Z.leb_spec (Z.of_nat (length b)) (mss k)).
  { injection Hc as <-. cbn. lia. }
  rewrite c_divu_ok in Hc by lia. cbn in Hc. injection Hc as <-.
  rewrite (u32_small (_ + mss k)), (u32_small (_ - 1)) by lia.
  pose proof (frag_count_enough (mss k) (Z.of_nat (length b)) ltac:(lia) ltac:(lia)) as He.
  unfold frag_count in He.
  set (q := (Z.of_nat (length b) + mss k - 1) / mss k) in *.
  assert (1 <= q < 2147483648).
  { subst q. split; [apply Z.div_le_lower_bound; lia|apply Z.div_lt_upper_bound; nia]. }
  rewrite i32_small by lia. destruct (Z.eqb_spec q 0); [lia|].
  rewrite Nat2Z.id, Z.max_r in He by lia. lia.
Qed.

(** Whatever the allocator answers, a successful call queues exactly the bytes of the
    buffer after those that were waiting; a refused one queues a prefix of them (nothing in
    message mode unless an allocation failed) and touches nothing else. *)
Theorem ikcp_send_took k b r k' :
  kcp_wf k -> Forall is_byte b -> Z.of_nat (length b) < 2147483648 ->
  ikcp_send k (Some b) (Z.of_nat (length b)) = Ok (r, k') -> took k b r k'.
Proof.
  intros Hk Hby Hb H. unfold ikcp_send in H. apply bind_Ok in H as ([] & _ & H).
  destruct (Z.ltb_spec (Z.of_nat (length b)) 0); [lia|].
  destruct (negb _); [|by eapply send_message_took].
  apply bind_Ok in H as (x & Ha & H).
  pose proof (send_append_wf k (Some b) (Z.of_nat (length b)) Hk ltac:(by split) ltac:(lia)) as Hpost.
  rewrite Ha in Hpost. cbn [safely append_post] in Hpost.
  assert (match x with
    | inl (r1, k1) => took k b r1 k1 /\ r1 <> 0
    | inr (k1, buf, len) => exists n, buf = Some (drop n b) /\ len = Z.of_nat (length (drop n b)) /\
        (n <= length b)%nat /\ same_but_queue k k1 /\
        queue_bytes (snd_queue k1) = queue_bytes (snd_queue k) ++ take n b end) as Hx.
  { clear H. unfold send_append in Ha. destruct (last (snd_queue k)) as [old|] eqn:E.
    2:{ injection Ha as <-. exists 0%nat. rewrite drop_0, take_0, app_nil_r.
        split_and!; try done; [lia|apply same_but_queue_refl]. }
    destruct (_ <? _).
    2:{ injection Ha as <-. exists 0%nat. rewrite drop_0, take_0, app_nil_r.
        split_and!; try done; [lia|apply same_but_queue_refl]. }
    set (ext := if Z.of_nat (length b) <? _ then _ else _) in *. clearbody ext.
    unfold ikcp_segment_new, ikcp_malloc in Ha. cbn zeta in Ha.
    destruct (malloc_succeeds _ _); apply bind_Ok in Ha as ([] & _ & Ha); cbn [negb] in Ha.
    2:{ injection Ha as <-. split; [|lia]. split; [by destruct k|]. exists 0%nat.
        rewrite take_0, app_nil_r. split_and!; [lia|done|lia]. }
    apply bind_Ok in Ha as (bytes & Hbytes & Ha). cbn in Hbytes. unfold c_memcpy in Hbytes.
    destruct (Z.leb_spec ext (Z.of_nat (length b))); [|done]. injection Hbytes as <-.
    injection Ha as <-. destruct Hpost as (Hk1 & n & Hn & Had & Hlen).
    assert (n = ext) as -> by lia.
    exists (Z.to_nat ext). split_and!; [done|rewrite length_drop; lia|lia|by destruct k|].
    cbn. apply last_removelast in E as Eq. pose proof (wf_snd_queue _ Hk) as Hq.
    rewrite Eq in Hq. apply Forall_app in Hq as [_ [(_ & _ & Hl & _) _]%Forall_cons].
    rewrite Eq at 2. rewrite !queue_bytes_app, !queue_bytes_one, <- app_assoc. cbn. do 2 f_equal.
    unfold seg_bytes. apply take_ge. lia. }
  destruct x as [[r1 k1]|[[k1 buf] len]].
  - injection H as <- <-. tauto.
  - destruct Hx as (n & -> & -> & Hn & Hs & Hq). destruct Hpost as [Hk1 _].
    destruct (Z.leb_spec (Z.of_nat (length (drop n b))) 0) as [Hz|Hz].
    + injection H as <- <-. split; [done|]. exists n. split_and!; [done|done|].
      rewrite length_drop in Hz. lia.
    + apply send_message_took in H; [|done|rewrite length_drop; lia].
      destruct H as [Hs2 (m & Hm & Hq2 & Hr)]. rewrite length_drop in *.
      split; [by eapply same_but_queue_trans|]. exists (n + m)%nat.
      split_and!; [lia| |intros ->; rewrite Hr; lia].
      rewrite Hq2, Hq, <- app_assoc. f_equal. by rewrite take_take_drop.
Qed.

(** C7: Both modes, whatever the allocator answers: ikcp_send returns 0 or -2, or the assert
    behind a refused allocation stops it.  After 0 the queued bytes are the old ones followed
    by the whole buffer, in order; after -2 they are the old ones followed by a prefix of
    it. *)
Theorem ikcp_send_bytes k b :
  kcp_wf k -> Forall is_byte b -> Z.of_nat (length b) < 2147483648 ->
  safely (fun e => e = Aborted /\ ndebug env = false /\
                   exists i size, malloc_succeeds i size = false)
    (ikcp_send k (Some b) (Z.of_nat (length b)))
    (fun '(r, k') =>
       (r = 0 /\ queue_bytes (snd_queue k') = queue_bytes (snd_queue k) ++ b) \/
       (r = -2 /\ exists n, queue_bytes (snd_queue k') = queue_bytes (snd_queue k) ++ take n b)).
Proof.
  intros Hk Hby Hb.
  pose proof (ikcp_send_wf k (Some b) (Z.of_nat (length b)) Hk ltac:(by split)
    ltac:(unfold is_i32; lia)) as Hs.
  destruct (ikcp_send _ _ _) as [[r k']|e] eqn:H; [|done]. cbn [safely] in *.
  destruct (ikcp_send_took k b r k' Hk Hby Hb H) as [_ (n & Hn & Hq & Hr)].
  destruct Hs as [_ [->|[->|[_ Hneg]]]]; [left|right|lia].
  - split; [done|]. by rewrite Hq, take_ge by (rewrite Hr; lia).
  - split; [done|]. by exists n.
Qed.
End SendAny.

(** ** A message queued *)

(** An allocator that refuses the fourth request, in a program compiled with NDEBUG. *)
Definition short_env : Env := mkEnv (fun n _ => negb (n =? 3)%nat) None (fun _ _ => 0) true.

(** On the host of the examples three fragments are queued; with a request refused and no
    assert the first fragment stays in the queue. *)
Lemma ikcp_send_message_mode_witness :
  kcp_wf demo_cb /\ stream demo_cb = 0 /\
  @ikcp_send demo_env demo_cb (Some (replicate 3000 1)) 3000 =
    Ok (0, foldl push_seg demo_cb (fragments Z.of_nat 1376 3 (replicate 3000 1))) /\
  (exists k', @ikcp_send short_env demo_cb (Some (replicate 3000 1)) 3000 = Ok (-2, k') /\
     snd_queue k' = take 1 (fragments Z.of_nat 1376 3 (replicate 3000 1))) /\
  (let segs := fragments Z.of_nat 1376 3 (replicate 3000 1) in
   safely (fun e => e = Aborted /\ ndebug short_env = false /\
                    exists i size, @malloc_succeeds short_env i size = false)
     (@ikcp_send short_env demo_cb (Some (replicate 3000 1)) 3000)
     (fun '(r, k') =>
        (r = 0 /\ k' = foldl push_seg demo_cb segs) \/
        (r = -2 /\ ndebug short_env = true /\
         (exists i size, @malloc_succeeds short_env i size = false) /\
         exists j, (j < 3)%nat /\
           k' = failed_alloc (foldl push_seg demo_cb (take j segs))))).
Proof.
  split; [apply demo_cb_wf|]. split; [done|]. split; [by vm_compute|].
  split; [eexists; split; evaluated|].
  exact (@ikcp_send_message_mode short_env demo_cb (replicate 3000 1) demo_cb_wf eq_refl eq_refl).
Defined.

Lemma ikcp_send_bytes_witness :
  Forall is_byte [1; 2; 3] /\
  safely (fun e => e = Aborted /\ ndebug demo_env = false /\
                   exists i size, @malloc_succeeds demo_env i size = false)
    (@ikcp_send demo_env demo_cb (Some [1; 2; 3]) 3) (fun '(r, k') =>
       (r = 0 /\ queue_bytes (snd_queue k') = queue_bytes (snd_queue demo_cb) ++ [1; 2; 3]) \/
       (r = -2 /\ exists n,
          queue_bytes (snd_queue k') = queue_bytes (snd_queue demo_cb) ++ take n [1; 2; 3])).
Proof.
  assert (Forall is_byte [1; 2; 3]) as Hb by by_decide. split; [done|].
  apply (@ikcp_send_bytes demo_env demo_cb [1; 2; 3]); [apply demo_cb_wf|done|done].
Defined.

(** The connection with three bytes queued. *)
Definition demo_queued : ikcpcb := Eval vm_compute in
  match @ikcp_send demo_env demo_cb (Some [1; 2; 3]) 3 with Ok (_, k) => k | Err _ => demo_cb end.

Lemma demo_queued_wf : kcp_wf demo_queued.
Proof. kcp_wf_by_evaluation. Qed.
