(* ===== verification/IkcpRcv.v ===== *)
(** * kcp_learn/ikcp.c: the receiving side

    ikcp_recv, ikcp_peeksize, the list of acknowledgements to send
    (ikcp_ack_push, ikcp_ack_get) and ikcp_parse_data, which puts a segment in
    order into [rcv_buf] and moves what is complete to [rcv_queue]. *)

From S2P Require Import Prelude IkcpBase IkcpCb.

(** ** ikcp_peeksize and ikcp_recv *)

Fixpoint peeksize_loop (l : list IKCPSEG) (length : Z) : Z :=
  match l with
  | [] => length
  | seg :: l =>
      let length := i32 (u32 (length + seg_len seg)) in
      if seg_frg seg =? 0 then length else peeksize_loop l length
  end.

Definition ikcp_peeksize (kcp : ikcpcb) : Z :=
  match rcv_queue kcp with
  | [] => -1
  | seg :: _ =>
      if seg_frg seg =? 0 then i32 (seg_len seg)
      else if nrcv_que kcp <? u32 (seg_frg seg + 1) then -1
      else peeksize_loop (rcv_queue kcp) 0
  end.

(** The merge loop over the queue [l]: the bytes stored at [buffer] (none when it
    is NULL), their count [len], and the segments removed unless [ispeek]. *)
Fixpoint recv_merge (has_buf ispeek : bool) (l : list IKCPSEG) (kcp : ikcpcb)
    (len : Z) (out : list Z) : Z * list Z * ikcpcb :=
  match l with
  | [] => (len, out, kcp)
  | seg :: p =>
      let out := if has_buf then out ++ seg_bytes seg else out in
      let len := i32 (u32 (len + seg_len seg)) in
      let kcp :=
        if ispeek then kcp
        else ikcp_segment_delete (kcp <| rcv_queue := p |>) <| nrcv_que ::= fun n => u32 (n - 1) |> in
      if seg_frg seg =? 0 then (len, out, kcp)
      else recv_merge has_buf ispeek p kcp len out
  end.

(** Move available data from rcv_buf to rcv_queue; [l] is what rcv_buf holds. *)
Fixpoint move_rcv_buf (l : list IKCPSEG) (kcp : ikcpcb) : ikcpcb :=
  match l with
  | [] => kcp
  | seg :: l =>
      if (seg_sn seg =? rcv_nxt kcp) && (nrcv_que kcp <? rcv_wnd kcp) then
        move_rcv_buf l
          (kcp <| rcv_buf := l |> <| nrcv_buf ::= fun n => u32 (n - 1) |>
               <| rcv_queue ::= fun q => q ++ [seg] |> <| nrcv_que ::= fun n => u32 (n + 1) |>
               <| rcv_nxt ::= fun n => u32 (n + 1) |>)
      else kcp
  end.

(** The result is the return value, the bytes stored in the user's buffer and the
    new state. *)
Definition ikcp_recv `{Env} (kcp : ikcpcb) (has_buf : bool) (len : Z)
  : res (Z * list Z * ikcpcb) :=
  let ispeek := len <? 0 in
  match rcv_queue kcp with
  | [] => Ok (-1, [], kcp)
  | _ =>
      let len := if len <? 0 then i32 (- len) else len in
      let peeksize := ikcp_peeksize kcp in
      if peeksize <? 0 then Ok (-2, [], kcp)
      else if peeksize >? len then Ok (-3, [], kcp)
      else
        let recover := nrcv_que kcp >=? rcv_wnd kcp in
        let '(len, out, kcp) := recv_merge has_buf ispeek (rcv_queue kcp) kcp 0 [] in
        _ ← c_assert (len =? peeksize);
        let kcp := move_rcv_buf (rcv_buf kcp) kcp in
        let kcp :=
          if (nrcv_que kcp <? rcv_wnd kcp) && recover
          then kcp <| probe ::= fun p => Z.lor p IKCP_ASK_TELL |> else kcp in
        Ok (len, out, kcp)
  end.

(** ** The ack list *)

(** An access to a cell of the array: out of bounds, or never written, is a fault. *)
Definition array_set (l : list (option Z)) (i v : Z) : res (list (option Z)) :=
  if (0 <=? i) && (i <? Z.of_nat (length l)) then Ok (<[Z.to_nat i := Some v]> l)
  else Err OutOfBounds.
Definition array_get (l : option (list (option Z))) (i : Z) : res Z :=
  match l with
  | None => Err NullDeref
  | Some l =>
      if i <? 0 then Err OutOfBounds
      else
        match l !! Z.to_nat i with
        | Some (Some v) => Ok v
        | Some None => Err Uninitialised
        | None => Err OutOfBounds
        end
  end.

(** The copy loop of ikcp_ack_push: the first [2 * count] cells of [old] over those of
    [new]. *)
Definition copy_acks (old new : list (option Z)) (count : Z) : res (list (option Z)) :=
  let used := Z.to_nat (count * 2) in
  if (used <=? length old)%nat && (used <=? length new)%nat
  then Ok (take used old ++ drop used new) else Err OutOfBounds.

(** [for (newblock = 8; newblock < newsize; newblock <<= 1);] on 32 bits.  Thirty
    shifts reach 2^31, and one more gives 0, from which the loop never leaves when
    [newsize] is larger still. *)
Fixpoint grow_block (fuel : nat) (newblock newsize : Z) : res Z :=
  match fuel with
  | O => Err Diverges
  | S fuel =>
      if newblock <? newsize then grow_block fuel (u32 (Z.shiftl newblock 1)) newsize
      else Ok newblock
  end.

Definition ikcp_ack_push `{Env} (kcp : ikcpcb) (sn ts : Z) : res ikcpcb :=
  let newsize := u32 (ackcount kcp + 1) in
  kcp ← (if newsize >? ackblock kcp then
           newblock ← grow_block 32 8 newsize;
           let '(ok, kcp) := ikcp_malloc kcp (newblock * 4 * 2) in
           if negb ok then Err Aborted
           else
             let blank := replicate (Z.to_nat (newblock * 2)) (None : option Z) in
             new ← (match acklist kcp with
                    | Some old => copy_acks old blank (ackcount kcp)
                    | None => Ok blank
                    end);
             let kcp := if acklist kcp is Some _ then ikcp_free kcp else kcp in
             Ok (kcp <| acklist := Some new |> <| ackblock := newblock |>)
         else Ok kcp);
  match acklist kcp with
  | None => Err NullDeref
  | Some l =>
      l ← array_set l (u32 (ackcount kcp * 2)) sn;
      l ← array_set l (u32 (ackcount kcp * 2) + 1) ts;
      Ok (kcp <| acklist := Some l |> <| ackcount ::= fun n => u32 (n + 1) |>)
  end.

(** The two cells ikcp_ack_get copies out for index [p]. *)
Definition ikcp_ack_get (kcp : ikcpcb) (p : Z) : res (Z * Z) :=
  sn ← array_get (acklist kcp) (p * 2 + 0);
  ts ← array_get (acklist kcp) (p * 2 + 1);
  Ok (sn, ts).

(** ** ikcp_parse_data *)

(** The backward search of the place for [sn]: [before] is reversed, [after] is the
    part already passed.  The flag says that [sn] is a repeat. *)
Fixpoint find_slot (sn : Z) (before after : list IKCPSEG)
  : bool * list IKCPSEG * list IKCPSEG :=
  match before with
  | [] => (false, [], after)
  | seg :: prev =>
      if seg_sn seg =? sn then (true, before, after)
      else if _itimediff sn (seg_sn seg) >? 0 then (false, before, after)
      else find_slot sn prev (seg :: after)
  end.

(** [newseg] was just allocated; it is inserted or deleted. *)
Definition ikcp_parse_data (kcp : ikcpcb) (newseg : IKCPSEG) : ikcpcb :=
  let sn := seg_sn newseg in
  if (_itimediff sn (u32 (rcv_nxt kcp + rcv_wnd kcp)) >=? 0) || (_itimediff sn (rcv_nxt kcp) <? 0)
  then ikcp_segment_delete kcp
  else
    let '(repeat, before, after) := find_slot sn (rev (rcv_buf kcp)) [] in
    let kcp :=
      if negb repeat then
        kcp <| rcv_buf := rev before ++ newseg :: after |> <| nrcv_buf ::= fun n => u32 (n + 1) |>
      else ikcp_segment_delete kcp in
    move_rcv_buf (rcv_buf kcp) kcp.

(** ** The receiving side keeps its invariant *)

Ltac unrwf H := destruct H as [Hnxt Hwnd Hbuf Hnb Hnq Hmax Hsegs Hqueue].

Definition same_but_rcv (k k' : ikcpcb) : Prop :=
  k' = k <| rcv_buf := rcv_buf k' |> <| nrcv_buf := nrcv_buf k' |>
         <| rcv_queue := rcv_queue k' |> <| nrcv_que := nrcv_que k' |>
         <| rcv_nxt := rcv_nxt k' |> <| live := live k' |>.

Lemma same_but_rcv_refl k : same_but_rcv k k.
Proof. unfold same_but_rcv. by destruct k. Qed.

Lemma same_but_rcv_trans k1 k2 k3 :
  same_but_rcv k1 k2 -> same_but_rcv k2 k3 -> same_but_rcv k1 k3.
Proof. unfold same_but_rcv. intros H1 H2. rewrite H2, H1. reflexivity. Qed.

(** One iteration of the move loop. *)
Definition move_one (k : ikcpcb) (s : IKCPSEG) (l : list IKCPSEG) : ikcpcb :=
  k <| rcv_buf := l |> <| nrcv_buf ::= fun n => u32 (n - 1) |>
    <| rcv_queue ::= fun q => q ++ [s] |> <| nrcv_que ::= fun n => u32 (n + 1) |>
    <| rcv_nxt ::= fun n => u32 (n + 1) |>.

Lemma move_one_wf k s l :
  rcv_wf k -> rcv_buf k = s :: l -> seg_sn s = rcv_nxt k -> nrcv_que k < rcv_wnd k ->
  rcv_wf (move_one k s l).
Proof.
  intros H Eb Es Hlt. unrwf H. rewrite Eb in *.
  apply Forall_cons in Hsegs as [Hs Hsegs]. destruct Hbuf as [_ Hw].
  assert (off (rcv_nxt k) s = 0) as Ho by (unfold off; rewrite Es, Z.sub_diag; done).
  rewrite Ho in Hw. apply (window_rebase _ _ _ 1) in Hw; [|lia].
  pose proof (qlen_nonneg l). pose proof (qlen_nonneg (rcv_queue k)).
  assert (forall base lo hi m, window base lo hi m -> qlen m <= hi - lo) as Hq.
  { intros base lo hi m. revert lo. induction m as [|t m IH]; intros lo; cbn.
    - rewrite qlen_nil. lia.
    - intros [? ?%IH]. rewrite qlen_cons. lia. }
  pose proof (Hq _ _ _ _ Hw). autorewrite with queue in *.
  constructor; cbn; try assumption; autorewrite with queue.
  - apply u32_range.
  - eapply window_weaken; [exact Hw|lia|lia].
  - rewrite Hnb, Z.add_simpl_r. apply u32_small. lia.
  - rewrite Hnq. apply u32_small. lia.
  - lia.
  - apply Forall_app. split; [done|]. by apply Forall_singleton.
Qed.

(** The segments moved are the ones numbered [rcv_nxt], [rcv_nxt + 1], ... *)
Record moved (k k' : ikcpcb) (d : list IKCPSEG) : Prop := {
  moved_wf : rcv_wf k';
  moved_same : same_but_rcv k k';
  moved_buf : rcv_buf k = d ++ rcv_buf k';
  moved_queue : rcv_queue k' = rcv_queue k ++ d;
  moved_nxt : rcv_nxt k' = u32 (rcv_nxt k + qlen d);
  moved_live : live k' = live k;
  moved_sn : forall i s, d !! i = Some s -> seg_sn s = u32 (rcv_nxt k + Z.of_nat i);
  (** nothing that could move is left *)
  moved_all : match rcv_buf k' with
              | s :: _ => seg_sn s = rcv_nxt k' -> rcv_wnd k' <= nrcv_que k'
              | [] => True
              end }.

Lemma move_rcv_buf_spec l k :
  rcv_wf k -> rcv_buf k = l -> exists d, moved k (move_rcv_buf l k) d.
Proof.
  revert k. induction l as [|s l IH]; intros k Hk Eb; cbn [move_rcv_buf].
  - exists []. constructor; try done; [apply same_but_rcv_refl|by rewrite app_nil_r| |by rewrite Eb].
    rewrite qlen_nil, Z.add_0_r. symmetry. apply u32_small, Hk.
  - destruct (Z.eqb_spec (seg_sn s) (rcv_nxt k)) as [Es|Es]; cbn [andb].
    2:{ exists []. constructor; try done; [apply same_but_rcv_refl|by rewrite app_nil_r| |by rewrite Eb].
        rewrite qlen_nil, Z.add_0_r. symmetry. apply u32_small, Hk. }
    destruct (Z.ltb_spec (nrcv_que k) (rcv_wnd k)) as [Hlt|Hge].
    2:{ exists []. constructor; try done; [apply same_but_rcv_refl|by rewrite app_nil_r| |by rewrite Eb].
        rewrite qlen_nil, Z.add_0_r. symmetry. apply u32_small, Hk. }
    change (exists d, moved k (move_rcv_buf l (move_one k s l)) d).
    destruct (IH (move_one k s l)) as [d [Hwf Hsame Hb Hq Hn Hl Hsn Hall]];
      [by apply move_one_wf|done|].
    exists (s :: d). constructor; try done.
    + rewrite Eb. cbn. by rewrite <- Hb.
    + rewrite Hq. cbn. by rewrite <- app_assoc.
    + rewrite Hn. cbn. rewrite qlen_cons, u32_add_l. f_equal. lia.
    + intros [|i] t; cbn.
      * intros [= <-]. rewrite Z.add_0_r, u32_small; [done|apply Hk].
      * intros Ht%Hsn. rewrite Ht. cbn. rewrite u32_add_l. f_equal. lia.
Qed.

Lemma moved_forall P k k' d :
  moved k k' d -> Forall P (rcv_buf k) -> Forall P (rcv_queue k) ->
  Forall P (rcv_buf k') /\ Forall P (rcv_queue k').
Proof.
  intros H. rewrite (moved_buf _ _ _ H), (moved_queue _ _ _ H), !Forall_app. tauto.
Qed.

Lemma moved_leaked k k' d : moved k k' d -> leaked k' = leaked k.
Proof.
  intros H. unfold leaked, blocks. rewrite (moved_live _ _ _ H), (moved_buf _ _ _ H),
    (moved_queue _ _ _ H). rewrite (moved_same _ _ _ H). cbn. autorewrite with queue. lia.
Qed.

(** ** Insertion into [rcv_buf] *)

(** The place of a segment among segments sorted from [base]; a repeat is dropped. *)
Fixpoint insert_seg (base : Z) (new : IKCPSEG) (l : list IKCPSEG) : list IKCPSEG :=
  match l with
  | [] => [new]
  | s :: l' =>
      if off base new <? off base s then new :: l
      else if off base new =? off base s then l
      else s :: insert_seg base new l'
  end.

Lemma itimediff_offs base s sn :
  off base s < 2147483648 -> u32 (sn - base) < 2147483648 ->
  _itimediff sn (seg_sn s) = u32 (sn - base) - off base s.
Proof.
  intros Ho Hp. pose proof (off_range base s). pose proof (u32_range (sn - base)).
  apply itimediff_near; [lia|]. unfold off in *. wrap_lia.
Qed.

Lemma insert_seg_pass base new l1 l2 :
  (forall s, s ∈ l1 -> off base s < off base new) ->
  insert_seg base new (l1 ++ l2) = l1 ++ insert_seg base new l2.
Proof.
  induction l1 as [|s l1 IH]; intros Hl; cbn; [done|]. specialize (Hl s ltac:(by left)) as Hs.
  destruct (Z.ltb_spec (off base new) (off base s)); [lia|].
  destruct (Z.eqb_spec (off base new) (off base s)); [lia|].
  rewrite IH; [done|]. intros t Ht. apply Hl. by right.
Qed.

(** The backward search of the code finds the same place. *)
Lemma find_slot_insert base lo hi new before after :
  window base lo hi (rev before ++ after) -> hi <= 2147483648 ->
  Forall (fun s => is_u32 (seg_sn s)) (rev before ++ after) -> is_u32 (seg_sn new) ->
  off base new < 2147483648 ->
  (forall s, s ∈ after -> off base new < off base s) ->
  let '(repeat, before', after') := find_slot (seg_sn new) before after in
  rev before' ++ after' = rev before ++ after /\
  insert_seg base new (rev before ++ after) =
    if repeat then rev before ++ after else rev before' ++ new :: after'.
Proof.
  intros Hw Hhi Hsn Hn Hp. revert after Hw Hsn.
  induction before as [|s before IH]; intros after Hw Hsn Hafter; cbn [find_slot].
  - split; [done|]. cbn. destruct after as [|t after]; cbn; [done|].
    specialize (Hafter t ltac:(by left)). by destruct (Z.ltb_spec (off base new) (off base t)); [|lia].
  - cbn [rev] in *. rewrite <- app_assoc in *. cbn [app] in *.
    assert (is_u32 (seg_sn s)) as Hs.
    { rewrite Forall_forall in Hsn. apply Hsn. apply elem_of_app. right. by left. }
    assert (off base s < 2147483648) as Hso.
    { assert (lo <= off base s < hi); [|lia]. eapply window_elem; [done|].
      apply elem_of_app. right. by left. }
    assert (forall t, t ∈ rev before -> off base t < off base s) as Hbefore.
    { intros t Ht. apply window_app in Hw as (m & Hw1 & Hw2). cbn in Hw2.
      pose proof (window_elem _ _ _ _ _ Hw1 Ht). lia. }
    pose proof (itimediff_offs base s (seg_sn new) Hso Hp) as Hd.
    change (u32 (seg_sn new - base)) with (off base new) in Hd.
    destruct (Z.eqb_spec (seg_sn s) (seg_sn new)) as [He|Hne].
    + cbn. rewrite <- app_assoc. cbn [app]. split; [done|].
      assert (off base new = off base s) as Eo by (unfold off; by rewrite He).
      rewrite insert_seg_pass by (intros t ?%Hbefore; lia). f_equal. cbn. rewrite Eo.
      by rewrite Z.ltb_irrefl, Z.eqb_refl.
    + assert (off base new <> off base s) as Hoff by (intros ?%off_inj; auto).
      destruct (Z.gtb_spec (_itimediff (seg_sn new) (seg_sn s)) 0) as [Hg|Hg].
      * cbn. rewrite <- !app_assoc. cbn [app]. split; [done|].
        rewrite insert_seg_pass by (intros t ?%Hbefore; lia). f_equal. cbn.
        destruct (Z.ltb_spec (off base new) (off base s)); [lia|].
        destruct (Z.eqb_spec (off base new) (off base s)); [lia|]. f_equal.
        destruct after as [|t after]; cbn; [done|]. specialize (Hafter t ltac:(by left)).
        by destruct (Z.ltb_spec (off base new) (off base t)); [|lia].
      * apply IH; try done. intros t [->|Ht]%elem_of_cons; [lia|]. by apply Hafter.
Qed.

Definition in_buf (sn : Z) (l : list IKCPSEG) : bool := existsb (fun s => seg_sn s =? sn) l.

Lemma insert_seg_window base lo hi new l :
  window base lo hi l -> lo <= off base new < hi -> window base lo hi (insert_seg base new l).
Proof.
  revert lo. induction l as [|s l IH]; intros lo; cbn; [lia|]. intros [? Hw] ?.
  destruct (Z.ltb_spec (off base new) (off base s)).
  - cbn. split; [lia|]. split; [lia|]. done.
  - destruct (Z.eqb_spec (off base new) (off base s)); [done|]. cbn. split; [done|].
    apply IH; [done|lia].
Qed.

Lemma insert_seg_elem base new l s : s ∈ insert_seg base new l -> s = new \/ s ∈ l.
Proof.
  induction l as [|t l IH]; cbn; [set_solver|].
  destruct (_ <? _); [set_solver|]. destruct (_ =? _); [set_solver|].
  intros [->|?%IH]%elem_of_cons; set_solver.
Qed.

Lemma window_qlen base lo hi l : window base lo hi l -> qlen l <= hi - lo.
Proof.
  revert lo. induction l as [|t l IH]; intros lo; cbn.
  - rewrite qlen_nil. lia.
  - intros [? ?%IH]. rewrite qlen_cons. lia.
Qed.

(** What ikcp_parse_data does before it moves segments to [rcv_queue]. *)
Definition inserted (k : ikcpcb) (new : IKCPSEG) : ikcpcb :=
  let l := insert_seg (rcv_nxt k) new (rcv_buf k) in
  k <| rcv_buf := l |> <| nrcv_buf := qlen l |>
    <| live ::= fun n => n - 1 + (qlen l - qlen (rcv_buf k)) |>.

Lemma inserted_wf k new :
  rcv_wf k -> seg_wf 2147483647 new -> off (rcv_nxt k) new < 2147483648 ->
  rcv_wf (inserted k new).
Proof.
  intros H Hn Ho. pose proof (off_range (rcv_nxt k) new). unrwf H.
  constructor; cbn; try assumption; [apply insert_seg_window; [done|lia]|done|].
  apply Forall_forall. intros s [->|Hs]%insert_seg_elem; [done|].
  rewrite Forall_forall in Hsegs. auto.
Qed.

(** The tests of the receive window, on the offset from [rcv_nxt]. *)
Lemma in_window base wnd sn :
  0 < wnd < 2147483648 ->
  (_itimediff sn (u32 (base + wnd)) >=? 0) || (_itimediff sn base <? 0) = negb (u32 (sn - base) <? wnd).
Proof.
  intros Hw. assert (_itimediff sn (u32 (base + wnd)) = i32 (u32 (sn - base) - wnd)) as ->.
  { unfold _itimediff. rewrite u32_sub_r, <- (i32_u32 (u32 (sn - base) - wnd)), u32_sub_l.
    do 2 f_equal. lia. }
  rewrite itimediff_i32, <- (i32_u32 (sn - base)). set (p := u32 (sn - base)).
  assert (0 <= p < 4294967296) by apply u32_range. clearbody p.
  destruct (Z.ltb_spec p wnd); cbn; wrap_lia.
Qed.

(** A segment outside the window [rcv_nxt, rcv_nxt + rcv_wnd) is dropped; one inside is
    put in order, unless it repeats one that is there; then the longest run of
    segments that follow what was received is moved to [rcv_queue]. *)
Theorem parse_data_exact k new :
  rcv_wf k -> seg_wf 2147483647 new ->
  if u32 (seg_sn new - rcv_nxt k) <? rcv_wnd k
  then exists d, moved (inserted k new) (ikcp_parse_data k new) d
  else ikcp_parse_data k new = ikcp_segment_delete k.
Proof.
  intros H Hn. pose proof H as H'. unrwf H'. unfold ikcp_parse_data.
  rewrite in_window by lia. destruct (Z.ltb_spec (u32 (seg_sn new - rcv_nxt k)) (rcv_wnd k)); cbn [negb]; [|done].
  assert (off (rcv_nxt k) new < 2147483648) as Ho by (unfold off; lia).
  pose proof (find_slot_insert (rcv_nxt k) 0 2147483648 new (rev (rcv_buf k)) []) as Hf.
  rewrite rev_involutive, app_nil_r in Hf.
  destruct (find_slot (seg_sn new) (rev (rcv_buf k)) []) as [[rep bef] aft].
  destruct Hf as [Heq Hins]; try done; [|apply Hn|set_solver|].
  { eapply Forall_impl; [done|]. by intros s [? _]. }
  match goal with |- exists d, moved _ (move_rcv_buf _ ?k1) d => assert (k1 = inserted k new) as -> end.
  { unfold inserted. rewrite Hins. pose proof (window_qlen _ _ _ _ Hbuf).
    destruct rep; cbn [negb].
    - unfold ikcp_segment_delete, ikcp_free. unfold upd, set_rcv_buf, set_nrcv_buf, set_live. cbn.
      rewrite <- Hnb. replace (live k - 1 + (nrcv_buf k - nrcv_buf k)) with (live k - 1) by lia.
      by destruct k.
    - unfold upd, set_rcv_buf, set_nrcv_buf, set_live. cbn. rewrite <- Heq in *.
      autorewrite with queue in *. rewrite Hnb. rewrite u32_small by (unfold qlen in *; lia).
      replace (live k - 1 + _) with (live k) by lia.
      replace (qlen (rev bef) + qlen aft + 1) with (qlen (rev bef) + (qlen aft + 1)) by lia.
      by destruct k. }
  apply move_rcv_buf_spec; [by apply inserted_wf|done].
Qed.

Lemma same_but_rcv_wf k k' :
  same_but_rcv k k' ->
  (snd_wf k -> snd_wf k') /\ (ctl_wf k -> ctl_wf k') /\ (una_tight k -> una_tight k') /\
  (forall ps, ack_rep k ps -> ack_rep k' ps).
Proof.
  intros ->. split_and!; try (intros; carry_wf); [done|]. intros ps []. by constructor.
Qed.

Lemma ikcp_parse_data_wf k new :
  rcv_wf k -> seg_wf 2147483647 new ->
  rcv_wf (ikcp_parse_data k new) /\ same_but_rcv k (ikcp_parse_data k new) /\
  leaked (ikcp_parse_data k new) = leaked k - 1.
Proof.
  intros H Hn. pose proof (parse_data_exact k new H Hn) as Hp.
  destruct (Z.ltb_spec (u32 (seg_sn new - rcv_nxt k)) (rcv_wnd k)).
  - destruct Hp as [d Hd]. split_and!; [apply Hd| |].
    + eapply same_but_rcv_trans; [|apply Hd]. reflexivity.
    + rewrite (moved_leaked _ _ _ Hd). unfold leaked, blocks. cbn. lia.
  - rewrite Hp. split_and!; [|by destruct k|].
    + unrwf H. by constructor.
    + unfold leaked, blocks. cbn. lia.
Qed.

(** ** The ack list *)

(** The loop that computes the new capacity stops at a power of two large enough as long
    as one fits in 32 bits; thirty-two rounds are enough. *)
Lemma grow_block_spec fuel newblock newsize :
  0 < newblock <= 2147483648 -> 0 < newsize <= 2147483648 -> newsize <= 2 ^ Z.of_nat fuel * newblock ->
  (exists j, 0 <= j <= 31 /\ newblock = 2 ^ j) ->
  exists b, grow_block (S fuel) newblock newsize = Ok b /\ newsize <= b <= 2147483648 /\
    newblock <= b.
Proof.
  revert newblock. induction fuel as [|fuel IH]; intros nb Hnb Hns Hf (j & Hj & Ej).
  - cbn in Hf. exists nb. cbn. destruct (Z.ltb_spec nb newsize); [lia|]. split; [done|lia].
  - cbn [grow_block]. destruct (Z.ltb_spec nb newsize) as [Hlt|]; [|exists nb; split; [done|lia]].
    assert (j < 31) by (assert (j <> 31); [intros ->; change (2 ^ 31) with 2147483648 in Ej; lia|lia]).
    assert (nb * 2 = 2 ^ (j + 1)) as E2 by (rewrite Z.pow_add_r by lia; subst nb; lia).
    assert (2 ^ (j + 1) <= 2 ^ 31) by (apply Z.pow_le_mono_r; lia).
    rewrite Z.shiftl_mul_pow2 by lia. change (2 ^ 1) with 2. rewrite u32_small by lia.
    destruct (IH (nb * 2)) as (b & Hb & ? & ?); [lia|lia| |exists (j + 1); lia|].
    + rewrite Nat2Z.inj_succ, Z.pow_succ_r in Hf by lia. lia.
    + exists b. split; [exact Hb|lia].
Qed.

Lemma grow_block_ok newsize :
  0 < newsize <= 2147483648 ->
  exists b, grow_block 32 8 newsize = Ok b /\ newsize <= b <= 2147483648 /\ 8 <= b.
Proof.
  intros Hn. apply grow_block_spec; [lia|done|cbn; lia|]. exists 3. done.
Qed.

Lemma length_pack ps : Z.of_nat (length (pack ps)) = 2 * Z.of_nat (length ps).
Proof.
  unfold pack. induction ps as [|[sn ts] ps IH]; cbn; [done|]. cbn in IH. lia.
Qed.

Lemma pack_app ps qs : pack (ps ++ qs) = pack ps ++ pack qs.
Proof. unfold pack. by rewrite bind_app. Qed.

Lemma pack_lookup ps i sn ts :
  ps !! i = Some (sn, ts) ->
  pack ps !! (2 * i)%nat = Some (Some sn) /\ pack ps !! (2 * i + 1)%nat = Some (Some ts).
Proof.
  revert i. induction ps as [|[sn' ts'] ps IH]; intros [|i]; cbn; try done.
  - intros [= -> ->]. done.
  - intros (H1 & H2)%IH. unfold pack in *. cbn.
    replace (i + S (i + 0))%nat with (S (2 * i))%nat by lia. cbn. split; [exact H1|].
    replace (i + S (i + 0) + 1)%nat with (S (2 * i + 1))%nat by lia. done.
Qed.

Definition same_but_acks (k k' : ikcpcb) : Prop :=
  k' = k <| acklist := acklist k' |> <| ackcount := ackcount k' |> <| ackblock := ackblock k' |>
         <| nalloc := nalloc k' |> <| live := live k' |>.

Lemma array_set_two l ps rest a b sn ts :
  l = pack ps ++ a :: b :: rest ->
  array_set l (2 * Z.of_nat (length ps)) sn ≫= (fun l => array_set l (2 * Z.of_nat (length ps) + 1) ts)
    = Ok (pack (ps ++ [(sn, ts)]) ++ rest).
Proof.
  intros ->. pose proof (length_pack ps) as Hlp. unfold array_set. rewrite length_app. cbn [length].
  match goal with |- context [if ?b then _ else _] => assert (b = true) as -> by (rewrite andb_true_iff, Z.leb_le, Z.ltb_lt; lia) end.
  cbn [mbind res_bind]. rewrite length_insert, length_app. cbn [length].
  match goal with |- context [if ?b then _ else _] => assert (b = true) as -> by (rewrite andb_true_iff, Z.leb_le, Z.ltb_lt; lia) end.
  f_equal. rewrite pack_app.
  replace (Z.to_nat (2 * Z.of_nat (length ps))) with (length (pack ps) + 0)%nat by lia.
  replace (Z.to_nat (2 * Z.of_nat (length ps) + 1)) with (length (pack ps) + 1)%nat by lia.
  rewrite !insert_app_r. rewrite <- app_assoc. done.
Qed.

Section Acks.
Context `{env : Env}.

(** What ikcp_ack_push may do: stop where malloc has failed, or record one more. *)
Definition ack_pushed (k : ikcpcb) (ps : list (Z * Z)) (a : Z * Z) (m : res ikcpcb) : Prop :=
  safely (fun e => e = Aborted /\ exists size, malloc_succeeds (nalloc k) size = false) m
    (fun k' => ack_rep k' (ps ++ [a]) /\ same_but_acks k k' /\ leaked k' = leaked k).

(** The two stores, once the list has room. *)
Lemma store_ack k k1 ps sn ts a b rest :
  ack_rep k ps -> is_u32 sn -> is_u32 ts -> Z.of_nat (length ps) < 1073741824 ->
  acklist k1 = Some (pack ps ++ a :: b :: rest) -> ackcount k1 = ackcount k -> is_u32 (ackblock k1) ->
  Z.of_nat (length (pack ps ++ a :: b :: rest)) = 2 * ackblock k1 ->
  same_but_acks k k1 -> leaked k1 = leaked k ->
  ack_pushed k ps (sn, ts)
    (match acklist k1 with
     | None => Err NullDeref
     | Some l =>
         l ← array_set l (u32 (ackcount k1 * 2)) sn;
         l ← array_set l (u32 (ackcount k1 * 2) + 1) ts;
         Ok (k1 <| acklist := Some l |> <| ackcount ::= fun n => u32 (n + 1) |>)
     end).
Proof.
  intros [Hc Hr Hb Ha] Hsn Hts Hlen El Ec Hb1 Hl1 Hs Hlk. unfold is_u32, ack_pushed in *. pose proof (length_pack ps) as Hlp.
  rewrite El, Ec, Hc, u32_small by lia.
  pose proof (array_set_two _ ps rest a b sn ts eq_refl) as Hset.
  replace (Z.of_nat (length ps) * 2) with (2 * Z.of_nat (length ps)) by lia.
  destruct (array_set (pack ps ++ _) _ sn) as [l1|e] eqn:E1; [|discriminate].
  cbn [mbind res_bind] in *. rewrite Hset. cbn [mbind res_bind safely]. split_and!.
  - constructor; cbn; try done.
    + rewrite Ec, Hc, u32_small, length_app by lia. cbn. lia.
    + apply Forall_app. split; [done|]. by apply Forall_singleton.
    + exists rest. split; [done|]. rewrite <- Hl1, pack_app, !length_app. cbn. lia.
  - unfold same_but_acks in *. rewrite Hs at 1. reflexivity.
  - unfold leaked, blocks in *. cbn. rewrite El in Hlk. exact Hlk.
Qed.

(** A block of [nb] pairs has room behind the acknowledgements copied into it. *)
Lemma grown_list (ps : list (Z * Z)) nb :
  Z.of_nat (length ps) + 1 <= nb ->
  exists a b rest, Z.of_nat (length (pack ps ++ a :: b :: rest)) = 2 * nb /\
    replicate (Z.to_nat (nb * 2)) (None : option Z) = replicate (length (pack ps)) None ++ a :: b :: rest.
Proof.
  intros Hnb. pose proof (length_pack ps) as Hlp. exists None, None, (replicate (Z.to_nat (nb * 2) - length (pack ps) - 2) None). split.
  - rewrite length_app. cbn. rewrite length_replicate. lia.
  - replace (Z.to_nat (nb * 2)) with (length (pack ps) + S (S (Z.to_nat (nb * 2) - length (pack ps) - 2)))%nat at 1 by lia.
    by rewrite replicate_add.
Qed.

Lemma copy_acks_pack (ps : list (Z * Z)) count blank rest' tail :
  count = Z.of_nat (length ps) -> blank = replicate (length (pack ps)) None ++ tail ->
  copy_acks (pack ps ++ rest') blank count = Ok (pack ps ++ tail).
Proof.
  intros -> ->. pose proof (length_pack ps) as Hlp. unfold copy_acks.
  replace (Z.to_nat (Z.of_nat (length ps) * 2)) with (length (pack ps)) by lia.
  rewrite !(proj2 (Nat.leb_le _ _)) by (rewrite length_app, ?length_replicate; lia). cbn [andb].
  rewrite take_app_length. by rewrite drop_app_length' by (by rewrite length_replicate).
Qed.

(** ikcp_ack_push appends to the list of acknowledgements, growing the array when it
    is full.  Only a refused allocation stops it. *)
Theorem ikcp_ack_push_exact k ps sn ts :
  ack_rep k ps -> is_u32 sn -> is_u32 ts -> Z.of_nat (length ps) < 1073741824 ->
  safely (fun e => e = Aborted /\ exists size, malloc_succeeds (nalloc k) size = false)
    (ikcp_ack_push k sn ts)
    (fun k' => ack_rep k' (ps ++ [(sn, ts)]) /\ same_but_acks k k' /\ leaked k' = leaked k).
Proof.
  intros Hrep Hsn Hts Hlen. pose proof (fun k1 a b rest => store_ack k k1 ps sn ts a b rest Hrep Hsn Hts Hlen) as Hstore.
  destruct Hrep as [Hc Hr Hb Ha]. unfold ikcp_ack_push, is_u32, ack_pushed in *. pose proof (length_pack ps) as Hlp.
  rewrite u32_small by lia. destruct (Z.gtb_spec (ackcount k + 1) (ackblock k)) as [Hg|Hg].
  - destruct (grow_block_ok (ackcount k + 1)) as (nb & -> & Hnb & Hnb8); [lia|].
    cbn [mbind res_bind]. unfold ikcp_malloc. cbn zeta.
    set (ok := malloc_succeeds _ _). destruct ok eqn:Eok; cbn [negb];
      [|cbn; split; [done|eexists; exact Eok]].
    destruct (grown_list ps nb) as (a & b & rest & Hnl & Erep); [lia|].
    set (blank := replicate _ (None : option Z)) in *. clearbody blank. cbn. destruct (acklist k) as [old|] eqn:Eacks.
    + destruct Ha as (rest' & -> & Hold). rewrite (copy_acks_pack ps _ blank rest' (a :: b :: rest) Hc Erep).
      rewrite !bind_ret. apply (Hstore _ a b rest); [done|done|cbn; lia|exact Hnl|done|].
      unfold leaked, blocks. cbn. rewrite Eacks. lia.
    + destruct Ha as [-> ?]. cbn in Erep, Hnl. cbn [mbind res_bind].
      eapply (Hstore _ a b rest); try done; cbn; [by rewrite Erep|lia|].
      unfold leaked, blocks. cbn. rewrite Eacks. lia.
  - cbn [mbind res_bind]. destruct (acklist k) as [l|] eqn:El; [|lia].
    destruct Ha as (rest & -> & Hl2). pose proof Hl2 as Hl3. rewrite length_app in Hl3.
    destruct rest as [|a [|b rest]]; [cbn in Hl3; lia|cbn in Hl3; lia|].
    specialize (Hstore k a b rest El eq_refl Hb). rewrite El in Hstore. apply Hstore; [done| |done].
    unfold same_but_acks. by destruct k.
Qed.

Lemma ikcp_ack_get_exact k ps i sn ts :
  ack_rep k ps -> ps !! i = Some (sn, ts) -> ikcp_ack_get k (Z.of_nat i) = Ok (sn, ts).
Proof.
  intros [_ _ _ Ha] Hi. unfold ikcp_ack_get, array_get. destruct (acklist k) as [l|].
  - destruct Ha as (rest & -> & _). apply pack_lookup in Hi as [H1 H2].
    destruct (Z.ltb_spec (Z.of_nat i * 2 + 0) 0); [lia|].
    destruct (Z.ltb_spec (Z.of_nat i * 2 + 1) 0); [lia|].
    replace (Z.to_nat (Z.of_nat i * 2 + 0)) with (2 * i)%nat by lia.
    replace (Z.to_nat (Z.of_nat i * 2 + 1)) with (2 * i + 1)%nat by lia.
    by rewrite (lookup_app_l_Some _ _ _ _ H1), (lookup_app_l_Some _ _ _ _ H2).
  - destruct Ha as [-> _]. done.
Qed.

Lemma same_but_acks_wf k k' :
  same_but_acks k k' ->
  (snd_wf k -> snd_wf k') /\ (rcv_wf k -> rcv_wf k') /\ (ctl_wf k -> ctl_wf k') /\
  (una_tight k -> una_tight k').
Proof. intros ->. split_and!; try (intros; carry_wf); done. Qed.
End Acks.

(** ** ikcp_recv *)

(** The segments of the first message of the queue, up to the one numbered 0, and the rest. *)
Fixpoint first_message (l : list IKCPSEG) : list IKCPSEG * list IKCPSEG :=
  match l with
  | [] => ([], [])
  | s :: l =>
      if seg_frg s =? 0 then ([s], l)
      else let '(m, rest) := first_message l in (s :: m, rest)
  end.

Lemma first_message_app l m rest : first_message l = (m, rest) -> l = m ++ rest.
Proof.
  revert m rest. induction l as [|s l IH]; intros m rest; cbn; [by intros [= <- <-]|].
  destruct (_ =? _); [by intros [= <- <-]|]. destruct (first_message l) as [m' r'].
  intros [= <- <-]. cbn. f_equal. by apply IH.
Qed.

(** The sum of the lengths, in [int]. *)
Definition add_lens (a : Z) (m : list IKCPSEG) : Z :=
  foldl (fun a s => i32 (u32 (a + seg_len s))) a m.

Definition msg_bytes (m : list IKCPSEG) : list Z := mjoin (seg_bytes <$> m).

Lemma peeksize_loop_spec l m rest a :
  first_message l = (m, rest) -> peeksize_loop l a = add_lens a m.
Proof.
  revert a m rest. induction l as [|s l IH]; intros a m rest; cbn; [by intros [= <- <-]|].
  destruct (_ =? _); [by intros [= <- <-]|]. destruct (first_message l) as [m' r'] eqn:E.
  intros [= <- <-]. cbn. by eapply IH.
Qed.

(** The message [m] taken off the queue. *)
Definition popped (k : ikcpcb) (m rest : list IKCPSEG) : ikcpcb :=
  k <| rcv_queue := rest |> <| nrcv_que := nrcv_que k - qlen m |> <| live := live k - qlen m |>.

Lemma popped_popped k m1 r1 m2 r2 : popped (popped k m1 r1) m2 r2 = popped k (m1 ++ m2) r2.
Proof.
  unfold popped at 3. rewrite qlen_app, !Z.sub_add_distr. reflexivity.
Qed.

Lemma recv_merge_spec has_buf ispeek l m rest k a out :
  first_message l = (m, rest) -> rcv_queue k = l -> nrcv_que k = qlen l -> qlen l < 4294967296 ->
  recv_merge has_buf ispeek l k a out =
    (add_lens a m, out ++ (if has_buf then msg_bytes m else []),
     if ispeek then k else popped k m rest).
Proof.
  assert (forall k, rcv_queue k = [] -> nrcv_que k = 0 -> popped k [] [] = k) as Hnil.
  { intros k1 E1 E2. unfold popped, upd, set_rcv_queue, set_nrcv_que, set_live, qlen. cbn.
    rewrite E2, !Z.sub_0_r. destruct k1; cbn in *. by subst. }
  revert k a out m rest. induction l as [|s l IH]; intros k a out m rest Hm Eq En Hl; cbn in *.
  - injection Hm as <- <-. rewrite Hnil by done. unfold msg_bytes. cbn.
    by destruct has_buf, ispeek; rewrite ?app_nil_r.
  - autorewrite with queue in *. pose proof (qlen_nonneg l).
    set (k1 := ikcp_segment_delete (k <| rcv_queue := l |>) <| nrcv_que ::= fun n => u32 (n - 1) |>).
    assert (k1 = popped k [s] l) as Ek1.
    { subst k1. unfold popped, ikcp_segment_delete, ikcp_free, upd, set_rcv_queue, set_nrcv_que,
        set_live, qlen. cbn. by rewrite u32_small by lia. }
    destruct (seg_frg s =? 0).
    + injection Hm as <- <-. rewrite Ek1. unfold msg_bytes. cbn. rewrite app_nil_r.
      by destruct has_buf; rewrite ?app_nil_r.
    + destruct (first_message l) as [m' r'] eqn:E. injection Hm as <- <-.
      destruct ispeek.
      * specialize (IH (popped k [s] l) (i32 (u32 (a + seg_len s))) (if has_buf then out ++ seg_bytes s else out) m' r' eq_refl).
        assert (forall h l k1 k2 a out, fst (recv_merge h true l k1 a out) = fst (recv_merge h true l k2 a out)
          /\ snd (recv_merge h true l k1 a out) = k1) as Hpeek.
        { clear. intros h l. induction l as [|s l IH]; intros k1 k2 a out; cbn; [done|].
          destruct (_ =? _); [done|]. apply IH. }
        destruct (Hpeek has_buf l k (popped k [s] l) (i32 (u32 (a + seg_len s)))
          (if has_buf then out ++ seg_bytes s else out)) as [Hf Hs].
        rewrite (surjective_pairing (recv_merge _ _ _ _ _ _)), Hf, Hs, IH; try done; [|cbn; unfold qlen in *; cbn; lia|lia].
        cbn. unfold msg_bytes. cbn. destruct has_buf; [|done]. by rewrite <- app_assoc.
      * rewrite (IH k1 _ _ m' r') by (rewrite ?Ek1; cbn; try done; unfold qlen in *; cbn; lia).
        rewrite Ek1. unfold msg_bytes. cbn.
        apply pair_equal_spec. split; [apply pair_equal_spec; split; [done|]|].
        -- destruct has_buf; [|done]. by rewrite <- app_assoc.
        -- by rewrite popped_popped.
Qed.

Lemma popped_wf k m rest :
  rcv_wf k -> rcv_queue k = m ++ rest ->
  rcv_wf (popped k m rest) /\ leaked (popped k m rest) = leaked k.
Proof.
  intros H Eq. split.
  - unrwf H. rewrite Eq in *. autorewrite with queue in *. apply Forall_app in Hqueue as [_ ?].
    pose proof (qlen_nonneg m). constructor; cbn; try assumption; lia.
  - unfold leaked, blocks. cbn. rewrite Eq. autorewrite with queue. lia.
Qed.

(** A message can be read when all its segments are there: the number of the first one
    says how many follow. *)
Definition recv_ready (k : ikcpcb) : bool :=
  match rcv_queue k with
  | [] => false
  | s :: _ => (seg_frg s =? 0) || (seg_frg s + 1 <=? nrcv_que k)
  end.

(** The outcomes of ikcp_recv.  A call that gives a message takes it off the queue, unless
    it only peeks ([len] negative), and then lets waiting segments into the queue. *)
Inductive recv_result (k : ikcpcb) (has_buf : bool) (len : Z) : Z * list Z * ikcpcb -> Prop :=
  | recv_empty : rcv_queue k = [] -> recv_result k has_buf len (-1, [], k)
  | recv_incomplete m rest :
      rcv_queue k <> [] -> first_message (rcv_queue k) = (m, rest) ->
      recv_ready k = false \/ add_lens 0 m < 0 -> recv_result k has_buf len (-2, [], k)
  | recv_too_long m rest :
      recv_ready k = true -> first_message (rcv_queue k) = (m, rest) ->
      i32 (Z.abs len) < add_lens 0 m -> recv_result k has_buf len (-3, [], k)
  | recv_message m rest d k' :
      recv_ready k = true -> first_message (rcv_queue k) = (m, rest) ->
      0 <= add_lens 0 m <= i32 (Z.abs len) ->
      moved (if len <? 0 then k else popped k m rest) k' d ->
      recv_result k has_buf len
        (add_lens 0 m, if has_buf then msg_bytes m else [],
         if (nrcv_que k' <? rcv_wnd k') && (rcv_wnd k <=? nrcv_que k)
         then k' <| probe ::= fun p => Z.lor p IKCP_ASK_TELL |> else k').

Lemma ikcp_peeksize_exact k m rest :
  rcv_wf k -> first_message (rcv_queue k) = (m, rest) ->
  ikcp_peeksize k = if recv_ready k then add_lens 0 m else -1.
Proof.
  intros H Hm. unrwf H. unfold ikcp_peeksize, recv_ready. destruct (rcv_queue k) as [|s q] eqn:Eq; [done|].
  apply Forall_cons in Hqueue as [(_ & Hf & Hl & Hl2 & _) _]. unfold is_byte in Hf.
  cbn [first_message] in Hm. destruct (Z.eqb_spec (seg_frg s) 0) as [E|E]; cbn [orb].
  - injection Hm as <- <-. cbn. by rewrite i32_u32.
  - rewrite (u32_small (seg_frg s + 1)) by lia. destruct (Z.ltb_spec (nrcv_que k) (seg_frg s + 1)).
    + by destruct (Z.leb_spec (seg_frg s + 1) (nrcv_que k)); [lia|].
    + destruct (Z.leb_spec (seg_frg s + 1) (nrcv_que k)); [|lia].
      eapply peeksize_loop_spec. cbn. by rewrite (proj2 (Z.eqb_neq _ _) E).
Qed.

Section Recv.
Context `{env : Env}.

(** ikcp_recv always returns: the assert on the length it merged cannot fail. *)
Theorem ikcp_recv_exact k has_buf len :
  rcv_wf k -> is_i32 len -> returns (ikcp_recv k has_buf len) (recv_result k has_buf len).
Proof.
  intros H Hlen. unfold is_i32 in Hlen. unfold ikcp_recv.
  destruct (first_message (rcv_queue k)) as [m rest] eqn:Em.
  pose proof (ikcp_peeksize_exact k m rest H Em) as Hp.
  destruct (rcv_queue k) as [|s q] eqn:Eq; [by apply returns_Ok, recv_empty|]. rewrite <- Eq in *.
  assert (rcv_queue k <> []) as Hne by by rewrite Eq.
  assert ((if len <? 0 then i32 (- len) else len) = i32 (Z.abs len)) as ->.
  { destruct (Z.ltb_spec len 0); [|rewrite Z.abs_eq, i32_small; lia]. by rewrite Z.abs_neq by lia. }
  rewrite Hp. destruct (recv_ready k) eqn:Er; [|by apply returns_Ok; eapply recv_incomplete; eauto].
  destruct (Z.ltb_spec (add_lens 0 m) 0) as [Hneg|Hpos];
    [by apply returns_Ok; eapply recv_incomplete; eauto|].
  destruct (Z.gtb_spec (add_lens 0 m) (i32 (Z.abs len))) as [Hbig|Hsmall];
    [by apply returns_Ok; eapply recv_too_long; eauto|].
  pose proof H as H'. unrwf H'. rewrite (recv_merge_spec _ _ _ m rest) by (done || lia).
  rewrite Z.eqb_refl. unfold c_assert. cbn [orb mbind res_bind app].
  pose proof (first_message_app _ _ _ Em) as Eapp.
  destruct (move_rcv_buf_spec (rcv_buf (if len <? 0 then k else popped k m rest))
    (if len <? 0 then k else popped k m rest)) as [d Hd]; [|done|].
  { destruct (len <? 0); [done|]. by apply popped_wf. }
  apply returns_Ok. rewrite Z.geb_leb. by eapply recv_message.
Qed.

Lemma ikcp_recv_wf k has_buf len :
  kcp_wf k -> is_i32 len ->
  returns (ikcp_recv k has_buf len) (fun '(_, _, k') => kcp_wf k').
Proof.
  intros Hk Hlen. eapply returns_mono; [by apply ikcp_recv_exact; [apply Hk|]|].
  intros [[r out] k'] Hr. inversion Hr as [| | |m rest d k1 Hrd Hm _ Hd]; subst; try done.
  pose proof Hk as [Hs Hrc Hc Hu [ps Ha] Hl]. pose proof (moved_leaked _ _ _ Hd) as Hlk.
  apply first_message_app in Hm.
  assert (same_but_rcv k k1) as Hsame.
  { eapply same_but_rcv_trans; [|apply Hd]. destruct (len <? 0); [apply same_but_rcv_refl|].
    by destruct k. }
  apply same_but_rcv_wf in Hsame as (H1 & H2 & H3 & H4).
  assert (kcp_wf k1) as [? ? ? ? [? []] ?].
  { constructor; auto; [apply Hd|by eauto|]. rewrite Hlk. destruct (len <? 0); [done|].
    rewrite (proj2 (popped_wf k m rest Hrc Hm)). done. }
  destruct (_ && _); constructor; try carry_wf; try done; eexists; by constructor.
Qed.

(** *** A whole message *)

(** The segments of a message of [n] fragments, as the network delivered them. *)
Definition is_message (m : list IKCPSEG) (b : list Z) : Prop :=
  m <> [] /\ mjoin (seg_bytes <$> m) = b /\
  forall i s, m !! i = Some s -> seg_frg s = Z.of_nat (length m - 1 - i).

Lemma first_message_fragments m b rest :
  is_message m b -> first_message (m ++ rest) = (m, rest).
Proof.
  intros (Hne & _ & Hf). clear b. induction m as [|s m IH]; [done|]. cbn.
  pose proof (Hf O s eq_refl) as Hs. cbn in Hs. destruct m as [|t m].
  - cbn in Hs. by rewrite Hs.
  - destruct (Z.eqb_spec (seg_frg s) 0); [cbn in Hs; lia|]. rewrite IH; [done|done|].
    intros i u Hu. rewrite (Hf (S i) u Hu). cbn. f_equal. lia.
Qed.

Lemma add_lens_exact a m :
  Forall (seg_wf 2147483647) m -> 0 <= a -> a + Z.of_nat (length (msg_bytes m)) < 2147483648 ->
  add_lens a m = a + Z.of_nat (length (msg_bytes m)).
Proof.
  unfold msg_bytes. intros Hm. revert a.
  induction Hm as [|s m (_ & _ & Hl & _ & _) Hm IH]; intros a Ha Hb; cbn in *; [lia|].
  rewrite length_app in *. assert (Z.of_nat (length (seg_bytes s)) = seg_len s) as Hsb.
  { unfold seg_bytes. rewrite length_take. lia. }
  rewrite u32_small by lia. rewrite i32_small by lia. unfold mjoin in *. rewrite IH by lia. lia.
Qed.

(** C8: Reassembly: when a complete message is at the head of the queue and fits the
    buffer, one call stores exactly its bytes, returns their number, and removes it. *)
Theorem ikcp_recv_reassembles k m b rest len :
  rcv_wf k -> rcv_queue k = m ++ rest -> is_message m b ->
  Z.of_nat (length b) <= len < 2147483648 ->
  returns (ikcp_recv k true len) (fun '(r, out, k') =>
    r = Z.of_nat (length b) /\ out = b /\
    exists d, rcv_queue k' = rest ++ d /\ rcv_buf k = d ++ rcv_buf k').
Proof.
  intros H Eq Hmsg Hlen. pose proof (first_message_fragments m b rest Hmsg) as Hfm.
  assert (add_lens 0 m = Z.of_nat (length b)) as Hadd.
  { destruct Hmsg as (_ & <- & _). apply (add_lens_exact 0); [|lia|unfold msg_bytes; lia].
    unrwf H. rewrite Eq in Hqueue. by apply Forall_app in Hqueue as [? _]. }
  assert (recv_ready k = true) as Hrd.
  { destruct Hmsg as (Hne & _ & Hf). unrwf H. unfold recv_ready. destruct m as [|s m]; [done|].
    rewrite Eq in *. cbn. specialize (Hf O s eq_refl). rewrite Hf, Hnq. cbn.
    rewrite qlen_cons, qlen_app. apply orb_true_iff. right. apply Z.leb_le.
    pose proof (qlen_nonneg rest). unfold qlen. lia. }
  eapply returns_mono; [apply ikcp_recv_exact; [done|unfold is_i32; lia]|].
  intros [[r out] k'] Hr. rewrite <- Eq in Hfm.
  inversion Hr as [E|m' rest' _ Em E|m' rest' _ Em E|m' rest' d k1 _ Em _ Hd]; subst;
    rewrite ?Hfm in *; simplify_eq.
  - rewrite E in Hfm. cbn in Hfm. destruct Hmsg as (Hne & _). congruence.
  - destruct E; [congruence|lia].
  - rewrite Z.abs_eq, i32_small in E; lia.
  - split; [done|]. split; [apply Hmsg|]. exists d.
    destruct (Z.ltb_spec len 0); [lia|]. destruct Hd as [_ _ Hb Hq _ _ _ _]. cbn in *.
    by destruct (_ && _).
Qed.
End Recv.

(** ** A message received *)

(** A message of two segments has arrived. *)
Definition demo_received : ikcpcb := Eval vm_compute in
  demo_cb <| rcv_queue := [mkSeg 7 81 1 128 0 0 0 2 0 0 0 0 [1; 2]; mkSeg 7 81 0 128 0 1 0 1 0 0 0 0 [3]] |>
          <| nrcv_que := 2 |> <| rcv_nxt := 2 |> <| live := 4 |>.

Lemma demo_received_wf : kcp_wf demo_received.
Proof. kcp_wf_by_evaluation. Qed.

Lemma demo_message : is_message (rcv_queue demo_received) [1; 2; 3].
Proof.
  split; [done|]. split; [done|]. intros [|[|i]] s; cbn; by intros [= <-].
Qed.

Lemma ikcp_recv_reassembles_witness :
  is_message (rcv_queue demo_received) [1; 2; 3] /\
  returns (@ikcp_recv demo_env demo_received true 100) (fun '(r, out, k') =>
    r = 3 /\ out = [1; 2; 3] /\
    exists d, rcv_queue k' = [] ++ d /\ rcv_buf demo_received = d ++ rcv_buf k').
Proof.
  split; [apply demo_message|].
  apply (@ikcp_recv_reassembles demo_env demo_received (rcv_queue demo_received) [1; 2; 3] [] 100);
    [apply demo_received_wf|done|apply demo_message|done].
Defined.
