(* ===== verification/IkcpInput.v ===== *)
(** * kcp_learn/ikcp.c: ikcp_input

    One datagram from the network: the loop over its segments, the handler of each
    command, and the update of the congestion window. *)

From S2P Require Import Prelude IkcpBase IkcpCb IkcpSnd IkcpRcv.

(** ** Definitions *)

(** The locals [flag], [maxack] and [latest_ts]. *)
Record acked := mkAcked { flag : Z; maxack : Z; latest_ts : Z }.

(** Command IKCP_CMD_ACK. *)
Definition input_ack (kcp : ikcpcb) (ts sn : Z) (a : acked) : ikcpcb * acked :=
  let kcp :=
    if _itimediff (current kcp) ts >=? 0
    then ikcp_update_ack kcp (_itimediff (current kcp) ts) else kcp in
  let kcp := ikcp_shrink_buf (ikcp_parse_ack kcp sn) in
  (kcp,
   if flag a =? 0 then mkAcked 1 sn ts
   else if _itimediff sn (maxack a) >? 0 then mkAcked (flag a) sn ts else a).

(** Command IKCP_CMD_PUSH; [data] is at the payload.  The block ikcp_segment_new returns
    is used unchecked. *)
Definition input_push `{Env} (kcp : ikcpcb) (conv0 : Z) (h : header) (data : list Z) : res ikcpcb :=
  if _itimediff (h_sn h) (u32 (rcv_nxt kcp + rcv_wnd kcp)) <? 0 then
    kcp ← ikcp_ack_push kcp (h_sn h) (h_ts h);
    if _itimediff (h_sn h) (rcv_nxt kcp) >=? 0 then
      let '(ok, kcp) := ikcp_segment_new kcp (i32 (h_len h)) in
      if negb ok then Err NullDeref
      else
        bytes ← (if h_len h >? 0 then c_memcpy data (h_len h) else Ok []);
        let seg := mkSeg conv0 (h_cmd h) (h_frg h) (h_wnd h) (h_ts h) (h_sn h) (h_una h)
                     (h_len h) 0 0 0 0 bytes in
        Ok (ikcp_parse_data kcp seg)
    else Ok kcp
  else Ok kcp.

Definition known_cmd (cmd : Z) : bool :=
  (cmd =? IKCP_CMD_PUSH) || (cmd =? IKCP_CMD_ACK) || (cmd =? IKCP_CMD_WASK) || (cmd =? IKCP_CMD_WINS).

(** What follows the check of the command. *)
Definition input_segment `{Env} (kcp : ikcpcb) (conv0 : Z) (h : header) (data : list Z) (a : acked)
  : res (ikcpcb * acked) :=
  let kcp := kcp <| rmt_wnd := h_wnd h |> in
  let kcp := ikcp_parse_una kcp (h_una h) in
  let kcp := ikcp_shrink_buf kcp in
  if h_cmd h =? IKCP_CMD_ACK then Ok (input_ack kcp (h_ts h) (h_sn h) a)
  else if h_cmd h =? IKCP_CMD_PUSH then
    kcp ← input_push kcp conv0 h data; Ok (kcp, a)
  else if h_cmd h =? IKCP_CMD_WASK then
    Ok (kcp <| probe ::= fun p => Z.lor p IKCP_ASK_TELL |>, a)
  else Ok (kcp, a).

(** The loop: [inl] is an early return, [inr] the exit at the end of the datagram. *)
Fixpoint input_loop `{Env} `{Host} (fuel : nat) (kcp : ikcpcb) (data : list Z) (size : Z) (a : acked)
  : res (Z * ikcpcb + ikcpcb * acked) :=
  match fuel with
  | O => Err Diverges
  | S fuel =>
      if size <? IKCP_OVERHEAD then Ok (inr (kcp, a))
      else
        '(conv0, data) ← ikcp_decode32u data;
        if negb (conv0 =? conv kcp) then Ok (inl (-1, kcp))
        else
          '(h, data) ← decode_header data;
          let size := size - IKCP_OVERHEAD in
          if (size <? h_len h) || (i32 (h_len h) <? 0) then Ok (inl (-2, kcp))
          else if negb (known_cmd (h_cmd h)) then Ok (inl (-3, kcp))
          else
            '(kcp, a) ← input_segment kcp conv0 h data a;
            input_loop fuel kcp (drop (Z.to_nat (h_len h)) data) (size - h_len h) a
  end.

(** The congestion window after new data was acknowledged. *)
Definition grow_cwnd (kcp : ikcpcb) : res ikcpcb :=
  if cwnd kcp <? rmt_wnd kcp then
    let m := mss kcp in
    kcp ← (if cwnd kcp <? ssthresh kcp then
             Ok (kcp <| cwnd ::= fun c => u32 (c + 1) |> <| incr ::= fun i => u32 (i + m) |>)
           else
             let kcp := if incr kcp <? m then kcp <| incr := m |> else kcp in
             q ← c_divu (u32 (m * m)) (incr kcp);
             let kcp := kcp <| incr ::= fun i => u32 (i + u32 (q + m / 16)) |> in
             if u32 (u32 (cwnd kcp + 1) * m) <=? incr kcp then
               c ← c_divu (u32 (u32 (incr kcp + m) - 1)) (if m >? 0 then m else 1);
               Ok (kcp <| cwnd := c |>)
             else Ok kcp);
    if cwnd kcp >? rmt_wnd kcp then
      Ok (kcp <| cwnd := rmt_wnd kcp |> <| incr := u32 (rmt_wnd kcp * m) |>)
    else Ok kcp
  else Ok kcp.

(** After the loop. *)
Definition input_finish (kcp : ikcpcb) (prev_una : Z) (a : acked) : res ikcpcb :=
  let kcp := if negb (flag a =? 0) then ikcp_parse_fastack kcp (maxack a) (latest_ts a) else kcp in
  if _itimediff (snd_una kcp) prev_una >? 0 then grow_cwnd kcp else Ok kcp.

(** Each round takes at least a header off [size]. *)
Definition input_fuel (size : Z) : nat := S (Z.to_nat (size / IKCP_OVERHEAD)).

Definition ikcp_input `{Env} `{Host} (kcp : ikcpcb) (data : option (list Z)) (size : Z)
  : res (Z * ikcpcb) :=
  let prev_una := snd_una kcp in
  match data with
  | None => Ok (-1, kcp)
  | Some data =>
      if i32 size <? IKCP_OVERHEAD then Ok (-1, kcp)
      else
        r ← input_loop (input_fuel size) kcp data size (mkAcked 0 0 0);
        match r with
        | inl ret => Ok ret
        | inr (kcp, a) => kcp ← input_finish kcp prev_una a; Ok (0, kcp)
        end
  end.

(** ** The congestion window *)

(** grow_cwnd never divides by zero, and only the window and [incr] change. *)
Lemma grow_cwnd_total k :
  0 < mss k < 4294967296 -> is_u32 (cwnd k) -> is_u32 (incr k) -> 0 <= rmt_wnd k < 65536 ->
  exists c i, grow_cwnd k = Ok (k <| cwnd := c |> <| incr := i |>) /\ is_u32 c /\ is_u32 i /\
    (cwnd k < rmt_wnd k -> c <= rmt_wnd k) /\ (rmt_wnd k <= cwnd k -> c = cwnd k).
Proof.
  intros Hm Hc Hi Hr. unfold is_u32 in *. unfold grow_cwnd.
  destruct (Z.ltb_spec (cwnd k) (rmt_wnd k)) as [Hlt|].
  2:{ exists (cwnd k), (incr k). split_and!; try done; try lia. by destruct k. }
  assert (forall k1 c i, k1 = k <| cwnd := c |> <| incr := i |> -> 0 <= c < 4294967296 -> 0 <= i < 4294967296 ->
    exists c i, (if cwnd k1 >? rmt_wnd k1 then
      Ok (k1 <| cwnd := rmt_wnd k1 |> <| incr := u32 (rmt_wnd k1 * mss k) |>) else Ok k1)
      = Ok (k <| cwnd := c |> <| incr := i |>) /\ 0 <= c < 4294967296 /\ 0 <= i < 4294967296 /\
      (cwnd k < rmt_wnd k -> c <= rmt_wnd k) /\ (rmt_wnd k <= cwnd k -> c = cwnd k)) as Hend.
  { intros k1 c i -> ? ?. cbn. destruct (Z.gtb_spec c (rmt_wnd k)).
    - exists (rmt_wnd k), (u32 (rmt_wnd k * mss k)). split; [done|]. split_and!; try lia; apply u32_range.
    - exists c, i. split; [done|]. lia. }
  destruct (_ <? ssthresh k).
  - cbn [mbind res_bind].
    refine (Hend (k <| cwnd := u32 (cwnd k + 1) |> <| incr := u32 (incr k + mss k) |>) _ _ eq_refl _ _);
      apply u32_range.
  - set (k1 := if incr k <? mss k then _ else _).
    assert (exists i, k1 = k <| cwnd := cwnd k |> <| incr := i |> /\ 0 < i < 4294967296) as (i & Ek & Hi1).
    { subst k1. destruct (Z.ltb_spec (incr k) (mss k)).
      - exists (mss k). split; [by destruct k|lia].
      - exists (incr k). split; [by destruct k|lia]. }
    rewrite Ek. cbn. rewrite c_divu_ok by lia. cbn.
    set (i' := u32 (i + u32 (u32 (mss k * mss k) / i + mss k / 16))). pose proof (u32_range (i + u32 (u32 (mss k * mss k) / i + mss k / 16))) as Hi'.
    fold i' in Hi'. destruct (u32 (u32 (cwnd k + 1) * mss k) <=? i').
    + destruct (Z.gtb_spec (mss k) 0); [|lia]. rewrite c_divu_ok by lia. cbn.
      set (nn := u32 (u32 (i' + mss k) - 1)). pose proof (u32_range (u32 (i' + mss k) - 1)) as Hn. fold nn in Hn.
      refine (Hend (k <| cwnd := nn / mss k |> <| incr := i' |>) (nn / mss k) i' eq_refl _ _); [|lia]. split; [apply Z.div_pos; lia|].
      apply Z.div_lt_upper_bound; nia.
    + cbn. refine (Hend (k <| cwnd := cwnd k |> <| incr := i' |>) (cwnd k) i' eq_refl _ _); lia.
Qed.

(** In the range of real settings (a datagram of at most 65535 bytes) nothing wraps:
    slow start adds one segment, congestion avoidance never shrinks the window, and
    the remote window bounds it. *)
Theorem grow_cwnd_grows k :
  0 < mss k <= 65511 -> 0 <= cwnd k -> 0 <= incr k < 2147483648 -> 0 <= rmt_wnd k < 65536 ->
  returns (grow_cwnd k) (fun k' =>
    cwnd k' = (if cwnd k <? rmt_wnd k
               then if cwnd k <? ssthresh k then cwnd k + 1 else cwnd k' else cwnd k) /\
    cwnd k <= cwnd k' <= Z.max (cwnd k) (rmt_wnd k)).
Proof.
  intros Hm Hc Hi Hr. unfold grow_cwnd.
  destruct (Z.ltb_spec (cwnd k) (rmt_wnd k)) as [Hlt|]; [|apply returns_Ok; lia].
  destruct (Z.ltb_spec (cwnd k) (ssthresh k)) as [Hs|Hs].
  - cbn [mbind res_bind]. cbn. rewrite (u32_small (cwnd k + 1)) by lia.
    destruct (Z.gtb_spec (cwnd k + 1) (rmt_wnd k)); [lia|]. apply returns_Ok. cbn.
    rewrite (u32_small (cwnd k + 1)); lia.
  - set (k1 := if incr k <? mss k then _ else _).
    assert (exists i, k1 = k <| incr := i |> /\ mss k <= i < 2147483648) as (i & -> & Hi1).
    { subst k1. destruct (Z.ltb_spec (incr k) (mss k)).
      - exists (mss k). split; [done|lia].
      - exists (incr k). split; [by destruct k|lia]. }
    cbn. rewrite c_divu_ok by lia. cbn. rewrite (u32_small (mss k * mss k)) by nia.
    set (i' := u32 (i + _)).
    assert (i <= i' < 2147483648 + 131072) as Hi'.
    { assert (0 <= mss k * mss k / i <= mss k).
      { split; [apply Z.div_pos; lia|]. apply Z.div_le_upper_bound; nia. }
      assert (0 <= mss k / 16 < 65536) by (Z.to_euclidean_division_equations; lia).
      subst i'. rewrite (u32_small (_ / _ + _)) by lia. rewrite u32_small; lia. }
    rewrite (u32_small (cwnd k + 1)) by lia. rewrite (u32_small ((cwnd k + 1) * mss k)) by nia.
    destruct (Z.leb_spec ((cwnd k + 1) * mss k) i') as [Hge|Hge].
    + destruct (Z.gtb_spec (mss k) 0); [|lia]. rewrite c_divu_ok by lia. cbn.
      rewrite (u32_small (i' + mss k)), (u32_small (i' + mss k - 1)) by lia.
      assert (cwnd k + 1 <= (i' + mss k - 1) / mss k) by (apply Z.div_le_lower_bound; lia).
      set (c := (i' + mss k - 1) / mss k) in *. clearbody c.
      destruct (Z.gtb_spec c (rmt_wnd k)); apply returns_Ok; cbn; lia.
    + cbn. destruct (Z.gtb_spec (cwnd k) (rmt_wnd k)); [lia|]. apply returns_Ok. cbn. lia.
Qed.

(** ** The invariant through a datagram *)

(** All of [kcp_wf] but [una_tight], which ikcp_shrink_buf brings back. *)
Record loose_wf (ps : list (Z * Z)) (k : ikcpcb) : Prop := {
  loose_snd : snd_wf k;
  loose_rcv : rcv_wf k;
  loose_ctl : ctl_wf k;
  loose_acks : ack_rep k ps;
  loose_live : leaked k = 0 }.

Lemma loose_kcp_wf ps k : loose_wf ps k -> una_tight k -> kcp_wf k.
Proof. intros [] ?. constructor; eauto. Qed.

Lemma kcp_wf_loose k : kcp_wf k -> una_tight k /\ exists ps, loose_wf ps k.
Proof. intros [? ? ? ? [ps ?] ?]. split; [done|]. by exists ps. Qed.

Lemma acks_wf_loose ps k k' : acks_wf k k' -> loose_wf ps k -> loose_wf ps k'.
Proof. intros (H1 & H2 & H3 & H4 & H5) []. constructor; auto. lia. Qed.

Lemma ikcp_shrink_buf_loose ps k :
  loose_wf ps k -> loose_wf ps (ikcp_shrink_buf k) /\ una_tight (ikcp_shrink_buf k).
Proof.
  intros [Hs Hr Hc Ha Hl]. destruct (ikcp_shrink_buf_wf k Hs) as [Hs' Ht]. split; [|done].
  assert (exists u, ikcp_shrink_buf k = k <| snd_una := u |>) as [u E].
  { unfold ikcp_shrink_buf. destruct (snd_buf k); eauto. }
  rewrite E in *. constructor; try carry_wf; try done. destruct Ha. by constructor.
Qed.

Lemma acked_una ps k una :
  loose_wf ps k ->
  loose_wf ps (ikcp_shrink_buf (ikcp_parse_una k una)) /\
  una_tight (ikcp_shrink_buf (ikcp_parse_una k una)).
Proof.
  intros H. apply ikcp_shrink_buf_loose. eapply acks_wf_loose; [|done].
  apply ikcp_parse_una_wf, H.
Qed.

Lemma set_rmt_wnd_loose ps k w :
  loose_wf ps k -> 0 <= w < 65536 -> loose_wf ps (k <| rmt_wnd := w |>).
Proof.
  intros [Hs ? ? [] ?] Hw. unwf Hs. constructor; try carry_wf; try done; by constructor.
Qed.

Lemma input_ack_wf ps k ts sn a :
  loose_wf ps k -> is_u32 sn ->
  loose_wf ps (fst (input_ack k ts sn a)) /\ una_tight (fst (input_ack k ts sn a)).
Proof.
  intros H Hsn. unfold input_ack. cbn [fst]. apply ikcp_shrink_buf_loose.
  set (k1 := if _ >=? 0 then _ else _).
  assert (loose_wf ps k1) as H1.
  { subst k1. destruct (_ >=? 0); [|done]. eapply acks_wf_loose; [|done].
    apply ikcp_update_ack_wf, H. }
  eapply acks_wf_loose; [|done]. apply ikcp_parse_ack_wf; [apply H1|done].
Qed.

(** The only faults a datagram can cause: a failed allocation is used. *)
Definition starved `{Env} (e : fault) : Prop :=
  (e = Aborted \/ e = NullDeref) /\ exists n size, malloc_succeeds n size = false.

Section Input.
Context `{env : Env} `{host : Host}.

Lemma input_push_wf ps k conv0 h data :
  loose_wf ps k -> una_tight k -> header_wf h -> Forall is_byte data ->
  Z.of_nat (length ps) < 1073741824 -> h_len h <= Z.of_nat (length data) ->
  h_len h < 2147483648 ->
  safely starved (input_push k conv0 h data) (fun k' =>
    una_tight k' /\ exists ps', loose_wf ps' k' /\ (length ps' <= S (length ps))%nat).
Proof.
  intros H Ht (Hcmd & Hfrg & Hwnd & Hts & Hsn & Huna & Hln) Hby Hps Hl Hl31.
  unfold is_u32 in Hln. unfold input_push.
  destruct (_ <? 0); [|cbn; eauto].
  eapply safely_bind.
  { eapply safely_mono; [apply (ikcp_ack_push_exact k ps _ _ (loose_acks _ _ H) Hsn Hts Hps)| |].
    - intros e (-> & ? & ?). split; [by left|eauto].
    - intros k' Hk'. exact Hk'. }
  intros k1 (Ha & Hsame & Hlk). pose proof (same_but_acks_wf _ _ Hsame) as (H1 & H2 & H3 & H4).
  destruct H as [Hs Hr Hc _ Hlv].
  assert (loose_wf (ps ++ [(h_sn h, h_ts h)]) k1) as Hk1 by (constructor; auto; lia).
  assert (length (ps ++ [(h_sn h, h_ts h)]) <= S (length ps))%nat as Hlen
    by (rewrite length_app; cbn; lia).
  destruct (_ >=? 0); [|cbn; eauto].
  unfold ikcp_segment_new, ikcp_malloc. cbn zeta.
  set (ok := malloc_succeeds _ _). destruct ok eqn:Eok; cbn [negb];
    [|split; [by right|eauto]].
  set (k2 := k1 <| nalloc ::= S |> <| live ::= _ |>).
  assert (exists bytes, (if h_len h >? 0 then c_memcpy data (h_len h) else Ok []) = Ok bytes /\
    Z.of_nat (length bytes) = h_len h /\ Forall is_byte bytes) as (bytes & -> & Hbl & Hbb).
  { destruct (Z.gtb_spec (h_len h) 0).
    - unfold c_memcpy. destruct (Z.leb_spec (h_len h) (Z.of_nat (length data))); [|lia].
      eexists. split; [done|]. rewrite length_take. split; [lia|by apply Forall_take].
    - exists []. split; [done|]. cbn. split; [lia|done]. }
  cbn [mbind res_bind]. set (seg := mkSeg _ _ _ _ _ _ _ _ _ _ _ _ _).
  destruct Hk1 as [Hs1 Hr1 Hc1 Ha1 Hl1].
  assert (rcv_wf k2) as Hr2 by (subst k2; carry_wf).
  destruct (ikcp_parse_data_wf k2 seg Hr2) as (Hr3 & Hsame3 & Hlv3).
  { unfold seg_wf. cbn. unfold is_byte in *. split_and!; done || lia. }
  pose proof (same_but_rcv_wf _ _ Hsame3) as (G1 & G2 & G3 & G4).
  split; [by apply G3, H4|]. exists (ps ++ [(h_sn h, h_ts h)]). split; [|done].
  constructor; [apply G1; subst k2; carry_wf|done|apply G2; subst k2; carry_wf| |].
  - apply G4. destruct Ha1. by constructor.
  - rewrite Hlv3. subst k2. unfold leaked, blocks in *. cbn. lia.
Qed.

Lemma input_segment_wf ps k conv0 h data a :
  loose_wf ps k -> header_wf h -> Forall is_byte data ->
  Z.of_nat (length ps) < 1073741824 -> h_len h <= Z.of_nat (length data) ->
  h_len h < 2147483648 ->
  safely starved (input_segment k conv0 h data a) (fun '(k', a') =>
    (is_u32 (maxack a) -> is_u32 (maxack a')) /\ una_tight k' /\
    exists ps', loose_wf ps' k' /\ (length ps' <= S (length ps))%nat).
Proof.
  intros H Hh Hby Hps Hl Hl31. pose proof Hh as (_ & _ & Hwnd & _ & Hsn & _).
  unfold input_segment. apply (set_rmt_wnd_loose ps k (h_wnd h)) in H; [|done].
  destruct (acked_una ps _ (h_una h) H) as [H1 Ht1].
  set (k1 := ikcp_shrink_buf _) in *. clearbody k1. cbn zeta.
  destruct (_ =? IKCP_CMD_ACK).
  { pose proof (input_ack_wf ps k1 (h_ts h) (h_sn h) a H1 Hsn) as [? ?].
    destruct (input_ack k1 (h_ts h) (h_sn h) a) as [k2 a2] eqn:E. cbn in *.
    split; [|eauto]. injection E as <- <-. destruct (flag a =? 0); [done|].
    by destruct (_ >? 0). }
  destruct (_ =? IKCP_CMD_PUSH).
  { eapply safely_bind; [by apply (input_push_wf ps)|]. cbn. eauto. }
  destruct (_ =? IKCP_CMD_WASK); cbn; split_and!; eauto.
  exists ps. split; [|lia]. destruct H1 as [? ? ? [] ?]. constructor; try carry_wf; done.
Qed.

Definition loop_post (r : Z * ikcpcb + ikcpcb * acked) : Prop :=
  match r with
  | inl (r, k') => kcp_wf k' /\ (r = -1 \/ r = -2 \/ r = -3)
  | inr (k', a') => kcp_wf k' /\ is_u32 (maxack a')
  end.

Lemma input_loop_wf fuel ps k data size a :
  loose_wf ps k -> una_tight k -> Forall is_byte data -> is_u32 (maxack a) ->
  size <= Z.of_nat (length data) -> (0 < fuel)%nat -> size < 24 * Z.of_nat fuel ->
  24 * Z.of_nat (length ps) + size < 25769803776 ->
  safely starved (input_loop fuel k data size a) loop_post.
Proof.
  revert ps k data size a. induction fuel as [|fuel IH]; intros ps k data size a H Ht Hby Ha Hsz Hf0 Hf Hps;
    cbn [input_loop].
  { lia. }
  unfold IKCP_OVERHEAD. destruct (Z.ltb_spec size 24) as [|Hge].
  { split; [by eapply loose_kcp_wf|done]. }
  destruct (ikcp_decode32u_ok data Hby) as (conv0 & -> & _); [lia|]. cbn [mbind res_bind].
  destruct (negb (conv0 =? conv k)).
  { split; [by eapply loose_kcp_wf|by left]. }
  destruct (decode_header_ok (drop 4 data)) as (h & -> & Hh);
    [by apply Forall_drop|rewrite length_drop; lia|]. cbn [mbind res_bind].
  assert (drop 20 (drop 4 data) = drop 24 data) as -> by by rewrite drop_drop.
  assert (0 <= h_len h < 4294967296) as Hl0 by apply Hh.
  destruct (Z.ltb_spec (size - 24) (h_len h)); cbn [orb].
  { split; [by eapply loose_kcp_wf|auto]. }
  destruct (Z.ltb_spec (i32 (h_len h)) 0) as [|Hpos].
  { split; [by eapply loose_kcp_wf|auto]. }
  assert (h_len h < 2147483648) by wrap_lia.
  destruct (negb (known_cmd (h_cmd h))).
  { split; [by eapply loose_kcp_wf|auto]. }
  eapply safely_bind; [apply (input_segment_wf ps k conv0 h (drop 24 data) a); try done|].
  - by apply Forall_drop.
  - lia.
  - rewrite length_drop. lia.
  - intros [k' a'] (Ha' & Ht' & ps' & Hps' & Hlen). apply (IH ps'); auto.
    + by do 2 apply Forall_drop.
    + rewrite !length_drop. lia.
    + lia.
    + lia.
    + lia.
Qed.

Lemma input_finish_wf ps k prev a :
  loose_wf ps k -> una_tight k -> is_u32 (maxack a) ->
  returns (input_finish k prev a) kcp_wf.
Proof.
  intros H Ht Ha. unfold input_finish. cbn zeta.
  set (k1 := if negb (flag a =? 0) then _ else _).
  assert (loose_wf ps k1 /\ una_tight k1) as [H1 Ht1].
  { subst k1. destruct (negb _); [|done].
    destruct (ikcp_parse_fastack_wf k (maxack a) (latest_ts a) (loose_snd _ _ H) Ha) as [H1 H2].
    split; [by eapply acks_wf_loose|auto]. }
  clearbody k1. destruct (_ >? 0); [|by apply returns_Ok; eapply loose_kcp_wf].
  destruct H1 as [Hs Hr Hc Hak Hl]. pose proof Hc as [Hmtu Hmss _ _ _ _ Hcw Hin _ _ _ _].
  unfold IKCP_OVERHEAD in *.
  destruct (grow_cwnd_total k1) as (c & i & -> & ? & ? & _); [lia|done|done|apply Hs|].
  apply returns_Ok. destruct Hak. constructor; try carry_wf; try done.
  exists ps. by constructor.
Qed.

Lemma ikcp_input_safe k ps data size :
  kcp_wf k -> ack_rep k ps ->
  match data with Some d => Forall is_byte d /\ size <= Z.of_nat (length d) | None => True end ->
  24 * Z.of_nat (length ps) + size < 25769803776 ->
  safely starved (ikcp_input k data size)
    (fun '(r, k') => kcp_wf k' /\ (r = 0 \/ r = -1 \/ r = -2 \/ r = -3)).
Proof.
  intros Hk Ha Hd Hps. unfold ikcp_input. destruct data as [d|]; [|cbn; auto].
  destruct Hd as [Hby Hsz]. destruct (_ <? IKCP_OVERHEAD) eqn:Esz; [cbn; auto|].
  destruct Hk as [Hs Hr Hc Ht _ Hl].
  eapply safely_bind; [apply (input_loop_wf _ ps)|].
  - by constructor.
  - done.
  - done.
  - cbn. unfold is_u32. lia.
  - done.
  - unfold input_fuel. lia.
  - unfold input_fuel, IKCP_OVERHEAD in *. destruct (Z.ltb_spec size 0).
    + lia.
    + rewrite Nat2Z.inj_succ, Z2Nat.id by (apply Z.div_pos; lia).
      Z.to_euclidean_division_equations. lia.
  - done.
  - intros [[r k']|[k' a']]; cbn [loop_post].
    + intros [? Hret]. cbn. tauto.
    + intros [[? ? ? Ht' [ps' Ha'] ?] Hm]. apply safely_bind with (P := kcp_wf).
      * destruct (input_finish_wf ps' k' (snd_una k) a') as (k2 & -> & ?); [by constructor|done|done|done].
      * intros k2 Hk2. cbn. auto.
Qed.

(** C6: Whatever bytes arrive, ikcp_input ends, touches no memory outside the datagram and
    its own queues, returns 0, -1, -2 or -3, and keeps the connection well formed; only an
    allocation that fails can stop it. *)
Theorem ikcp_input_wf k ps data size :
  kcp_wf k -> ack_rep k ps ->
  match data with Some d => Forall is_byte d /\ size <= Z.of_nat (length d) | None => True end ->
  24 * Z.of_nat (length ps) + size < 25769803776 ->
  safely starved (ikcp_input k data size)
    (fun '(r, k') => kcp_wf k' /\ (r = 0 \/ r = -1 \/ r = -2 \/ r = -3)).
Proof. apply ikcp_input_safe. Qed.
End Input.

(** ** Datagrams made of segments *)

(** What ikcp_flush writes for a segment. *)
Definition wire (s : IKCPSEG) : list Z := header_bytes s ++ seg_bytes s.

Definition wire_ok (c : Z) (s : IKCPSEG) : Prop :=
  u32 (seg_conv s) = c /\ known_cmd (u8 (seg_cmd s)) = true /\
  seg_len s = Z.of_nat (length (seg_data s)) /\ seg_len s < 2147483648.

Lemma length_wire s : seg_len s = Z.of_nat (length (seg_data s)) ->
  Z.of_nat (length (wire s)) = 24 + seg_len s.
Proof.
  intros Hl. unfold wire, seg_bytes. rewrite length_app, length_header_bytes, length_take. lia.
Qed.

(** What nothing but the application sets. *)
Definition modes (k : ikcpcb) := (conv k, stream k, user k, mtu k).

Lemma parse_una_loop_modes una l k : modes (parse_una_loop una l k) = modes k.
Proof. revert k. induction l as [|s l IH]; intros k; cbn; [done|]. destruct (_ >? 0); [|done]. by rewrite IH. Qed.
Lemma move_rcv_buf_modes l k : modes (move_rcv_buf l k) = modes k.
Proof. revert k. induction l as [|s l IH]; intros k; cbn; [done|]. destruct (_ && _); [|done]. by rewrite IH. Qed.
Lemma ikcp_parse_ack_modes k sn : modes (ikcp_parse_ack k sn) = modes k.
Proof.
  unfold ikcp_parse_ack. destruct (_ || _); [done|]. by destruct (parse_ack_loop _ _) as [? []].
Qed.
Lemma ikcp_shrink_buf_modes k : modes (ikcp_shrink_buf k) = modes k.
Proof. unfold ikcp_shrink_buf. by destruct (snd_buf k). Qed.
Lemma ikcp_update_ack_modes k rtt : modes (ikcp_update_ack k rtt) = modes k.
Proof. unfold ikcp_update_ack. destruct (_ =? _); [done|]. cbn. by destruct (_ <? 1). Qed.
Lemma ikcp_parse_data_modes k s : modes (ikcp_parse_data k s) = modes k.
Proof.
  unfold ikcp_parse_data. destruct (_ || _); [done|]. destruct (find_slot _ _ _) as [[[] ?] ?];
    by rewrite move_rcv_buf_modes.
Qed.

Section Wire.
Context `{env : Env} `{host : Host}.

Lemma ikcp_ack_push_modes k sn ts k' : ikcp_ack_push k sn ts = Ok k' -> modes k' = modes k.
Proof.
  unfold ikcp_ack_push. intros H. apply bind_Ok in H as (k1 & H1 & H2).
  assert (modes k1 = modes k) as <-.
  { destruct (_ >? _); [|by injection H1 as ->]. apply bind_Ok in H1 as (nb & _ & H1).
    unfold ikcp_malloc in H1. cbn zeta iota in H1. destruct (malloc_succeeds _ _); [|done].
    cbn in H1. apply bind_Ok in H1 as (new & _ & H1). by destruct (acklist k); injection H1 as <-. }
  destruct (acklist k1); [|done]. apply bind_Ok in H2 as (l1 & _ & H2).
  apply bind_Ok in H2 as (l2 & _ & H2). by injection H2 as <-.
Qed.

Lemma input_push_modes k c h data k' : input_push k c h data = Ok k' -> modes k' = modes k.
Proof.
  unfold input_push. destruct (_ <? 0); [|by intros [= ->]]. intros H.
  apply bind_Ok in H as (k1 & H1%ikcp_ack_push_modes & H2). rewrite <- H1. clear H1.
  destruct (_ >=? 0); [|by injection H2 as ->].
  unfold ikcp_segment_new, ikcp_malloc in H2. cbn zeta iota in H2.
  destruct (malloc_succeeds _ _); [|done]. cbn [negb] in H2.
  apply bind_Ok in H2 as (bytes & _ & H2). injection H2 as <-. by rewrite ikcp_parse_data_modes.
Qed.

Lemma input_segment_modes k c h data a k' a' :
  input_segment k c h data a = Ok (k', a') -> modes k' = modes k.
Proof.
  unfold input_segment. cbn zeta. set (k1 := ikcp_shrink_buf _). intros H.
  assert (modes k1 = modes k) as <-.
  { subst k1. unfold ikcp_parse_una. by rewrite ikcp_shrink_buf_modes, parse_una_loop_modes. }
  unfold k1 in H. fold k1 in H. clearbody k1. destruct (_ =? IKCP_CMD_ACK).
  { injection H as E _. subst k'. rewrite ikcp_shrink_buf_modes, ikcp_parse_ack_modes.
    destruct (_ >=? 0); [apply ikcp_update_ack_modes|done]. }
  destruct (_ =? IKCP_CMD_PUSH).
  { apply bind_Ok in H as (k2 & H%input_push_modes & H2). by injection H2 as <- <-. }
  by destruct (_ =? IKCP_CMD_WASK); injection H as <- <-.
Qed.

Lemma ikcp_parse_fastack_modes k sn ts : modes (ikcp_parse_fastack k sn ts) = modes k.
Proof. unfold ikcp_parse_fastack. by destruct (_ || _). Qed.

Lemma grow_cwnd_modes k k' : grow_cwnd k = Ok k' -> modes k' = modes k.
Proof.
  unfold grow_cwnd. destruct (cwnd k <? rmt_wnd k); [|by intros [= ->]]. cbn zeta. intros H.
  apply bind_Ok in H as (k1 & H1 & H).
  assert (modes k1 = modes k) as <-.
  { destruct (cwnd k <? ssthresh k); [by injection H1 as <-|].
    apply bind_Ok in H1 as (q & _ & H1). destruct (_ <=? _).
    - apply bind_Ok in H1 as (c & _ & H1). injection H1 as <-. by destruct (_ <? _).
    - injection H1 as <-. by destruct (_ <? _). }
  cbn beta in H. destruct (cwnd k1 >? rmt_wnd k1); [by injection H as <-|by injection H as ->].
Qed.

Lemma input_finish_modes k prev a k' : input_finish k prev a = Ok k' -> modes k' = modes k.
Proof.
  unfold input_finish. cbn zeta. set (k1 := if negb _ then _ else k). intros H.
  assert (modes k1 = modes k) as <- by (subst k1; destruct (negb _); [apply ikcp_parse_fastack_modes|done]).
  destruct (_ >? 0); [by apply grow_cwnd_modes in H|by injection H as ->].
Qed.

Lemma input_loop_modes fuel k data size a r :
  input_loop fuel k data size a = Ok r ->
  modes (match r with inl (_, k') => k' | inr (k', _) => k' end) = modes k.
Proof.
  revert k data size a. induction fuel as [|fuel IH]; intros k data size a; cbn [input_loop]; [done|].
  destruct (size <? _); [by intros [= <-]|]. intros H.
  apply bind_Ok in H as ([conv0 d] & _ & H). destruct (negb _); [by injection H as <-|].
  apply bind_Ok in H as ([h d'] & _ & H). cbn zeta in H. destruct (_ || _); [by injection H as <-|].
  destruct (negb _); [by injection H as <-|].
  apply bind_Ok in H as ([k1 a1] & <-%input_segment_modes & H). by apply IH in H.
Qed.

Lemma ikcp_input_modes k data size r k' :
  ikcp_input k data size = Ok (r, k') -> modes k' = modes k.
Proof.
  unfold ikcp_input. destruct data as [data|]; [|by intros [= _ <-]].
  destruct (_ <? _); [by intros [= _ <-]|]. intros H.
  apply bind_Ok in H as (x & <-%input_loop_modes & H). destruct x as [[r1 k1]|[k1 a]].
  - by injection H as _ <-.
  - apply bind_Ok in H as (k2 & H2 & H). injection H as _ <-. by apply input_finish_modes in H2.
Qed.

(** The payload of a segment ends where [len] says. *)
Lemma input_segment_payload k c h data rest a :
  h_len h = Z.of_nat (length data) ->
  input_segment k c h (data ++ rest) a = input_segment k c h data a.
Proof.
  intros Hl. unfold input_segment. destruct (_ =? IKCP_CMD_ACK); [done|].
  destruct (_ =? IKCP_CMD_PUSH); [|done]. unfold input_push. destruct (_ <? 0); [|done].
  destruct (ikcp_ack_push _ _ _); [|done]. cbn [mbind res_bind]. destruct (_ >=? 0); [|done].
  unfold ikcp_segment_new, ikcp_malloc. cbn zeta iota. destruct (negb _); [done|].
  destruct (h_len h >? 0); [|done]. unfold c_memcpy.
  rewrite length_app. destruct (Z.leb_spec (h_len h) (Z.of_nat (length data + length rest))); [|lia].
  destruct (Z.leb_spec (h_len h) (Z.of_nat (length data))); [|lia].
  by rewrite take_app_le by lia.
Qed.

(** The handlers of the segments of a datagram, in order. *)
Fixpoint input_segs (k : ikcpcb) (c : Z) (l : list IKCPSEG) (a : acked) : res (ikcpcb * acked) :=
  match l with
  | [] => Ok (k, a)
  | s :: l => '(k, a) ← input_segment k c (header_of s) (seg_bytes s) a; input_segs k c l a
  end.

Lemma input_loop_wire fuel k l a :
  Forall (wire_ok (conv k)) l -> (length l < fuel)%nat ->
  input_loop fuel k (mjoin (wire <$> l)) (Z.of_nat (length (mjoin (wire <$> l)))) a =
    ('(k', a') ← input_segs k (conv k) l a; Ok (inr (k', a'))).
Proof.
  revert k l a. induction fuel as [|fuel IH]; intros k l a Hl Hf; [lia|]. cbn [input_loop].
  unfold IKCP_OVERHEAD. destruct Hl as [|s l (Hc & Hcmd & Hlen & Hmax) Hl].
  { done. }
  pose proof (length_wire s Hlen) as Hlw. cbn [fmap list_fmap]. unfold mjoin. cbn [list_join].
  fold (@mjoin list _ Z (wire <$> l)). rewrite length_app.
  set (rest := mjoin (wire <$> l)) in *. cbn [length] in Hf.
  destruct (Z.ltb_spec (Z.of_nat (length (wire s) + length rest)) 24); [lia|].
  pose proof (decode_encode_seg s (seg_bytes s ++ rest)) as Hrt. rewrite ikcp_encode_seg_bytes in Hrt.
  assert (wire s ++ rest = header_bytes s ++ seg_bytes s ++ rest) as -> by (unfold wire; by rewrite <- app_assoc).
  destruct (ikcp_decode32u (header_bytes s ++ _)) as [[conv0 d]|]; [|done]. cbn [mbind res_bind] in *.
  destruct (decode_header d) as [[h d']|]; [|done]. cbn [mbind res_bind] in *.
  injection Hrt as -> -> ->. rewrite Hc, Z.eqb_refl. cbn [negb].
  assert (h_len (header_of s) = seg_len s) as -> by (cbn; apply u32_small; lia).
  replace (Z.of_nat (length (wire s) + length rest) - 24) with (seg_len s + Z.of_nat (length rest)) by lia.
  destruct (Z.ltb_spec (seg_len s + Z.of_nat (length rest)) (seg_len s)); [lia|]. cbn [orb].
  destruct (Z.ltb_spec (i32 (seg_len s)) 0) as [Hneg|]; [rewrite i32_small in Hneg; lia|].
  change (h_cmd (header_of s)) with (u8 (seg_cmd s)). rewrite Hcmd. cbn [negb].
  assert (length (seg_bytes s) = Z.to_nat (seg_len s)) as Hsb.
  { unfold seg_bytes. rewrite length_take. lia. }
  rewrite input_segment_payload by (cbn; rewrite u32_small; lia).
  cbn [input_segs]. destruct (input_segment _ _ _ _ _) as [[k' a']|] eqn:E; [|done].
  cbn [mbind res_bind]. apply input_segment_modes in E as [= Ek _ _].
  replace (seg_len s + Z.of_nat (length rest) - seg_len s) with (Z.of_nat (length rest)) by lia.
  rewrite drop_app_length' by done. rewrite <- Ek in *. apply IH; [done|lia].
Qed.

(** A datagram that carries the segments [l] runs their handlers in order, then the
    fast-ack and window updates: encoding and decoding are inverse on the wire. *)
Theorem ikcp_input_wire k l :
  l <> [] -> Forall (wire_ok (conv k)) l ->
  let data := mjoin (wire <$> l) in
  Z.of_nat (length data) < 2147483648 ->
  ikcp_input k (Some data) (Z.of_nat (length data)) =
    ('(k', a) ← input_segs k (conv k) l (mkAcked 0 0 0);
     k' ← input_finish k' (snd_una k) a; Ok (0, k')).
Proof.
  intros Hne Hl data Hlen. unfold ikcp_input.
  assert (24 * Z.of_nat (length l) <= Z.of_nat (length data)) as Hge.
  { subst data. clear Hlen Hne. induction Hl as [|s l (_ & _ & Hs & _) Hl IH]; [done|].
    rewrite fmap_cons. change (mjoin (wire s :: ?x)) with (wire s ++ mjoin x).
    rewrite length_app. cbn [length]. pose proof (length_wire s Hs). lia. }
  destruct l as [|s l]; [done|]. cbn [length] in Hge.
  destruct (Z.ltb_spec (i32 (Z.of_nat (length data))) IKCP_OVERHEAD) as [Hlt|].
  { rewrite i32_small in Hlt by lia. unfold IKCP_OVERHEAD in *. lia. }
  unfold data at 1 2. rewrite input_loop_wire; [|done|].
  - destruct (input_segs _ _ _ _) as [[k' a']|]; done.
  - fold data. unfold input_fuel, IKCP_OVERHEAD. cbn [length].
    apply -> Nat.succ_lt_mono. apply Nat2Z.inj_lt. rewrite Z2Nat.id by (apply Z.div_pos; lia).
    Z.to_euclidean_division_equations. lia.
Qed.
End Wire.

(** ** A datagram received *)

(** One data segment with the number 0. *)
Definition demo_datagram : list Z :=
  @wire (mkSeg 7 81 0 128 1000 0 0 3 0 0 0 0 [1; 2; 3]).

Lemma ikcp_input_wf_witness :
  Forall is_byte demo_datagram /\
  safely (@starved demo_env) (@ikcp_input demo_env x86_64 demo_cb (Some demo_datagram) 27)
    (fun '(r, k') => kcp_wf k' /\ (r = 0 \/ r = -1 \/ r = -2 \/ r = -3)).
Proof.
  assert (Forall is_byte demo_datagram) as Hb by by_decide. split; [done|].
  apply (@ikcp_input_wf demo_env x86_64 demo_cb [] (Some demo_datagram) 27);
    [apply demo_cb_wf|apply demo_cb_acks|split; [done|by_decide]|by_decide].
Defined.

Lemma grow_cwnd_grows_witness :
  rmt_wnd demo_cb = 128 /\
  returns (grow_cwnd demo_cb) (fun k' =>
    cwnd k' = (if cwnd demo_cb <? rmt_wnd demo_cb
               then if cwnd demo_cb <? ssthresh demo_cb then cwnd demo_cb + 1 else cwnd k'
               else cwnd demo_cb) /\
    cwnd demo_cb <= cwnd k' <= Z.max (cwnd demo_cb) (rmt_wnd demo_cb)).
Proof. split; [done|]. apply (grow_cwnd_grows demo_cb); by_decide. Defined.
