(* ===== verification/IkcpFlush.v ===== *)
(** * kcp_learn/ikcp.c: ikcp_flush, ikcp_update and ikcp_check

    What a connection puts on the wire: the pending acknowledgements, the window
    probes, the new and the timed-out segments, packed into datagrams of at most
    [mtu] bytes; the reaction of the congestion window; and the clock. *)

From S2P Require Import Prelude IkcpBase IkcpCb IkcpSnd IkcpRcv IkcpInput.

(** ** Writing into the buffer *)

Definition ikcp_wnd_unused (kcp : ikcpcb) : Z :=
  if nrcv_que kcp <? rcv_wnd kcp then i32 (u32 (rcv_wnd kcp - nrcv_que kcp)) else 0.

(** Store bytes at [ptr], which is [pending w] bytes into [kcp->buffer]. *)
Definition emit (kcp : ikcpcb) (w : outbuf) (bytes : list Z) : res outbuf :=
  match buffer kcp with
  | None => Err NullDeref
  | Some cap =>
      if Z.of_nat (length (pending w) + length bytes) <=? cap
      then Ok (mkOut (pending w ++ bytes) (sent w)) else Err OutOfBounds
  end.

(** The test before each segment: hand over what is pending when [need] more bytes would
    exceed the mtu, and start again at the beginning of the buffer. *)
Definition make_room `{Env} (kcp : ikcpcb) (w : outbuf) (need : Z) : res outbuf :=
  let size := i32 (Z.of_nat (length (pending w))) in
  if i32 (size + need) >? i32 (mtu kcp) then
    w ← ikcp_output kcp (pending w) w; Ok (mkOut [] (sent w))
  else Ok w.

(** Why a segment is sent by a flush. *)
Inductive reason := First | Timeout | Fast | NotSent.
#[export] Instance reason_eq_dec : EqDecision reason.
Proof. solve_decision. Defined.

Section Flush.
Context `{env : Env} `{host : Host}.

(** The loop over acklist; the local [seg] keeps the last [sn] and [ts]. *)
Fixpoint flush_acks (n : nat) (i : Z) (kcp : ikcpcb) (seg : IKCPSEG) (w : outbuf)
  : res (IKCPSEG * outbuf) :=
  match n with
  | O => Ok (seg, w)
  | S n =>
      w ← make_room kcp w IKCP_OVERHEAD;
      '(sn, ts) ← ikcp_ack_get kcp i;
      let seg := seg <| seg_sn := sn |> <| seg_ts := ts |> in
      w ← emit kcp w (ikcp_encode_seg seg);
      flush_acks n (i + 1) kcp seg w
  end.

(** Probe the remote window when it is closed. *)
Definition flush_probe_timer (kcp : ikcpcb) : ikcpcb :=
  if rmt_wnd kcp =? 0 then
    if probe_wait kcp =? 0 then
      let kcp := kcp <| probe_wait := IKCP_PROBE_INIT |> in
      kcp <| ts_probe := u32 (current kcp + probe_wait kcp) |>
    else if _itimediff (current kcp) (ts_probe kcp) >=? 0 then
      let kcp := if probe_wait kcp <? IKCP_PROBE_INIT
                 then kcp <| probe_wait := IKCP_PROBE_INIT |> else kcp in
      let kcp := kcp <| probe_wait ::= fun p => u32 (p + p / 2) |> in
      let kcp := if probe_wait kcp >? IKCP_PROBE_LIMIT
                 then kcp <| probe_wait := IKCP_PROBE_LIMIT |> else kcp in
      let kcp := kcp <| ts_probe := u32 (current kcp + probe_wait kcp) |> in
      kcp <| probe ::= fun p => Z.lor p IKCP_ASK_SEND |>
    else kcp
  else kcp <| ts_probe := 0 |> <| probe_wait := 0 |>.

(** One of the two window commands, when its bit of [probe] is set. *)
Definition flush_probe (ask cmd : Z) (kcp : ikcpcb) (seg : IKCPSEG) (w : outbuf)
  : res (IKCPSEG * outbuf) :=
  if negb (Z.land (probe kcp) ask =? 0) then
    let seg := seg <| seg_cmd := cmd |> in
    w ← make_room kcp w IKCP_OVERHEAD;
    w ← emit kcp w (ikcp_encode_seg seg);
    Ok (seg, w)
  else Ok (seg, w).

Definition flush_window (kcp : ikcpcb) : Z :=
  let w := _imin_ (snd_wnd kcp) (rmt_wnd kcp) in
  if nocwnd kcp =? 0 then _imin_ (cwnd kcp) w else w.

(** Move segments from snd_queue to snd_buf while the window [cw] is open; [q] is what
    snd_queue holds. *)
Fixpoint move_snd_queue (q : list IKCPSEG) (cw wnd : Z) (kcp : ikcpcb) : ikcpcb :=
  if _itimediff (snd_nxt kcp) (u32 (snd_una kcp + cw)) <? 0 then
    match q with
    | [] => kcp
    | newseg :: q =>
        let newseg := newseg <| seg_conv := conv kcp |> <| seg_cmd := IKCP_CMD_PUSH |>
            <| seg_wnd := wnd |> <| seg_ts := current kcp |> <| seg_sn := snd_nxt kcp |>
            <| seg_una := rcv_nxt kcp |> <| seg_resendts := current kcp |>
            <| seg_rto := u32 (rx_rto kcp) |> <| seg_fastack := 0 |> <| seg_xmit := 0 |> in
        move_snd_queue q cw wnd
          (kcp <| snd_queue := q |> <| snd_buf ::= fun b => b ++ [newseg] |>
               <| nsnd_que ::= fun n => u32 (n - 1) |> <| nsnd_buf ::= fun n => u32 (n + 1) |>
               <| snd_nxt ::= fun n => u32 (n + 1) |>)
    end
  else kcp.

Definition send_reason (kcp : ikcpcb) (resent : Z) (s : IKCPSEG) : reason :=
  if seg_xmit s =? 0 then First
  else if _itimediff (current kcp) (seg_resendts s) >=? 0 then Timeout
  else if seg_fastack s >=? resent then
    if (i32 (seg_xmit s) <=? fastlimit kcp) || (fastlimit kcp <=? 0) then Fast else NotSent
  else NotSent.

(** The three branches, and the stamps of [if (needsend)]. *)
Definition resend_segment (kcp : ikcpcb) (rtomin wnd : Z) (r : reason) (s : IKCPSEG) : IKCPSEG :=
  let now := current kcp in
  let s :=
    match r with
    | First =>
        let s := s <| seg_xmit ::= fun x => u32 (x + 1) |> <| seg_rto := u32 (rx_rto kcp) |> in
        s <| seg_resendts := u32 (u32 (now + seg_rto s) + rtomin) |>
    | Timeout =>
        let s := s <| seg_xmit ::= fun x => u32 (x + 1) |> in
        let s :=
          if nodelay kcp =? 0 then
            s <| seg_rto ::= fun t => u32 (t + _imax_ t (u32 (rx_rto kcp))) |>
          else
            let step := if nodelay kcp <? 2 then i32 (seg_rto s) else rx_rto kcp in
            s <| seg_rto ::= fun t => u32 (t + u32 (Z.quot step 2)) |> in
        s <| seg_resendts := u32 (now + seg_rto s) |>
    | Fast =>
        let s := s <| seg_xmit ::= fun x => u32 (x + 1) |> <| seg_fastack := 0 |> in
        s <| seg_resendts := u32 (now + seg_rto s) |>
    | NotSent => s
    end in
  match r with
  | NotSent => s
  | _ => s <| seg_ts := now |> <| seg_wnd := wnd |> <| seg_una := rcv_nxt kcp |>
  end.

(** Encode a data segment. *)
Definition flush_segment (kcp : ikcpcb) (s : IKCPSEG) (w : outbuf) : res outbuf :=
  w ← make_room kcp w (i32 (u32 (IKCP_OVERHEAD + seg_len s)));
  w ← emit kcp w (ikcp_encode_seg s);
  if seg_len s >? 0 then
    bytes ← c_memcpy (seg_data s) (seg_len s); emit kcp w bytes
  else Ok w.

(** The loop over snd_buf.  The result is the list of updated segments, the control block
    (its [xmit] and [state]), the output, and the locals [lost] and [change]. *)
Fixpoint flush_data (l : list IKCPSEG) (resent rtomin wnd : Z) (kcp : ikcpcb) (w : outbuf)
    (lost change : Z) : res (list IKCPSEG * ikcpcb * outbuf * Z * Z) :=
  match l with
  | [] => Ok ([], kcp, w, lost, change)
  | s :: l =>
      let r := send_reason kcp resent s in
      let s := resend_segment kcp rtomin wnd r s in
      let kcp := if decide (r = Timeout) then kcp <| xmit ::= fun x => u32 (x + 1) |> else kcp in
      let lost := if decide (r = Timeout) then 1 else lost in
      let change := if decide (r = Fast) then i32 (change + 1) else change in
      '(kcp, w) ← (if decide (r = NotSent) then Ok (kcp, w)
                   else
                     w ← flush_segment kcp s w;
                     Ok (if seg_xmit s >=? dead_link kcp then kcp <| state := 4294967295 |>
                         else kcp, w));
      '(l, kcp, w, lost, change) ← flush_data l resent rtomin wnd kcp w lost change;
      Ok (s :: l, kcp, w, lost, change)
  end.

(** Update ssthresh and cwnd. *)
Definition flush_congestion (kcp : ikcpcb) (cw resent lost change : Z) : ikcpcb :=
  let kcp :=
    if negb (change =? 0) then
      let inflight := u32 (snd_nxt kcp - snd_una kcp) in
      let kcp := kcp <| ssthresh := inflight / 2 |> in
      let kcp := if ssthresh kcp <? IKCP_THRESH_MIN
                 then kcp <| ssthresh := IKCP_THRESH_MIN |> else kcp in
      let kcp := kcp <| cwnd := u32 (ssthresh kcp + resent) |> in
      kcp <| incr := u32 (cwnd kcp * mss kcp) |>
    else kcp in
  let kcp :=
    if negb (lost =? 0) then
      let kcp := kcp <| ssthresh := cw / 2 |> in
      let kcp := if ssthresh kcp <? IKCP_THRESH_MIN
                 then kcp <| ssthresh := IKCP_THRESH_MIN |> else kcp in
      kcp <| cwnd := 1 |> <| incr := mss kcp |>
    else kcp in
  if cwnd kcp <? 1 then kcp <| cwnd := 1 |> <| incr := mss kcp |> else kcp.

(** The part of ikcp_flush up to the emptying of [probe]: the local [seg] and the output. *)
Definition flush_control (kcp : ikcpcb) (seg : IKCPSEG) : res (ikcpcb * outbuf) :=
  let count := i32 (ackcount kcp) in
  '(seg, w) ← flush_acks (Z.to_nat count) 0 kcp seg (mkOut [] []);
  let kcp := kcp <| ackcount := 0 |> in
  let kcp := flush_probe_timer kcp in
  '(seg, w) ← flush_probe IKCP_ASK_SEND IKCP_CMD_WASK kcp seg w;
  '(seg, w) ← flush_probe IKCP_ASK_TELL IKCP_CMD_WINS kcp seg w;
  Ok (kcp <| probe := 0 |>, w).

Definition flush_seg0 (kcp : ikcpcb) : IKCPSEG :=
  mkSeg (conv kcp) IKCP_CMD_ACK 0 (u32 (ikcp_wnd_unused kcp)) 0 0 (rcv_nxt kcp) 0 0 0 0 0 [].

(** The result is the new state and the datagrams handed to the output callback. *)
Definition ikcp_flush (kcp : ikcpcb) : res (ikcpcb * list (list Z)) :=
  if updated kcp =? 0 then Ok (kcp, [])
  else
    let seg := flush_seg0 kcp in
    '(kcp, w) ← flush_control kcp seg;
    let cw := flush_window kcp in
    let kcp := move_snd_queue (snd_queue kcp) cw (seg_wnd seg) kcp in
    let resent := if fastresend kcp >? 0 then fastresend kcp else 4294967295 in
    let rtomin := if nodelay kcp =? 0 then u32 (Z.shiftr (rx_rto kcp) 3) else 0 in
    '(l, kcp, w, lost, change) ← flush_data (snd_buf kcp) resent rtomin (seg_wnd seg) kcp w 0 0;
    let kcp := kcp <| snd_buf := l |> in
    w ← (if i32 (Z.of_nat (length (pending w))) >? 0 then ikcp_output kcp (pending w) w else Ok w);
    Ok (flush_congestion kcp cw resent lost change, sent w).

(** ** The clock *)

Definition ikcp_update (kcp : ikcpcb) (now : Z) : res (ikcpcb * list (list Z)) :=
  let kcp := kcp <| current := now |> in
  let kcp := if updated kcp =? 0 then kcp <| updated := 1 |> <| ts_flush := current kcp |> else kcp in
  let slap := _itimediff (current kcp) (ts_flush kcp) in
  let '(kcp, slap) :=
    if (slap >=? 10000) || (slap <? -10000) then (kcp <| ts_flush := current kcp |>, 0)
    else (kcp, slap) in
  if slap >=? 0 then
    let kcp := kcp <| ts_flush ::= fun t => u32 (t + interval kcp) |> in
    let kcp := if _itimediff (current kcp) (ts_flush kcp) >=? 0
               then kcp <| ts_flush := u32 (current kcp + interval kcp) |> else kcp in
    ikcp_flush kcp
  else Ok (kcp, []).

(** The loop of ikcp_check: [None] when a segment is already due. *)
Fixpoint check_loop (l : list IKCPSEG) (now tm_packet : Z) : option Z :=
  match l with
  | [] => Some tm_packet
  | s :: l =>
      let diff := _itimediff (seg_resendts s) now in
      if diff <=? 0 then None else check_loop l now (if diff <? tm_packet then diff else tm_packet)
  end.

Definition ikcp_check (kcp : ikcpcb) (now : Z) : Z :=
  if updated kcp =? 0 then now
  else
    let ts := ts_flush kcp in
    let ts := if (_itimediff now ts >=? 10000) || (_itimediff now ts <? -10000) then now else ts in
    if _itimediff now ts >=? 0 then now
    else
      let tm_flush := _itimediff ts now in
      match check_loop (snd_buf kcp) now 2147483647 with
      | None => now
      | Some tm_packet =>
          let minimal := u32 (if tm_packet <? tm_flush then tm_packet else tm_flush) in
          let minimal := if minimal >=? interval kcp then interval kcp else minimal in
          u32 (now + minimal)
      end.
End Flush.

(** ** Packing *)

(** The output can be written: the callback is set and the buffer is the one that
    ikcp_create or ikcp_setmtu allocated for the mtu. *)
Record writable (k : ikcpcb) : Prop := {
  writable_output : output k = true;
  writable_buffer : buffer k = Some ((mtu k + IKCP_OVERHEAD) * 3);
  writable_mtu : 50 <= mtu k < 1073741824 }.

Definition datagram (g : list IKCPSEG) : list Z := mjoin (wire <$> g).

Lemma datagram_app g1 g2 : datagram (g1 ++ g2) = datagram g1 ++ datagram g2.
Proof. unfold datagram. by rewrite fmap_app, join_app. Qed.
Lemma datagram_one s : datagram [s] = wire s.
Proof. unfold datagram. cbn. by rewrite app_nil_r. Qed.

(** The segments [segs] have been written in order: the datagrams handed over and the
    bytes still pending are a division of them into groups of at most [m] bytes. *)
Record packed (m : Z) (w : outbuf) (segs : list IKCPSEG) : Prop := {
  packed_groups : exists gs g, sent w = datagram <$> gs /\ pending w = datagram g /\
    segs = mjoin gs ++ g;
  packed_sent : Forall (fun d => 0 < Z.of_nat (length d) <= m) (sent w);
  packed_pending : Z.of_nat (length (pending w)) <= m }.

Lemma packed_nil m : 0 <= m -> packed m (mkOut [] []) [].
Proof. intros Hm. constructor; cbn; [by exists [], []|done|lia]. Qed.

Section Packing.
Context `{env : Env} `{host : Host}.

Lemma ikcp_output_packed k w segs :
  writable k -> packed (mtu k) w segs -> pending w <> [] ->
  exists w', ikcp_output k (pending w) w = Ok w' /\ packed (mtu k) (mkOut [] (sent w')) segs.
Proof.
  intros [Ho _ _] [(gs & g & Hs & Hp & ->) Hf Hl] Hne. unfold ikcp_output, c_assert. rewrite Ho.
  cbn [orb mbind res_bind]. rewrite decide_False by done. eexists. split; [done|].
  assert (0 < Z.of_nat (length (pending w))) by (destruct (pending w); [done|cbn; lia]).
  constructor; cbn; [|apply Forall_app; split; [done|by apply Forall_singleton]|lia].
  exists (gs ++ [g]), []. rewrite fmap_app, join_app, Hs, Hp, app_nil_r. cbn. by rewrite app_nil_r.
Qed.

Lemma make_room_packed k w segs need :
  writable k -> packed (mtu k) w segs -> 24 <= need <= mtu k ->
  returns (make_room k w need) (fun w' =>
    packed (mtu k) w' segs /\ Z.of_nat (length (pending w')) + need <= mtu k).
Proof.
  intros Hw Hp Hn. pose proof (writable_mtu _ Hw) as [Hm1 Hm2]. unfold IKCP_OVERHEAD in *.
  pose proof (packed_pending _ _ _ Hp) as Hl. unfold make_room.
  rewrite (i32_small (Z.of_nat _)), (i32_small (_ + need)), (i32_small (mtu k)) by lia.
  destruct (Z.gtb_spec (Z.of_nat (length (pending w)) + need) (mtu k)) as [Hg|Hg];
    [|by apply returns_Ok].
  destruct (ikcp_output_packed k w segs Hw Hp) as (w' & -> & Hp').
  { intros E. rewrite E in Hg. cbn in Hg. lia. }
  apply returns_Ok. cbn. split; [done|lia].
Qed.

Lemma emit_ok k w bytes :
  writable k -> Z.of_nat (length (pending w)) + Z.of_nat (length bytes) <= mtu k ->
  emit k w bytes = Ok (mkOut (pending w ++ bytes) (sent w)).
Proof.
  intros [_ Hb Hm] Hl. unfold IKCP_OVERHEAD in *. unfold emit. rewrite Hb.
  rewrite (proj2 (Z.leb_le _ _)); [done|]. lia.
Qed.

Lemma packed_emit m w segs s :
  packed m w segs -> Z.of_nat (length (pending w)) + Z.of_nat (length (wire s)) <= m ->
  packed m (mkOut (pending w ++ wire s) (sent w)) (segs ++ [s]).
Proof.
  intros [(gs & g & Hs & Hp & ->) Hf Hl] Hle. constructor; cbn [pending sent]; [|done|rewrite length_app; lia].
  exists gs, (g ++ [s]). rewrite datagram_app, datagram_one, Hp, app_assoc. done.
Qed.

(** A header without payload. *)
Lemma emit_header k w segs s :
  writable k -> packed (mtu k) w segs -> Z.of_nat (length (pending w)) + 24 <= mtu k ->
  seg_len s = 0 -> seg_data s = [] ->
  exists w', emit k w (ikcp_encode_seg s) = Ok w' /\ packed (mtu k) w' (segs ++ [s]).
Proof.
  intros Hw Hp Hl Hs0 Hd.
  assert (wire s = ikcp_encode_seg s) as Ew.
  { rewrite ikcp_encode_seg_bytes. unfold wire, seg_bytes. by rewrite Hd, take_nil, app_nil_r. }
  pose proof (length_header_bytes s) as Hh.
  rewrite emit_ok; [|done|rewrite ikcp_encode_seg_bytes; lia]. eexists. split; [done|].
  rewrite <- Ew. apply packed_emit; [done|]. rewrite Ew, ikcp_encode_seg_bytes. lia.
Qed.

Lemma flush_segment_packed k w segs s :
  writable k -> packed (mtu k) w segs -> seg_wf (mtu k - IKCP_OVERHEAD) s ->
  returns (flush_segment k s w) (fun w' => packed (mtu k) w' (segs ++ [s])).
Proof.
  intros Hw Hp (_ & _ & Hlen & Hle & _). pose proof (writable_mtu _ Hw) as [Hm1 Hm2].
  unfold flush_segment. unfold IKCP_OVERHEAD in *.
  rewrite (u32_small (24 + seg_len s)), (i32_small (24 + seg_len s)) by lia.
  eapply returns_bind; [apply (make_room_packed k w segs); done || lia|].
  intros w1 [Hp1 Hl1]. pose proof (length_header_bytes s) as Hh.
  rewrite emit_ok; [|done|rewrite ikcp_encode_seg_bytes; lia]. cbn [mbind res_bind].
  pose proof (length_wire s Hlen) as Hlw.
  pose proof (packed_emit _ _ _ s Hp1 ltac:(lia)) as Hp2. rewrite ikcp_encode_seg_bytes.
  unfold wire in Hp2. rewrite app_assoc in Hp2.
  destruct (Z.gtb_spec (seg_len s) 0) as [Hg|Hg].
  - unfold c_memcpy. destruct (Z.leb_spec (seg_len s) (Z.of_nat (length (seg_data s)))); [|lia].
    cbn [mbind res_bind]. rewrite emit_ok; [by apply returns_Ok|done|].
    cbn [pending]. rewrite length_app, length_take. lia.
  - apply returns_Ok. assert (seg_bytes s = []) as E.
    { unfold seg_bytes. destruct (seg_data s); [by rewrite take_nil|cbn in *; lia]. }
    by rewrite E, app_nil_r in Hp2.
Qed.

(** The acknowledgements, in the order in which they were recorded. *)
Definition ack_seg (seg : IKCPSEG) (a : Z * Z) : IKCPSEG :=
  seg <| seg_sn := fst a |> <| seg_ts := snd a |>.

Lemma flush_acks_packed n i k seg w segs qs ps :
  writable k -> packed (mtu k) w segs -> ack_rep k (qs ++ ps) -> i = Z.of_nat (length qs) ->
  n = length ps -> seg_len seg = 0 -> seg_data seg = [] ->
  returns (flush_acks n i k seg w) (fun '(seg', w') =>
    packed (mtu k) w' (segs ++ (ack_seg seg <$> ps)) /\
    seg' = (if last ps is Some a then ack_seg seg a else seg)).
Proof.
  intros Hw. revert n i seg w segs qs.
  induction ps as [|[sn ts] ps IH]; intros n i seg w segs qs Hp Ha -> -> Hs0 Hd; cbn [length flush_acks].
  { apply returns_Ok. by rewrite app_nil_r. }
  pose proof (writable_mtu _ Hw) as [Hm1 Hm2].
  eapply returns_bind; [apply (make_room_packed k w segs); unfold IKCP_OVERHEAD; done || lia|].
  intros w1 [Hp1 Hl1].
  rewrite (ikcp_ack_get_exact k _ (length qs) sn ts Ha) by by rewrite list_lookup_middle.
  cbn [mbind res_bind].
  change (seg <| seg_sn := sn |> <| seg_ts := ts |>) with (ack_seg seg (sn, ts)).
  destruct (emit_header k w1 segs (ack_seg seg (sn, ts))) as (w2 & -> & Hp2); try done.
  cbn [mbind res_bind].
  eapply returns_mono; [apply (IH _ _ (ack_seg seg (sn, ts)) w2 (segs ++ [ack_seg seg (sn, ts)]) (qs ++ [(sn, ts)])); try done|].
  - by rewrite <- app_assoc.
  - rewrite length_app. cbn. lia.
  - intros [seg' w'] [Hp3 ->]. rewrite <- app_assoc in Hp3. split; [exact Hp3|].
    destruct ps as [|b ps]; [done|].
    change (last ((sn, ts) :: b :: ps)) with (last (b :: ps)).
    destruct (last (b :: ps)) as [c|] eqn:E; [done|]. by apply last_None in E.
Qed.

Lemma flush_probe_packed ask cmd k seg w segs :
  writable k -> packed (mtu k) w segs -> seg_len seg = 0 -> seg_data seg = [] ->
  returns (flush_probe ask cmd k seg w) (fun '(seg', w') =>
    let asked := negb (Z.land (probe k) ask =? 0) in
    seg' = (if asked then seg <| seg_cmd := cmd |> else seg) /\
    packed (mtu k) w' (segs ++ (if asked then [seg'] else []))).
Proof.
  intros Hw Hp Hs0 Hd. unfold flush_probe. pose proof (writable_mtu _ Hw) as [Hm1 Hm2].
  destruct (negb _); [|apply returns_Ok; by rewrite app_nil_r].
  eapply returns_bind; [apply (make_room_packed k w segs); unfold IKCP_OVERHEAD; done || lia|].
  intros w1 [Hp1 Hl1].
  destruct (emit_header k w1 segs (seg <| seg_cmd := cmd |>)) as (w2 & -> & Hp2); try done.
  by apply returns_Ok.
Qed.
End Packing.

(** ** The control segments *)

Lemma flush_probe_timer_spec k :
  0 <= probe_wait k <= IKCP_PROBE_LIMIT ->
  exists a b c, flush_probe_timer k = k <| probe_wait := a |> <| ts_probe := b |> <| probe := c |> /\
    0 <= a <= IKCP_PROBE_LIMIT.
Proof.
  unfold IKCP_PROBE_LIMIT. intros Hp. unfold flush_probe_timer. destruct (rmt_wnd k =? 0).
  2:{ exists 0, 0, (probe k). split; [by destruct k|lia]. }
  destruct (probe_wait k =? 0).
  { exists IKCP_PROBE_INIT, (u32 (current k + IKCP_PROBE_INIT)), (probe k).
    split; [by destruct k|unfold IKCP_PROBE_INIT; lia]. }
  destruct (_ >=? 0).
  2:{ exists (probe_wait k), (ts_probe k), (probe k). split; [by destruct k|lia]. }
  set (k1 := if probe_wait k <? IKCP_PROBE_INIT then _ else _).
  assert (exists a, k1 = k <| probe_wait := a |> /\ 0 <= a <= 120000) as (a & -> & Ha).
  { subst k1. unfold IKCP_PROBE_INIT. destruct (_ <? _).
    - exists 7000. split; [done|lia].
    - exists (probe_wait k). split; [by destruct k|lia]. }
  cbn. unfold IKCP_PROBE_LIMIT. destruct (Z.gtb_spec (u32 (a + a / 2)) 120000).
  - by eexists 120000, _, _.
  - eexists _, _, _. split; [reflexivity|]. cbn in *. unfold IKCP_PROBE_LIMIT. pose proof (u32_range (a + a / 2)). lia.
Qed.

(** The interval between probes of a closed window starts at 7 s and grows by half up to
    two minutes; an open window resets it. *)
Theorem flush_probe_timer_backoff k :
  0 <= probe_wait k <= IKCP_PROBE_LIMIT ->
  let k' := flush_probe_timer k in
  probe_wait k' =
    (if rmt_wnd k =? 0 then
       if probe_wait k =? 0 then IKCP_PROBE_INIT
       else if _itimediff (current k) (ts_probe k) <? 0 then probe_wait k
       else Z.min IKCP_PROBE_LIMIT (Z.max IKCP_PROBE_INIT (probe_wait k) * 3 / 2)
     else 0) /\
  probe k' = (if (rmt_wnd k =? 0) && negb (probe_wait k =? 0) &&
                 (_itimediff (current k) (ts_probe k) >=? 0)
              then Z.lor (probe k) IKCP_ASK_SEND else probe k).
Proof.
  unfold IKCP_PROBE_LIMIT. intros Hp. unfold flush_probe_timer, IKCP_PROBE_INIT, IKCP_PROBE_LIMIT.
  destruct (rmt_wnd k =? 0); [|done]. destruct (probe_wait k =? 0); [done|]. cbn [andb negb].
  destruct (Z.geb_spec (_itimediff (current k) (ts_probe k)) 0);
    destruct (Z.ltb_spec (_itimediff (current k) (ts_probe k)) 0); try lia.
  assert (forall a, 0 <= a <= 120000 -> u32 (a + a / 2) = a * 3 / 2) as Hh.
  { intros a Ha. rewrite u32_small; Z.to_euclidean_division_equations; lia. }
  destruct (Z.ltb_spec (probe_wait k) 7000); cbn.
  - rewrite Z.max_l by lia. done.
  - rewrite Hh by lia. rewrite Z.max_r by lia. destruct (Z.gtb_spec (probe_wait k * 3 / 2) 120000);
      cbn; rewrite ?Hh by lia; split; try done; lia.
Qed.

Definition after_control (k : ikcpcb) : ikcpcb :=
  flush_probe_timer (k <| ackcount := 0 |>) <| probe := 0 |>.

(** The acknowledgements [ps], then a question and an answer about the window. *)
Definition control_segs (k : ikcpcb) (ps : list (Z * Z)) : list IKCPSEG :=
  let seg := flush_seg0 k in
  let k1 := flush_probe_timer (k <| ackcount := 0 |>) in
  let seg1 := if last ps is Some a then ack_seg seg a else seg in
  let ask := negb (Z.land (probe k1) IKCP_ASK_SEND =? 0) in
  let tell := negb (Z.land (probe k1) IKCP_ASK_TELL =? 0) in
  (ack_seg seg <$> ps) ++
  (if ask then [seg1 <| seg_cmd := IKCP_CMD_WASK |>] else []) ++
  (if tell then [seg1 <| seg_cmd := IKCP_CMD_WINS |>] else []).

Lemma writable_step k k' :
  writable k -> output k' = output k -> buffer k' = buffer k -> mtu k' = mtu k -> writable k'.
Proof. intros [] E1 E2 E3. constructor; rewrite ?E1, ?E2, ?E3; done. Qed.

Section Control.
Context `{env : Env} `{host : Host}.

Lemma flush_control_spec k ps :
  writable k -> ctl_wf k -> ack_rep k ps -> Z.of_nat (length ps) < 2147483648 ->
  returns (flush_control k (flush_seg0 k)) (fun '(k', w) =>
    k' = after_control k /\ packed (mtu k) w (control_segs k ps)).
Proof.
  intros Hw Hc Ha Hps. unfold flush_control.
  destruct (flush_probe_timer_spec (k <| ackcount := 0 |>)) as (a & b & c & Ek & _).
  { apply (wf_probe_wait _ Hc). }
  set (k1 := flush_probe_timer _) in Ek.
  assert (writable k1) as Hw1 by (eapply writable_step; [done|..]; by rewrite Ek).
  assert (mtu k1 = mtu k) as Em by by rewrite Ek.
  pose proof (writable_mtu _ Hw) as Hm.
  rewrite (ack_count _ _ Ha), i32_small, Nat2Z.id by lia.
  eapply returns_bind.
  { apply (flush_acks_packed _ 0 k (flush_seg0 k) _ [] [] ps); try done. apply packed_nil. lia. }
  intros [seg1 w1] [Hp1 ->]. cbn [app] in Hp1. fold k1.
  set (seg1 := if last ps is Some a then _ else _) in *.
  assert (seg_len seg1 = 0 /\ seg_data seg1 = []) as [Hl Hd].
  { subst seg1. by destruct (last ps). }
  rewrite <- Em in *.
  eapply returns_bind; [apply (flush_probe_packed _ _ k1 seg1 w1); done|].
  intros [seg2 w2] [Hs2 Hp2].
  assert (seg_len seg2 = 0 /\ seg_data seg2 = []) as [Hl2 Hd2] by (subst seg2; by destruct (negb _)).
  eapply returns_bind; [apply (flush_probe_packed _ _ k1 seg2 w2); done|].
  intros [seg3 w3] [Hs3 Hp3]. apply returns_Ok. split; [done|].
  match goal with |- packed _ _ ?l => replace l with
    (((ack_seg (flush_seg0 k) <$> ps) ++ (if negb (Z.land (probe k1) IKCP_ASK_SEND =? 0) then [seg2] else []))
     ++ (if negb (Z.land (probe k1) IKCP_ASK_TELL =? 0) then [seg3] else [])) end; [exact Hp3|].
  unfold control_segs. fold k1 seg1. rewrite <- app_assoc. subst seg3 seg2.
  by destruct (negb (Z.land (probe k1) IKCP_ASK_SEND =? 0)), (negb (Z.land (probe k1) IKCP_ASK_TELL =? 0)).
Qed.
End Control.

(** ** From snd_queue to snd_buf *)

(** The segment as it enters snd_buf. *)
Definition fresh_seg (k : ikcpcb) (wnd : Z) (s : IKCPSEG) : IKCPSEG :=
  s <| seg_conv := conv k |> <| seg_cmd := IKCP_CMD_PUSH |> <| seg_wnd := wnd |>
    <| seg_ts := current k |> <| seg_sn := snd_nxt k |> <| seg_una := rcv_nxt k |>
    <| seg_resendts := current k |> <| seg_rto := u32 (rx_rto k) |> <| seg_fastack := 0 |>
    <| seg_xmit := 0 |>.

Definition send_one (k : ikcpcb) (wnd : Z) (s : IKCPSEG) (q : list IKCPSEG) : ikcpcb :=
  k <| snd_queue := q |> <| snd_buf ::= fun b => b ++ [fresh_seg k wnd s] |>
    <| nsnd_que ::= fun n => u32 (n - 1) |> <| nsnd_buf ::= fun n => u32 (n + 1) |>
    <| snd_nxt ::= fun n => u32 (n + 1) |>.

Definition in_flight (k : ikcpcb) : Z := u32 (snd_nxt k - snd_una k).

(** The test of the loop. *)
Lemma window_open k cw :
  snd_wf k -> 0 <= cw <= 65535 ->
  _itimediff (snd_nxt k) (u32 (snd_una k + cw)) = in_flight k - cw.
Proof.
  intros H Hc. unwf H. unfold in_flight. apply itimediff_near.
  - pose proof (u32_range (snd_nxt k - snd_una k)). lia.
  - rewrite u32_add_l. replace (snd_una k + cw + (u32 (snd_nxt k - snd_una k) - cw)) with
      (u32 (snd_nxt k - snd_una k) + snd_una k) by lia.
    rewrite u32_add_l. f_equal. lia.
Qed.

Lemma in_flight_next k :
  in_flight k <= 65535 -> u32 (u32 (snd_nxt k + 1) - snd_una k) = in_flight k + 1.
Proof.
  unfold in_flight. intros Hf. pose proof (u32_range (snd_nxt k - snd_una k)).
  rewrite u32_sub_l. replace (snd_nxt k + 1 - snd_una k) with ((snd_nxt k - snd_una k) + 1) by lia.
  rewrite <- u32_add_l. apply u32_small. lia.
Qed.

Lemma send_one_wf k wnd s q :
  snd_wf k -> snd_queue k = s :: q -> in_flight k < 65535 -> snd_wf (send_one k wnd s q).
Proof.
  intros H Eq Hf. pose proof (snd_buf_short _ H) as Hshort. pose proof (in_flight_next k ltac:(lia)) as Hn.
  unwf H. rewrite Eq in *. apply Forall_cons in Hqueue as [Hs Hqueue].
  pose proof (qlen_nonneg (snd_buf k)). pose proof (qlen_nonneg q).
  assert (off (snd_una k) (fresh_seg k wnd s) = in_flight k) as Ho by done.
  constructor; cbn; try assumption.
  - apply u32_range.
  - rewrite Hn. lia.
  - rewrite Hn, <- Ho. apply (window_snoc _ _ (in_flight k)); [exact Hbuf|lia].
  - rewrite Hnb, qlen_app. autorewrite with queue. apply u32_small. lia.
  - rewrite Hnq, qlen_cons, u32_sub_l. f_equal. lia.
  - apply Forall_app. split; [done|]. apply Forall_singleton.
    destruct Hs as (_ & ? & ? & ? & ?). split_and!; done.
Qed.

(** [l] went from snd_queue to snd_buf. *)
Record queued (k k' : ikcpcb) (wnd cw : Z) (l : list IKCPSEG) : Prop := {
  queued_wf : snd_wf k';
  queued_same : k' = k <| snd_queue := snd_queue k' |> <| snd_buf := snd_buf k' |>
      <| nsnd_que := nsnd_que k' |> <| nsnd_buf := nsnd_buf k' |> <| snd_nxt := snd_nxt k' |>;
  queued_queue : snd_queue k = l ++ snd_queue k';
  (** in order, numbered from [snd_nxt] *)
  queued_buf : snd_buf k' = snd_buf k ++
      imap (fun i s => fresh_seg (k <| snd_nxt := u32 (snd_nxt k + Z.of_nat i) |>) wnd s) l;
  queued_nxt : snd_nxt k' = u32 (snd_nxt k + qlen l);
  queued_window : in_flight k' <= Z.max (in_flight k) cw;
  (** nothing that the window admits is left behind *)
  queued_all : snd_queue k' = [] \/ cw <= in_flight k' }.

Lemma queued_refl k wnd cw :
  snd_wf k -> snd_queue k = [] \/ cw <= in_flight k -> queued k k wnd cw [].
Proof.
  intros H Hall. constructor; try done.
  - by destruct k.
  - by rewrite app_nil_r.
  - rewrite qlen_nil, Z.add_0_r. symmetry. apply u32_small, H.
  - lia.
Qed.

Lemma move_snd_queue_spec q k cw wnd :
  snd_wf k -> snd_queue k = q -> 0 <= cw <= 65535 ->
  exists l, queued k (move_snd_queue q cw wnd k) wnd cw l.
Proof.
  revert k. induction q as [|s q IH]; intros k H Eq Hcw; cbn [move_snd_queue];
    pose proof (window_open k cw H Hcw) as Ho; rewrite Ho;
    destruct (Z.ltb_spec (in_flight k - cw) 0) as [Hlt|Hge];
    [by exists []; apply queued_refl; auto|exists []; apply queued_refl; [done|right; lia]| |
     exists []; apply queued_refl; [done|right; lia]].
  change (exists l, queued k (move_snd_queue q cw wnd (send_one k wnd s q)) wnd cw l).
  destruct (IH (send_one k wnd s q)) as [l [Hwf Hsame Hq Hb Hn Hw Hall]];
    [apply send_one_wf; done || lia|done|done|].
  exists (s :: l). constructor; try done.
  - rewrite Eq. cbn [send_one snd_queue upd set_snd_queue] in Hq. cbn. f_equal. exact Hq.
  - rewrite Hb. cbn [imap]. rewrite Z.add_0_r, (u32_small (snd_nxt k)) by apply H.
    change (snd_buf (send_one k wnd s q)) with (snd_buf k ++ [fresh_seg k wnd s]).
    rewrite <- app_assoc. cbn [app]. f_equal. f_equal.
    apply imap_ext. intros i t _. unfold compose.
    change (snd_nxt (send_one k wnd s q)) with (u32 (snd_nxt k + 1)). rewrite u32_add_l.
    replace (snd_nxt k + 1 + Z.of_nat i) with (snd_nxt k + Z.of_nat (S i)) by lia. reflexivity.
  - rewrite Hn. change (snd_nxt (send_one k wnd s q)) with (u32 (snd_nxt k + 1)).
    rewrite u32_add_l, qlen_cons. f_equal. lia.
  - assert (in_flight (send_one k wnd s q) = in_flight k + 1) as E
      by exact (in_flight_next k ltac:(lia)).
    lia.
Qed.

(** ** The loop over snd_buf *)

(** The loop only touches [xmit] and [state] of the control block, and neither is read
    by the decisions. *)
Definition same_but_counters (k k' : ikcpcb) : Prop :=
  k' = k <| xmit := xmit k' |> <| state := state k' |>.

Definition flush_update (k : ikcpcb) (resent rtomin wnd : Z) (s : IKCPSEG) : IKCPSEG :=
  resend_segment k rtomin wnd (send_reason k resent s) s.

(** The segments that go out: new, timed out or skipped by enough acknowledgements. *)
Definition outgoing (k : ikcpcb) (resent : Z) (l : list IKCPSEG) : list IKCPSEG :=
  filter (fun s => send_reason k resent s <> NotSent) l.

Definition count_reason (k : ikcpcb) (resent : Z) (r : reason) (l : list IKCPSEG) : Z :=
  qlen (filter (fun s => send_reason k resent s = r) l).

Lemma resend_segment_same k rtomin wnd r s :
  let s' := resend_segment k rtomin wnd r s in
  seg_sn s' = seg_sn s /\ seg_frg s' = seg_frg s /\ seg_len s' = seg_len s /\
  seg_data s' = seg_data s /\ seg_conv s' = seg_conv s /\ seg_cmd s' = seg_cmd s.
Proof.
  unfold resend_segment. destruct r; cbn; try done.
  destruct (nodelay k =? 0); done.
Qed.

Lemma resend_segment_wf m k rtomin wnd r s : seg_wf m s -> seg_wf m (resend_segment k rtomin wnd r s).
Proof.
  destruct (resend_segment_same k rtomin wnd r s) as (E1 & E2 & E3 & E4 & _).
  unfold seg_wf. by rewrite E1, E2, E3, E4.
Qed.

Lemma count_reason_cons k resent r s l :
  count_reason k resent r (s :: l) =
    (if decide (send_reason k resent s = r) then 1 else 0) + count_reason k resent r l.
Proof.
  unfold count_reason. rewrite filter_cons. destruct (decide _); autorewrite with queue; lia.
Qed.

Lemma count_reason_nonneg k resent r l : 0 <= count_reason k resent r l.
Proof. apply qlen_nonneg. Qed.

Lemma same_but_counters_decisions k k1 resent rtomin wnd :
  same_but_counters k k1 ->
  (forall s, send_reason k1 resent s = send_reason k resent s) /\
  (forall r s, resend_segment k1 rtomin wnd r s = resend_segment k rtomin wnd r s).
Proof. intros ->. done. Qed.

Section Data.
Context `{env : Env} `{host : Host}.

Lemma flush_data_spec l resent rtomin wnd k k1 w segs lost change :
  same_but_counters k k1 -> writable k1 -> packed (mtu k1) w segs ->
  Forall (seg_wf (mtu k1 - IKCP_OVERHEAD)) l -> 0 <= change -> change + qlen l < 2147483648 ->
  returns (flush_data l resent rtomin wnd k1 w lost change) (fun '(l', k', w', lost', change') =>
    l' = flush_update k resent rtomin wnd <$> l /\ same_but_counters k k' /\
    packed (mtu k1) w' (segs ++ (flush_update k resent rtomin wnd <$> outgoing k resent l)) /\
    lost' = (if decide (count_reason k resent Timeout l = 0) then lost else 1) /\
    change' = change + count_reason k resent Fast l).
Proof.
  intros Hs Hw Hp Hl. revert k1 w segs lost change Hs Hw Hp Hl.
  induction l as [|s l IH]; intros k1 w segs lost change Hs Hw Hp Hl Hc0 Hc; cbn [flush_data].
  { apply returns_Ok. rewrite app_nil_r. split_and!; try done. unfold count_reason. cbn.
    rewrite qlen_nil. lia. }
  destruct (same_but_counters_decisions k k1 resent rtomin wnd Hs) as [Er Es].
  rewrite Er, Es. fold (flush_update k resent rtomin wnd s).
  set (r := send_reason k resent s). set (s' := flush_update k resent rtomin wnd s).
  apply Forall_cons in Hl as [Hsw Hl]. rewrite qlen_cons in Hc. pose proof (qlen_nonneg l).
  set (k2 := if decide (r = Timeout) then _ else k1).
  assert (same_but_counters k k2 /\ writable k2 /\ mtu k2 = mtu k1) as (Hs2 & Hw2 & Em2).
  { subst k2. destruct (decide (r = Timeout)); [|done]. split_and!; [|by destruct Hw|done].
    unfold same_but_counters in *. rewrite Hs. reflexivity. }
  eapply returns_bind with (P := fun '(k3, w3) => same_but_counters k k3 /\ writable k3 /\
    mtu k3 = mtu k1 /\ packed (mtu k1) w3 (segs ++ (if decide (r = NotSent) then [] else [s']))).
  - destruct (decide (r = NotSent)); [apply returns_Ok; by rewrite app_nil_r|].
    eapply returns_bind; [apply (flush_segment_packed k2 w segs); [done|by rewrite Em2|]|].
    { rewrite Em2. by apply resend_segment_wf. }
    intros w3 Hp3. apply returns_Ok. rewrite <- Em2.
    destruct (_ >=? _); [|done]. split_and!; [|by destruct Hw2|done|exact Hp3].
    unfold same_but_counters in *. rewrite Hs2. reflexivity.
  - intros [k3 w3] (Hs3 & Hw3 & Em3 & Hp3).
    set (ch := if decide (r = Fast) then _ else change).
    assert (ch = change + if decide (r = Fast) then 1 else 0) as Ech.
    { subst ch. destruct (decide (r = Fast)); [rewrite i32_small; lia|lia]. }
    eapply returns_bind.
    { rewrite <- Em3 in Hp3, Hl. apply (IH k3 w3 (segs ++ (if decide (r = NotSent) then [] else [s'])) (if decide (r = Timeout) then 1 else lost) ch);
        try done; destruct (decide (r = Fast)); lia. }
    intros [[[[l' k4] w4] lost4] change4] (-> & Hs4 & Hp4 & -> & ->). apply returns_Ok.
    rewrite Em3 in Hp4. rewrite <- app_assoc in Hp4. split_and!; try done.
    + unfold outgoing. rewrite filter_cons. fold r. destruct (decide (r = NotSent)).
      * rewrite decide_False by naive_solver. exact Hp4.
      * rewrite decide_True by done. exact Hp4.
    + rewrite count_reason_cons. fold r. pose proof (count_reason_nonneg k resent Timeout l).
      destruct (decide (r = Timeout)).
      * destruct (decide (1 + _ = 0)); [lia|]. by destruct (decide _).
      * done.
    + rewrite count_reason_cons. fold r. rewrite Ech. lia.
Qed.
End Data.

(** ** The congestion window *)

(** The reaction to a loss: a fast retransmission halves the flight into [ssthresh]
    and resumes from there; a timeout starts over from one segment. *)
Theorem flush_congestion_spec k cw resent lost change :
  0 <= cw < 4294967296 ->
  let k' := flush_congestion k cw resent lost change in
  cwnd k' = (if lost =? 0 then
               if change =? 0 then (if cwnd k <? 1 then 1 else cwnd k)
               else let c := u32 (ssthresh k' + resent) in if c <? 1 then 1 else c
             else 1) /\
  ssthresh k' = (if lost =? 0 then
                   if change =? 0 then ssthresh k else Z.max 2 (in_flight k / 2)
                 else Z.max 2 (cw / 2)).
Proof.
  intros Hcw. unfold flush_congestion, IKCP_THRESH_MIN. cbn zeta. fold (in_flight k).
  generalize (in_flight k / 2), (cw / 2). intros f g.
  destruct (change =? 0), (lost =? 0); cbn [negb].
  - cbn. destruct (_ <? 1); cbn; done.
  - cbn -[Z.max]. destruct (Z.ltb_spec g 2); cbn -[Z.max]; split; try done; lia.
  - cbn -[Z.max]. destruct (Z.ltb_spec f 2); cbn -[Z.max];
      destruct (_ <? 1) eqn:E; cbn -[Z.max] in *; rewrite ?E; split; try done; lia.
  - cbn -[Z.max]. destruct (Z.ltb_spec f 2); cbn -[Z.max];
      destruct (Z.ltb_spec g 2); cbn -[Z.max]; split; try done; lia.
Qed.

Lemma flush_congestion_frame k cw resent lost change :
  is_u32 (cwnd k) -> is_u32 (incr k) -> is_u32 (ssthresh k) -> is_u32 (mss k) -> is_u32 cw ->
  exists a b c, flush_congestion k cw resent lost change =
      k <| ssthresh := a |> <| cwnd := b |> <| incr := c |> /\
    is_u32 a /\ is_u32 b /\ is_u32 c /\ 1 <= b.
Proof.
  unfold is_u32. intros Hc Hi Hs Hm Hw. unfold flush_congestion, IKCP_THRESH_MIN. fold (in_flight k).
  assert (0 <= in_flight k / 2 < 4294967296 /\ 0 <= cw / 2 < 4294967296) as [Hf2 Hw2].
  { pose proof (u32_range (snd_nxt k - snd_una k)). unfold in_flight.
    split; Z.to_euclidean_division_equations; lia. }
  generalize dependent (in_flight k / 2). generalize dependent (cw / 2). intros g Hg f Hf.
  set (k1 := if negb (change =? 0) then _ else k).
  assert (exists a b c, k1 = k <| ssthresh := a |> <| cwnd := b |> <| incr := c |> /\
    0 <= a < 4294967296 /\ 0 <= b < 4294967296 /\ 0 <= c < 4294967296) as (a1 & b1 & c1 & -> & H1).
  { subst k1. destruct (negb (change =? 0)).
    - cbn. destruct (_ <? 2); eexists _, _, _; (split; [reflexivity|]);
        cbn; split_and!; try lia; apply u32_range.
    - exists (ssthresh k), (cwnd k), (incr k). split; [by destruct k|done]. }
  set (k2 := if negb (lost =? 0) then _ else _).
  assert (exists a b c, k2 = k <| ssthresh := a |> <| cwnd := b |> <| incr := c |> /\
    0 <= a < 4294967296 /\ 0 <= b < 4294967296 /\ 0 <= c < 4294967296) as (a2 & b2 & c2 & -> & H2).
  { subst k2. destruct (negb (lost =? 0)).
    - cbn. destruct (_ <? 2); eexists _, _, _; (split; [reflexivity|]); cbn; lia.
    - eexists _, _, _. split; [reflexivity|lia]. }
  cbn. destruct (Z.ltb_spec b2 1).
  - exists a2, 1, (mss k). split; [reflexivity|lia].
  - exists a2, b2, c2. split; [reflexivity|lia].
Qed.

(** ** ikcp_flush *)

Definition flush_resent (k : ikcpcb) : Z := if fastresend k >? 0 then fastresend k else 4294967295.
Definition flush_rtomin (k : ikcpcb) : Z :=
  if nodelay k =? 0 then u32 (Z.shiftr (rx_rto k) 3) else 0.
Definition flush_wnd (k : ikcpcb) : Z := u32 (ikcp_wnd_unused k).

(** The state when the window has been opened, before the loop over snd_buf. *)
Definition after_move (k : ikcpcb) : ikcpcb :=
  let k1 := after_control k in move_snd_queue (snd_queue k1) (flush_window k1) (flush_wnd k) k1.

(** The data segments this flush sends, as they go out. *)
Definition data_segs (k : ikcpcb) : list IKCPSEG :=
  let k2 := after_move k in
  flush_update k2 (flush_resent k) (flush_rtomin k) (flush_wnd k)
    <$> outgoing k2 (flush_resent k) (snd_buf k2).

(** What a flush does. *)
Record flushed (k : ikcpcb) (ps : list (Z * Z)) (k' : ikcpcb) (out : list (list Z)) : Prop := {
  flushed_wf : kcp_wf k';
  (** every recorded acknowledgement, every window command asked for and every segment
      that must be sent goes out, once and in this order *)
  flushed_out : exists gs, out = datagram <$> gs /\ mjoin gs = control_segs k ps ++ data_segs k;
  (** in datagrams that fit the mtu *)
  flushed_mtu : Forall (fun d => 0 < Z.of_nat (length d) <= mtu k) out;
  flushed_acks : ackcount k' = 0;
  flushed_probe : probe k' = 0;
  (** no byte of the application's is lost: queues keep their segments in order *)
  flushed_queue : exists l, snd_queue k = l ++ snd_queue k' /\
    snd_buf (after_move k) = snd_buf k ++
      imap (fun i s => fresh_seg (after_control k <| snd_nxt := u32 (snd_nxt k + Z.of_nat i) |>)
                         (flush_wnd k) s) l /\
    snd_buf k' = flush_update (after_move k) (flush_resent k) (flush_rtomin k) (flush_wnd k) <$>
      snd_buf (after_move k) /\
    snd_nxt k' = u32 (snd_nxt k + qlen l);
  flushed_window : in_flight k' <= Z.max (in_flight k) (flush_window k);
  flushed_work : snd_queue k' = [] \/ flush_window k <= in_flight k';
  flushed_cwnd : 1 <= cwnd k';
  (** the receiving side and the peer's view of it are untouched *)
  flushed_rcv : snd_una k' = snd_una k /\ rcv_nxt k' = rcv_nxt k /\ rcv_queue k' = rcv_queue k /\
    rcv_buf k' = rcv_buf k /\ conv k' = conv k /\ output k' = output k /\ mtu k' = mtu k /\
    stream k' = stream k /\ user k' = user k;
  flushed_rest : current k' = current k /\ rmt_wnd k' = rmt_wnd k /\ rcv_wnd k' = rcv_wnd k /\ updated k' = updated k /\
    nrcv_que k' = nrcv_que k /\ snd_wnd k' = snd_wnd k /\ nocwnd k' = nocwnd k /\
    probe_wait k' = probe_wait (after_control k) /\ ts_probe k' = ts_probe (after_control k);
  flushed_timer : interval k' = interval k /\ ts_flush k' = ts_flush k }.

Lemma una_tight_queued k k' wnd cw l :
  snd_wf k -> una_tight k -> queued k k' wnd cw l -> una_tight k'.
Proof.
  intros H Ht [Hwf Hsame Hq Hb Hn Hw _]. unfold una_tight in *.
  assert (snd_una k' = snd_una k) as -> by by rewrite Hsame.
  rewrite Hb. destruct (snd_buf k) as [|s b]; [|done]. destruct l as [|s l]; cbn.
  - rewrite Hn, qlen_nil, Z.add_0_r, Ht, u32_small; [done|apply H].
  - rewrite Z.add_0_r, Ht, u32_small; [done|apply H].
Qed.

Lemma flush_window_bound k : kcp_wf k -> 0 <= flush_window k <= 65535.
Proof.
  intros H. pose proof (wf_snd_wnd _ H). pose proof (wf_rmt_wnd _ H). pose proof (wf_cwnd _ H) as Hc.
  unfold is_u32 in Hc. unfold flush_window. rewrite !imin_min. destruct (_ =? 0); lia.
Qed.

Lemma after_control_spec k :
  kcp_wf k ->
  exists a b, after_control k = k <| ackcount := 0 |> <| probe_wait := a |> <| ts_probe := b |> <| probe := 0 |> /\
    0 <= a <= IKCP_PROBE_LIMIT.
Proof.
  intros H. destruct (flush_probe_timer_spec (k <| ackcount := 0 |>)) as (a & b & c & E & Ha);
    [apply (wf_probe_wait _ H)|].
  exists a, b. split; [|done]. unfold after_control. rewrite E. reflexivity.
Qed.

Lemma map_sn_wf k f :
  (forall s, seg_sn (f s) = seg_sn s /\ forall m, seg_wf m s -> seg_wf m (f s)) ->
  snd_wf k -> snd_wf (k <| snd_buf := f <$> snd_buf k |>).
Proof.
  intros Hf H. unwf H. constructor; cbn; try assumption.
  - apply window_map; [apply Hf|done].
  - unfold qlen. by rewrite length_fmap.
  - apply Forall_fmap. eapply Forall_impl; [done|]. intros s. apply Hf.
Qed.

Lemma datagram_nil g : datagram g = [] -> g = [].
Proof.
  destruct g as [|s g]; [done|]. intros E. exfalso. apply (f_equal length) in E.
  change (datagram (s :: g)) with (wire s ++ datagram g) in E. unfold wire in E.
  rewrite !length_app, length_header_bytes in E. cbn in E. lia.
Qed.

Section FlushSpec.
Context `{env : Env} `{host : Host}.

Lemma kcp_writable k : kcp_wf k -> output k = true -> writable k.
Proof. intros H Ho. constructor; [done|apply H|apply H]. Qed.

(** The invariant, from the pieces a flush goes through. *)
Lemma flush_wf k ps l a b x st c1 c2 c3 f k2 :
  kcp_wf k -> ack_rep k ps ->
  let k1 := k <| ackcount := 0 |> <| probe_wait := a |> <| ts_probe := b |> <| probe := 0 |> in
  0 <= a <= IKCP_PROBE_LIMIT -> queued k1 k2 (flush_wnd k) (flush_window k) l ->
  (forall s, seg_sn (f s) = seg_sn s /\ forall m, seg_wf m s -> seg_wf m (f s)) ->
  is_u32 c1 -> is_u32 c2 -> is_u32 c3 ->
  kcp_wf (k2 <| xmit := x |> <| state := st |> <| snd_buf := f <$> snd_buf k2 |>
             <| ssthresh := c1 |> <| cwnd := c2 |> <| incr := c3 |>).
Proof.
  intros Hk Ha k1 Hpw Hq Hf ? ? ?. pose proof Hk as [Hs Hr Hc Ht _ Hl].
  assert (snd_wf k1) as Hs1 by (subst k1; carry_wf).
  assert (una_tight k1) as Ht1 by done.
  pose proof (una_tight_queued _ _ _ _ _ Hs1 Ht1 Hq) as Ht2.
  pose proof Hq as [Hwf2 Hsame Hqq Hqb _ _ _].
  apply (map_sn_wf k2 f Hf) in Hwf2 as Hwf3.
  constructor; [carry_wf| | | | |].
  - rewrite Hsame. subst k1. carry_wf.
  - rewrite Hsame. subst k1. destruct Hc. unfold IKCP_PROBE_LIMIT in *. by constructor.
  - unfold una_tight in *. cbn. destruct (snd_buf k2) as [|s q]; cbn; [done|].
    by rewrite (proj1 (Hf s)).
  - exists []. rewrite Hsame. subst k1. destruct Ha as [_ _ Hab Harr].
    constructor; cbn; try done. destruct (acklist k) as [arr|].
    + destruct Harr as (rest & -> & E). by exists (pack ps ++ rest).
    + by destruct Harr.
  - unfold leaked, blocks in *. cbn.
    assert (live k2 = live k /\ buffer k2 = buffer k /\ acklist k2 = acklist k /\
      rcv_queue k2 = rcv_queue k /\ rcv_buf k2 = rcv_buf k) as (-> & -> & -> & -> & ->)
      by (rewrite Hsame; done).
    assert (qlen (f <$> snd_buf k2) = qlen (snd_buf k) + qlen l) as ->.
    { unfold qlen. rewrite length_fmap, Hqb, length_app, length_imap. subst k1. cbn. lia. }
    assert (qlen (snd_queue k) = qlen l + qlen (snd_queue k2)) as E.
    { change (snd_queue k) with (snd_queue k1). by rewrite Hqq, qlen_app. }
    rewrite E in Hl. lia.
Qed.

(** The last datagram, if there is one. *)
Lemma last_output k w segs :
  writable k -> packed (mtu k) w segs -> mtu k < 1073741824 ->
  returns (if i32 (Z.of_nat (length (pending w))) >? 0 then ikcp_output k (pending w) w else Ok w)
    (fun w' => packed (mtu k) (mkOut [] (sent w')) segs).
Proof.
  intros Hw Hp Hm. pose proof (packed_pending _ _ _ Hp) as Hpl. rewrite i32_small by lia.
  destruct (Z.gtb_spec (Z.of_nat (length (pending w))) 0) as [Hg|Hg].
  - destruct (ikcp_output_packed k w _ Hw Hp) as (w' & -> & Hp'); [by intros E; rewrite E in Hg|]. by apply returns_Ok.
  - apply returns_Ok. destruct (pending w) eqn:E; [|cbn in Hg; lia]. destruct w; cbn in *. by rewrite <- E.
Qed.

Lemma after_move_queued k :
  kcp_wf k -> exists l, queued (after_control k) (after_move k) (flush_wnd k) (flush_window k) l.
Proof.
  intros Hk. destruct (after_control_spec k Hk) as (a & b & E1 & _).
  assert (snd_wf (after_control k)) as Hs1 by (rewrite E1; pose proof (kcp_wf_snd _ Hk); carry_wf).
  assert (flush_window (after_control k) = flush_window k) as Efw by by rewrite E1.
  destruct (move_snd_queue_spec (snd_queue (after_control k)) (after_control k) (flush_window k)
    (flush_wnd k) Hs1 eq_refl (flush_window_bound k Hk)) as [l Hq].
  exists l. unfold after_move. cbn zeta. by rewrite Efw.
Qed.

(** The state a flush leaves, whatever it has counted. *)
Lemma flushed_intro k ps l x st lost change gs :
  kcp_wf k -> ack_rep k ps -> queued (after_control k) (after_move k) (flush_wnd k) (flush_window k) l ->
  mjoin gs = control_segs k ps ++ data_segs k ->
  Forall (fun d => 0 < Z.of_nat (length d) <= mtu k) (datagram <$> gs) ->
  let f := flush_update (after_move k) (flush_resent k) (flush_rtomin k) (flush_wnd k) in
  flushed k ps (flush_congestion (after_move k <| xmit := x |> <| state := st |> <| snd_buf := f <$> snd_buf (after_move k) |>)
                  (flush_window k) (flush_resent k) lost change) (datagram <$> gs).
Proof.
  intros Hk Ha Hq Hgs Hmtu f. destruct (after_control_spec k Hk) as (a & b & E1 & Hab).
  pose proof (queued_same _ _ _ _ _ Hq) as Hsame. rewrite E1 in Hsame.
  remember (after_move k) as k2 eqn:Ek2. set (k4 := k2 <| xmit := _ |> <| state := _ |> <| snd_buf := _ |>).
  assert (cwnd k4 = cwnd k /\ incr k4 = incr k /\ ssthresh k4 = ssthresh k /\ mss k4 = mss k) as (Ecw & Ein & Ess & Ems)
    by (subst k4; cbn; rewrite Hsame; done).
  pose proof Hk as [_ _ Hc _ _ _]. pose proof (flush_window_bound k Hk) as Hcw. pose proof (wf_mtu _ Hc) as Hm.
  destruct (flush_congestion_frame k4 (flush_window k) (flush_resent k) lost change)
    as (c1 & c2 & c3 & -> & Hc1 & Hc2 & Hc3 & Hc2').
  { rewrite Ecw. apply Hc. }
  { rewrite Ein. apply Hc. }
  { rewrite Ess. apply Hc. }
  { rewrite Ems, (wf_mss _ Hk). unfold IKCP_OVERHEAD, is_u32. lia. }
  { unfold is_u32. lia. }
  assert (forall s, seg_sn (f s) = seg_sn s /\ forall m, seg_wf m s -> seg_wf m (f s)) as Hf.
  { intros s. split; [|intros m; apply resend_segment_wf]. unfold f, flush_update.
    by destruct (resend_segment_same k2 (flush_rtomin k) (flush_wnd k) (send_reason k2 (flush_resent k) s) s). }
  pose proof (flush_wf k ps l a b x st c1 c2 c3 f k2 Hk Ha Hab) as Hwf.
  rewrite <- E1 in Hwf. specialize (Hwf Hq Hf Hc1 Hc2 Hc3). destruct Hq as [_ _ Hqq Hqb Hqn Hqw Hqa].
  constructor; try done.
  - by exists gs.
  - cbn. by rewrite Hsame.
  - cbn. by rewrite Hsame.
  - exists l. rewrite <- Ek2. assert (snd_nxt (after_control k) = snd_nxt k /\ snd_buf (after_control k) = snd_buf k /\
      snd_queue (after_control k) = snd_queue k) as (E2 & E3 & E4) by by rewrite E1.
    rewrite E2 in Hqb, Hqn. rewrite E3 in Hqb. rewrite E4 in Hqq. split_and!; done.
  - etrans; [exact Hqw|]. by rewrite E1.
  - cbn. rewrite Hsame. done.
  - rewrite E1. cbn. rewrite Hsame. done.
  - cbn. rewrite Hsame. done.
Qed.

(** A flush never fails: it stays within the buffer, reads only acknowledgements that
    were recorded, and does what [flushed] says. *)
Theorem ikcp_flush_spec k ps :
  kcp_wf k -> ack_rep k ps -> Z.of_nat (length ps) < 2147483648 -> output k = true ->
  updated k <> 0 ->
  returns (ikcp_flush k) (fun '(k', out) => flushed k ps k' out).
Proof.
  intros Hk Ha Hps Ho Hu. pose proof (kcp_writable k Hk Ho) as Hw. pose proof (wf_mtu _ Hk) as Hm.
  destruct (after_move_queued k Hk) as [l Hq]. destruct (after_control_spec k Hk) as (a & b & E1 & _).
  assert (flush_window (after_control k) = flush_window k) as Efw by by rewrite E1.
  unfold ikcp_flush. rewrite (proj2 (Z.eqb_neq _ _) Hu).
  eapply returns_bind; [by apply (flush_control_spec k ps Hw Hk Ha)|]. intros [k1 w1] [-> Hp1].
  rewrite Efw. change (seg_wnd (flush_seg0 k)) with (flush_wnd k).
  replace (move_snd_queue _ _ _ _) with (after_move k) by (unfold after_move; cbn zeta; by rewrite Efw).
  pose proof (queued_same _ _ _ _ _ Hq) as Hsame. rewrite E1 in Hsame. pose proof (queued_wf _ _ _ _ _ Hq) as Hwf2.
  pose proof (flushed_intro k ps l) as Hdone. cbv zeta in Hdone. revert Hdone. unfold data_segs. set (k2 := after_move k) in *. intros Hdone.
  assert (fastresend k2 = fastresend k /\ nodelay k2 = nodelay k /\ rx_rto k2 = rx_rto k /\
    mtu k2 = mtu k /\ output k2 = output k /\ buffer k2 = buffer k /\ mss k2 = mss k)
    as (Ef & En & Er & Em & Eo & Eb & Ems) by (rewrite Hsame; done).
  assert (writable k2) as Hw2 by (by eapply writable_step). clearbody k2.
  rewrite Ef, En, Er. change (if fastresend k >? 0 then _ else _) with (flush_resent k).
  change (if nodelay k =? 0 then _ else 0) with (flush_rtomin k). rewrite <- Em in Hp1.
  pose proof (snd_buf_short _ Hwf2) as Hshort. eapply returns_bind.
  { apply (flush_data_spec (snd_buf k2) (flush_resent k) (flush_rtomin k) (flush_wnd k) k2 k2 w1 (control_segs k ps) 0 0);
      [by destruct k2|done|done| |lia|lia].
    pose proof (wf_snd_segs _ Hwf2) as Hsegs. by rewrite Ems, (wf_mss _ Hk), <- Em in Hsegs. }
  intros [[[[l' k3] w3] lost] change] (-> & Hs3 & Hp3 & _ & _).
  set (k4 := k3 <| snd_buf := _ |>).
  assert (k4 = k2 <| xmit := xmit k3 |> <| state := state k3 |> <| snd_buf := snd_buf k4 |>) as Ek4
    by (subst k4; rewrite Hs3; reflexivity).
  assert (mtu k4 = mtu k2) as Em4 by (by rewrite Ek4). rewrite <- Em4 in Hp3.
  eapply returns_bind; [eapply (last_output k4 w3); [rewrite Ek4; by eapply writable_step|exact Hp3|by rewrite Em4, Em; apply Hm]|].
  intros w4 [(gs & g & Hsent & Hpend & Hsegs) Hmtu _]. cbn [pending sent] in *.
  rewrite (datagram_nil g), app_nil_r in Hsegs by done. rewrite Em4, Em in Hmtu.
  apply returns_Ok. rewrite Ek4, Hsent. rewrite Hsent in Hmtu. by apply Hdone.
Qed.
End FlushSpec.

(** ** The clock *)

Section Clock.
Context `{env : Env} `{host : Host}.

(** The state with which ikcp_update reaches its flush, or [None] when it is too early. *)
Definition update_clock (k : ikcpcb) (now : Z) : ikcpcb * bool :=
  let k := k <| current := now |> in
  let k := if updated k =? 0 then k <| updated := 1 |> <| ts_flush := now |> else k in
  let slap := _itimediff now (ts_flush k) in
  let reset := (slap >=? 10000) || (slap <? -10000) in
  let k := if reset then k <| ts_flush := now |> else k in
  let slap := if reset then 0 else slap in
  if slap >=? 0 then
    (k <| ts_flush :=
       if _itimediff now (u32 (ts_flush k + interval k)) >=? 0 then u32 (now + interval k)
       else u32 (ts_flush k + interval k) |>, true)
  else (k, false).

Lemma ikcp_update_clock k now :
  ikcp_update k now =
    let '(k1, flush) := update_clock k now in if flush then ikcp_flush k1 else Ok (k1, []).
Proof.
  unfold ikcp_update, update_clock. cbn zeta.
  set (k1 := if updated _ =? 0 then _ else _).
  assert (current k1 = now) as Ec by (subst k1; by destruct (updated _ =? 0)).
  change (if updated _ =? 0 then _ else _) with k1. rewrite Ec.
  destruct (_ || _) eqn:E.
  - cbn. rewrite Ec. by destruct (_ >=? 0).
  - cbv beta iota. destruct (_ >=? 0); [|done]. cbn. rewrite Ec.
    by destruct (_itimediff _ _ >=? 0).
Qed.

Lemma update_clock_spec k now :
  kcp_wf k -> is_u32 now ->
  let '(k1, flush) := update_clock k now in
  (exists u t, k1 = k <| current := now |> <| updated := u |> <| ts_flush := t |> /\ u <> 0 /\ is_u32 t) /\
  0 < _itimediff (ts_flush k1) now <= (if flush then interval k else 10000).
Proof.
  intros Hk Hnow. pose proof (wf_interval _ Hk) as Hi. pose proof (wf_ts_flush _ Hk) as Ht.
  unfold update_clock. cbn zeta.
  set (k1 := if updated _ =? 0 then _ else _).
  assert (exists u t, k1 = k <| current := now |> <| updated := u |> <| ts_flush := t |> /\ u <> 0 /\ is_u32 t)
    as (u & t & -> & Hu & Ht1).
  { subst k1. cbn. destruct (Z.eqb_spec (updated k) 0).
    - by exists 1, now.
    - exists (updated k), (ts_flush k). split; [by destruct k|done]. }
  clear Ht. cbn.
  assert (forall t, is_u32 t -> 0 <= _itimediff now t < 10000 ->
    0 < _itimediff (if _itimediff now (u32 (t + interval k)) >=? 0
      then u32 (now + interval k) else u32 (t + interval k)) now <= interval k) as Hnext.
  { intros t' Ht' Hd. rewrite !itimediff_i32 in *. unfold is_u32 in *.
    destruct (Z.geb_spec (i32 (now - u32 (t' + interval k))) 0); rewrite ?itimediff_i32;
      clear -Ht' Hd Hi Hnow H; wrap_lia. }
  assert (_itimediff now now = 0) as Hnn by by rewrite itimediff_i32, Z.sub_diag.
  destruct (Z.geb_spec (_itimediff now t) 10000) as [Hb|Hb]; cbn [orb].
  { cbn. split; [|apply Hnext; [done|lia]]. eexists _, _. split; [reflexivity|]. split; [done|].
    destruct (_ >=? 0); apply u32_range. }
  destruct (Z.ltb_spec (_itimediff now t) (-10000)) as [Hb2|Hb2].
  { cbn. split; [|apply Hnext; [done|lia]]. eexists _, _. split; [reflexivity|]. split; [done|].
    destruct (_ >=? 0); apply u32_range. }
  destruct (Z.geb_spec (_itimediff now t) 0) as [Hz|Hz]; cbn.
  { split; [|apply Hnext; [done|lia]]. eexists _, _. split; [reflexivity|]. split; [done|].
    destruct (_ >=? 0); apply u32_range. }
  split; [by eexists _, _|]. rewrite !itimediff_i32 in *. clear -Hz Hb2 Ht1 Hnow. wrap_lia.
Qed.

Lemma update_clock_wf k now ps :
  kcp_wf k -> ack_rep k ps -> is_u32 now ->
  kcp_wf (fst (update_clock k now)) /\ ack_rep (fst (update_clock k now)) ps /\
  updated (fst (update_clock k now)) <> 0.
Proof.
  intros Hk Ha Hnow. pose proof (update_clock_spec k now Hk Hnow) as Hs.
  destruct (update_clock k now) as [k1 fl]. destruct Hs as [(u & t & -> & Hu & Ht) _]. cbn [fst].
  assert (ack_rep (k <| current := now |> <| updated := u |> <| ts_flush := t |>) ps) as Ha1
    by (destruct Ha; by constructor).
  split_and!; [|done|done]. destruct Hk as [? ? [] ? _ ?].
  constructor; try carry_wf; try done; try (by constructor). by exists ps.
Qed.

(** ikcp_update never fails, keeps the connection well formed and only hands over
    datagrams that fit the mtu; afterwards the next flush is in the future, at most one
    interval away when this call flushed and ten seconds away when it did not. *)
Theorem ikcp_update_wf k now ps :
  kcp_wf k -> ack_rep k ps -> Z.of_nat (length ps) < 2147483648 -> output k = true -> is_u32 now ->
  returns (ikcp_update k now) (fun '(k', out) =>
    kcp_wf k' /\ Forall (fun d => 0 < Z.of_nat (length d) <= mtu k) out /\
    if snd (update_clock k now) then exists k1, k1 = fst (update_clock k now) /\ flushed k1 ps k' out
    else out = [] /\ k' = fst (update_clock k now)).
Proof.
  intros Hk Ha Hps Ho Hnow. rewrite ikcp_update_clock.
  pose proof (update_clock_wf k now ps Hk Ha Hnow) as (Hk1 & Ha1 & Hu1).
  pose proof (update_clock_spec k now Hk Hnow) as Hs.
  destruct (update_clock k now) as [k1 fl]. cbn [fst snd] in *. destruct Hs as [(u & t & Ek1 & _) _].
  destruct fl.
  - eapply returns_mono; [apply (ikcp_flush_spec k1 ps); try done; by rewrite Ek1|].
    intros [k' out] Hf. split_and!; [apply Hf| |by exists k1].
    pose proof (flushed_mtu _ _ _ _ Hf) as Hm. by rewrite Ek1 in Hm.
  - by apply returns_Ok.
Qed.

(** *** ikcp_check *)

Lemma check_loop_bound l now tm p :
  0 < tm -> check_loop l now tm = Some p ->
  0 < p <= tm /\ (p < tm -> exists s, s ∈ l /\ _itimediff (seg_resendts s) now = p) /\
  forall s, s ∈ l -> p <= _itimediff (seg_resendts s) now.
Proof.
  revert tm. induction l as [|s l IH]; intros tm Htm; cbn.
  - intros [= <-]. split_and!; try lia. intros s Hs. by apply not_elem_of_nil in Hs.
  - destruct (Z.leb_spec (_itimediff (seg_resendts s) now) 0); [done|]. intros Hp.
    apply IH in Hp as (Hp & Hex & Hall); [|by destruct (_ <? _)].
    destruct (Z.ltb_spec (_itimediff (seg_resendts s) now) tm).
    + split_and!; [lia|lia| |].
      * intros _. destruct (decide (p = _itimediff (seg_resendts s) now)) as [->|].
        { exists s. split; [by left|done]. }
        destruct Hex as (t & ? & ?); [lia|]. exists t. split; [by right|done].
      * intros t [->|Ht]%elem_of_cons; [lia|auto].
    + split_and!; [lia|lia| |].
      * intros Hlt. destruct Hex as (t & ? & ?); [lia|]. exists t. split; [by right|done].
      * intros t [->|Ht]%elem_of_cons; [lia|auto].
Qed.

(** check_loop stops early only for a segment that is due. *)
Lemma check_loop_due l now m :
  check_loop l now m = None -> exists s, s ∈ l /\ _itimediff (seg_resendts s) now <= 0.
Proof.
  revert m. induction l as [|s l IH]; intros m; cbn; [done|].
  destruct (Z.leb_spec (_itimediff (seg_resendts s) now) 0).
  - intros _. exists s. split; [by left|done].
  - intros (t & ? & ?)%IH. exists t. split; [by right|done].
Qed.

(** Before the time of the next flush ikcp_update only reads the clock. *)
Lemma update_early k now tm j :
  updated k <> 0 -> u32 (now + tm) = ts_flush k -> 0 <= j < tm -> tm <= 10000 ->
  ikcp_update k (u32 (now + j)) = Ok (k <| current := u32 (now + j) |>, []).
Proof.
  intros Eu Etm Hj Htm. rewrite ikcp_update_clock. unfold update_clock. cbn.
  rewrite (proj2 (Z.eqb_neq _ _) Eu). cbn.
  assert (_itimediff (u32 (now + j)) (ts_flush k) = j - tm) as ->.
  { apply itimediff_near; [lia|]. rewrite <- Etm, u32_idem, u32_add_l. f_equal. lia. }
  destruct (Z.geb_spec (j - tm) 10000); [lia|]. destruct (Z.ltb_spec (j - tm) (-10000)); [lia|].
  cbn. by destruct (Z.geb_spec (j - tm) 0); [lia|].
Qed.

(** C21: ikcp_check answers a time between now and one interval from now; until then
    ikcp_update only reads the clock; and by then every retransmission is on time. *)
Theorem ikcp_check_spec k now :
  kcp_wf k -> is_u32 now ->
  exists d, ikcp_check k now = u32 (now + d) /\ 0 <= d <= interval k /\
    (forall j, 0 <= j < d ->
       ikcp_update k (u32 (now + j)) = Ok (k <| current := u32 (now + j) |>, [])) /\
    (forall s, 0 < d -> s ∈ snd_buf k -> d <= _itimediff (seg_resendts s) now) /\
    (d = 0 -> updated k = 0 \/ snd (update_clock k now) = true \/
      exists s, s ∈ snd_buf k /\ _itimediff (seg_resendts s) now <= 0).
Proof.
  intros Hk Hnow. pose proof (wf_interval _ Hk) as Hi. pose proof (wf_ts_flush _ Hk) as Ht.
  unfold is_u32 in *. unfold ikcp_check.
  assert (forall P : Prop, P -> exists d, now = u32 (now + d) /\ 0 <= d <= interval k /\
    (forall j, 0 <= j < d ->
       ikcp_update k (u32 (now + j)) = Ok (k <| current := u32 (now + j) |>, [])) /\
    (forall s, 0 < d -> s ∈ snd_buf k -> d <= _itimediff (seg_resendts s) now) /\
    (d = 0 -> P)) as Hzero.
  { intros P HP. exists 0. rewrite Z.add_0_r, u32_small by lia. split_and!; try done; try lia. }
  destruct (Z.eqb_spec (updated k) 0) as [Eu|Eu]; [by apply Hzero; left|].
  assert (snd (update_clock k now) =
    let r := (_itimediff now (ts_flush k) >=? 10000) || (_itimediff now (ts_flush k) <? -10000) in
    (if r then 0 else _itimediff now (ts_flush k)) >=? 0) as Hsnd.
  { unfold update_clock. cbn. rewrite (proj2 (Z.eqb_neq _ _) Eu). cbn.
    destruct ((_ >=? 10000) || _); cbn; [done|]. by destruct (_ >=? 0). }
  destruct ((_ >=? 10000) || _) eqn:Er.
  { cbv zeta in Hsnd. rewrite itimediff_i32, Z.sub_diag. cbn. apply Hzero. right. left. by rewrite Hsnd. }
  apply orb_false_iff in Er as [Er1 Er2]. apply Z.ltb_ge in Er2.
  destruct (Z.geb_spec (_itimediff now (ts_flush k)) 0) as [Hg|Hg].
  { apply Hzero. right. left. rewrite Hsnd. by apply Z.geb_le. }
  set (tm := _itimediff (ts_flush k) now).
  assert (0 < tm <= 10000 /\ u32 (now + tm) = ts_flush k) as [Htm Etm].
  { subst tm. rewrite !itimediff_i32 in *. clear -Hg Er2 Ht Hnow. split; wrap_lia. }
  destruct (check_loop (snd_buf k) now 2147483647) as [p|] eqn:Ec.
  2:{ apply Hzero. right. right. by eapply check_loop_due. }
  apply check_loop_bound in Ec as (Hp & _ & Hall); [|lia].
  set (mi := if p <? tm then p else tm).
  assert (mi = Z.min p tm) as Emi by (subst mi; destruct (Z.ltb_spec p tm); lia). clearbody mi.
  rewrite (u32_small mi) by lia.
  set (d := if mi >=? interval k then interval k else mi).
  assert (d = Z.min (Z.min p tm) (interval k)) as Ed
    by (subst d; destruct (Z.geb_spec mi (interval k)); lia). clearbody d.
  exists d. split_and!; [done|lia|lia| | |lia].
  - intros j Hj. apply (update_early k now tm); [done..|lia|lia].
  - intros s _ Hs. specialize (Hall s Hs). lia.
Qed.
End Clock.

(** ** A connection that has flushed *)

(** The first update, at time 1000, opens the congestion window, which is 0 until then;
    the second one sends the three queued bytes. *)
Definition demo_opened : ikcpcb := Eval vm_compute in
  match @ikcp_update demo_env x86_64 demo_queued 1000 with Ok (k, _) => k | Err _ => demo_queued end.
Definition demo_sent : ikcpcb := Eval vm_compute in
  match @ikcp_update demo_env x86_64 demo_opened 1100 with Ok (k, _) => k | Err _ => demo_opened end.

Lemma demo_sent_wf : kcp_wf demo_sent.
Proof. kcp_wf_by_evaluation. Qed.

Lemma ikcp_check_spec_witness :
  snd_buf demo_sent <> [] /\
  exists d, ikcp_check demo_sent 1110 = u32 (1110 + d) /\ 0 <= d <= interval demo_sent /\
    (forall j, 0 <= j < d ->
       @ikcp_update demo_env x86_64 demo_sent (u32 (1110 + j)) =
         Ok (demo_sent <| current := u32 (1110 + j) |>, [])) /\
    (forall s, 0 < d -> s ∈ snd_buf demo_sent -> d <= _itimediff (seg_resendts s) 1110) /\
    (d = 0 -> updated demo_sent = 0 \/ snd (update_clock demo_sent 1110) = true \/
      exists s, s ∈ snd_buf demo_sent /\ _itimediff (seg_resendts s) 1110 <= 0).
Proof.
  split; [by_decide|]. apply (@ikcp_check_spec demo_env x86_64 demo_sent 1110); [apply demo_sent_wf|by_decide].
Defined.

Lemma flush_congestion_spec_witness :
  let k' := flush_congestion demo_sent 32 4294967295 1 0 in
  cwnd k' = 1 /\ ssthresh k' = 16.
Proof. apply (flush_congestion_spec demo_sent 32 4294967295 1 0). by_decide. Defined.

Lemma flush_probe_timer_backoff_witness :
  let k := demo_sent <| rmt_wnd := 0 |> <| probe_wait := 7000 |> <| ts_probe := 900 |> in
  probe_wait (flush_probe_timer k) = 10500 /\ probe (flush_probe_timer k) = IKCP_ASK_SEND.
Proof.
  intros k. pose proof (flush_probe_timer_backoff k ltac:(by_decide)) as H.
  subst k. vm_compute in H |- *. exact H.
Defined.
