(* ===== verification/KcpSpec.v ===== *)
(** * kcp_learn/ikcp.c: what a connection guarantees

    The contracts of the entry points, put together from the exact behaviour of the
    functions they call: the wire format between hosts of any byte order, sending,
    receiving, acknowledgements, the timeout, and what a flush puts on the wire. *)

From S2P Require Import Prelude IkcpBase IkcpCb IkcpSnd IkcpRcv IkcpInput IkcpFlush.

(** ** The wire format *)

(** A host such as s390x: ikcp.h recognises it and falls back to bytewise access. *)
Definition big_endian : Host.
Proof. refine {| IWORDS_BIG_ENDIAN := true; IWORDS_MUST_ALIGN := true; host_big_endian := true |}. done. Defined.

(** The fields as the struct holds them, [cmd], [frg] and [wnd] in the range the
    header has room for. *)
Record fits_header (s : IKCPSEG) : Prop := {
  fits_conv : is_u32 (seg_conv s);
  fits_cmd : is_byte (seg_cmd s);
  fits_frg : is_byte (seg_frg s);
  fits_wnd : 0 <= seg_wnd s < 65536;
  fits_ts : is_u32 (seg_ts s);
  fits_sn : is_u32 (seg_sn s);
  fits_una : is_u32 (seg_una s);
  fits_len : is_u32 (seg_len s) }.

(** C9: What one host encodes, any other decodes. *)
Theorem segment_crosses_hosts (h1 h2 : Host) s rest :
  fits_header s ->
  ('(conv, data) ← @ikcp_decode32u h2 (@ikcp_encode_seg h1 s ++ rest);
   '(h, data) ← @decode_header h2 data;
   Ok (conv, h, data)) =
  Ok (seg_conv s, mkHeader (seg_cmd s) (seg_frg s) (seg_wnd s) (seg_ts s) (seg_sn s) (seg_una s)
        (seg_len s), rest).
Proof.
  intros []. rewrite (@ikcp_encode_seg_bytes h1), <- (@ikcp_encode_seg_bytes h2), decode_encode_seg.
  unfold header_of. rewrite u32_small, !u8_small, u16_small, !u32_small by done. done.
Qed.

Section Contracts.
Context `{env : Env} `{host : Host}.

(** ** Sending *)

Theorem ikcp_send_total k buf len :
  kcp_wf k -> user_buf buf len -> is_i32 len ->
  safely refused (ikcp_send k buf len)
    (fun '(r, k') => kcp_wf k' /\ (r = 0 \/ r = -2 \/ (r = -1 /\ len < 0))).
Proof. apply ikcp_send_wf. Qed.

(** ** Receiving *)

(** C27: ikcp_recv always returns, with one of the four outcomes, and ikcp_peeksize
    announces the size of the message it would give. *)
Theorem ikcp_recv_outcomes k has_buf len m rest :
  kcp_wf k -> is_i32 len -> first_message (rcv_queue k) = (m, rest) ->
  ikcp_peeksize k = (if recv_ready k then add_lens 0 m else -1) /\
  returns (ikcp_recv k has_buf len) (fun '(r, out, k') =>
    recv_result k has_buf len (r, out, k') /\ kcp_wf k').
Proof.
  intros Hk Hl Hm. split; [by apply (ikcp_peeksize_exact k m rest (kcp_wf_rcv _ Hk))|].
  destruct (ikcp_recv_exact k has_buf len (kcp_wf_rcv _ Hk) Hl) as ([[r out] k'] & E & H).
  destruct (ikcp_recv_wf k has_buf len Hk Hl) as ([[r2 out2] k2] & E2 & H2).
  rewrite E in E2. injection E2 as <- <- <-. rewrite E. by apply returns_Ok.
Qed.

(** C22: A segment whose number lies in the receive window is put at its place among those
    that wait (once: a repeat changes nothing), and every segment that is then
    next in line moves to the queue, in order; any other segment is dropped. *)
Theorem parse_data_in_order k new :
  rcv_wf k -> seg_wf 2147483647 new ->
  let k' := ikcp_parse_data k new in
  rcv_wf k' /\
  (if u32 (seg_sn new - rcv_nxt k) <? rcv_wnd k
   then exists d,
     rcv_queue k' = rcv_queue k ++ d /\
     insert_seg (rcv_nxt k) new (rcv_buf k) = d ++ rcv_buf k' /\
     rcv_nxt k' = u32 (rcv_nxt k + qlen d) /\
     (forall i s, d !! i = Some s -> seg_sn s = u32 (rcv_nxt k + Z.of_nat i)) /\
     match rcv_buf k' with
     | s :: _ => seg_sn s = rcv_nxt k' -> rcv_wnd k' <= nrcv_que k'
     | [] => True
     end
   else rcv_queue k' = rcv_queue k /\ rcv_buf k' = rcv_buf k /\ rcv_nxt k' = rcv_nxt k).
Proof.
  intros Hk Hn. destruct (ikcp_parse_data_wf k new Hk Hn) as (Hwf & _ & _).
  pose proof (parse_data_exact k new Hk Hn) as H. cbn zeta. split; [done|].
  destruct (_ <? _).
  - destruct H as [d [_ _ Hb Hq Hnx _ Hsn Hall]]. exists d. by split_and!.
  - rewrite H. done.
Qed.

(** ** Acknowledgements *)

(** What is recorded is what ikcp_ack_get later reads, the old entries included. *)
Theorem ack_list_records k ps sn ts :
  ack_rep k ps -> is_u32 sn -> is_u32 ts -> Z.of_nat (length ps) < 1073741824 ->
  safely (fun e => e = Aborted /\ exists size, malloc_succeeds (nalloc k) size = false)
    (ikcp_ack_push k sn ts)
    (fun k' => ackcount k' = ackcount k + 1 /\
       ikcp_ack_get k' (ackcount k) = Ok (sn, ts) /\
       forall i, 0 <= i < ackcount k -> ikcp_ack_get k' i = ikcp_ack_get k i).
Proof.
  intros Hr Hsn Hts Hl. eapply safely_mono; [by apply (ikcp_ack_push_exact k ps sn ts)|done|].
  intros k' (Hr' & _ & _). pose proof (ack_count _ _ Hr) as Ec. pose proof (ack_count _ _ Hr') as Ec'.
  rewrite length_app in Ec'. cbn in Ec'. split; [lia|]. split.
  - rewrite Ec. apply (ikcp_ack_get_exact k' (ps ++ [(sn, ts)])); [done|]. by rewrite list_lookup_middle.
  - intros i Hi. destruct (lookup_lt_is_Some_2 ps (Z.to_nat i)) as [[a b] Hab]; [lia|].
    replace i with (Z.of_nat (Z.to_nat i)) by lia.
    rewrite (ikcp_ack_get_exact k ps _ a b Hr Hab).
    apply (ikcp_ack_get_exact k' (ps ++ [(sn, ts)])); [done|]. by apply lookup_app_l_Some.
Qed.

(** C23: What a header does to the segments in flight: [una] removes exactly the segments it
    confirms, an ack the one it names, and a fast ack counts exactly the ones it
    skips. *)
Theorem acknowledged_exactly k una sn ts :
  snd_wf k -> una_tight k -> is_u32 sn ->
  snd_buf (ikcp_parse_una k una) =
    (if _itimediff una (snd_una k) <? 0 then snd_buf k
     else filter (fun s => _itimediff una (seg_sn s) <= 0) (snd_buf k)) /\
  snd_buf (ikcp_parse_ack k sn) = filter (fun s => seg_sn s <> sn) (snd_buf k) /\
  snd_buf (ikcp_parse_fastack k sn ts) =
    (if u32 (sn - snd_una k) <? u32 (snd_nxt k - snd_una k)
     then (fun s => if 0 <? _itimediff sn (seg_sn s)
                    then s <| seg_fastack := u32 (seg_fastack s + 1) |> else s) <$> snd_buf k
     else snd_buf k).
Proof.
  intros Hk Ht Hs. split; [by apply parse_una_exact|]. split; [by apply parse_ack_exact|].
  rewrite parse_fastack_exact by done. by destruct (_ <? _).
Qed.

(** C24: The timeout follows the measured round trip: below 2^28 ms the smoothed round trip is
    the first measurement, then (7 srtt + rtt) / 8 but at least 1; the variation is half the
    first measurement, then (3 rttval + |rtt - srtt|) / 4; and the timeout is srtt +
    max(interval, 4 rttval), where the comment above ikcp_update_ack has srtt + 4 rttval.
    Whatever is measured, the timeout is kept between [rx_minrto] and a minute. *)
Theorem rto_follows_rtt k rtt :
  0 <= rx_minrto k <= IKCP_RTO_MAX ->
  let k' := ikcp_update_ack k rtt in
  rx_minrto k <= rx_rto k' <= IKCP_RTO_MAX /\
  (0 <= rtt < 268435456 -> 0 <= rx_srtt k < 268435456 -> 0 <= rx_rttval k < 268435456 ->
   0 <= interval k <= 5000 ->
   rx_srtt k' = srtt_spec (rx_srtt k) rtt /\
   rx_rttval k' = rttval_spec (rx_srtt k) (rx_rttval k) rtt /\
   rx_rto k' = Z.min (Z.max (rx_minrto k) (rx_srtt k' + Z.max (interval k) (4 * rx_rttval k')))
                 IKCP_RTO_MAX).
Proof.
  intros Hm. cbn zeta. split; [by apply update_ack_rto_bounds|]. intros H1 H2 H3 H4.
  destruct (update_ack_exact k rtt H1 H2 H3 H4 Hm) as (? & ? & _ & _ & ?). by split_and!.
Qed.

(** ** Flushing

    What a flush must do, in the terms of the connection before it.  [send_window] is the
    smallest of the send window, the peer's and, unless it is turned off, the congestion window. *)




(** A segment is due when it was never sent, when its timer has run out, or when [fastresend]
    acknowledgements have skipped it and it was not sent [fastlimit] times yet. *)
Definition due (k : ikcpcb) (s : IKCPSEG) : Prop :=
  seg_xmit s = 0 \/
  0 <= i32 (current k - seg_resendts s) \/
  ((if 0 <? fastresend k then fastresend k else 4294967295) <= seg_fastack s /\
   (fastlimit k <= 0 \/ i32 (seg_xmit s) <= fastlimit k)).

#[export] Instance due_dec k s : Decision (due k s).
Proof. unfold due. apply _. Defined.

(** A closed window is asked about when its timer has run out. *)
Definition asks (k : ikcpcb) : Prop :=
  Z.land (probe k) IKCP_ASK_SEND <> 0 \/
  (rmt_wnd k = 0 /\ probe_wait k <> 0 /\ 0 <= i32 (current k - ts_probe k)).

#[export] Instance asks_dec k : Decision (asks k).
Proof. unfold asks. apply _. Defined.

Definition room (k : ikcpcb) : Z := Z.max 0 (rcv_wnd k - nrcv_que k).


Definition stamped (k : ikcpcb) (s : IKCPSEG) : IKCPSEG :=
  s <| seg_ts := current k |> <| seg_wnd := room k |> <| seg_una := rcv_nxt k |>.


(** What a flush makes of a segment in line. *)
Definition flushed_seg (k : ikcpcb) (s s' : IKCPSEG) : Prop :=
  if decide (due k s)
  then seg_sn s' = seg_sn s /\ seg_data s' = seg_data s /\ seg_xmit s' = u32 (seg_xmit s + 1)
  else s' = s.


Lemma flush_wnd_room k : kcp_wf k -> flush_wnd k = room k.
Proof.
  intros Hk. pose proof (wf_rcv_wnd _ Hk). pose proof (wf_nrcv_que _ Hk) as E.
  pose proof (qlen_nonneg (rcv_queue k)). unfold flush_wnd, ikcp_wnd_unused, room.
  destruct (Z.ltb_spec (nrcv_que k) (rcv_wnd k)).
  - rewrite (u32_small (_ - _)), i32_small, u32_small; lia.
  - rewrite u32_small; lia.
Qed.

Lemma after_move_view k :
  kcp_wf k -> current (after_move k) = current k /\ fastlimit (after_move k) = fastlimit k /\
    rcv_nxt (after_move k) = rcv_nxt k.
Proof.
  intros Hk. destruct (after_control_spec k Hk) as (a & b & E1 & _).
  destruct (after_move_queued k Hk) as [l Hq]. rewrite (queued_same _ _ _ _ _ Hq), E1. done.
Qed.

(** The test of the code is [due]. *)
Lemma send_reason_due k s :
  kcp_wf k -> send_reason (after_move k) (flush_resent k) s <> NotSent <-> due k s.
Proof.
  intros Hk. destruct (after_move_view k Hk) as (Ec & El & _). unfold send_reason, due, flush_resent.
  rewrite Ec, El, itimediff_i32. replace (0 <? fastresend k) with (fastresend k >? 0)
    by (destruct (Z.gtb_spec (fastresend k) 0), (Z.ltb_spec 0 (fastresend k)); lia || done).
  destruct (Z.eqb_spec (seg_xmit s) 0); [by split; [left|]|].
  destruct (Z.geb_spec (i32 (current k - seg_resendts s)) 0); [by split; [right; left; lia|]|].
  destruct (Z.geb_spec (seg_fastack s) (if fastresend k >? 0 then fastresend k else 4294967295));
    [|split; [done|intros [?|[?|[? _]]]; lia]].
  destruct (Z.leb_spec (i32 (seg_xmit s)) (fastlimit k)), (Z.leb_spec (fastlimit k) 0); cbn [orb];
    split; try done; try (intros [?|[?|[_ [?|?]]]]; lia); intros _; right; right; split; lia.
Qed.

(** What it does with a segment. *)
Lemma flush_update_seg k s :
  kcp_wf k ->
  let s' := flush_update (after_move k) (flush_resent k) (flush_rtomin k) (flush_wnd k) s in
  flushed_seg k s s' /\ (due k s -> wire s' = wire (stamped k s)).
Proof.
  intros Hk. pose proof (send_reason_due k s Hk) as Hr. destruct (after_move_view k Hk) as (Ec & _ & Er).
  unfold flush_update, flushed_seg. rewrite (flush_wnd_room k Hk).
  set (r := send_reason _ _ _) in *.
  destruct (resend_segment_same (after_move k) (flush_rtomin k) (room k) r s) as (E1 & E2 & E3 & E4 & E5 & E6).
  set (s' := resend_segment _ _ _ _ _) in *.
  assert (r <> NotSent -> seg_xmit s' = u32 (seg_xmit s + 1) /\ seg_ts s' = current k /\
    seg_wnd s' = room k /\ seg_una s' = rcv_nxt k) as Hst.
  { intros Hne. subst s'. unfold resend_segment. rewrite Ec, Er.
    destruct r; cbn; [done|by destruct (nodelay _ =? 0)|done|done]. }
  split.
  - destruct (decide (due k s)) as [Hd|Hd].
    + by destruct (Hst (proj2 Hr Hd)) as (-> & _).
    + subst s'. destruct r; [by destruct Hd; apply Hr..|done].
  - intros Hd. destruct (Hst (proj2 Hr Hd)) as (_ & E7 & E8 & E9).
    unfold wire, header_bytes, header_of, seg_bytes. cbn [stamped].
    by rewrite E1, E2, E3, E4, E5, E6, E7, E8, E9.
Qed.

Lemma filter_due k (l : list IKCPSEG) :
  kcp_wf k -> filter (fun s => send_reason (after_move k) (flush_resent k) s <> NotSent) l = filter (due k) l.
Proof. intros Hk. apply list_filter_iff. intros s. by apply send_reason_due. Qed.



(** *** The segments in line *)






(** The wire image of [s] is in some datagram of [out]. *)
Definition carries (out : list (list Z)) (s : IKCPSEG) : Prop :=
  exists d pre post, d ∈ out /\ d = pre ++ wire s ++ post.

Lemma carries_elem gs s : s ∈ mjoin gs -> carries (datagram <$> gs) s.
Proof.
  intros (g & Hs & Hg)%list_elem_of_join. apply list_elem_of_split in Hs as (g1 & g2 & ->).
  exists (datagram (g1 ++ s :: g2)), (datagram g1), (datagram g2). split.
  - by apply list_elem_of_fmap_2.
  - change (s :: g2) with ([s] ++ g2). by rewrite !datagram_app, datagram_one.
Qed.

(** ** Waiting for a timer

    A run of ikcp_update at the given times, with what each call hands over. *)

Fixpoint updates (k : ikcpcb) (times : list Z) : res (ikcpcb * list (Z * list (list Z))) :=
  match times with
  | [] => Ok (k, [])
  | t :: times =>
      '(k, out) ← ikcp_update k t;
      '(k, outs) ← updates k times;
      Ok (k, (t, out) :: outs)
  end.

(** The segment [s] goes out again, with the time of the call in its header. *)
Definition resent (s : IKCPSEG) (outs : list (Z * list (list Z))) : Prop :=
  exists t out s', (t, out) ∈ outs /\ carries out s' /\
    seg_sn s' = seg_sn s /\ seg_data s' = seg_data s /\ seg_ts s' = t.

Lemma due_segment_sent k ps k' out s :
  kcp_wf k -> flushed k ps k' out -> s ∈ snd_buf k -> due k s ->
  exists s', s' ∈ data_segs k /\ wire s' = wire (stamped k s) /\
    seg_sn s' = seg_sn s /\ seg_cmd s' = seg_cmd s.
Proof.
  intros Hk Hf Hs Hd. destruct (flushed_queue _ _ _ _ Hf) as (l & _ & Eb & _ & _).
  exists (flush_update (after_move k) (flush_resent k) (flush_rtomin k) (flush_wnd k) s). split.
  - unfold data_segs, outgoing. apply list_elem_of_fmap_2. rewrite filter_due by done.
    apply list_elem_of_filter. split; [done|]. rewrite Eb, elem_of_app. by left.
  - split; [by apply flush_update_seg|]. unfold flush_update.
    by destruct (resend_segment_same (after_move k) (flush_rtomin k) (flush_wnd k)
      (send_reason (after_move k) (flush_resent k) s) s) as (? & _ & _ & _ & _ & ?).
Qed.

(** A segment in flight is sent by a flush when it is due, and left alone otherwise. *)
Lemma due_or_kept k ps k' out s :
  kcp_wf k -> flushed k ps k' out -> s ∈ snd_buf k ->
  (due k s /\ resent s [(current k, out)]) \/ (~ due k s /\ s ∈ snd_buf k').
Proof.
  intros Hk Hf Hs. destruct (flushed_queue _ _ _ _ Hf) as (l & _ & Eb & Eb' & _).
  destruct (decide (due k s)) as [Hd|Hd].
  - left. split; [done|]. exists (current k), out, (stamped k s). split; [by left|].
    split; [|done]. destruct (flushed_out _ _ _ _ Hf) as (gs & -> & Eg).
    destruct (due_segment_sent k ps k' _ s Hk Hf Hs Hd) as (s' & Hin & Ew & _).
    destruct (carries_elem gs s') as (d & pre & post & Hd1 & Hd2); [rewrite Eg, elem_of_app; by right|].
    exists d, pre, post. by rewrite <- Ew.
  - right. split; [done|]. destruct (flush_update_seg k s Hk) as [Hfs _]. unfold flushed_seg in Hfs.
    rewrite decide_False in Hfs by done. rewrite Eb', Eb, fmap_app, elem_of_app. left.
    rewrite <- Hfs. by apply list_elem_of_fmap_2.
Qed.

(** The state of a run while [s] waits: times are counted from [b], the timer of [s] is at
    [r], and the next flush is not later than [l]. *)
Record waits (b r l : Z) (s : IKCPSEG) (k : ikcpcb) : Prop := {
  wt_wf : kcp_wf k;
  wt_acks : ackcount k < 2147483648;
  wt_output : output k = true;
  wt_in : s ∈ snd_buf k;
  wt_flush : exists f, ts_flush k = u32 (b + f) /\ -1073741824 <= f <= l }.

Lemma update_clock_early k now :
  snd (update_clock k now) = false ->
  ts_flush (fst (update_clock k now)) = ts_flush k /\ _itimediff now (ts_flush k) < 0.
Proof.
  unfold update_clock. cbn zeta. set (k1 := if updated _ =? 0 then _ else _).
  assert (ts_flush k1 = ts_flush k \/ ts_flush k1 = now) as Ht
    by (subst k1; cbn; destruct (updated k =? 0); auto).
  clearbody k1. assert (_itimediff now now = 0) as Hz by by rewrite itimediff_i32, Z.sub_diag.
  destruct (Z.geb_spec (_itimediff now (ts_flush k1)) 10000),
    (Z.ltb_spec (_itimediff now (ts_flush k1)) (-10000)); cbn [orb];
    destruct (Z.geb_spec 0 0); try lia; cbn; try done.
  destruct (Z.geb_spec (_itimediff now (ts_flush k1)) 0); cbn; [done|]. intros _.
  destruct Ht as [Ht|Ht]; rewrite Ht in *; [done|lia].
Qed.

Lemma update_waits b r l s k d i :
  waits b r l s k -> seg_resendts s = u32 (b + r) -> -1073741824 <= r < 1073741824 ->
  0 <= d < 1073741824 -> interval k = i -> r + i <= l -> l < 1073741824 ->
  returns (ikcp_update k (u32 (b + d))) (fun '(k', out) =>
    resent s [(u32 (b + d), out)] \/ (waits b r l s k' /\ interval k' = i /\ d < l)).
Proof.
  intros [Hk Hac Ho Hs (f & Ef & Hf)] Er Hr Hd Ei Hl Hl2.
  pose proof (wf_interval _ Hk) as Hi. pose proof Hk as [_ _ _ _ [ps Hps] _].
  pose proof (ack_count _ _ Hps) as Ec.
  eapply returns_mono; [apply (ikcp_update_wf k _ ps); try done; [lia|apply u32_range]|].
  intros [k' out] (Hk' & _ & Hp).
  pose proof (update_clock_spec k (u32 (b + d)) Hk (u32_range _)) as Hu.
  pose proof (update_clock_early k (u32 (b + d))) as He.
  destruct (update_clock_wf k (u32 (b + d)) ps Hk Hps (u32_range _)) as (Hk1 & _).
  destruct (update_clock k (u32 (b + d))) as [k1 fl]. cbn [fst snd] in *.
  destruct Hu as [(u & t & Ek1 & Hu & Ht) Hnext]. rewrite Ek1 in Hnext. cbn in Hnext.
  destruct fl.
  - destruct Hp as (k2 & -> & Hfl). rewrite Ek1 in Hfl, Hk1.
    set (k2 := k <| current := _ |> <| updated := u |> <| ts_flush := t |>) in *.
    destruct (due_or_kept k2 ps k' out s Hk1 Hfl Hs) as [[_ Hre]|[Hnd Hin]]; [by left|right].
    destruct (flushed_timer _ _ _ _ Hfl) as [E1 E2]. cbn in E1, E2.
    assert (d < r) as Hdr.
    { apply Z.lt_nge. intros Hge. apply Hnd. right. left. cbn. rewrite Er, <- itimediff_i32.
      rewrite (itimediff_near _ _ (d - r)); [lia|lia|]. rewrite !u32_idem, u32_add_l. f_equal. lia. }
    split; [|split; [congruence|lia]]. constructor; [done| | |done|].
    + rewrite (flushed_acks _ _ _ _ Hfl). lia.
    + destruct (flushed_rcv _ _ _ _ Hfl) as (_ & _ & _ & _ & _ & -> & _). done.
    + exists (d + _itimediff t (u32 (b + d))). rewrite E2. split; [|lia].
      rewrite itimediff_i32 in *. unfold is_u32 in Ht. clear -Ht. wrap_lia.
  - destruct Hp as [-> ->]. destruct (He eq_refl) as [Et Hdf]. right.
    rewrite Ef, (itimediff_near _ _ (d - f)) in Hdf; [|lia|rewrite !u32_idem, u32_add_l; f_equal; lia].
    split; [|split; [by rewrite Ek1|lia]]. constructor; rewrite ?Et; try done; try by rewrite Ek1.
    by exists f.
Qed.

(** Whatever happens, every call returns. *)
Definition alive (k : ikcpcb) : Prop := kcp_wf k /\ ackcount k < 2147483648 /\ output k = true.

Lemma update_alive k now :
  alive k -> is_u32 now -> returns (ikcp_update k now) (fun '(k', _) => alive k').
Proof.
  intros (Hk & Hac & Ho) Hnow. pose proof Hk as [_ _ _ _ [ps Hps] _]. pose proof (ack_count _ _ Hps) as Ec.
  eapply returns_mono; [apply (ikcp_update_wf k now ps); (done || lia)|]. intros [k' out] (Hk' & _ & Hp).
  pose proof (update_clock_spec k now Hk Hnow) as Hu. destruct (update_clock k now) as [k1 fl]. cbn [fst snd] in Hp.
  destruct Hu as [(u & t & Ek1 & _) _]. destruct fl.
  - destruct Hp as (k2 & -> & Hfl). split_and!; [done|rewrite (flushed_acks _ _ _ _ Hfl); lia|].
    destruct (flushed_rcv _ _ _ _ Hfl) as (_ & _ & _ & _ & _ & -> & _). by rewrite Ek1.
  - destruct Hp as [_ ->]. split_and!; [done|by rewrite Ek1|by rewrite Ek1].
Qed.

Lemma updates_alive k times : alive k -> Forall is_u32 times -> returns (updates k times) (fun _ => True).
Proof.
  intros Hk Ht. revert k Hk. induction Ht as [|t times Ht _ IH]; intros k Hk; cbn [updates]; [by apply returns_Ok|].
  eapply returns_bind; [by apply update_alive|]. intros [k1 out] Hk1.
  eapply returns_bind; [by apply IH|]. intros [k2 outs] _. by apply returns_Ok.
Qed.

Lemma resent_more s o o1 o2 : resent s o -> resent s (o1 ++ o ++ o2).
Proof.
  intros (t & out & s' & Hin & H). exists t, out, s'. split; [|done]. rewrite !elem_of_app. auto.
Qed.

Lemma updates_resend b r l s i times k :
  waits b r l s k -> seg_resendts s = u32 (b + r) -> -1073741824 <= r < 1073741824 ->
  interval k = i -> r + i <= l -> l < 1073741824 ->
  Forall (fun d => 0 <= d < 1073741824) times -> (exists d, d ∈ times /\ l <= d) ->
  returns (updates k ((fun d => u32 (b + d)) <$> times)) (fun '(_, outs) => resent s outs).
Proof.
  intros Hw Er Hr Ei Hl Hl2 Ht. revert k Hw Ei.
  induction Ht as [|d times Hd Ht IH]; intros k Hw Ei [t [Hin Hlt]]; [by apply not_elem_of_nil in Hin|].
  rewrite fmap_cons. cbn [updates].
  destruct (update_alive k (u32 (b + d))) as ([k1 out] & E & Ha); [by destruct Hw|apply u32_range|].
  destruct (update_waits b r l s k d i) as (x & Ex & Hx); try done. rewrite E in Ex. injection Ex as <-.
  rewrite E. cbn [mbind res_bind]. destruct Hx as [Hre|(Hw1 & Ei1 & Hdl)].
  - eapply returns_bind; [apply (updates_alive k1); [done|]|].
    { apply Forall_fmap, Forall_forall. intros x _. apply u32_range. }
    intros [k2 outs] _. apply returns_Ok. exact (resent_more s _ [] outs Hre).
  - eapply returns_bind; [apply (IH k1 Hw1 Ei1)|].
    { exists t. split; [|done]. apply elem_of_cons in Hin as [->|?]; [lia|done]. }
    intros [k2 outs] Hre. apply returns_Ok. pose proof (resent_more s outs [(u32 (b + d), out)] [] Hre) as H.
    by rewrite app_nil_r in H.
Qed.

(** C25: Nothing waits for ever while updates go on: take a segment in flight whose timer, and
    the connection's next flush, are less than 2^30 ms before or after some time [b], and let
    ikcp_update be called any number of times within 2^30 ms after [b], in any rhythm, with no
    input in between.  As soon as one call comes no earlier than the next flush and no earlier
    than one interval after the timer, one of the calls so far has sent the segment again,
    with its number, its data and the time of that call; and every call returns.  The output
    callback is set, and fewer than 2^31 acknowledgements are pending. *)
Theorem overdue_segment_is_sent k s b f r times :
  kcp_wf k -> ackcount k < 2147483648 -> output k = true -> s ∈ snd_buf k ->
  ts_flush k = u32 (b + f) -> -1073741824 <= f < 1073741824 ->
  seg_resendts s = u32 (b + r) -> -1073741824 <= r < 1073741824 - interval k ->
  Forall (fun d => 0 <= d < 1073741824) times ->
  (exists d, d ∈ times /\ f <= d /\ r + interval k <= d) ->
  returns (updates k ((fun d => u32 (b + d)) <$> times)) (fun '(_, outs) =>
    exists t out s', (t, out) ∈ outs /\ carries out s' /\
      seg_sn s' = seg_sn s /\ seg_data s' = seg_data s /\ seg_ts s' = t).
Proof.
  intros Hk Hac Ho Hs Ef Hf Er Hr Ht (d & Hd & Hfd & Hrd). pose proof (wf_interval _ Hk) as Hi.
  apply (updates_resend b r (Z.max f (r + interval k)) s (interval k)); try done; try lia.
  - constructor; try done. exists f. split; [done|lia].
  - exists d. split; [done|lia].
Qed.
End Contracts.

(** ** The contracts on concrete connections *)

Lemma segment_crosses_hosts_witness :
  let s := mkSeg 7 81 3 128 1000 66051 5 4 0 0 0 0 [1; 2; 3; 4] in
  fits_header s /\
  ('(conv, data) ← @ikcp_decode32u big_endian (@ikcp_encode_seg x86_64 s ++ seg_data s);
   '(h, data) ← @decode_header big_endian data;
   Ok (conv, h, data)) = Ok (7, mkHeader 81 3 128 1000 66051 5 4, [1; 2; 3; 4]).
Proof.
  intros s. assert (fits_header s) as Hs by (constructor; by_decide). split; [done|].
  apply (segment_crosses_hosts x86_64 big_endian s (seg_data s) Hs).
Defined.

Lemma ikcp_send_total_witness :
  user_buf (Some [1; 2; 3]) 3 /\
  safely (@refused demo_env) (@ikcp_send demo_env demo_sent (Some [1; 2; 3]) 3)
    (fun '(r, k') => kcp_wf k' /\ (r = 0 \/ r = -2 \/ (r = -1 /\ 3 < 0))).
Proof.
  assert (user_buf (Some [1; 2; 3]) 3) as Hb by (split; by_decide). split; [done|].
  apply (@ikcp_send_total demo_env); [apply demo_sent_wf|done|by_decide].
Defined.

Lemma ikcp_recv_outcomes_witness :
  first_message (rcv_queue demo_received) = (rcv_queue demo_received, []) /\
  ikcp_peeksize demo_received = 3 /\
  returns (@ikcp_recv demo_env demo_received true (-100)) (fun '(r, out, k') =>
    recv_result demo_received true (-100) (r, out, k') /\ kcp_wf k').
Proof.
  split; [done|].
  apply (@ikcp_recv_outcomes demo_env demo_received true (-100) (rcv_queue demo_received) []);
    [apply demo_received_wf|by_decide|done].
Defined.

(** The segment numbered 3 arrives before the one numbered 2. *)
Lemma parse_data_in_order_witness :
  let new := mkSeg 7 81 0 128 0 3 0 1 0 0 0 0 [9] in
  let k' := ikcp_parse_data demo_received new in
  rcv_wf k' /\ exists d, rcv_queue k' = rcv_queue demo_received ++ d /\ [new] = d ++ rcv_buf k'.
Proof.
  intros new k'.
  destruct (parse_data_in_order demo_received new (kcp_wf_rcv _ demo_received_wf) ltac:(by_decide))
    as (Hwf & d & Hq & Hb & _).
  split; [done|]. by exists d.
Defined.

Lemma ack_list_records_witness :
  ack_rep demo_cb [] /\
  safely (fun e => e = Aborted /\ exists size, @malloc_succeeds demo_env (nalloc demo_cb) size = false)
    (@ikcp_ack_push demo_env demo_cb 5 1000)
    (fun k' => ackcount k' = 1 /\ ikcp_ack_get k' 0 = Ok (5, 1000) /\
       forall i, 0 <= i < 0 -> ikcp_ack_get k' i = ikcp_ack_get demo_cb i).
Proof.
  split; [apply demo_cb_acks|].
  apply (@ack_list_records demo_env demo_cb [] 5 1000); [apply demo_cb_acks|by_decide..].
Defined.

Lemma acknowledged_exactly_witness :
  length (snd_buf demo_sent) = 1%nat /\ snd_buf (ikcp_parse_una demo_sent 1) = [] /\
  snd_buf (ikcp_parse_ack demo_sent 0) = [] /\
  snd_buf (ikcp_parse_fastack demo_sent 0 1000) = snd_buf demo_sent.
Proof.
  split; [by_decide|].
  destruct (acknowledged_exactly demo_sent 1 0 1000 (kcp_wf_snd _ demo_sent_wf)
    (kcp_wf_una _ demo_sent_wf) ltac:(by_decide)) as (E1 & E2 & E3).
  split_and!; [rewrite E1|rewrite E2|rewrite E3]; reflexivity.
Defined.

Lemma rto_follows_rtt_witness :
  let k' := ikcp_update_ack demo_sent 80 in
  100 <= rx_rto k' <= 60000 /\ rx_srtt k' = 80 /\ rx_rttval k' = 40 /\ rx_rto k' = 240.
Proof.
  intros k'. destruct (rto_follows_rtt demo_sent 80 ltac:(by_decide)) as [Hb He].
  specialize (He ltac:(by_decide) ltac:(by_decide) ltac:(by_decide) ltac:(by_decide)).
  subst k'. vm_compute in Hb, He |- *. by split.
Defined.





Definition demo_segment : IKCPSEG := default (flush_seg0 demo_sent) (head (snd_buf demo_sent)).

(** The segment was sent at 1100 and its timer stands at 1325; updates every 50 ms. *)
Lemma overdue_segment_is_sent_witness :
  demo_segment ∈ snd_buf demo_sent /\ seg_resendts demo_segment = u32 (1100 + 225) /\
  ts_flush demo_sent = u32 (1100 + 100) /\ interval demo_sent = 100 /\
  returns (@updates demo_env x86_64 demo_sent ((fun d => u32 (1100 + d)) <$> [50; 100; 150; 200; 250; 300; 350]))
    (fun '(_, outs) => exists t out s', (t, out) ∈ outs /\ carries out s' /\
      seg_sn s' = 0 /\ seg_data s' = [1; 2; 3] /\ seg_ts s' = t).
Proof.
  assert (demo_segment ∈ snd_buf demo_sent) as Hs by (vm_compute; by left). split; [done|].
  split; [evaluated|]. split; [evaluated|]. split; [evaluated|].
  apply (@overdue_segment_is_sent demo_env x86_64 demo_sent demo_segment 1100 100 225
    [50; 100; 150; 200; 250; 300; 350]);
    [apply demo_sent_wf|by_decide|reflexivity|done|evaluated|lia|evaluated|by_decide|by_decide|].
  exists 350. split; [by_decide|]. by_decide.
Defined.
