(* ===== verification/IkcpArq.v ===== *)
(** * kcp_learn/ikcp.c: two connections over an unreliable network

    Each end runs ikcp_send, ikcp_recv, ikcp_input, ikcp_update and the settings, in any
    order; the network may lose, duplicate, delay and reorder the datagrams that
    the ends hand to it.  The bytes each application receives are a prefix of the
    bytes the other one sent, and a segment is only forgotten once it has arrived. *)

From stdpp Require Import functions relations.
From S2P Require Import Prelude IkcpBase IkcpCb IkcpSnd IkcpRcv IkcpInput IkcpFlush.

(** ** Numbered segments *)

(** What the application sees of a segment. *)
Definition payload (s : IKCPSEG) : Z * list Z := (seg_frg s, seg_data s).

Definition bytes_of (l : list (Z * list Z)) : list Z := mjoin (snd <$> l).

Lemma bytes_of_app l1 l2 : bytes_of (l1 ++ l2) = bytes_of l1 ++ bytes_of l2.
Proof. unfold bytes_of. by rewrite fmap_app, join_app. Qed.

Lemma bytes_of_payload l : bytes_of (payload <$> l) = queue_bytes l.
Proof. unfold bytes_of, queue_bytes. by rewrite <- list_fmap_compose. Qed.

(** [p] is what was given the sequence number [i]. *)
Definition at_sn (N : list (Z * list Z)) (i : Z) (p : Z * list Z) : Prop :=
  0 <= i /\ N !! Z.to_nat i = Some p.

Lemma at_sn_app N N' i p : at_sn N i p -> at_sn (N ++ N') i p.
Proof. intros [? H]. split; [done|]. by apply lookup_app_l_Some. Qed.

Lemma at_sn_lt N i p : at_sn N i p -> 0 <= i < Z.of_nat (length N).
Proof. intros [? H%lookup_lt_Some]. lia. Qed.

(** The segment number [i] has arrived. *)
Definition recvd (k : ikcpcb) (i : Z) : Prop :=
  0 <= i < rcv_nxt k \/ exists s, s ∈ rcv_buf k /\ seg_sn s = i.

(** ** The receiving end *)

(** [M] is what the peer numbered, [D] what the application took. *)
Record receiver_ok (M D : list (Z * list Z)) (k : ikcpcb) : Prop := {
  ro_nxt : rcv_nxt k <= Z.of_nat (length M) < 2147483648;
  ro_queue : D ++ (payload <$> rcv_queue k) = take (Z.to_nat (rcv_nxt k)) M;
  ro_buf : forall s, s ∈ rcv_buf k -> at_sn M (seg_sn s) (payload s) }.

Lemma take_extend (M : list (Z * list Z)) n d :
  (forall i s, d !! i = Some s -> M !! (n + i)%nat = Some (payload s)) ->
  take (n + length d) M = take n M ++ (payload <$> d).
Proof.
  revert n. induction d as [|s d IH]; intros n Hd; cbn [length fmap list_fmap].
  - by rewrite Nat.add_0_r, app_nil_r.
  - replace (n + S (length d))%nat with (S n + length d)%nat by lia.
    rewrite (IH (S n)).
    + pose proof (Hd O s eq_refl) as H0. rewrite Nat.add_0_r in H0.
      rewrite (take_S_r _ _ _ H0), <- app_assoc. done.
    + intros i t Ht. specialize (Hd (S i) t Ht). by rewrite Nat.add_succ_r in Hd.
Qed.

Lemma insert_seg_keeps base new l s : s ∈ l -> s ∈ insert_seg base new l.
Proof.
  induction l as [|t l IH]; cbn; [set_solver|]. destruct (_ <? _); [set_solver|].
  destruct (_ =? _); [set_solver|]. set_solver.
Qed.

Lemma insert_seg_has base new l :
  exists t, t ∈ insert_seg base new l /\ off base t = off base new.
Proof.
  induction l as [|s l (t & Ht & He)]; cbn; [exists new; set_solver|].
  destruct (_ <? _); [exists new; set_solver|].
  destruct (Z.eqb_spec (off base new) (off base s)); [exists s; set_solver|]. exists t. set_solver.
Qed.

(** Later states of a receiver know at least as much. *)
Definition grows (k k' : ikcpcb) : Prop :=
  rcv_nxt k <= rcv_nxt k' /\ forall i, recvd k i -> recvd k' i.

Lemma grows_refl k : grows k k.
Proof. split; [lia|done]. Qed.
Lemma grows_trans k1 k2 k3 : grows k1 k2 -> grows k2 k3 -> grows k1 k3.
Proof. intros [? ?] [? ?]. split; [lia|auto]. Qed.

(** Moving segments to the queue keeps the receiver in step with the stream. *)
Lemma moved_receiver M D k k' d :
  rcv_wf k -> moved k k' d -> receiver_ok M D k -> receiver_ok M D k' /\ grows k k'.
Proof.
  intros Hwf Hm [Hn Hq Hb]. pose proof (wf_rcv_nxt _ Hwf) as Hr. unfold is_u32 in Hr.
  destruct Hm as [Hwf' _ Hbuf Hqueue Hnxt _ Hsn _].
  assert (qlen d <= 2147483648) as Hd.
  { pose proof (window_qlen _ _ _ _ (wf_rcv_buf _ Hwf)) as Hw. rewrite Hbuf, qlen_app in Hw.
    pose proof (qlen_nonneg (rcv_buf k')). lia. }
  assert (forall i s, d !! i = Some s ->
    seg_sn s = rcv_nxt k + Z.of_nat i /\ M !! (Z.to_nat (rcv_nxt k) + i)%nat = Some (payload s)) as Hds.
  { intros i s Hi. pose proof (lookup_lt_Some _ _ _ Hi) as Hlt. unfold qlen in Hd.
    assert (seg_sn s = rcv_nxt k + Z.of_nat i) as E by (rewrite (Hsn _ _ Hi); apply u32_small; lia).
    split; [done|]. destruct (Hb s) as [? Hs].
    { rewrite Hbuf. apply elem_of_app. left. by eapply list_elem_of_lookup_2. }
    rewrite <- Hs. f_equal. lia. }
  assert (qlen d = 0 \/ rcv_nxt k + qlen d <= Z.of_nat (length M)) as Hlen.
  { destruct d as [|s d] using rev_ind; [by left|]. right.
    destruct (Hds (length d) s) as [_ Hl]; [by rewrite list_lookup_middle|].
    apply lookup_lt_Some in Hl. unfold qlen. rewrite length_app. cbn. lia. }
  assert (rcv_nxt k' = rcv_nxt k + qlen d) as En
    by (rewrite Hnxt; apply u32_small; pose proof (qlen_nonneg d); lia).
  pose proof (qlen_nonneg d). split; [constructor|split; [lia|]].
  - lia.
  - rewrite Hqueue, fmap_app, app_assoc, Hq, En.
    replace (Z.to_nat (rcv_nxt k + qlen d)) with (Z.to_nat (rcv_nxt k) + length d)%nat
      by (unfold qlen; lia).
    rewrite (take_extend M _ d); [done|]. intros i s Hi. by apply Hds.
  - intros s Hs. apply Hb. rewrite Hbuf. apply elem_of_app. by right.
  - intros i [Hi|(s & Hs & <-)]; [left; lia|]. rewrite Hbuf in Hs.
    apply elem_of_app in Hs as [[j Hj]%list_elem_of_lookup_1|Hs]; [|by right; exists s].
    left. destruct (Hds j s Hj) as [-> _]. apply lookup_lt_Some in Hj. unfold qlen in *. lia.
Qed.

Lemma inserted_receiver M D k new :
  rcv_wf k -> receiver_ok M D k -> at_sn M (seg_sn new) (payload new) ->
  receiver_ok M D (inserted k new) /\ grows k (inserted k new).
Proof.
  intros Hwf [Hn Hq Hb] Hnew. split; [constructor; [done|done|]|split; [cbn; lia|]].
  - intros s [->|Hs]%insert_seg_elem; auto.
  - intros i [Hi|(s & Hs & <-)]; [by left|]. right. exists s. split; [|done].
    by apply insert_seg_keeps.
Qed.

(** A genuine segment keeps the receiver in step; afterwards the segment has arrived
    unless it lies beyond the window. *)
Lemma ikcp_parse_data_receiver M D k new :
  rcv_wf k -> seg_wf 2147483647 new -> receiver_ok M D k -> at_sn M (seg_sn new) (payload new) ->
  let k' := ikcp_parse_data k new in
  receiver_ok M D k' /\ grows k k' /\
  (u32 (seg_sn new - rcv_nxt k) < rcv_wnd k -> recvd k' (seg_sn new)).
Proof.
  intros Hwf Hs Hro Hnew k'. pose proof (parse_data_exact k new Hwf Hs) as Hp. fold k' in Hp.
  pose proof (wf_rcv_wnd _ Hwf) as Hwnd.
  destruct (Z.ltb_spec (u32 (seg_sn new - rcv_nxt k)) (rcv_wnd k)) as [Hin|Hout].
  - destruct Hp as [d Hd]. destruct (inserted_receiver M D k new Hwf Hro Hnew) as [Hri Hgi].
    assert (rcv_wf (inserted k new)) as Hwi by (apply inserted_wf; try done; unfold off; lia).
    destruct (moved_receiver M D _ _ d Hwi Hd Hri) as [Hrm Hgm].
    split; [done|]. split; [by eapply grows_trans|]. intros _. apply Hgm. right.
    destruct (insert_seg_has (rcv_nxt k) new (rcv_buf k)) as (t & Ht & He). exists t. split; [done|].
    pose proof (wf_rcv_segs _ Hwi) as Hsegs. rewrite Forall_forall in Hsegs.
    eapply off_inj; [|apply Hs|exact He]. by apply Hsegs.
  - rewrite Hp. split; [|split; [|lia]]; [|split; [cbn; lia|done]]. by destruct Hro.
Qed.

(** ** The sending end *)

(** [N] is what was numbered so far, [P] what the peer has received: every number that
    the peer lacks is still in snd_buf. *)
Record sender_ok (N : list (Z * list Z)) (P : Z -> Prop) (k : ikcpcb) : Prop := {
  so_nxt : snd_nxt k = Z.of_nat (length N) /\ Z.of_nat (length N) < 2147483648;
  so_buf : forall s, s ∈ snd_buf k ->
    at_sn N (seg_sn s) (payload s) /\ seg_cmd s = IKCP_CMD_PUSH /\ u32 (seg_conv s) = conv k;
  so_keep : forall i, 0 <= i < Z.of_nat (length N) ->
    P i \/ exists s, s ∈ snd_buf k /\ seg_sn s = i }.

Lemma sender_ok_sub N P k k' :
  sender_ok N P k -> snd_nxt k' = snd_nxt k -> conv k' = conv k ->
  (forall s', s' ∈ snd_buf k' -> exists s, s ∈ snd_buf k /\ seg_sn s' = seg_sn s /\
     payload s' = payload s /\ seg_cmd s' = seg_cmd s /\ seg_conv s' = seg_conv s) ->
  (forall s, s ∈ snd_buf k -> P (seg_sn s) \/ exists s', s' ∈ snd_buf k' /\ seg_sn s' = seg_sn s) ->
  sender_ok N P k'.
Proof.
  intros [[Hn Hn2] Hb Hk] En Ec Hsub Hkeep. constructor.
  - split; congruence || lia.
  - intros s' Hs'. destruct (Hsub s' Hs') as (s & Hs & E1 & E2 & E3 & E4).
    rewrite E1, E2, E3, E4, Ec. by apply Hb.
  - intros i Hi. destruct (Hk i Hi) as [?|(s & Hs & <-)]; [by left|]. by apply Hkeep.
Qed.

Lemma sender_ok_mono N (P P' : Z -> Prop) k :
  sender_ok N P k -> (forall i, P i -> P' i) -> sender_ok N P' k.
Proof. intros [? ? Hk] HP. constructor; [done|done|]. intros i Hi. destruct (Hk i Hi); auto. Qed.

(** The parts of the control block the two roles read. *)
Definition snd_view (k : ikcpcb) := (snd_nxt k, conv k, output k, snd_queue k, snd_buf k).
Definition rcv_view (k : ikcpcb) := (rcv_nxt k, rcv_queue k, rcv_buf k).
Definition ack_view (k : ikcpcb) := (acklist k, ackcount k, ackblock k).

Lemma sender_ok_view N P k k' : snd_view k' = snd_view k -> sender_ok N P k -> sender_ok N P k'.
Proof. intros [= E1 E2 E3 E4 E5] []. constructor; rewrite ?E1, ?E2, ?E5; done. Qed.
Lemma recvd_view k k' i : rcv_view k' = rcv_view k -> recvd k' i <-> recvd k i.
Proof. intros [= E1 E2 E3]. unfold recvd. by rewrite E1, E3. Qed.
Lemma receiver_ok_view M D k k' : rcv_view k' = rcv_view k -> receiver_ok M D k -> receiver_ok M D k'.
Proof. intros [= E1 E2 E3] []. constructor; rewrite ?E1, ?E2, ?E3; done. Qed.
Lemma grows_view k k' : rcv_view k' = rcv_view k -> grows k k'.
Proof. intros E. pose proof E as [= E1 E2 E3]. split; [lia|]. intros i. by rewrite (recvd_view _ _ _ E). Qed.

(** The acknowledgements to send are for segments that arrived. *)
Definition acks_ok (k : ikcpcb) : Prop :=
  exists ps, ack_rep k ps /\ Forall (fun a => recvd k (fst a)) ps.

Lemma ack_rep_view k k' ps : ack_view k' = ack_view k -> ack_rep k ps -> ack_rep k' ps.
Proof. intros [= E1 E2 E3] []. constructor; rewrite ?E1, ?E2, ?E3; done. Qed.

(** What is recorded is read off the control block. *)
Lemma ack_rep_inj k ps qs : ack_rep k ps -> ack_rep k qs -> ps = qs.
Proof.
  intros Ha Hq. pose proof (ack_count _ _ Ha) as E1. pose proof (ack_count _ _ Hq) as E2.
  apply ack_array in Ha. apply ack_array in Hq. destruct (acklist k) as [l|].
  - destruct Ha as (r1 & -> & _), Hq as (r2 & E & _).
    assert (length ps = length qs) as El by lia. clear -E El. revert qs E El.
    induction ps as [|[x y] ps IH]; intros [|[x' y'] qs] E El; try done.
    cbn in E. injection E as -> -> E. f_equal. apply IH; [exact E|cbn in El; lia].
  - destruct Ha as [-> _], Hq as [-> _]. done.
Qed.

Lemma acks_ok_grows k k' : ack_view k' = ack_view k -> grows k k' -> acks_ok k -> acks_ok k'.
Proof.
  intros E [_ Hg] (ps & Ha & Hps). exists ps. split; [by eapply ack_rep_view|].
  eapply Forall_impl; [done|]. intros a. apply Hg.
Qed.

(** Numbers below 2^31 compare as integers. *)
Lemma itimediff_numbers a b :
  0 <= a < 2147483648 -> 0 <= b < 2147483648 -> _itimediff a b = a - b.
Proof. intros. rewrite itimediff_i32. apply i32_small. lia. Qed.

Section Acked.
Context (N : list (Z * list Z)) (P : Z -> Prop).

Lemma in_flight_numbers k s : sender_ok N P k -> s ∈ snd_buf k -> 0 <= seg_sn s < 2147483648.
Proof.
  intros [[_ Hn] Hb _] Hs. destruct (Hb s Hs) as [?%at_sn_lt _]. lia.
Qed.

Lemma ikcp_shrink_buf_views k :
  snd_view (ikcp_shrink_buf k) = snd_view k /\ rcv_view (ikcp_shrink_buf k) = rcv_view k /\
  ack_view (ikcp_shrink_buf k) = ack_view k.
Proof. unfold ikcp_shrink_buf. destruct (snd_buf k) eqn:E; cbn; unfold snd_view; cbn; by rewrite ?E. Qed.

(** A cumulative acknowledgement of numbers the peer received forgets only those. *)
Lemma parse_una_sender k una :
  snd_wf k -> una_tight k -> sender_ok N P k -> 0 <= una <= Z.of_nat (length N) ->
  (forall i, 0 <= i < una -> P i) ->
  sender_ok N P (ikcp_parse_una k una) /\ snd_queue (ikcp_parse_una k una) = snd_queue k /\
  output (ikcp_parse_una k una) = output k /\
  rcv_view (ikcp_parse_una k una) = rcv_view k /\ ack_view (ikcp_parse_una k una) = ack_view k.
Proof.
  intros H Ht Hs Hu HP. pose proof (parse_una_exact k una H Ht) as Hb.
  pose proof (snd_buf_short _ H) as Hl.
  destruct (parse_una_loop_spec una (snd_buf k) k) as (_ & _ & _ & Hsame); [done|apply H|lia|].
  change (parse_una_loop una (snd_buf k) k) with (ikcp_parse_una k una) in *.
  split; [|by rewrite Hsame]. pose proof (so_nxt _ _ _ Hs) as [_ Hn].
  apply (sender_ok_sub N P k); [done|by rewrite Hsame|by rewrite Hsame| |]; rewrite Hb;
    destruct (_ <? 0); intros s Hin; try (by eauto 10).
  - apply list_elem_of_filter in Hin as [_ Hin]. eauto 10.
  - pose proof (in_flight_numbers k s Hs Hin).
    destruct (decide (una - seg_sn s <= 0)); [|left; apply HP; lia].
    right. exists s. split; [|done]. apply list_elem_of_filter.
    by rewrite (itimediff_numbers una) by lia.
Qed.

(** So does a selective one. *)
Lemma parse_ack_sender k sn :
  snd_wf k -> sender_ok N P k -> is_u32 sn -> P sn ->
  sender_ok N P (ikcp_parse_ack k sn) /\ snd_queue (ikcp_parse_ack k sn) = snd_queue k /\
  output (ikcp_parse_ack k sn) = output k /\
  rcv_view (ikcp_parse_ack k sn) = rcv_view k /\ ack_view (ikcp_parse_ack k sn) = ack_view k.
Proof.
  intros H Hs Hsn HP. pose proof (parse_ack_exact k sn H Hsn) as Hb.
  assert (exists b n v, ikcp_parse_ack k sn = k <| snd_buf := b |> <| nsnd_buf := n |> <| live := v |>)
    as (b & n & v & E).
  { assert (k = k <| snd_buf := snd_buf k |> <| nsnd_buf := nsnd_buf k |> <| live := live k |>)
      by by destruct k.
    unfold ikcp_parse_ack. destruct (_ || _); [eauto|].
    destruct (parse_ack_loop _ _) as [? []]; [by eexists _, _, _|eauto]. }
  split; [|by rewrite E].
  apply (sender_ok_sub N P k); [done|by rewrite E|by rewrite E| |]; rewrite Hb; intros s Hin.
  - apply list_elem_of_filter in Hin as [_ Hin]. eauto 10.
  - destruct (decide (seg_sn s = sn)) as [<-|]; [by left|]. right. exists s. split; [|done].
    by apply list_elem_of_filter.
Qed.

Lemma ikcp_update_ack_views k rtt :
  snd_view (ikcp_update_ack k rtt) = snd_view k /\ rcv_view (ikcp_update_ack k rtt) = rcv_view k /\
  ack_view (ikcp_update_ack k rtt) = ack_view k.
Proof. unfold ikcp_update_ack. destruct (_ =? _); [done|]. cbn. by destruct (_ <? 1). Qed.

Lemma parse_fastack_sender k sn ts :
  snd_wf k -> is_u32 sn -> sender_ok N P k ->
  sender_ok N P (ikcp_parse_fastack k sn ts) /\ snd_queue (ikcp_parse_fastack k sn ts) = snd_queue k /\
  output (ikcp_parse_fastack k sn ts) = output k /\
  rcv_view (ikcp_parse_fastack k sn ts) = rcv_view k /\
  ack_view (ikcp_parse_fastack k sn ts) = ack_view k.
Proof.
  intros H Hsn Hs. rewrite (parse_fastack_exact k sn ts H Hsn). destruct (_ <? _); [|done].
  split; [|done]. apply (sender_ok_sub N P k); try done; cbn.
  - intros s' (s & -> & Hin)%list_elem_of_fmap. exists s. split; [done|]. by destruct (_ <? _).
  - intros s Hin. right. eexists. split; [by apply list_elem_of_fmap_2|]. by destruct (_ <? _).
Qed.
End Acked.

(** ** One end of a connection *)

(** [N] was numbered by this end, [M] by the peer, [D] was taken by the application, [P]
    was received by the peer. *)
Record link (c : Z) (N M D : list (Z * list Z)) (P : Z -> Prop) (k : ikcpcb) : Prop := {
  link_kcp : kcp_wf k;
  link_conv : conv k = c;
  link_output : output k = true;
  link_snd : sender_ok N P k;
  link_rcv : receiver_ok M D k;
  link_acks : acks_ok k }.

(** A segment on the wire, sent by an end that numbered [M] and received [P]. *)
Definition genuine (c : Z) (M : list (Z * list Z)) (P : Z -> Prop) (s : IKCPSEG) : Prop :=
  wire_ok c s /\ is_byte (seg_frg s) /\ Forall is_byte (seg_data s) /\
  is_u32 (seg_una s) /\ (forall i, 0 <= i < seg_una s -> P i) /\
  (u8 (seg_cmd s) = IKCP_CMD_PUSH -> at_sn M (seg_sn s) (payload s)) /\
  (u8 (seg_cmd s) = IKCP_CMD_ACK -> is_u32 (seg_sn s) /\ P (seg_sn s)).

Section Input.
Context `{env : Env} `{host : Host}.

Lemma copied_payload s bytes :
  (if seg_len s >? 0 then c_memcpy (seg_bytes s) (seg_len s) else Ok []) = Ok bytes ->
  seg_len s = Z.of_nat (length (seg_data s)) -> bytes = seg_data s.
Proof.
  intros H Hl. assert (seg_bytes s = seg_data s) as Eb by (unfold seg_bytes; apply take_ge; lia).
  rewrite Eb in H. destruct (Z.gtb_spec (seg_len s) 0).
  - unfold c_memcpy in H. destruct (_ <=? _); [|done]. injection H as <-. apply take_ge. lia.
  - injection H as <-. destruct (seg_data s); [done|cbn in *; lia].
Qed.

(** What input_push stores for a segment of the wire. *)
Definition pushed (c : Z) (s : IKCPSEG) : IKCPSEG :=
  let h := header_of s in
  mkSeg c (h_cmd h) (h_frg h) (h_wnd h) (h_ts h) (seg_sn s) (h_una h) (seg_len s) 0 0 0 0 (seg_data s).

Lemma pushed_receiver c k s M D :
  rcv_wf k -> receiver_ok M D k -> wire_ok c s -> is_byte (seg_frg s) -> Forall is_byte (seg_data s) ->
  at_sn M (seg_sn s) (payload s) -> _itimediff (seg_sn s) (rcv_nxt k) >= 0 ->
  let k' := ikcp_parse_data k (pushed c s) in
  receiver_ok M D k' /\ grows k k' /\ snd_view k' = snd_view k /\ ack_view k' = ack_view k /\
  (_itimediff (seg_sn s) (u32 (rcv_nxt k + rcv_wnd k)) < 0 -> recvd k' (seg_sn s)).
Proof.
  intros Hwf Hro (Hc & _ & Hl & Hl2) Hfrg Hby Hat Hz k'. subst k'. pose proof (at_sn_lt _ _ _ Hat) as Hsn.
  pose proof (ro_nxt _ _ _ Hro) as Hnxt. pose proof (wf_rcv_nxt _ Hwf) as Hn0. unfold is_u32 in Hn0.
  assert (payload (pushed c s) = payload s) as Ep by (unfold payload; cbn; f_equal; by apply u8_small).
  assert (seg_wf 2147483647 (pushed c s)) as Hsw.
  { unfold seg_wf. cbn. unfold is_u32, is_byte in *. rewrite u8_small by lia. split_and!; done || lia. }
  destruct (ikcp_parse_data_receiver M D k (pushed c s) Hwf Hsw Hro) as (Hro' & Hg & Hrec); [by rewrite Ep|].
  destruct (ikcp_parse_data_wf k (pushed c s) Hwf Hsw) as (_ & Hsame & _).
  split; [done|]. split; [done|]. split; [by rewrite Hsame|]. split; [by rewrite Hsame|].
  intros Hlt. apply Hrec. change (seg_sn (pushed c s)) with (seg_sn s).
  pose proof (in_window (rcv_nxt k) (rcv_wnd k) (seg_sn s) ltac:(destruct (wf_rcv_wnd _ Hwf); lia)) as Hwin.
  rewrite Z.geb_leb, (proj2 (Z.leb_gt _ _)), (proj2 (Z.ltb_ge _ _)) in Hwin by lia.
  symmetry in Hwin. by apply negb_false_iff, Z.ltb_lt in Hwin.
Qed.

Lemma input_push_receiver c k s M D k' ps :
  rcv_wf k -> receiver_ok M D k -> ack_rep k ps -> Forall (fun a => recvd k (fst a)) ps ->
  Z.of_nat (length ps) < 1073741824 ->
  wire_ok c s -> is_byte (seg_frg s) -> Forall is_byte (seg_data s) ->
  at_sn M (seg_sn s) (payload s) ->
  input_push k c (header_of s) (seg_bytes s) = Ok k' ->
  receiver_ok M D k' /\ acks_ok k' /\ grows k k' /\ snd_view k' = snd_view k /\
  ackcount k' <= ackcount k + 1.
Proof.
  intros Hwf Hro Ha Hps Hlen Hw Hfrg Hby Hat H. pose proof Hw as (Hc & _ & Hl & Hl2).
  pose proof (at_sn_lt _ _ _ Hat) as Hsn. pose proof (ro_nxt _ _ _ Hro) as Hnxt.
  pose proof (wf_rcv_nxt _ Hwf) as Hn0. unfold is_u32 in Hn0.
  assert (h_sn (header_of s) = seg_sn s) as Es by (cbn; apply u32_small; lia).
  assert (h_len (header_of s) = seg_len s) as El by (cbn; apply u32_small; lia).
  unfold input_push in H. rewrite Es, El in H.
  destruct (Z.ltb_spec (_itimediff (seg_sn s) (u32 (rcv_nxt k + rcv_wnd k))) 0) as [Hlt|Hge].
  2:{ injection H as <-. split_and!; try done; [by exists ps|lia]. }
  apply bind_Ok in H as (k1 & H1 & H).
  pose proof (ikcp_ack_push_exact k ps (seg_sn s) (h_ts (header_of s)) Ha ltac:(unfold is_u32; lia)
    (u32_range _) Hlen) as Hpush. rewrite H1 in Hpush. destruct Hpush as (Ha1 & Hsame & _).
  assert (rcv_view k1 = rcv_view k /\ snd_view k1 = snd_view k /\ rcv_wnd k1 = rcv_wnd k)
    as (Ev & Esv & Ewnd) by by rewrite Hsame.
  pose proof (ack_count _ _ Ha) as Ec. pose proof (ack_count _ _ Ha1) as Ec1.
  rewrite length_app in Ec1. cbn in Ec1.
  assert (receiver_ok M D k1) as Hro1 by (by eapply receiver_ok_view).
  assert (rcv_wf k1) as Hwf1 by (apply (same_but_acks_wf _ _ Hsame); done).
  assert (Forall (fun a => recvd k1 (fst a)) ps) as Hps1.
  { eapply Forall_impl; [done|]. intros a. by apply recvd_view. }
  assert (rcv_nxt k1 = rcv_nxt k) as En1 by by injection Ev.
  rewrite En1 in H.
  destruct (Z.geb_spec (_itimediff (seg_sn s) (rcv_nxt k)) 0) as [Hz|Hz].
  2:{ injection H as <-. split_and!; try done; [|by apply grows_view|lia].
      exists (ps ++ [(seg_sn s, h_ts (header_of s))]). split; [done|].
      apply Forall_app. split; [done|]. apply Forall_singleton. left. cbn.
      rewrite itimediff_numbers in Hz by lia. lia. }
  unfold ikcp_segment_new, ikcp_malloc in H. cbn zeta in H.
  destruct (malloc_succeeds _ _); cbn [negb] in H; [|done].
  set (k2 := k1 <| nalloc ::= S |> <| live ::= _ |>) in H.
  apply bind_Ok in H as (bytes & ->%copied_payload & H); [|done].
  change (mkSeg _ _ _ _ _ _ _ _ _ _ _ _ _) with (pushed c s) in H. injection H as <-.
  assert (rcv_wf k2) as Hwf2 by (subst k2; carry_wf).
  destruct (pushed_receiver c k2 s M D) as (Hro3 & Hg3 & Ev3 & Ea3 & Hrec); try done; [by eapply receiver_ok_view|..].
  { change (rcv_nxt k2) with (rcv_nxt k1). rewrite En1. lia. }
  change (rcv_nxt k2) with (rcv_nxt k1) in Hrec. change (rcv_wnd k2) with (rcv_wnd k1) in Hrec. rewrite En1, Ewnd in Hrec.
  set (k3 := ikcp_parse_data k2 _) in *.
  assert (grows k k3) as Hg by (eapply grows_trans; [by apply (grows_view k k2)|done]).
  assert (ackcount k3 = ackcount k1) as Ec3 by by injection Ea3.
  split_and!; [done| |done|by rewrite Ev3|lia].
  exists (ps ++ [(seg_sn s, h_ts (header_of s))]). split.
  { apply (ack_rep_view k2 k3); [exact Ea3|]. by apply (ack_rep_view k1 k2). }
  apply Forall_app. split.
  - eapply Forall_impl; [exact Hps|]. intros a. apply Hg.
  - apply Forall_singleton. by apply Hrec.
Qed.

(** The cumulative acknowledgement of a segment, which comes first. *)
Lemma una_acknowledged c k s N M D P ps :
  link c N M D P k -> (forall i, P i -> 0 <= i < Z.of_nat (length N)) -> genuine c M P s -> loose_wf ps k -> una_tight k ->
  let k1 := ikcp_shrink_buf (ikcp_parse_una (k <| rmt_wnd := h_wnd (header_of s) |>) (seg_una s)) in
  loose_wf ps k1 /\ sender_ok N P k1 /\ rcv_view k1 = rcv_view k /\ ack_view k1 = ack_view k /\
  snd_queue k1 = snd_queue k /\ output k1 = true.
Proof.
  intros [_ _ Ho Hs _ _] HP (_ & _ & _ & Huna & HPuna & _) Hl Ht k1. unfold is_u32 in Huna.
  assert (seg_una s <= Z.of_nat (length N)) as Hule.
  { destruct (Z.le_gt_cases (seg_una s) (Z.of_nat (length N))); [done|].
    pose proof (HP _ (HPuna (Z.of_nat (length N)) ltac:(lia))). lia. }
  apply (set_rmt_wnd_loose ps k (h_wnd (header_of s))) in Hl; [|apply u16_range].
  subst k1. set (k0 := k <| rmt_wnd := _ |>) in *.
  destruct (parse_una_sender N P k0 (seg_una s)) as (Hs1 & Eq1 & Eo1 & Ev1 & Ea1);
    [apply Hl|done|by apply (sender_ok_view N P k)|lia|done|].
  destruct (acked_una ps k0 (seg_una s) Hl) as [Hl1 _].
  destruct (ikcp_shrink_buf_views (ikcp_parse_una k0 (seg_una s))) as (Eb1 & Eb2 & Eb3).
  split; [done|]. split; [by eapply sender_ok_view|].
  rewrite Eb2, Eb3. split; [done|]. split; [done|]. injection Eb1 as _ _ -> -> _. by rewrite Eq1, Eo1.
Qed.

(** The acknowledgement of one segment. *)
Lemma ack_acknowledged N P k ts sn a k' a' :
  snd_wf k -> ctl_wf k -> is_u32 sn -> P sn -> sender_ok N P k -> Ok (input_ack k ts sn a) = Ok (k', a') ->
  sender_ok N P k' /\ rcv_view k' = rcv_view k /\ ack_view k' = ack_view k /\
  snd_queue k' = snd_queue k /\ output k' = output k.
Proof.
  intros Hwf Hcur Hsn HPsn Hs H. unfold input_ack in H.
  set (k2 := if _ >=? 0 then _ else k) in H. injection H as Ek' _.
  assert (snd_view k2 = snd_view k /\ rcv_view k2 = rcv_view k /\ ack_view k2 = ack_view k /\ snd_wf k2)
    as (E1 & E2 & E3 & Hwf2).
  { subst k2. destruct (_ >=? 0); [|done].
    destruct (ikcp_update_ack_views k (_itimediff (current k) ts)) as (-> & -> & ->).
    split_and!; try done. by apply ikcp_update_ack_wf. }
  destruct (parse_ack_sender N P k2 sn) as (Hs3 & Eq3 & Eo3 & Ev3 & Ea3); try done.
  { by eapply sender_ok_view. }
  destruct (ikcp_shrink_buf_views (ikcp_parse_ack k2 sn)) as (F1 & F2 & F3). rewrite Ek' in *.
  injection E1 as G1 G2 G3 G4 G5. injection F1 as J1 J2 J3 J4 J5.
  split; [|by rewrite F2, F3, J3, J4, Ev3, Ea3, Eq3, Eo3].
  eapply sender_ok_view; [|exact Hs3]. unfold snd_view. congruence.
Qed.

(** A link whose receiving side has not changed. *)
Lemma link_same_rcv c k k' N M D P :
  link c N M D P k -> kcp_wf k' -> conv k' = c -> output k' = true -> sender_ok N P k' ->
  rcv_view k' = rcv_view k -> ack_view k' = ack_view k ->
  link c N M D P k' /\ grows k k' /\ ackcount k' <= ackcount k + 1.
Proof.
  intros [_ _ _ _ Hr Ha] Hk' Hcv Ho Hs Ev Eav. pose proof (grows_view k k' Ev) as Hg.
  split; [constructor; try done|split; [done|injection Eav; lia]].
  - by eapply receiver_ok_view.
  - by eapply acks_ok_grows.
Qed.

(** One genuine segment. *)
Lemma input_segment_link c k s N M D P a k' a' :
  link c N M D P k -> (forall i, P i -> 0 <= i < Z.of_nat (length N)) -> genuine c M P s ->
  ackcount k < 1073741824 ->
  input_segment k c (header_of s) (seg_bytes s) a = Ok (k', a') ->
  link c N M D P k' /\ grows k k' /\ snd_queue k' = snd_queue k /\ ackcount k' <= ackcount k + 1 /\
  (is_u32 (maxack a) -> is_u32 (maxack a')).
Proof.
  intros Hlink HP Hgen Hcnt H. pose proof Hgen as (Hw & Hfrg & Hby & Huna & _ & Hpush & Hack). pose proof Hw as (_ & _ & Hsl & Hsl2).
  pose proof Hlink as [Hk Hcv _ _ _ _]. destruct (kcp_wf_loose k Hk) as [Ht [ps Hl]].
  pose proof (ack_count _ _ (loose_acks _ _ Hl)) as Hc0.
  assert (length (seg_bytes s) = length (seg_data s)) as Hlb by (unfold seg_bytes; rewrite length_take; lia).
  assert (h_len (header_of s) = seg_len s) as El by (cbn; apply u32_small; lia).
  pose proof (input_segment_wf ps k c (header_of s) (seg_bytes s) a Hl) as Hpost. rewrite H in Hpost.
  destruct Hpost as (Hmax & Ht' & ps' & Hl' & _); try lia.
  { unfold header_wf, header_of. cbn. split_and!; apply u8_range || apply u16_range || apply u32_range. }
  { unfold seg_bytes. by apply Forall_take. }
  pose proof (loose_kcp_wf _ _ Hl' Ht') as Hk'. pose proof (input_segment_modes _ _ _ _ _ _ _ H) as [= Hcv' _ _].
  rewrite Hcv in Hcv'. clear Hl' Ht' ps'.
  pose proof (una_acknowledged c k s N M D P ps Hlink HP Hgen Hl Ht) as Hfirst. unfold input_segment in H. cbn zeta in H, Hfirst.
  replace (h_una (header_of s)) with (seg_una s) in H by (cbn; by rewrite u32_small).
  set (k1 := ikcp_shrink_buf _) in *. destruct Hfirst as (Hl1 & Hs1 & Ev & Eav & Eq & Eo). clearbody k1.
  change (h_cmd (header_of s)) with (u8 (seg_cmd s)) in H.
  destruct (Z.eqb_spec (u8 (seg_cmd s)) IKCP_CMD_ACK) as [Ecmd|Ecmd]; [|destruct (Z.eqb_spec (u8 (seg_cmd s)) IKCP_CMD_PUSH) as [Ecmd2|Ecmd2]].
  - destruct (Hack Ecmd) as [Hsn HPsn].
    replace (h_sn (header_of s)) with (seg_sn s) in H by (cbn; by rewrite u32_small).
    destruct (ack_acknowledged N P k1 _ _ a k' a' (loose_snd _ _ Hl1) (loose_ctl _ _ Hl1) Hsn HPsn Hs1 H)
      as (Hs' & Ev' & Eav' & Eq' & Eo').
    destruct (link_same_rcv c k k' N M D P) as (? & ? & ?); [done..|congruence|done|congruence|congruence|].
    split_and!; [done..|congruence|done|exact Hmax].
  - apply bind_Ok in H as (k2 & H2 & H). injection H as <- <-.
    pose proof (grows_view k k1 Ev) as Hg1. assert (receiver_ok M D k1) as Hr1 by (eapply receiver_ok_view; [exact Ev|apply Hlink]).
    assert (acks_ok k1) as (qs & Hqs & Hrq) by (eapply acks_ok_grows; [..|apply Hlink]; done).
    pose proof (ack_count _ _ Hqs) as Ecq. assert (ackcount k1 = ackcount k) as Ec by (by injection Eav).
    destruct (input_push_receiver c k1 s M D k2 qs) as (Hr2 & Ha2 & Hg2 & Ev2 & Hc2); try done;
      [apply Hl1|lia|by apply Hpush|].
    injection Ev2 as E1 E2 E3 E4 E5.
    split; [constructor; try done; [congruence|]|].
    + eapply sender_ok_view; [|exact Hs1]. unfold snd_view. congruence.
    + split; [by eapply grows_trans|]. split; [congruence|]. split; [lia|done].
  - assert (snd_view k' = snd_view k1 /\ rcv_view k' = rcv_view k1 /\ ack_view k' = ack_view k1)
      as (E1 & E2 & E3) by (destruct (_ =? IKCP_CMD_WASK); by injection H as <- <-).
    injection E1 as G1 G2 G3 G4 G5.
    destruct (link_same_rcv c k k' N M D P) as (? & ? & ?); [done..|congruence| |congruence|congruence|].
    { eapply sender_ok_view; [|exact Hs1]. unfold snd_view. congruence. }
    split_and!; [done..|congruence|done|exact Hmax].
Qed.

Lemma input_segs_link l c k N M D P a k' a' :
  link c N M D P k -> (forall i, P i -> 0 <= i < Z.of_nat (length N)) ->
  Forall (genuine c M P) l -> ackcount k + Z.of_nat (length l) < 1073741824 ->
  input_segs k c l a = Ok (k', a') ->
  link c N M D P k' /\ grows k k' /\ snd_queue k' = snd_queue k /\
  (is_u32 (maxack a) -> is_u32 (maxack a')) /\ ackcount k' <= ackcount k + Z.of_nat (length l).
Proof.
  revert k a. induction l as [|s l IH]; intros k a Hl HP Hg Hc H; cbn [input_segs] in H.
  { injection H as <- <-. split_and!; done || lia. }
  apply Forall_cons in Hg as [Hs Hg]. apply bind_Ok in H as ([k1 a1] & H1 & H). cbn [length] in Hc.
  destruct (input_segment_link c k s N M D P a k1 a1) as (Hl1 & Hg1 & Hq1 & Hc1 & Hm1); try done; [lia|].
  destruct (IH k1 a1) as (Hl2 & Hg2 & Hq2 & Hm2 & Hc2); try done; [lia|].
  split; [done|]. split; [by eapply grows_trans|]. split; [congruence|]. cbn [length]. split; [auto|lia].
Qed.

Lemma input_finish_link c k N M D P prev a k' :
  link c N M D P k -> is_u32 (maxack a) -> input_finish k prev a = Ok k' ->
  link c N M D P k' /\ grows k k' /\ snd_queue k' = snd_queue k /\ ackcount k' = ackcount k.
Proof.
  intros [Hk Hcv Ho Hs Hr Ha] Hm H. destruct (kcp_wf_loose k Hk) as [Ht [ps Hl]].
  destruct (input_finish_wf ps k prev a Hl Ht Hm) as (k2 & H2 & Hk'). rewrite H in H2.
  injection H2 as <-. unfold input_finish in H. cbn zeta in H.
  set (k1 := if negb (flag a =? 0) then _ else k) in H.
  assert (sender_ok N P k1 /\ snd_queue k1 = snd_queue k /\ output k1 = output k /\
    rcv_view k1 = rcv_view k /\ ack_view k1 = ack_view k /\ loose_wf ps k1)
    as (Hs1 & Eq1 & Eo1 & Ev1 & Ea1 & Hl1).
  { subst k1. destruct (negb _); [|done].
    destruct (parse_fastack_sender N P k (maxack a) (latest_ts a)) as (? & ? & ? & ? & ?);
      [apply Hl|done|done|]. split_and!; try done. eapply acks_wf_loose; [|done].
    apply ikcp_parse_fastack_wf; [apply Hl|done]. }
  assert (conv k1 = conv k) as Ec1.
  { subst k1. destruct (negb _); [|done]. rewrite parse_fastack_exact; [|apply Hl|done].
    by destruct (_ <? _). }
  assert (exists x y, k' = k1 <| cwnd := x |> <| incr := y |>) as (x & y & ->).
  { destruct (_ >? 0).
    - destruct Hl1 as [Hsn _ Hcl _ _]. pose proof Hcl as [Hmtu Hmss _ _ _ _ Hcw Hin _ _ _ _].
      unfold IKCP_OVERHEAD in *.
      destruct (grow_cwnd_total k1) as (x & y & E & _); [lia|done|done|apply Hsn|].
      rewrite E in H. injection H as <-. eauto.
    - injection H as <-. exists (cwnd k1), (incr k1). by destruct k1. }
  pose proof (grows_view k k1 Ev1) as Hg.
  split; [|split_and!; try done; by injection Ea1]. constructor; try done; [by rewrite <- Ec1 in Hcv|by rewrite <- Eo1 in Ho|..].
  - by eapply (sender_ok_view N P k1).
  - by eapply (receiver_ok_view M D k).
  - by eapply (acks_ok_grows k).
Qed.

Lemma datagram_length_ge c g :
  Forall (wire_ok c) g -> 24 * Z.of_nat (length g) <= Z.of_nat (length (datagram g)).
Proof.
  induction 1 as [|s g (_ & _ & Hs & _) Hg IH]; [done|].
  change (datagram (s :: g)) with (wire s ++ datagram g). rewrite length_app.
  cbn [length]. pose proof (length_wire s Hs). lia.
Qed.

(** One datagram of the peer. *)
Lemma ikcp_input_link c k g N M D P r k' :
  link c N M D P k -> (forall i, P i -> 0 <= i < Z.of_nat (length N)) ->
  g <> [] -> Forall (genuine c M P) g -> Z.of_nat (length (datagram g)) < 2147483648 ->
  24 * ackcount k + Z.of_nat (length (datagram g)) < 25769803776 ->
  ikcp_input k (Some (datagram g)) (Z.of_nat (length (datagram g))) = Ok (r, k') ->
  link c N M D P k' /\ grows k k' /\ snd_queue k' = snd_queue k /\
  24 * ackcount k' <= 24 * ackcount k + Z.of_nat (length (datagram g)).
Proof.
  intros Hl HP Hne Hg Hlen Hc H. pose proof (link_conv _ _ _ _ _ _ Hl) as Hcv.
  assert (Forall (wire_ok c) g) as Hw' by (eapply Forall_impl; [done|]; by intros s [? _]).
  assert (Forall (wire_ok (conv k)) g) as Hw by by rewrite Hcv.
  pose proof (datagram_length_ge c g Hw') as Hge.
  rewrite (ikcp_input_wire k g Hne Hw Hlen), Hcv in H.
  apply bind_Ok in H as ([k1 a1] & H1 & H). apply bind_Ok in H as (k2 & H2 & H). injection H as _ <-.
  destruct (input_segs_link g c k N M D P (mkAcked 0 0 0) k1 a1) as (Hl1 & Hg1 & Hq1 & Hm1 & Hc1); try done; [lia|].
  destruct (input_finish_link c k1 N M D P (snd_una k) a1 k2) as (Hl2 & Hg2 & Hq2 & Hc2); try done.
  { apply Hm1. cbn. unfold is_u32. lia. }
  split; [done|]. split; [by eapply grows_trans|]. split; [congruence|lia].
Qed.
End Input.

(** ** What an end puts on the wire *)

Lemma move_snd_queue_rcv_nxt q cw wnd k : rcv_nxt (move_snd_queue q cw wnd k) = rcv_nxt k.
Proof. revert k. induction q as [|s q IH]; intros k; cbn; destruct (_ <? 0); try done. by rewrite IH. Qed.

Lemma after_move_rcv_nxt k : kcp_wf k -> rcv_nxt (after_move k) = rcv_nxt k.
Proof.
  intros Hk. unfold after_move. rewrite move_snd_queue_rcv_nxt.
  by destruct (after_control_spec k Hk) as (a & b & -> & _).
Qed.

Lemma flush_update_una k resent rtomin wnd s :
  send_reason k resent s <> NotSent -> seg_una (flush_update k resent rtomin wnd s) = rcv_nxt k.
Proof. unfold flush_update. by destruct (send_reason k resent s). Qed.

Section Output.
Context (c : Z) (N M D : list (Z * list Z)) (P : Z -> Prop) (Hc : is_u32 c).

Lemma genuine_header s N' k :
  seg_conv s = c -> seg_len s = 0 -> seg_data s = [] -> seg_frg s = 0 -> seg_una s = rcv_nxt k ->
  is_u32 (rcv_nxt k) ->
  (seg_cmd s = IKCP_CMD_ACK /\ is_u32 (seg_sn s) /\ recvd k (seg_sn s)) \/
    seg_cmd s = IKCP_CMD_WASK \/ seg_cmd s = IKCP_CMD_WINS ->
  genuine c N' (recvd k) s.
Proof.
  intros Ec El Ed Ef Eu Hu Hcmd. unfold genuine, wire_ok. rewrite Ec, El, Ed, Ef, Eu.
  split_and!; try done.
  - by apply u32_small.
  - destruct Hcmd as [[-> _]|[->| ->]]; done.
  - intros i Hi. by left.
  - destruct Hcmd as [[-> _]|[->| ->]]; done.
  - destruct Hcmd as [(-> & ? & ?)|[->| ->]]; done.
Qed.

Lemma control_segs_genuine k ps N' :
  link c N M D P k -> ack_rep k ps ->
  Forall (genuine c N' (recvd k)) (control_segs k ps).
Proof.
  intros [Hk Hcv _ _ Hr (qs & Hq & Hrq)] Ha. pose proof (wf_rcv_nxt _ Hk) as Hn.
  pose proof (ack_rep_inj _ _ _ Ha Hq) as <-.
  pose proof (ack_range _ _ Ha) as Hrange.
  assert (forall a s, s = flush_seg0 k \/ s = ack_seg (flush_seg0 k) a ->
    seg_conv s = c /\ seg_len s = 0 /\ seg_data s = [] /\ seg_frg s = 0 /\ seg_una s = rcv_nxt k) as Hseg.
  { by intros a s [-> | ->]. }
  unfold control_segs. apply Forall_app. split; [|apply Forall_app; split].
  - apply Forall_fmap, Forall_forall. intros [sn ts] Hin.
    rewrite Forall_forall in Hrange, Hrq. specialize (Hrange _ Hin). specialize (Hrq _ Hin).
    destruct (Hseg (sn, ts) (ack_seg (flush_seg0 k) (sn, ts))) as (? & ? & ? & ? & ?); [by right|].
    apply genuine_header; try done. left. cbn in Hrange, Hrq. by destruct Hrange.
  - destruct (negb _); [|done]. apply Forall_singleton. destruct (last ps) as [a|].
    + apply genuine_header; try done. auto.
    + apply genuine_header; try done. auto.
  - destruct (negb _); [|done]. apply Forall_singleton. destruct (last ps) as [a|].
    + apply genuine_header; try done. auto.
    + apply genuine_header; try done. auto.
Qed.

(** A flush seen from the link: the segments [l] leave snd_queue and are numbered. *)
Section Flushed.
Context (k : ikcpcb) (ps : list (Z * Z)) (k' : ikcpcb) (out : list (list Z)) (l : list IKCPSEG).
Context (Hl : link c N M D P k) (Hf : flushed k ps k' out).
Context (Hguard : snd_nxt k + qlen l < 2147483648).
Context (Hmoved : snd_buf (after_move k) = snd_buf k ++
  imap (fun i s => fresh_seg (after_control k <| snd_nxt := u32 (snd_nxt k + Z.of_nat i) |>) (flush_wnd k) s) l).
Context (Hsent : snd_buf k' = flush_update (after_move k) (flush_resent k) (flush_rtomin k) (flush_wnd k) <$>
  snd_buf (after_move k)).
Context (Hnumbered : snd_nxt k' = u32 (snd_nxt k + qlen l)).

(** In snd_buf a segment has the number of its payload. *)
Definition numbered (s : IKCPSEG) : Prop :=
  at_sn (N ++ (payload <$> l)) (seg_sn s) (payload s) /\ seg_cmd s = IKCP_CMD_PUSH /\ u32 (seg_conv s) = c.

Lemma flushed_rcv_view : rcv_view k' = rcv_view k.
Proof. destruct (flushed_rcv _ _ _ _ Hf) as (? & ? & ? & ? & _). unfold rcv_view. congruence. Qed.

Lemma moved_numbered s : s ∈ snd_buf (after_move k) -> numbered s.
Proof.
  destruct Hl as [Hk Hcv _ [[Hn Hn2] Hb _] _ _]. destruct (after_control_spec k Hk) as (x & y & Eac & _).
  rewrite Hmoved. intros [Hs|Hs]%elem_of_app.
  - destruct (Hb s Hs) as (Hat & ? & Hcs). rewrite Hcv in Hcs. split_and!; [by apply at_sn_app|done|done].
  - apply list_elem_of_lookup_1 in Hs as [i Hi]. rewrite list_lookup_imap in Hi.
    destruct (l !! i) as [t|] eqn:Et; [|done]. injection Hi as <-.
    pose proof (lookup_lt_Some _ _ _ Et) as Hlt.
    assert (u32 (snd_nxt k + Z.of_nat i) = Z.of_nat (length N + i)) as E
      by (rewrite u32_small; unfold qlen in *; lia).
    rewrite Eac. cbn. unfold numbered. cbn. rewrite Hcv, E. split_and!; [|done|by apply u32_small].
    split; [lia|]. rewrite Nat2Z.id, lookup_app_r, Nat.add_comm, Nat.add_sub by lia.
    rewrite list_lookup_fmap, Et. done.
Qed.

Lemma sent_numbered s : s ∈ snd_buf k' -> numbered s.
Proof.
  rewrite Hsent. intros (s0 & -> & Hs)%list_elem_of_fmap. apply moved_numbered in Hs. unfold numbered, flush_update in *.
  destruct (resend_segment_same (after_move k) (flush_rtomin k) (flush_wnd k)
    (send_reason (after_move k) (flush_resent k) s0) s0) as (E1 & E2 & E3 & E4 & E5 & E6).
  unfold payload in *. by rewrite E1, E2, E4, E5, E6.
Qed.

(** A flush forgets no segment. *)
Lemma sent_keeps s : s ∈ snd_buf (after_move k) -> exists s', s' ∈ snd_buf k' /\ seg_sn s' = seg_sn s.
Proof.
  intros Hs. rewrite Hsent. eexists. split; [by apply list_elem_of_fmap_2|].
  unfold flush_update. by destruct (resend_segment_same (after_move k) (flush_rtomin k) (flush_wnd k)
    (send_reason (after_move k) (flush_resent k) s) s) as [-> _].
Qed.

Lemma flushed_sender : sender_ok (N ++ (payload <$> l)) P k'.
Proof.
  destruct Hl as [Hk Hcv _ [[Hn Hn2] _ Hkeep] _ _]. destruct (flushed_rcv _ _ _ _ Hf) as (_ & _ & _ & _ & Ecv & _).
  constructor.
  - rewrite length_app, length_fmap, Hnumbered, Hn. unfold qlen in *. rewrite u32_small by lia. lia.
  - rewrite Ecv, Hcv. apply sent_numbered.
  - intros i Hi. rewrite length_app, length_fmap in Hi. destruct (Z.lt_ge_cases i (Z.of_nat (length N))).
    + destruct (Hkeep i ltac:(lia)) as [?|(s & Hs & <-)]; [by left|]. right. apply sent_keeps.
      rewrite Hmoved. apply elem_of_app. by left.
    + right. set (j := (Z.to_nat i - length N)%nat).
      destruct (l !! j) as [t|] eqn:Et; [|apply lookup_ge_None in Et; lia].
      edestruct sent_keeps as (s' & Hs' & Es').
      { rewrite Hmoved. apply elem_of_app. right. apply (list_elem_of_lookup_2 _ j). by rewrite list_lookup_imap, Et. }
      exists s'. split; [done|]. rewrite Es'. cbn. rewrite u32_small; unfold qlen in *; lia.
Qed.

Lemma data_segs_genuine : Forall (genuine c (N ++ (payload <$> l)) (recvd k')) (data_segs k).
Proof.
  pose proof (flushed_wf _ _ _ _ Hf) as Hk'. destruct Hl as [Hk _ _ _ _ _].
  destruct (flushed_rcv _ _ _ _ Hf) as (_ & Enxt & _).
  unfold data_segs. apply Forall_forall. intros s' (s & -> & Hs)%list_elem_of_fmap. unfold outgoing in Hs.
  apply list_elem_of_filter in Hs as [Hrs Hs].
  pose proof (flush_update_una (after_move k) _ (flush_rtomin k) (flush_wnd k) s Hrs) as Eun.
  rewrite after_move_rcv_nxt in Eun by done.
  assert (flush_update (after_move k) (flush_resent k) (flush_rtomin k) (flush_wnd k) s ∈ snd_buf k') as Hin
    by (rewrite Hsent; by apply list_elem_of_fmap_2).
  destruct (sent_numbered _ Hin) as (Hat & Ecmd & Econv).
  pose proof (wf_snd_segs _ Hk') as Hsegs. rewrite Forall_forall in Hsegs.
  destruct (Hsegs _ Hin) as (_ & Hfr & Hln & Hle & Hby). pose proof (wf_mss _ Hk') as Hmss.
  pose proof (wf_mtu _ Hk') as Hm. unfold IKCP_OVERHEAD in *. unfold genuine, wire_ok. rewrite Eun, Ecmd. split_and!; try done; [lia|apply Hk|].
  intros i Hi. left. by rewrite Enxt.
Qed.

Lemma flushed_genuine :
  ack_rep k ps -> Forall (genuine c (N ++ (payload <$> l)) (recvd k')) (control_segs k ps ++ data_segs k).
Proof.
  intros Ha. apply Forall_app. split; [|apply data_segs_genuine].
  eapply Forall_impl; [by apply (control_segs_genuine k ps (N ++ (payload <$> l)))|].
  intros s (H1 & H2 & H3 & H4 & H5 & H6 & H7). unfold genuine. pose proof flushed_rcv_view as Ev. split_and!; try done.
  - intros i Hi. apply (recvd_view k k' _ Ev). auto.
  - intros E. destruct (H7 E). split; [done|]. by apply (recvd_view k k' _ Ev).
Qed.

(** The datagrams are cut between those segments. *)
Lemma flushed_datagrams (Q : IKCPSEG -> Prop) :
  Forall Q (control_segs k ps ++ data_segs k) ->
  Forall (fun d => exists g, d = datagram g /\ g <> [] /\ Z.of_nat (length d) < 2147483648 /\ Forall Q g) out.
Proof.
  intros Hgen. destruct (flushed_out _ _ _ _ Hf) as (gs & Hout & Hgs). pose proof (flushed_mtu _ _ _ _ Hf) as Hmtu.
  destruct Hl as [Hk _ _ _ _ _]. pose proof (wf_mtu _ Hk) as Hm.
  rewrite <- Hgs in Hgen. rewrite Hout, Forall_fmap, Forall_forall in Hmtu. rewrite Hout.
  apply Forall_fmap, Forall_forall. intros g Hg. specialize (Hmtu g Hg). unfold compose in *.
  exists g. split; [done|]. split; [intros ->; cbn in Hmtu; lia|]. split; [lia|].
  rewrite Forall_forall in Hgen. apply Forall_forall. intros s Hs. apply Hgen. apply list_elem_of_join. by exists g.
Qed.
End Flushed.

(** After a flush the numbered stream is longer by the segments that left snd_queue. *)
Lemma flushed_link k ps k' out :
  link c N M D P k -> ack_rep k ps -> snd_nxt k + qlen (snd_queue k) < 2147483648 ->
  flushed k ps k' out ->
  exists l, snd_queue k = l ++ snd_queue k' /\
    link c (N ++ (payload <$> l)) M D P k' /\ rcv_view k' = rcv_view k /\
    Forall (genuine c (N ++ (payload <$> l)) (recvd k')) (control_segs k ps ++ data_segs k) /\
    Forall (fun d => exists g, d = datagram g /\ g <> [] /\
      Z.of_nat (length d) < 2147483648 /\
      Forall (genuine c (N ++ (payload <$> l)) (recvd k')) g) out.
Proof.
  intros Hl Ha Hguard Hf. destruct (flushed_queue _ _ _ _ Hf) as (l & Hq & Hb2 & Hb' & Hnxt').
  assert (snd_nxt k + qlen l < 2147483648) as Hg
    by (rewrite Hq, qlen_app in Hguard; pose proof (qlen_nonneg (snd_queue k')); lia).
  pose proof (flushed_genuine k ps k' out l Hl Hf Hg Hb2 Hb' Ha) as Hgen.
  pose proof (flushed_rcv_view k ps k' out Hf) as Ev.
  exists l. split; [done|]. split; [|split; [done|split; [done|by eapply flushed_datagrams]]].
  pose proof Hl as [_ Hcv Ho _ Hr _]. pose proof (flushed_wf _ _ _ _ Hf) as Hk'.
  destruct (flushed_rcv _ _ _ _ Hf) as (_ & _ & _ & _ & Ecv & Eo & _). constructor; try done; [congruence|congruence|..].
  - by eapply flushed_sender.
  - by eapply receiver_ok_view.
  - destruct (kcp_wf_acks _ Hk') as [qs Hqs]. exists qs. split; [done|].
    pose proof (ack_count _ _ Hqs) as E. rewrite (flushed_acks _ _ _ _ Hf) in E. by destruct qs.
Qed.
End Output.

(** ** The system *)

(** The two ends, every datagram each of them has handed to the network, the bytes each
    application had accepted by ikcp_send and the bytes it got from ikcp_recv. *)
Record sys := mkSys {
  ep : bool -> ikcpcb;
  net : bool -> list (list Z);
  acc : bool -> list Z;
  got : bool -> list Z }.

(** End [e] moves to [k], hands over [out], and its application is [a] bytes further in what
    it sends and [g] bytes in what it receives. *)
Definition set_end (s : sys) (e : bool) (k : ikcpcb) (out : list (list Z)) (a g : list Z) : sys :=
  mkSys (<[e := k]> (ep s)) (<[e := net s e ++ out]> (net s))
        (<[e := acc s e ++ a]> (acc s)) (<[e := got s e ++ g]> (got s)).

Section System.
Context `{env : Env} `{host : Host}.

(** Any datagram the peer ever sent may arrive, any number of times, in any order.  The
    bounds are those of a connection used for fewer than 2^31 segments whose ack list
    stays below 2^30. *)
Inductive step (s : sys) : sys -> Prop :=
  | step_send e b r k' :
      Forall is_byte b -> Z.of_nat (length b) < 2147483648 ->
      ikcp_send (ep s e) (Some b) (Z.of_nat (length b)) = Ok (r, k') ->
      step s (set_end s e k' []
        (if r =? 0 then b
         else drop (length (queue_bytes (snd_queue (ep s e)))) (queue_bytes (snd_queue k'))) [])
  | step_recv e len r out k' :
      is_i32 len -> ikcp_recv (ep s e) true len = Ok (r, out, k') ->
      step s (set_end s e k' [] [] (if len <? 0 then [] else out))
  | step_input e d r k' :
      d ∈ net s (negb e) ->
      24 * ackcount (ep s e) + Z.of_nat (length d) < 25769803776 ->
      ikcp_input (ep s e) (Some d) (Z.of_nat (length d)) = Ok (r, k') ->
      step s (set_end s e k' [] [] [])
  | step_update e now k' out :
      is_u32 now -> ackcount (ep s e) < 2147483648 ->
      snd_nxt (ep s e) + qlen (snd_queue (ep s e)) < 2147483648 ->
      ikcp_update (ep s e) now = Ok (k', out) ->
      step s (set_end s e k' out [] [])
  | step_flush e k' out :
      ackcount (ep s e) < 2147483648 ->
      snd_nxt (ep s e) + qlen (snd_queue (ep s e)) < 2147483648 ->
      ikcp_flush (ep s e) = Ok (k', out) ->
      step s (set_end s e k' out [] [])
  | step_settings e a b c d :
      is_i32 a -> is_i32 b -> is_i32 c -> is_i32 d ->
      step s (set_end s e (snd (ikcp_nodelay (snd (ikcp_wndsize (ep s e) a b)) a b c d)) [] [] []).

(** Two connections as ikcp_create and ikcp_setoutput leave them, with the same [conv]. *)
Definition initial (c : Z) (s : sys) : Prop :=
  is_u32 c /\ forall e, net s e = [] /\ acc s e = [] /\ got s e = [] /\
    kcp_wf (ep s e) /\ ack_rep (ep s e) [] /\ conv (ep s e) = c /\ output (ep s e) = true /\
    snd_nxt (ep s e) = 0 /\ rcv_nxt (ep s e) = 0 /\ snd_queue (ep s e) = [] /\
    snd_buf (ep s e) = [] /\ rcv_queue (ep s e) = [] /\ rcv_buf (ep s e) = [].

Record end_inv (c : Z) (N M D : list (Z * list Z)) (k peer : ikcpcb)
    (sent_by : list (list Z)) (a g : list Z) : Prop := {
  ei_link : link c N M D (recvd peer) k;
  ei_acc : a = bytes_of N ++ queue_bytes (snd_queue k);
  ei_got : g = bytes_of D;
  ei_net : Forall (fun d => exists g, d = datagram g /\ g <> [] /\
    Z.of_nat (length d) < 2147483648 /\ Forall (genuine c N (recvd k)) g) sent_by }.

(** [N] and [D] are what each end has numbered and what its application took. *)
Definition at_inv (c : Z) (N D : bool -> list (Z * list Z)) (s : sys) : Prop :=
  forall e, end_inv c (N e) (N (negb e)) (D e) (ep s e) (ep s (negb e)) (net s e) (acc s e) (got s e).

Definition sys_inv (c : Z) (s : sys) : Prop := exists N D, at_inv c N D s.

Lemma receiver_ok_more M M' D k :
  receiver_ok M D k -> is_u32 (rcv_nxt k) -> Z.of_nat (length (M ++ M')) < 2147483648 ->
  receiver_ok (M ++ M') D k.
Proof.
  intros [Hn Hq Hb] Hu Hl. unfold is_u32 in Hu. rewrite length_app in *. constructor.
  - rewrite length_app. lia.
  - rewrite Hq, take_app_le by lia. done.
  - intros s Hs. by apply at_sn_app, Hb.
Qed.

Lemma genuine_more c N N' k k' g :
  grows k k' -> Forall (genuine c N (recvd k)) g -> Forall (genuine c (N ++ N') (recvd k')) g.
Proof.
  intros [_ Hg] Hf. eapply Forall_impl; [done|].
  intros s (H1 & H2 & H3 & H4 & H5 & H6 & H7). unfold genuine. split_and!; auto.
  - intros ?. by apply at_sn_app, H6.
  - intros E. destruct (H7 E). auto.
Qed.

(** What an operation of one end must keep for the whole system to stay in order. *)
Lemma sys_inv_step c s N D e k' N' D' out a g :
  at_inv c N D s ->
  link c (N e ++ N') (N (negb e)) D' (recvd (ep s (negb e))) k' -> grows (ep s e) k' ->
  acc s e ++ a = bytes_of (N e ++ N') ++ queue_bytes (snd_queue k') ->
  got s e ++ g = bytes_of D' ->
  Forall (fun d => exists g, d = datagram g /\ g <> [] /\ Z.of_nat (length d) < 2147483648 /\
    Forall (genuine c (N e ++ N') (recvd k')) g) out ->
  at_inv c (<[e := N e ++ N']> N) (<[e := D']> D) (set_end s e k' out a g).
Proof.
  intros Hinv Hl Hg Ha Hgot Hout e'. unfold set_end. cbn.
  destruct (decide (e' = e)) as [->|Hne].
  - assert (negb e <> e) as Hne by by destruct e.
    rewrite !fn_lookup_insert, !fn_lookup_insert_ne by done. constructor; try done.
    apply Forall_app. split; [|done]. eapply Forall_impl; [apply (ei_net _ _ _ _ _ _ _ _ _ (Hinv e))|].
    intros d (gr & -> & ? & ? & ?). exists gr. split_and!; try done. by eapply genuine_more.
  - assert (e = negb e') as -> by (by destruct e, e').
    rewrite !fn_lookup_insert, !fn_lookup_insert_ne by done.
    destruct (Hinv e') as [[Hk Hcv Ho Hs Hr Hak] ? ? ?]. constructor; try done.
    constructor; try done.
    + eapply sender_ok_mono; [done|]. apply Hg.
    + apply receiver_ok_more; [done|apply Hk|]. apply (so_nxt _ _ _ (link_snd _ _ _ _ _ _ Hl)).
Qed.

Lemma at_inv_ext c N D N' D' s :
  at_inv c N D s -> (forall e, N' e = N e) -> (forall e, D' e = D e) -> at_inv c N' D' s.
Proof. intros H EN ED e. rewrite !EN, ED. apply H. Qed.

Lemma insert_same {A} (f : bool -> A) e e' : <[e := f e]> f e' = f e'.
Proof. destruct (decide (e' = e)) as [->|]; [by rewrite fn_lookup_insert|by rewrite fn_lookup_insert_ne]. Qed.

(** An operation that numbers nothing and hands nothing to the application. *)
Lemma sys_inv_stay c s N D e k' out a g :
  at_inv c (<[e := N e ++ []]> N) (<[e := D e]> D) (set_end s e k' out a g) ->
  at_inv c N D (set_end s e k' out a g).
Proof.
  intros H. eapply at_inv_ext; [exact H|..]; intros e'; rewrite ?app_nil_r; by rewrite insert_same.
Qed.

Lemma recvd_numbered c N M D k peer a b g i :
  end_inv c N M D peer k a b g -> recvd peer i -> 0 <= i < Z.of_nat (length M).
Proof.
  intros [[Hk _ _ _ [Hn _ Hb] _] _ _ _] [Hi|(s & Hs & <-)]; [lia|]. by eapply at_sn_lt, Hb.
Qed.

Lemma initial_inv c s : initial c s -> sys_inv c s.
Proof.
  intros [Hc Hs]. exists (fun _ => []), (fun _ => []). intros e.
  destruct (Hs e) as (E1 & E2 & E3 & Hk & Ha & Hcv & Ho & Hn & Hr & Q1 & Q2 & Q3 & Q4).
  rewrite E1, E2, E3. constructor; [|by rewrite Q1|done|done].
  constructor; try done.
  - constructor; [cbn; lia|rewrite Q2; intros s' Hin; by apply not_elem_of_nil in Hin|cbn; lia].
  - constructor; [cbn; lia|by rewrite Q3, Hr|rewrite Q4; intros s' Hin; by apply not_elem_of_nil in Hin].
  - by exists [].
Qed.

Lemma link_frame c N M D P k k' :
  link c N M D P k -> kcp_wf k' ->
  (snd_nxt k', conv k', output k', snd_buf k') = (snd_nxt k, conv k, output k, snd_buf k) ->
  rcv_view k' = rcv_view k -> ack_view k' = ack_view k ->
  link c N M D P k' /\ grows k k'.
Proof.
  intros [Hk Hcv Ho [? Hb ?] Hr Ha] Hk' [= E1 E2 E3 E4] Ev Ea. pose proof (grows_view k k' Ev).
  split; [|done]. constructor; try congruence.
  - constructor; rewrite ?E1, ?E2, ?E4; done.
  - by eapply receiver_ok_view.
  - by eapply acks_ok_grows.
Qed.

Lemma send_step_inv c N D s e b r k' :
  at_inv c N D s -> Forall is_byte b -> Z.of_nat (length b) < 2147483648 ->
  ikcp_send (ep s e) (Some b) (Z.of_nat (length b)) = Ok (r, k') ->
  at_inv c N D (set_end s e k' []
    (if r =? 0 then b
     else drop (length (queue_bytes (snd_queue (ep s e)))) (queue_bytes (snd_queue k'))) []).
Proof.
  intros Hinv Hby Hlen H. destruct (Hinv e) as [Hl Ha Hg Hnet].
  pose proof (link_kcp _ _ _ _ _ _ Hl) as Hk.
  destruct (ikcp_send_took _ _ _ _ Hk Hby Hlen H) as [Hsame (n & Hn & Hq & Hr)].
  pose proof (ikcp_send_wf (ep s e) (Some b) (Z.of_nat (length b)) Hk ltac:(by split)
    ltac:(unfold is_i32; lia)) as Hwf. rewrite H in Hwf. destruct Hwf as [Hk' _].
  destruct (link_frame c (N e) _ _ _ _ k' Hl Hk') as [Hl' Hgr]; try by rewrite Hsame.
  apply sys_inv_stay, sys_inv_step; rewrite ?app_nil_r; try done.
  rewrite Ha, Hq, <- app_assoc. do 2 f_equal. destruct (Z.eqb_spec r 0) as [->|_].
  - rewrite take_ge; [done|]. rewrite Hr; done.
  - by rewrite drop_app_length.
Qed.

Lemma msg_bytes_payload l : Forall (seg_wf 2147483647) l -> msg_bytes l = bytes_of (payload <$> l).
Proof.
  intros Hl. unfold msg_bytes. rewrite bytes_of_payload. unfold queue_bytes. f_equal.
  apply list_fmap_ext. intros i s Hi. apply (Forall_lookup_1 _ _ _ _ Hl) in Hi as (_ & _ & E & _).
  unfold seg_bytes. apply take_ge. lia.
Qed.

(** The application took the first message of the queue, or nothing. *)
Definition took_message (k : ikcpcb) (len r : Z) (out : list Z) (l : list (Z * list Z)) : Prop :=
  if (r <? 0) || (len <? 0) then l = []
  else exists m rest, recv_ready k = true /\ first_message (rcv_queue k) = (m, rest) /\
    l = payload <$> m /\ out = bytes_of l.

Lemma recv_step_inv c N D s e len r out k' :
  at_inv c N D s -> is_i32 len -> ikcp_recv (ep s e) true len = Ok (r, out, k') ->
  exists l, took_message (ep s e) len r out l /\ snd_queue k' = snd_queue (ep s e) /\
    modes k' = modes (ep s e) /\
    at_inv c N (<[e := D e ++ l]> D) (set_end s e k' [] [] (if len <? 0 then [] else out)).
Proof.
  intros Hinv Hlen H. destruct (Hinv e) as [Hl Ha Hg Hnet].
  pose proof Hl as [Hk Hcv Ho Hs Hr Hak].
  destruct (ikcp_recv_wf (ep s e) true len Hk Hlen) as (x & Hx & Hk'). rewrite H in Hx.
  injection Hx as <-. destruct (ikcp_recv_exact (ep s e) true len (kcp_wf_rcv _ Hk) Hlen) as (x & Hx & Hres).
  rewrite H in Hx. injection Hx as <-.
  assert (at_inv c N (<[e := D e ++ []]> D) (set_end s e (ep s e) [] [] [])) as Hid.
  { eapply at_inv_ext; [apply (sys_inv_step c s N D e _ [] (D e))|intros e'; by rewrite app_nil_r, insert_same|];
      rewrite ?app_nil_r; done. }
  inversion Hres as [|m rest _ _ _|m rest _ _ _|m rest d k1 Hrd Hm Hal Hd]; subst;
    [exists []; split_and!; try done; by destruct (len <? 0)..|].
  set (k2 := if _ && _ then _ else k1) in *.
  assert (modes k2 = modes (ep s e)) as Estr.
  { transitivity (modes k1); [subst k2; by destruct (_ && _)|]. rewrite (moved_same _ _ _ Hd).
    by destruct (len <? 0). }
  assert (snd_view k2 = snd_view k1 /\ rcv_view k2 = rcv_view k1 /\ ack_view k2 = ack_view k1)
    as (Es2 & Er2 & Ea2) by (subst k2; by destruct (_ && _)). clearbody k2.
  pose proof (first_message_app _ _ _ Hm) as Eq.
  assert (Forall (seg_wf 2147483647) m) as Hwm.
  { pose proof (wf_rcv_queue _ Hk) as Hwq. rewrite Eq in Hwq. by apply Forall_app in Hwq as [? _]. }
  set (k0 := if len <? 0 then ep s e else popped (ep s e) m rest) in Hd.
  set (D' := if len <? 0 then D e else D e ++ (payload <$> m)).
  assert (rcv_wf k0 /\ receiver_ok (N (negb e)) D' k0 /\ snd_view k0 = snd_view (ep s e) /\
    ack_view k0 = ack_view (ep s e) /\ grows (ep s e) k0) as (Hw0 & Hr0 & Es0 & Ea0 & Hg0).
  { subst k0 D'. destruct (len <? 0); [split_and!; try done; apply Hk|].
    split_and!; try done; [by apply popped_wf; [apply Hk|]|]. destruct Hr as [Hn Hq Hb].
    constructor; try done. cbn. rewrite <- app_assoc, <- fmap_app, <- Eq. exact Hq. }
  destruct (moved_receiver (N (negb e)) D' k0 k1 d Hw0 Hd Hr0) as [Hr1 Hg1].
  assert (snd_view k1 = snd_view k0 /\ ack_view k1 = ack_view k0) as [Es1 Ea1]
    by (rewrite (moved_same _ _ _ Hd); done).
  assert (snd_view k2 = snd_view (ep s e)) as Es by congruence.
  assert (grows (ep s e) k2) as Hgr.
  { eapply grows_trans; [done|]. eapply grows_trans; [done|]. by apply grows_view. }
  injection Es as S1 S2 S3 S4 S5.
  exists (if len <? 0 then [] else payload <$> m). split_and!; [|done|done|].
  { unfold took_message. destruct (Z.ltb_spec (add_lens 0 m) 0); [lia|]. cbn [orb].
    destruct (len <? 0); [done|]. exists m, rest. split_and!; try done. by apply msg_bytes_payload. }
  assert (D' = D e ++ (if len <? 0 then [] else payload <$> m)) as ED.
  { subst D'. destruct (len <? 0); [by rewrite app_nil_r|done]. }
  eapply at_inv_ext; [apply (sys_inv_step _ s N D e k2 [] D')|intros e'; by rewrite app_nil_r, insert_same|];
    rewrite ?app_nil_r; try done.
  - constructor; try done; [congruence| | |].
    + eapply sender_ok_view; [|exact Hs]. unfold snd_view. congruence.
    + by eapply (receiver_ok_view _ _ k1).
    + eapply acks_ok_grows; [|exact Hgr|done]. congruence.
  - by rewrite Ha, S4.
  - rewrite ED. destruct (len <? 0); [by rewrite !app_nil_r|]. rewrite bytes_of_app, Hg. f_equal.
    by apply msg_bytes_payload.
  - intros e'. by rewrite ED.
Qed.

Lemma input_step_inv c N D s e d r k' :
  at_inv c N D s -> d ∈ net s (negb e) ->
  24 * ackcount (ep s e) + Z.of_nat (length d) < 25769803776 ->
  ikcp_input (ep s e) (Some d) (Z.of_nat (length d)) = Ok (r, k') ->
  at_inv c N D (set_end s e k' [] [] []) /\ snd_queue k' = snd_queue (ep s e) /\
  24 * ackcount k' <= 24 * ackcount (ep s e) + Z.of_nat (length d).
Proof.
  intros Hinv Hd Hcnt H. destruct (Hinv e) as [Hl Ha Hg Hnet].
  pose proof (Hinv (negb e)) as Hpeer. rewrite negb_involutive in Hpeer.
  pose proof (ei_net _ _ _ _ _ _ _ _ _ Hpeer) as Hin. rewrite Forall_forall in Hin.
  destruct (Hin d Hd) as (g & -> & Hne & Hlen & Hgen).
  destruct (ikcp_input_link c (ep s e) g (N e) (N (negb e)) (D e) (recvd (ep s (negb e))) r k')
    as (Hl' & Hgr & Hq & Hac); try done.
  { intros i. by eapply (recvd_numbered _ _ _ _ _ _ _ _ _ _ Hpeer). }
  split; [|done]. apply sys_inv_stay, sys_inv_step; rewrite ?app_nil_r; try done. by rewrite Ha, Hq.
Qed.

(** A flush of [k1], which holds what the end holds but for its clock. *)
Lemma flushed_step_inv c N D s e k1 ps k' out :
  is_u32 c -> at_inv c N D s ->
  link c (N e) (N (negb e)) (D e) (recvd (ep s (negb e))) k1 -> grows (ep s e) k1 ->
  snd_queue k1 = snd_queue (ep s e) -> modes k1 = modes (ep s e) ->
  snd_nxt k1 + qlen (snd_queue k1) < 2147483648 -> ack_rep k1 ps -> flushed k1 ps k' out ->
  exists l, snd_queue (ep s e) = l ++ snd_queue k' /\ modes k' = modes (ep s e) /\
    at_inv c (<[e := N e ++ (payload <$> l)]> N) D (set_end s e k' out [] []) /\
    Forall (genuine c (N e ++ (payload <$> l)) (recvd k')) (control_segs k1 ps ++ data_segs k1).
Proof.
  intros Hc Hinv Hl1 Hg1 Eq Em Hguard Ha1 Hf. destruct (Hinv e) as [Hl Ha Hg Hnet].
  destruct (flushed_link c (N e) _ _ _ Hc k1 ps k' out Hl1 Ha1)
    as (l & Hq & Hl' & Ev & Hgen & Hout); [done..|].
  exists l. split; [congruence|]. split.
  { rewrite <- Em. destruct (flushed_rcv _ _ _ _ Hf) as (_ & _ & _ & _ & E1 & _ & E4 & E2 & E3). unfold modes.
    by rewrite E1, E2, E3, E4. }
  split; [|exact Hgen].
  eapply at_inv_ext; [apply (sys_inv_step c s N D e k' (payload <$> l) (D e))|done|];
    rewrite ?app_nil_r; try done.
  - eapply grows_trans; [done|by apply grows_view].
  - rewrite Ha, <- Eq, Hq, queue_bytes_app, bytes_of_app, bytes_of_payload. by rewrite app_assoc.
  - intros e'. by rewrite insert_same.
Qed.

(** Nothing is sent and only the clock of the end moves. *)
Lemma clock_step_inv c N D s e k1 :
  at_inv c N D s ->
  link c (N e) (N (negb e)) (D e) (recvd (ep s (negb e))) k1 -> grows (ep s e) k1 ->
  snd_queue k1 = snd_queue (ep s e) -> modes k1 = modes (ep s e) ->
  exists l, snd_queue (ep s e) = l ++ snd_queue k1 /\ modes k1 = modes (ep s e) /\
    at_inv c (<[e := N e ++ (payload <$> l)]> N) D (set_end s e k1 [] [] []).
Proof.
  intros Hinv Hl1 Hg1 Eq Em. destruct (Hinv e) as [Hl Ha Hg Hnet]. exists []. split; [done|]. split; [done|].
  eapply at_inv_ext; [apply (sys_inv_step c s N D e k1 [] (D e))|done|]; rewrite ?app_nil_r; try done.
  - by rewrite Eq.
  - intros e'. by rewrite insert_same.
Qed.

Lemma update_step_inv c N D s e now k' out :
  is_u32 c -> at_inv c N D s -> is_u32 now -> ackcount (ep s e) < 2147483648 ->
  snd_nxt (ep s e) + qlen (snd_queue (ep s e)) < 2147483648 ->
  ikcp_update (ep s e) now = Ok (k', out) ->
  exists l, snd_queue (ep s e) = l ++ snd_queue k' /\ modes k' = modes (ep s e) /\
    at_inv c (<[e := N e ++ (payload <$> l)]> N) D (set_end s e k' out [] []).
Proof.
  intros Hc Hinv Hnow Hcnt Hguard H. destruct (Hinv e) as [Hl Ha Hg Hnet].
  pose proof Hl as [Hk Hcv Ho Hs Hr (ps & Hps & Hrps)]. pose proof (ack_count _ _ Hps) as Ecnt.
  destruct (ikcp_update_wf (ep s e) now ps Hk Hps ltac:(lia) Ho Hnow) as (x & Hx & Hpost).
  rewrite H in Hx. injection Hx as <-. destruct Hpost as (Hk' & _ & Hpost).
  destruct (update_clock_wf (ep s e) now ps Hk Hps Hnow) as (Hk1 & Ha1 & _).
  pose proof (update_clock_spec (ep s e) now Hk Hnow) as Hspec.
  destruct (update_clock (ep s e) now) as [k1 fl]. cbn [fst snd] in *.
  destruct Hspec as [(u & t & Ek1 & _) _].
  destruct (link_frame c (N e) _ _ _ _ k1 Hl Hk1) as [Hl1 Hg1]; try by rewrite Ek1.
  assert (snd_queue k1 = snd_queue (ep s e) /\ snd_nxt k1 = snd_nxt (ep s e) /\ modes k1 = modes (ep s e))
    as (Eq & En & Em) by by rewrite Ek1.
  destruct fl.
  - destruct Hpost as (k2 & -> & Hf).
    destruct (flushed_step_inv c N D s e k1 ps k' out) as (l & ? & ? & ? & _); try done; [by rewrite Eq, En|].
    by exists l.
  - destruct Hpost as [-> ->]. by apply clock_step_inv.
Qed.

Lemma flush_step_inv c N D s e k' out :
  is_u32 c -> at_inv c N D s -> ackcount (ep s e) < 2147483648 ->
  snd_nxt (ep s e) + qlen (snd_queue (ep s e)) < 2147483648 ->
  ikcp_flush (ep s e) = Ok (k', out) ->
  exists l, snd_queue (ep s e) = l ++ snd_queue k' /\ modes k' = modes (ep s e) /\
    at_inv c (<[e := N e ++ (payload <$> l)]> N) D (set_end s e k' out [] []).
Proof.
  intros Hc Hinv Hcnt Hguard H. destruct (Hinv e) as [Hl _ _ _].
  pose proof Hl as [Hk _ Ho _ _ (ps & Hps & _)]. pose proof (ack_count _ _ Hps) as Ecnt.
  assert (grows (ep s e) (ep s e)) as Hg by by apply grows_view.
  destruct (decide (updated (ep s e) = 0)) as [Hu|Hu].
  - unfold ikcp_flush in H. rewrite Hu in H. injection H as <- <-. by apply clock_step_inv.
  - destruct (ikcp_flush_spec (ep s e) ps Hk Hps ltac:(lia) Ho Hu) as ([k2 out2] & Hx & Hf).
    rewrite H in Hx. injection Hx as <- <-.
    destruct (flushed_step_inv c N D s e (ep s e) ps k' out) as (l & ? & ? & ? & _); try done. by exists l.
Qed.

Lemma settings_step_inv c N D s e a b d f :
  at_inv c N D s -> is_i32 a -> is_i32 b -> is_i32 d -> is_i32 f ->
  at_inv c N D (set_end s e (snd (ikcp_nodelay (snd (ikcp_wndsize (ep s e) a b)) a b d f)) [] [] []).
Proof.
  intros Hinv Hia Hib Hid Hif. destruct (Hinv e) as [Hl Ha Hg Hnet].
  pose proof (link_kcp _ _ _ _ _ _ Hl) as Hk.
  destruct (ikcp_settings_wf (ep s e) a b d f Hk) as (_ & Hk1 & _); try done.
  destruct (ikcp_settings_wf (snd (ikcp_wndsize (ep s e) a b)) a b d f Hk1) as (_ & _ & Hk2); try done.
  set (k2 := snd (ikcp_nodelay _ _ _ _ _)) in *.
  assert (snd_view k2 = snd_view (ep s e) /\ rcv_view k2 = rcv_view (ep s e) /\
    ack_view k2 = ack_view (ep s e)) as (E1 & E2 & E3).
  { subst k2. unfold ikcp_nodelay, ikcp_wndsize. cbn [snd].
    destruct (a >? 0), (b >? 0), (a >=? 0), (b >=? 0), (d >=? 0), (f >=? 0); done. }
  clearbody k2. injection E1 as S1 S2 S3 S4 S5.
  destruct (link_frame c (N e) _ _ _ _ k2 Hl Hk2) as [Hl' Hgr]; try done; [congruence|].
  apply sys_inv_stay, sys_inv_step; rewrite ?app_nil_r; try done. by rewrite Ha, S4.
Qed.

Lemma step_inv c s s' : is_u32 c -> sys_inv c s -> step s s' -> sys_inv c s'.
Proof.
  intros Hc (N & D & Hs) Hstep. destruct Hstep.
  - exists N, D. by apply send_step_inv.
  - destruct (recv_step_inv c N D s e len r out k' Hs) as (l & _ & _ & _ & H'); [done|done|]. by eexists _, _.
  - exists N, D. by eapply input_step_inv.
  - destruct (update_step_inv c N D s e now k' out Hc Hs) as (l & _ & _ & H'); [done..|]. by eexists _, _.
  - destruct (flush_step_inv c N D s e k' out Hc Hs) as (l & _ & _ & H'); [done..|]. by eexists _, _.
  - exists N, D. by apply settings_step_inv.
Qed.

Lemma reachable_inv c s0 s : initial c s0 -> rtc step s0 s -> sys_inv c s.
Proof.
  intros Hi Hr. pose proof (initial_inv c s0 Hi) as H0. destruct Hi as [Hc _].
  induction Hr as [|s1 s2 s3 Hs Hr IH]; [done|]. apply IH. by eapply step_inv.
Qed.

(** C1: Whatever the network does, what an application has received is a prefix of what the
    other one has sent: no byte is lost, repeated, altered or out of order. *)
Theorem delivered_prefix c s0 s e :
  initial c s0 -> rtc step s0 s -> exists rest, acc s e = got s (negb e) ++ rest.
Proof.
  intros Hi Hr. destruct (reachable_inv c s0 s Hi Hr) as (N & D & Hinv).
  destruct (Hinv e) as [Hl Ha _ _]. destruct (Hinv (negb e)) as [[_ _ _ _ [_ Hq _] _] _ Hg _].
  rewrite negb_involutive in Hq. rewrite Ha, Hg.
  pose proof (take_drop (Z.to_nat (rcv_nxt (ep s (negb e)))) (N e)) as E.
  rewrite <- Hq in E. rewrite <- E, !bytes_of_app, <- !app_assoc. eauto.
Qed.

(** C4: A segment leaves the sender only after the receiver has it: every number in use is
    still held for retransmission or has arrived. *)
Theorem nothing_forgotten c s0 s e i :
  initial c s0 -> rtc step s0 s -> 0 <= i < snd_nxt (ep s e) ->
  recvd (ep s (negb e)) i \/ exists x, x ∈ snd_buf (ep s e) /\ seg_sn x = i.
Proof.
  intros Hi Hr Hlt. destruct (reachable_inv c s0 s Hi Hr) as (N & D & Hinv).
  destruct (Hinv e) as [Hl _ _ _]. destruct (link_snd _ _ _ _ _ _ Hl) as [[En _] _ Hkeep].
  apply Hkeep. by rewrite <- En.
Qed.

(** C2: When the sender has nothing left to send or to retransmit and the receiver's queues
    have been read out, everything that was sent has been received. *)
Theorem delivery_complete c s0 s e :
  initial c s0 -> rtc step s0 s -> ikcp_waitsnd (ep s e) = 0 ->
  nsnd_buf (ep s e) = 0 -> rcv_buf (ep s (negb e)) = [] -> rcv_queue (ep s (negb e)) = [] ->
  qlen (snd_queue (ep s e)) < 4294967296 ->
  got s (negb e) = acc s e.
Proof.
  intros Hi Hr Hw Hnb Erb Erq Hmax. destruct (reachable_inv c s0 s Hi Hr) as (N & D & Hinv).
  destruct (Hinv e) as [Hl Ha _ _]. destruct (Hinv (negb e)) as [[_ _ _ _ [Hn Hq _] _] _ Hg _].
  rewrite negb_involutive in Hq, Hn. pose proof (link_kcp _ _ _ _ _ _ Hl) as Hk.
  assert (snd_queue (ep s e) = [] /\ snd_buf (ep s e) = []) as [Esq Esb].
  { unfold ikcp_waitsnd in Hw. pose proof (wf_nsnd_buf _ Hk) as E1. pose proof (wf_nsnd_que _ Hk) as E2.
    pose proof (qlen_nonneg (snd_queue (ep s e))). rewrite u32_small in E2 by lia.
    rewrite Hnb, Z.add_0_l, E2, u32_small in Hw by lia.
    assert (qlen (snd_queue (ep s e)) = 0) by wrap_lia.
    rewrite Hnb in E1. unfold qlen in *.
    split; [destruct (snd_queue (ep s e))|destruct (snd_buf (ep s e))]; done || (cbn in *; lia). }
  destruct (link_snd _ _ _ _ _ _ Hl) as [_ _ Hkeep].
  assert (Z.of_nat (length (N e)) <= rcv_nxt (ep s (negb e))) as Hall.
  { destruct (Z.le_gt_cases (Z.of_nat (length (N e))) (rcv_nxt (ep s (negb e)))) as [?|Hgt]; [done|].
    destruct (Hkeep (Z.of_nat (length (N e)) - 1)) as [[?|(x & Hx & _)]|(x & Hx & _)].
    - pose proof (wf_rcv_nxt _ (link_kcp _ _ _ _ _ _ (ei_link _ _ _ _ _ _ _ _ _ (Hinv (negb e))))) as Hu.
      unfold is_u32 in Hu. lia.
    - lia.
    - rewrite Erb in Hx. by apply not_elem_of_nil in Hx.
    - rewrite Esb in Hx. by apply not_elem_of_nil in Hx. }
  rewrite Erq, app_nil_r, take_ge in Hq by lia. rewrite Hg, Hq, Ha, Esq. by rewrite app_nil_r.
Qed.
End System.

(** ** A run of the system

    One end sends three bytes, updates twice (the congestion window is closed until the
    first flush), the datagram arrives, the other application reads it, its end
    acknowledges with the next update, and the acknowledgement arrives. *)

Section Demo.
#[local] Existing Instance demo_env.
#[local] Existing Instance x86_64.

Definition demo_start : sys := mkSys (fun _ => demo_cb) (fun _ => []) (fun _ => []) (fun _ => []).

Definition or_same {A} (k : ikcpcb) (r : res (A * ikcpcb)) : ikcpcb :=
  match r with Ok (_, k') => k' | Err _ => k end.

Definition do_send (e : bool) (b : list Z) (s : sys) : sys :=
  set_end s e (or_same (ep s e) (ikcp_send (ep s e) (Some b) (Z.of_nat (length b)))) [] b [].
Definition do_update (e : bool) (now : Z) (s : sys) : sys :=
  match ikcp_update (ep s e) now with
  | Ok (k', out) => set_end s e k' out [] []
  | Err _ => s
  end.
Definition do_input (e : bool) (s : sys) : sys :=
  let d := default [] (last (net s (negb e))) in
  set_end s e (or_same (ep s e) (ikcp_input (ep s e) (Some d) (Z.of_nat (length d)))) [] [] [].
Definition do_recv (e : bool) (len : Z) (s : sys) : sys :=
  match ikcp_recv (ep s e) true len with
  | Ok (r, out, k') => set_end s e k' [] [] out
  | Err _ => s
  end.

Definition demo_1 := do_send true [1; 2; 3] demo_start.
Definition demo_2 := do_update true 1000 demo_1.
Definition demo_3 := do_update true 1100 demo_2.
Definition demo_4 := do_input false demo_3.
Definition demo_5 := do_recv false 100 demo_4.
Definition demo_6 := do_update false 1200 demo_5.
Definition demo_7 := do_input true demo_6.

Lemma demo_initial : initial 7 demo_start.
Proof.
  split; [by_decide|]. intros e. split_and!; first [done|apply demo_cb_wf|apply demo_cb_acks].
Qed.

Lemma do_send_step e b s r k' :
  Forall is_byte b -> Z.of_nat (length b) < 2147483648 ->
  ikcp_send (ep s e) (Some b) (Z.of_nat (length b)) = Ok (r, k') -> r = 0 -> step s (do_send e b s).
Proof.
  intros Hb Hl H ->. unfold do_send. rewrite H. by apply (step_send s e b 0 k').
Qed.
Lemma do_update_step e now s k' out :
  is_u32 now -> ackcount (ep s e) < 2147483648 ->
  snd_nxt (ep s e) + qlen (snd_queue (ep s e)) < 2147483648 ->
  ikcp_update (ep s e) now = Ok (k', out) -> step s (do_update e now s).
Proof. intros H1 H2 H3 H. unfold do_update. rewrite H. by apply (step_update s e now k' out). Qed.
Lemma do_input_step e s r k' :
  net s (negb e) <> [] ->
  let d := default [] (last (net s (negb e))) in
  24 * ackcount (ep s e) + Z.of_nat (length d) < 25769803776 ->
  ikcp_input (ep s e) (Some d) (Z.of_nat (length d)) = Ok (r, k') -> step s (do_input e s).
Proof.
  intros Hne d Hl H. unfold do_input. fold d. rewrite H. apply (step_input s e d r k'); [|done|done].
  subst d. destruct (last (net s (negb e))) as [d|] eqn:E; [by apply last_Some_elem_of|].
  by apply last_None in E.
Qed.
Lemma do_recv_step e len s r out k' :
  is_i32 len -> 0 <= len -> ikcp_recv (ep s e) true len = Ok (r, out, k') -> step s (do_recv e len s).
Proof.
  intros Hl H0 H. unfold do_recv. rewrite H. pose proof (step_recv s e len r out k' Hl H) as Hs.
  by rewrite (proj2 (Z.ltb_ge len 0)) in Hs by lia.
Qed.

Lemma demo_run : rtc step demo_start demo_7.
Proof.
  unfold demo_7, demo_6, demo_5, demo_4, demo_3, demo_2, demo_1.
  eapply rtc_l; [eapply (do_send_step true [1; 2; 3]); [by_decide|by_decide|evaluated|reflexivity]|].
  eapply rtc_l; [eapply (do_update_step true 1000); [by_decide|evaluated|evaluated|evaluated]|].
  eapply rtc_l; [eapply (do_update_step true 1100); [by_decide|evaluated|evaluated|evaluated]|].
  eapply rtc_l; [eapply (do_input_step false); [by_decide|evaluated|evaluated]|].
  eapply rtc_l; [eapply (do_recv_step false 100); [by_decide|by_decide|evaluated]|].
  eapply rtc_l; [eapply (do_update_step false 1200); [by_decide|evaluated|evaluated|evaluated]|].
  eapply rtc_l; [eapply (do_input_step true); [by_decide|evaluated|evaluated]|].
  apply rtc_refl.
Qed.

Lemma delivered_prefix_witness :
  rtc step demo_start demo_7 /\ exists rest, acc demo_7 true = got demo_7 false ++ rest.
Proof.
  split; [apply demo_run|]. apply (delivered_prefix 7 demo_start demo_7 true demo_initial demo_run).
Defined.

Lemma nothing_forgotten_witness :
  snd_nxt (ep demo_7 true) = 1 /\
  (recvd (ep demo_7 false) 0 \/ exists x, x ∈ snd_buf (ep demo_7 true) /\ seg_sn x = 0).
Proof.
  split; [evaluated|].
  apply (nothing_forgotten 7 demo_start demo_7 true 0 demo_initial demo_run). by_decide.
Defined.

Lemma delivery_complete_witness :
  ikcp_waitsnd (ep demo_7 true) = 0 /\ acc demo_7 true = [1; 2; 3] /\ got demo_7 false = acc demo_7 true.
Proof.
  split; [evaluated|]. split; [evaluated|].
  apply (delivery_complete 7 demo_start demo_7 true demo_initial demo_run);
    [evaluated|evaluated|evaluated|evaluated|by_decide].
Defined.
End Demo.
