(* ===== verification/IkcpEffects.v ===== *)
(** * kcp_learn/ikcp.c: what one datagram changes

    IkcpInput.v shows that ikcp_input is safe and IkcpArq.v that it keeps two ends in step.
    Here is what it achieves: what is taken out of snd_buf, what is recorded to be
    acknowledged, what is learned of the peer's window, and what stays as it was. *)

From stdpp Require Import functions relations.
From S2P Require Import Prelude IkcpBase IkcpCb IkcpSnd IkcpRcv IkcpInput IkcpFlush KcpSpec IkcpArq.

(** No segment that is next waits in rcv_buf, unless the application has a whole message
    or more to read. *)
Definition settled (k : ikcpcb) : Prop :=
  match rcv_buf k with s :: _ => seg_sn s = rcv_nxt k -> 128 <= nrcv_que k | [] => True end.

(** What the handling of acknowledgements leaves alone. *)
Definition receiving (k : ikcpcb) :=
  (current k, rcv_nxt k, rcv_queue k, rcv_buf k, nrcv_que k, rcv_wnd k, (acklist k, ackcount k, ackblock k),
   updated k, probe k, snd_queue k, rmt_wnd k).

(** The numbers in flight. *)
Definition sns (k : ikcpcb) : list Z := seg_sn <$> snd_buf k.

Record fed (k k' : ikcpcb) : Prop := {
  fed_sns : sns k' `sublist_of` sns k;
  fed_queue : snd_queue k' = snd_queue k;
  fed_rcv_wnd : rcv_wnd k' = rcv_wnd k;
  fed_updated : updated k' = updated k;
  fed_current : current k' = current k;
  fed_tell : Z.land (probe k) IKCP_ASK_TELL <> 0 -> Z.land (probe k') IKCP_ASK_TELL <> 0;
  fed_settled : settled k -> settled k' }.

Lemma fed_refl k : fed k k.
Proof. by constructor. Qed.

Lemma fed_trans k1 k2 k3 : fed k1 k2 -> fed k2 k3 -> fed k1 k3.
Proof. intros [] []. constructor; try congruence; auto. by etrans. Qed.

Lemma fed_receiving k k' : receiving k' = receiving k -> sns k' `sublist_of` sns k -> fed k k'.
Proof.
  intros [= E0 E1 E2 E3 E4 E5 E6 E7 E8 E9 E10 E11] Hs. constructor; try congruence. unfold settled. by rewrite E1, E3, E4.
Qed.

(** ** The handling of acknowledgements *)

Lemma parse_una_loop_receiving una l k : receiving (parse_una_loop una l k) = receiving k.
Proof. revert k. induction l as [|s l IH]; intros k; cbn; [done|]. destruct (_ >? 0); [|done]. by rewrite IH. Qed.

Lemma parse_una_loop_sns una l k : snd_buf k = l -> sns (parse_una_loop una l k) `sublist_of` sns k.
Proof.
  revert k. induction l as [|s l IH]; intros k E; cbn; [done|]. destruct (_ >? 0); [|done].
  etrans; [by apply IH|]. unfold sns. rewrite E. cbn. by apply sublist_cons.
Qed.

Lemma ikcp_shrink_buf_fed k : receiving (ikcp_shrink_buf k) = receiving k /\ sns (ikcp_shrink_buf k) = sns k.
Proof. unfold ikcp_shrink_buf, sns. by destruct (snd_buf k) eqn:E; cbn; rewrite ?E. Qed.

Lemma ikcp_update_ack_fed k rtt :
  receiving (ikcp_update_ack k rtt) = receiving k /\ sns (ikcp_update_ack k rtt) = sns k.
Proof. unfold ikcp_update_ack. destruct (_ =? _); [done|]. cbn. by destruct (_ <? 1). Qed.

Lemma parse_ack_loop_sublist sn l : fst (parse_ack_loop sn l) `sublist_of` l.
Proof.
  induction l as [|s l IH]; cbn; [done|]. destruct (_ =? _); [by apply sublist_cons|].
  destruct (_ <? 0); [done|]. destruct (parse_ack_loop sn l). by apply sublist_skip.
Qed.

Lemma ikcp_parse_ack_fed k sn :
  receiving (ikcp_parse_ack k sn) = receiving k /\ sns (ikcp_parse_ack k sn) `sublist_of` sns k.
Proof.
  unfold ikcp_parse_ack. destruct (_ || _); [done|].
  pose proof (parse_ack_loop_sublist sn (snd_buf k)) as Hs. destruct (parse_ack_loop _ _) as [l []]; [|done].
  split; [done|]. unfold sns. cbn. by apply fmap_sublist.
Qed.

Lemma parse_fastack_loop_sns sn l : seg_sn <$> parse_fastack_loop sn l = seg_sn <$> l.
Proof.
  induction l as [|s l IH]; cbn; [done|]. destruct (_ <? 0); [done|].
  destruct (negb _); cbn; by rewrite IH.
Qed.

Lemma ikcp_parse_fastack_fed k sn ts :
  receiving (ikcp_parse_fastack k sn ts) = receiving k /\ sns (ikcp_parse_fastack k sn ts) = sns k.
Proof.
  unfold ikcp_parse_fastack. destruct (_ || _); [done|]. split; [done|]. apply parse_fastack_loop_sns.
Qed.

Lemma grow_cwnd_fed k k' : grow_cwnd k = Ok k' -> receiving k' = receiving k /\ sns k' = sns k.
Proof.
  unfold grow_cwnd. destruct (cwnd k <? rmt_wnd k); [|by intros [= ->]]. cbn zeta. intros H.
  apply bind_Ok in H as (k1 & H1 & H).
  assert (receiving k1 = receiving k /\ sns k1 = sns k) as [<- <-].
  { destruct (cwnd k <? ssthresh k); [by injection H1 as <-|].
    apply bind_Ok in H1 as (q & _ & H1). destruct (_ <=? _).
    - apply bind_Ok in H1 as (c & _ & H1). injection H1 as <-. by destruct (_ <? _).
    - injection H1 as <-. by destruct (_ <? _). }
  cbn beta in H. destruct (cwnd k1 >? rmt_wnd k1); [by injection H as <-|by injection H as ->].
Qed.

(** ** The receiving side *)

Lemma move_rcv_buf_settled l k :
  rcv_buf k = l -> 128 <= rcv_wnd k -> settled (move_rcv_buf l k).
Proof.
  revert k. induction l as [|s l IH]; intros k E Hw; cbn [move_rcv_buf]; [by unfold settled; rewrite E|].
  destruct (Z.eqb_spec (seg_sn s) (rcv_nxt k)) as [Es|Es]; cbn [andb].
  - destruct (Z.ltb_spec (nrcv_que k) (rcv_wnd k)); [by apply IH|].
    unfold settled. rewrite E. lia.
  - unfold settled. by rewrite E.
Qed.

(** What reaches the queues of the receiver changes nothing else. *)
Definition sending (k : ikcpcb) := (current k, snd_buf k, snd_queue k, rcv_wnd k, updated k, probe k, rmt_wnd k).

Lemma move_rcv_buf_sending l k : sending (move_rcv_buf l k) = sending k.
Proof. revert k. induction l as [|s l IH]; intros k; cbn; [done|]. destruct (_ && _); [|done]. by rewrite IH. Qed.

Lemma ikcp_parse_data_fed k s :
  128 <= rcv_wnd k ->
  sending (ikcp_parse_data k s) = sending k /\ (settled k -> settled (ikcp_parse_data k s)).
Proof.
  intros Hw. unfold ikcp_parse_data. destruct (_ || _); [done|].
  destruct (find_slot _ _ _) as [[[] ?] ?]; split; try by rewrite move_rcv_buf_sending.
  - intros _. by apply move_rcv_buf_settled.
  - intros _. by apply move_rcv_buf_settled.
Qed.

Lemma fed_sending k k' : sending k' = sending k -> (settled k -> settled k') -> fed k k'.
Proof.
  intros [= E0 E1 E2 E3 E4 E5 E6] Hs. constructor; try congruence; [|done]. unfold sns. by rewrite E1.
Qed.

Section Feed.
Context `{env : Env} `{host : Host}.

Lemma ikcp_ack_push_fed k sn ts k' :
  ikcp_ack_push k sn ts = Ok k' ->
  sending k' = sending k /\ (rcv_buf k', rcv_nxt k', nrcv_que k') = (rcv_buf k, rcv_nxt k, nrcv_que k).
Proof.
  unfold ikcp_ack_push. intros H. apply bind_Ok in H as (k1 & H1 & H2).
  assert (sending k1 = sending k /\ (rcv_buf k1, rcv_nxt k1, nrcv_que k1) = (rcv_buf k, rcv_nxt k, nrcv_que k))
    as [<- <-].
  { destruct (_ >? _); [|by injection H1 as ->]. apply bind_Ok in H1 as (nb & _ & H1).
    unfold ikcp_malloc in H1. cbn zeta iota in H1. destruct (malloc_succeeds _ _); [|done].
    cbn in H1. apply bind_Ok in H1 as (new & _ & H1). by destruct (acklist k); injection H1 as <-. }
  destruct (acklist k1); [|done]. apply bind_Ok in H2 as (l1 & _ & H2).
  apply bind_Ok in H2 as (l2 & _ & H2). by injection H2 as <-.
Qed.

Lemma input_push_fed k c h data k' :
  128 <= rcv_wnd k -> input_push k c h data = Ok k' ->
  sending k' = sending k /\ (settled k -> settled k').
Proof.
  intros Hw. unfold input_push. destruct (_ <? 0); [|by intros [= ->]]. intros H.
  apply bind_Ok in H as (k1 & [E1 E2]%ikcp_ack_push_fed & H2).
  assert (settled k -> settled k1) as Hs by (injection E2 as F1 F2 F3; unfold settled; by rewrite F1, F2, F3).
  destruct (_ >=? 0); [|by injection H2 as <-].
  unfold ikcp_segment_new, ikcp_malloc in H2. cbn zeta iota in H2.
  destruct (malloc_succeeds _ _); [|done]. cbn [negb] in H2.
  apply bind_Ok in H2 as (bytes & _ & H2). injection H2 as <-.
  match goal with |- sending (ikcp_parse_data ?k2 ?s) = _ /\ _ =>
    destruct (ikcp_parse_data_fed k2 s) as [E3 Hs3] end.
  { injection E1 as _ _ _ E _ _ _. cbn. lia. }
  split; [by rewrite E3|]. intros H. apply Hs3. exact (Hs H).
Qed.

Lemma lor_tell p : Z.land (Z.lor p IKCP_ASK_TELL) IKCP_ASK_TELL <> 0.
Proof.
  rewrite Z.land_lor_distr_l, Z.land_diag, Z.lor_eq_0_iff. unfold IKCP_ASK_TELL. intros [_ H]. done.
Qed.

(** ** One segment and one datagram, whatever they are *)

Lemma input_segment_fed k c h data a k' a' :
  128 <= rcv_wnd k -> input_segment k c h data a = Ok (k', a') ->
  fed k k' /\ rmt_wnd k' = h_wnd h /\
  (h_cmd h = IKCP_CMD_WASK -> Z.land (probe k') IKCP_ASK_TELL <> 0).
Proof.
  intros Hw. unfold input_segment. cbn zeta. set (k0 := k <| rmt_wnd := h_wnd h |>).
  set (k1 := ikcp_shrink_buf _). intros H.
  assert (fed k k1 /\ rmt_wnd k1 = h_wnd h) as [Hf1 Er1].
  { subst k1. destruct (ikcp_shrink_buf_fed (ikcp_parse_una k0 (h_una h))) as [E1 E2].
    pose proof (parse_una_loop_receiving (h_una h) (snd_buf k0) k0) as E3.
    pose proof (parse_una_loop_sns (h_una h) (snd_buf k0) k0 eq_refl) as Hs.
    fold (ikcp_parse_una k0 (h_una h)) in E3, Hs. rewrite <- E2 in Hs. rewrite E3 in E1.
    split; [|exact (f_equal snd E1)]. eapply fed_trans; [|by apply fed_receiving]. by constructor. }
  clearbody k1. destruct (Z.eqb_spec (h_cmd h) IKCP_CMD_ACK) as [Ea|Ea].
  { unfold input_ack in H. set (k2 := if _ >=? 0 then _ else k1) in H. injection H as E _.
    assert (receiving k2 = receiving k1 /\ sns k2 = sns k1) as [E1 E2]
      by (subst k2; destruct (_ >=? 0); [apply ikcp_update_ack_fed|done]).
    destruct (ikcp_parse_ack_fed k2 (h_sn h)) as [E3 Hs].
    destruct (ikcp_shrink_buf_fed (ikcp_parse_ack k2 (h_sn h))) as [E4 E5]. rewrite E in E4, E5.
    assert (receiving k' = receiving k1) as Er by congruence.
    split; [|split; [by rewrite (f_equal snd Er : rmt_wnd k' = rmt_wnd k1)|by rewrite Ea]].
    eapply fed_trans; [done|]. apply fed_receiving; [done|]. by rewrite E5, <- E2. }
  destruct (Z.eqb_spec (h_cmd h) IKCP_CMD_PUSH) as [Ep|Ep].
  { apply bind_Ok in H as (k2 & H2 & H). injection H as <- <-.
    destruct (input_push_fed k1 c h data k2) as [Es Hs]; [by rewrite (fed_rcv_wnd _ _ Hf1)|done|].
    split; [by eapply fed_trans; [|apply fed_sending]|]. split; [by rewrite (f_equal snd Es : rmt_wnd k2 = rmt_wnd k1)|by rewrite Ep]. }
  destruct (Z.eqb_spec (h_cmd h) IKCP_CMD_WASK) as [Ew|Ew]; injection H as <- <-; [|done].
  split; [|split; [done|intros _; apply lor_tell]].
  eapply fed_trans; [done|]. constructor; try done. intros _. apply lor_tell.
Qed.

Lemma input_finish_fed k prev a k' :
  input_finish k prev a = Ok k' -> receiving k' = receiving k /\ sns k' = sns k.
Proof.
  unfold input_finish. cbn zeta. set (k1 := if negb _ then _ else k). intros H.
  assert (receiving k1 = receiving k /\ sns k1 = sns k) as [<- <-]
    by (subst k1; destruct (negb _); [apply ikcp_parse_fastack_fed|done]).
  destruct (_ >? 0); [by apply grow_cwnd_fed in H|by injection H as ->].
Qed.

Lemma input_loop_fed fuel k data size a r :
  128 <= rcv_wnd k -> input_loop fuel k data size a = Ok r ->
  fed k (match r with inl (_, k') => k' | inr (k', _) => k' end).
Proof.
  revert k data size a. induction fuel as [|fuel IH]; intros k data size a Hw; cbn [input_loop]; [done|].
  destruct (size <? _); [intros [= <-]; apply fed_refl|]. intros H.
  apply bind_Ok in H as ([conv0 d] & _ & H). destruct (negb _); [injection H as <-; apply fed_refl|].
  apply bind_Ok in H as ([h d'] & _ & H). cbn zeta in H.
  destruct (_ || _); [injection H as <-; apply fed_refl|].
  destruct (negb _); [injection H as <-; apply fed_refl|].
  apply bind_Ok in H as ([k1 a1] & H1 & H). destruct (input_segment_fed _ _ _ _ _ _ _ Hw H1) as [Hf _].
  eapply fed_trans; [exact Hf|]. apply IH in H; [done|]. by rewrite (fed_rcv_wnd _ _ Hf).
Qed.

Lemma ikcp_input_fed k data size r k' :
  128 <= rcv_wnd k -> ikcp_input k data size = Ok (r, k') -> fed k k'.
Proof.
  intros Hw. unfold ikcp_input. destruct data as [data|]; [|intros [= _ <-]; apply fed_refl].
  destruct (_ <? _); [intros [= _ <-]; apply fed_refl|]. intros H.
  apply bind_Ok in H as (x & Hx%input_loop_fed & H); [|done]. destruct x as [[r1 k1]|[k1 a]].
  - by injection H as _ <-.
  - apply bind_Ok in H as (k2 & H2 & H). injection H as _ <-.
    apply input_finish_fed in H2 as [E1 E2]. eapply fed_trans; [done|]. apply fed_receiving; [done|].
    by rewrite E2.
Qed.
End Feed.

(** ** One segment of the peer *)

(** An acknowledgement of [i] will go out with the next flush. *)
Definition acks_has (k : ikcpcb) (i : Z) : Prop := exists ps ts, ack_rep k ps /\ (i, ts) ∈ ps.

Lemma acks_has_view k k' i : ack_view k' = ack_view k -> acks_has k i -> acks_has k' i.
Proof. intros E (ps & ts & Ha & Hin). exists ps, ts. split; [by eapply ack_rep_view|done]. Qed.

Lemma receiving_acks k k' : receiving k' = receiving k -> ack_view k' = ack_view k.
Proof. intros [= ? ? ? ? ? E1 E2 E3 ? ? ? ?]. unfold ack_view. congruence. Qed.

Lemma ikcp_parse_data_acks k s : ack_view (ikcp_parse_data k s) = ack_view k.
Proof.
  assert (forall l k, ack_view (move_rcv_buf l k) = ack_view k) as Hm.
  { clear. intros l. induction l as [|s l IH]; intros k; cbn; [done|]. destruct (_ && _); [|done]. by rewrite IH. }
  unfold ikcp_parse_data. destruct (_ || _); [done|]. destruct (find_slot _ _ _) as [[[] ?] ?]; by rewrite Hm.
Qed.

Section Heard.
Context `{env : Env} `{host : Host}.

Lemma input_push_acks k c h data k' ps :
  ack_rep k ps -> Z.of_nat (length ps) < 1073741824 -> is_u32 (h_sn h) -> is_u32 (h_ts h) ->
  input_push k c h data = Ok k' ->
  if _itimediff (h_sn h) (u32 (rcv_nxt k + rcv_wnd k)) <? 0
  then ack_rep k' (ps ++ [(h_sn h, h_ts h)]) else ack_rep k' ps.
Proof.
  intros Ha Hl Hsn Hts. unfold input_push. destruct (_ <? 0); [|by intros [= ->]]. intros H.
  apply bind_Ok in H as (k1 & H1 & H).
  pose proof (ikcp_ack_push_exact k ps (h_sn h) (h_ts h) Ha Hsn Hts Hl) as Hp. rewrite H1 in Hp.
  destruct Hp as (Ha1 & _ & _). destruct (_ >=? 0); [|by injection H as <-].
  unfold ikcp_segment_new, ikcp_malloc in H. cbn zeta iota in H.
  destruct (malloc_succeeds _ _); [|done]. cbn [negb] in H.
  apply bind_Ok in H as (bytes & _ & H). injection H as <-.
  eapply ack_rep_view; [apply ikcp_parse_data_acks|]. by eapply (ack_rep_view k1).
Qed.

Lemma input_segment_heard c k s N M D P a k' a' :
  link c N M D P k -> (forall i, P i -> 0 <= i < Z.of_nat (length N)) -> genuine c M P s ->
  ackcount k < 1073741824 -> rcv_wnd k < 65536 ->
  input_segment k c (header_of s) (seg_bytes s) a = Ok (k', a') ->
  (forall i, acks_has k i -> acks_has k' i) /\
  (u8 (seg_cmd s) = IKCP_CMD_PUSH -> -65536 <= seg_sn s - rcv_nxt k < rcv_wnd k -> acks_has k' (seg_sn s)) /\
  (u8 (seg_cmd s) = IKCP_CMD_ACK -> seg_sn s ∉ sns k').
Proof.
  intros [Hk Hcv Ho Hs Hr Ha] HP (Hw & Hfrg & Hby & Huna & HPuna & Hpush & Hack) Hcnt Hrw H.
  destruct (kcp_wf_loose k Hk) as [_ [ps Hl]].
  unfold input_segment in H. cbn zeta in H.
  apply (set_rmt_wnd_loose ps k (h_wnd (header_of s))) in Hl; [|apply u16_range].
  set (k0 := k <| rmt_wnd := _ |>) in *. change (h_una (header_of s)) with (u32 (seg_una s)) in H.
  destruct (acked_una ps k0 (u32 (seg_una s)) Hl) as [Hl1 Ht1].
  destruct (ikcp_shrink_buf_fed (ikcp_parse_una k0 (u32 (seg_una s)))) as [E1 _].
  pose proof (parse_una_loop_receiving (u32 (seg_una s)) (snd_buf k0) k0) as E2.
  fold (ikcp_parse_una k0 (u32 (seg_una s))) in E2. rewrite E2 in E1. clear E2.
  set (k1 := ikcp_shrink_buf _) in *.
  assert (ack_view k1 = ack_view k /\ rcv_nxt k1 = rcv_nxt k /\ rcv_wnd k1 = rcv_wnd k) as (Ev & En & Ewd).
  { injection E1 as F0 F1 F2 F3 F4 F5 F6 F7 F8 F9 F10 F11 F12. unfold ack_view. split; [congruence|done]. }
  clearbody k1. clear E1 Hl.
  assert (ack_rep k1 ps) as Hps by apply Hl1. pose proof (ack_count _ _ Hps) as Hc1.
  assert (ackcount k1 = ackcount k) as Ec by by injection Ev.
  change (h_cmd (header_of s)) with (u8 (seg_cmd s)) in H.
  destruct (Z.eqb_spec (u8 (seg_cmd s)) IKCP_CMD_ACK) as [Ecmd|Ecmd].
  { specialize (Hack Ecmd) as [Hsn HPsn]. unfold input_ack in H.
    assert (h_sn (header_of s) = seg_sn s) as Es by (cbn; by apply u32_small). rewrite Es in H.
    set (k2 := if _ >=? 0 then _ else k1) in H. injection H as Ek' _.
    assert (receiving k2 = receiving k1 /\ snd_wf k2) as [E2 Hwf2].
    { subst k2. destruct (_ >=? 0); [|by destruct Hl1].
      split; [apply ikcp_update_ack_fed|apply ikcp_update_ack_wf; [apply Hl1|]; apply Hl1]. }
    destruct (ikcp_parse_ack_fed k2 (seg_sn s)) as [E3 _].
    destruct (ikcp_shrink_buf_fed (ikcp_parse_ack k2 (seg_sn s))) as [E4 E5]. rewrite Ek' in *.
    split; [|split; [by rewrite Ecmd|]].
    - intros i. apply acks_has_view. rewrite <- Ev. apply receiving_acks. congruence.
    - intros _ Hin. rewrite E5 in Hin. unfold sns in Hin. rewrite (parse_ack_exact k2 _ Hwf2 Hsn) in Hin.
      apply list_elem_of_fmap in Hin as (x & E & Hx). apply list_elem_of_filter in Hx as [Hne _]. by apply Hne. }
  destruct (Z.eqb_spec (u8 (seg_cmd s)) IKCP_CMD_PUSH) as [Ecmd2|Ecmd2].
  { apply bind_Ok in H as (k2 & H2 & H). injection H as <- <-.
    pose proof (at_sn_lt _ _ _ (Hpush Ecmd2)) as Hsn. pose proof (ro_nxt _ _ _ Hr) as Hn.
    pose proof (wf_rcv_nxt _ Hk) as Hn0. unfold is_u32 in Hn0. pose proof (wf_rcv_wnd _ Hk) as Hwd.
    assert (h_sn (header_of s) = seg_sn s) as Es by (cbn; apply u32_small; lia).
    pose proof (input_push_acks k1 c _ _ k2 ps Hps ltac:(lia)
      ltac:(rewrite Es; unfold is_u32; lia) ltac:(apply u32_range) H2) as Hp.
    rewrite Es, En, Ewd in Hp. split; [|split; [|done]].
    - intros i (qs & ts & Hqs & Hin). apply (ack_rep_view _ _ _ Ev) in Hqs.
      rewrite (ack_rep_inj _ _ _ Hps Hqs) in Hp.
      destruct (_ <? 0); [|by exists qs, ts]. eexists _, ts. split; [exact Hp|]. apply elem_of_app. by left.
    - intros _ Hlt. destruct (Z.ltb_spec (_itimediff (seg_sn s) (u32 (rcv_nxt k + rcv_wnd k))) 0) as [Hd|Hd].
      + eexists _, _. split; [exact Hp|]. apply elem_of_app. right. by left.
      + exfalso. rewrite itimediff_i32 in Hd. rewrite <- i32_u32, u32_sub_r, i32_u32 in Hd.
        rewrite i32_small in Hd by lia. lia. }
  assert (ack_view k' = ack_view k1) as E2 by (destruct (_ =? IKCP_CMD_WASK); by injection H as <- <-).
  split; [|done]. intros i. apply acks_has_view. congruence.
Qed.

(** What the end [k] has learned from the segment [x], in a datagram whose segments all
    announce the window [w], when it is [k'] after the datagram. *)
Record heard (k : ikcpcb) (top w : Z) (x : IKCPSEG) (k' : ikcpcb) : Prop := {
  heard_fed : fed k k';
  heard_push : u8 (seg_cmd x) = IKCP_CMD_PUSH ->
    top - 65536 <= seg_sn x < rcv_nxt k + rcv_wnd k -> acks_has k' (seg_sn x);
  heard_ack : u8 (seg_cmd x) = IKCP_CMD_ACK -> seg_sn x ∉ sns k';
  heard_wask : u8 (seg_cmd x) = IKCP_CMD_WASK -> Z.land (probe k') IKCP_ASK_TELL <> 0;
  heard_wnd : rmt_wnd k' = u16 w }.

Lemma sublist_not_elem (l1 l2 : list Z) x : l1 `sublist_of` l2 -> x ∉ l2 -> x ∉ l1.
Proof. intros Hs Hn Hin. apply Hn. by eapply sublist_subseteq. Qed.

Lemma input_segs_keep l c k N M D P a k' a' :
  link c N M D P k -> (forall i, P i -> 0 <= i < Z.of_nat (length N)) -> Forall (genuine c M P) l ->
  ackcount k + Z.of_nat (length l) < 1073741824 -> rcv_wnd k < 65536 ->
  input_segs k c l a = Ok (k', a') ->
  fed k k' /\ (forall i, acks_has k i -> acks_has k' i).
Proof.
  revert k a. induction l as [|s l IH]; intros k a Hl HP Hg Hc Hw H; cbn [input_segs] in H.
  { injection H as <- <-. split; [apply fed_refl|done]. }
  apply Forall_cons in Hg as [Hs Hg]. apply bind_Ok in H as ([k1 a1] & H1 & H). cbn [length] in Hc.
  destruct (input_segment_link c k s N M D P a k1 a1) as (Hl1 & _ & _ & Hc1 & _); try done; [lia|].
  destruct (input_segment_fed _ _ _ _ _ _ _ (proj1 (wf_rcv_wnd _ (link_kcp _ _ _ _ _ _ Hl))) H1) as [Hf _].
  destruct (input_segment_heard c k s N M D P a k1 a1) as [Ha _]; try done; [lia|].
  destruct (IH k1 a1) as [Hf2 Ha2]; try done; [lia|by rewrite (fed_rcv_wnd _ _ Hf)|].
  split; [by eapply fed_trans|auto].
Qed.

Lemma input_segs_wnd l c k a k' a' w :
  128 <= rcv_wnd k -> Forall (fun s => seg_wnd s = w) l -> l <> [] ->
  input_segs k c l a = Ok (k', a') -> rmt_wnd k' = u16 w.
Proof.
  revert k a. induction l as [|s l IH]; intros k a Hk Hw Hne H; [done|]. cbn [input_segs] in H.
  apply Forall_cons in Hw as [Hs Hw]. apply bind_Ok in H as ([k1 a1] & H1 & H).
  destruct (input_segment_fed _ _ _ _ _ _ _ Hk H1) as (Hf & Er & _).
  destruct l as [|t l].
  - cbn in H. injection H as <- _. rewrite Er. cbn. by rewrite Hs.
  - by eapply IH; [rewrite (fed_rcv_wnd _ _ Hf)| |done|].
Qed.

Lemma input_segs_heard l c k N M D P a k' a' w x :
  link c N M D P k -> (forall i, P i -> 0 <= i < Z.of_nat (length N)) -> Forall (genuine c M P) l ->
  ackcount k + Z.of_nat (length l) < 1073741824 -> rcv_wnd k < 65536 ->
  Forall (fun s => seg_wnd s = w) l -> x ∈ l ->
  input_segs k c l a = Ok (k', a') -> heard k (Z.of_nat (length M)) w x k'.
Proof.
  intros Hl HP Hg Hc Hw Hwnd Hx H. pose proof (wf_rcv_wnd _ (link_kcp _ _ _ _ _ _ Hl)) as Hk.
  destruct (input_segs_keep l c k N M D P a k' a' Hl HP Hg Hc Hw H) as [Hf _].
  assert (rmt_wnd k' = u16 w) as Er.
  { apply (input_segs_wnd l c k a k' a' w); [lia|done| |done]. by intros ->; apply not_elem_of_nil in Hx. }
  revert k a Hl Hc Hw Hk H Hf. induction l as [|s l IH]; intros k a Hl Hc Hw Hk H Hf;
    [by apply not_elem_of_nil in Hx|]. cbn [input_segs] in H.
  apply Forall_cons in Hg as [Hs Hg]. apply Forall_cons in Hwnd as [Hsw Hwnd].
  apply bind_Ok in H as ([k1 a1] & H1 & H). cbn [length] in Hc.
  destruct (input_segment_link c k s N M D P a k1 a1) as (Hl1 & [Hgr _] & _ & Hc1 & _); try done; [lia|].
  destruct (input_segment_fed _ _ _ _ _ _ _ (proj1 Hk) H1) as (Hf1 & _ & Hask).
  destruct (input_segment_heard c k s N M D P a k1 a1) as (Ha1 & Hp1 & Hk1); try done; [lia|].
  destruct (input_segs_keep l c k1 N M D P a1 k' a') as [Hf2 Ha2]; try done;
    [lia|by rewrite (fed_rcv_wnd _ _ Hf1)|].
  apply elem_of_cons in Hx as [->|Hx].
  - constructor; [done| | | |done].
    + intros E Hin. apply Ha2, Hp1; [done|]. pose proof (ro_nxt _ _ _ (link_rcv _ _ _ _ _ _ Hl)). lia.
    + intros E. eapply sublist_not_elem; [apply (fed_sns _ _ Hf2)|by apply Hk1].
    + intros E. apply (fed_tell _ _ Hf2). by apply Hask.
  - destruct (IH Hg Hwnd Hx k1 a1) as [_ Hpu Hac Has _]; try done;
      [lia|by rewrite (fed_rcv_wnd _ _ Hf1)|by rewrite (fed_rcv_wnd _ _ Hf1)|].
    constructor; try done. intros E Hin. apply Hpu; [done|]. rewrite (fed_rcv_wnd _ _ Hf1). lia.
Qed.

(** One datagram. *)
Lemma ikcp_input_heard c k g N M D P r k' w x :
  link c N M D P k -> (forall i, P i -> 0 <= i < Z.of_nat (length N)) ->
  Forall (genuine c M P) g -> Forall (fun s => seg_wnd s = w) g -> x ∈ g ->
  Z.of_nat (length (datagram g)) < 2147483648 ->
  24 * ackcount k + Z.of_nat (length (datagram g)) < 25769803776 -> rcv_wnd k < 65536 ->
  ikcp_input k (Some (datagram g)) (Z.of_nat (length (datagram g))) = Ok (r, k') ->
  heard k (Z.of_nat (length M)) w x k'.
Proof.
  intros Hl HP Hg Hwnd Hx Hlen Hc Hw H. pose proof (link_conv _ _ _ _ _ _ Hl) as Hcv.
  assert (g <> []) as Hne by (by intros ->; apply not_elem_of_nil in Hx).
  assert (Forall (wire_ok (conv k)) g) as Hwo.
  { rewrite Hcv. eapply Forall_impl; [exact Hg|]. by intros s [? _]. }
  pose proof (datagram_length_ge _ g Hwo) as Hge. rewrite (ikcp_input_wire k g Hne Hwo Hlen), Hcv in H.
  apply bind_Ok in H as ([k1 a1] & H1 & H). apply bind_Ok in H as (k2 & H2 & H). injection H as _ <-.
  destruct (input_segs_heard g c k N M D P (mkAcked 0 0 0) k1 a1 w x) as [Hf Hpu Hac Has Hwd]; try done; [lia|].
  apply input_finish_fed in H2 as [E1 E2].
  constructor.
  - eapply fed_trans; [done|]. apply fed_receiving; [done|by rewrite E2].
  - intros ? ?. eapply acks_has_view; [by apply receiving_acks|auto].
  - intros ?. rewrite E2. auto.
  - intros ?. injection E1 as _ _ _ _ _ _ _ _ _ _ -> _ _. auto.
  - by rewrite (f_equal snd E1 : rmt_wnd k2 = rmt_wnd k1).
Qed.
End Heard.
