(* ===== verification/KcpMessages.v ===== *)
(** * kcp_learn/ikcp.c: message boundaries

    In message mode ([stream] 0, the mode ikcp_create sets) one ikcp_send is one message: it is
    cut into fragments numbered down to 0, and one ikcp_recv gives the whole of it.  Over the
    network of IkcpArq.v the messages an application receives are a prefix of the
    messages the other one sent, boundaries included. *)

From stdpp Require Import functions relations.
From S2P Require Import Prelude IkcpBase IkcpCb IkcpSnd IkcpRcv IkcpInput IkcpFlush IkcpArq.

(** [f] is the message [m] in numbered fragments. *)
Definition framed (m : list Z) (f : list (Z * list Z)) : Prop :=
  Forall is_byte m /\ Z.of_nat (length m) < 2147483648 /\ f <> [] /\ (length f < 128)%nat /\ bytes_of f = m /\
  forall i p, f !! i = Some p -> fst p = Z.of_nat (length f - 1 - i).

Lemma fragments_frg frg m n b i s : fragments frg m n b !! i = Some s -> seg_frg s = frg (n - 1 - i)%nat.
Proof.
  revert b i. induction n as [|n IH]; intros b i; cbn [fragments]; [done|].
  destruct i as [|i]; cbn; [intros [= <-]; cbn; f_equal; lia|].
  intros H%IH. rewrite H. f_equal. lia.
Qed.

Lemma fragments_framed m n b :
  Forall is_byte b -> Z.of_nat (length b) < 2147483648 -> (0 < n < 128)%nat -> (length b <= n * m)%nat ->
  framed b (payload <$> fragments Z.of_nat m n b).
Proof.
  intros Hby Hlen Hn Hb. split; [done|]. split; [done|]. split; [|split].
  - intros E. apply (f_equal length) in E. rewrite length_fmap, length_fragments in E. cbn in E. lia.
  - rewrite length_fmap, length_fragments. lia.
  - split; [rewrite bytes_of_payload; by apply fragments_concat|]. intros i p. rewrite list_lookup_fmap, fmap_Some, length_fmap, length_fragments.
    intros (s & Hs & ->). cbn. by rewrite (fragments_frg _ _ _ _ _ _ Hs).
Qed.

(** A complete message at the head of a queue is what ikcp_recv takes. *)
Lemma framed_first k b f rest X :
  rcv_wf k -> framed b f -> recv_ready k = true ->
  (payload <$> rcv_queue k) ++ X = f ++ rest ->
  exists m q, first_message (rcv_queue k) = (m, q) /\ payload <$> m = f /\
    (payload <$> q) ++ X = rest.
Proof.
  intros Hk (_ & _ & Hne & _ & _ & Hf) Hrd E. pose proof (wf_nrcv_que _ Hk) as Hnq.
  assert (length f <= length (rcv_queue k))%nat as Hlen.
  { unfold recv_ready in Hrd. destruct (rcv_queue k) as [|s q] eqn:Eq; [done|].
    destruct f as [|p f]; [done|]. cbn in E. injection E as Ep _.
    pose proof (Hf O p eq_refl) as Hp. rewrite <- Ep in Hp. cbn in Hp.
    apply orb_true_iff in Hrd as [H0%Z.eqb_eq|H1%Z.leb_le]; [cbn; lia|].
    rewrite Hnq in H1. unfold qlen in H1. cbn in *. lia. }
  set (n := length f) in *.
  assert (payload <$> take n (rcv_queue k) = f) as Em.
  { apply (f_equal (take n)) in E. rewrite take_app_le in E by by rewrite length_fmap.
    rewrite (take_app_length' f rest n) in E by done. by rewrite fmap_take. }
  assert (first_message (rcv_queue k) = (take n (rcv_queue k), drop n (rcv_queue k))) as Hfm.
  { rewrite <- (take_drop n (rcv_queue k)) at 1.
    apply (first_message_fragments _ (mjoin (seg_bytes <$> take n (rcv_queue k)))). split; [|split; [done|]].
    - intros E0. rewrite E0 in Em. by subst f.
    - intros i s Hs. assert (f !! i = Some (payload s)) as Hi by (by rewrite <- Em, list_lookup_fmap, Hs).
      rewrite length_take, Nat.min_l by lia. exact (Hf _ _ Hi). }
  exists (take n (rcv_queue k)), (drop n (rcv_queue k)). split_and!; [done|done|].
  apply (f_equal (drop n)) in E. rewrite (drop_app_length' f rest n), drop_app_le in E by (done || rewrite length_fmap; lia).
  by rewrite fmap_drop.
Qed.

(** ** The system, with the messages of the applications *)

Record msys := mkMsys {
  base : sys;
  (** the messages ikcp_send accepted, and those ikcp_recv gave *)
  posted : bool -> list (list Z);
  fetched : bool -> list (list Z) }.

Section Messages.
Context `{env : Env} `{host : Host}.

Inductive mstep (s : msys) : msys -> Prop :=
  | mstep_send e b r k' :
      Forall is_byte b -> Z.of_nat (length b) < 2147483648 ->
      ikcp_send (ep (base s) e) (Some b) (Z.of_nat (length b)) = Ok (r, k') ->
      mstep s (mkMsys
        (set_end (base s) e k' []
          (if r =? 0 then b
           else drop (length (queue_bytes (snd_queue (ep (base s) e)))) (queue_bytes (snd_queue k'))) [])
        (<[e := posted s e ++ if r =? 0 then [b] else []]> (posted s)) (fetched s))
  | mstep_recv e len r out k' :
      is_i32 len -> ikcp_recv (ep (base s) e) true len = Ok (r, out, k') ->
      mstep s (mkMsys (set_end (base s) e k' [] [] (if len <? 0 then [] else out)) (posted s)
        (<[e := fetched s e ++ if (r <? 0) || (len <? 0) then [] else [out]]> (fetched s)))
  | mstep_input e d r k' :
      d ∈ net (base s) (negb e) ->
      24 * ackcount (ep (base s) e) + Z.of_nat (length d) < 25769803776 ->
      ikcp_input (ep (base s) e) (Some d) (Z.of_nat (length d)) = Ok (r, k') ->
      mstep s (mkMsys (set_end (base s) e k' [] [] []) (posted s) (fetched s))
  | mstep_update e now k' out :
      is_u32 now -> ackcount (ep (base s) e) < 2147483648 ->
      snd_nxt (ep (base s) e) + qlen (snd_queue (ep (base s) e)) < 2147483648 ->
      ikcp_update (ep (base s) e) now = Ok (k', out) ->
      mstep s (mkMsys (set_end (base s) e k' out [] []) (posted s) (fetched s))
  | mstep_flush e k' out :
      ackcount (ep (base s) e) < 2147483648 ->
      snd_nxt (ep (base s) e) + qlen (snd_queue (ep (base s) e)) < 2147483648 ->
      ikcp_flush (ep (base s) e) = Ok (k', out) ->
      mstep s (mkMsys (set_end (base s) e k' out [] []) (posted s) (fetched s))
  | mstep_settings e a b c d :
      is_i32 a -> is_i32 b -> is_i32 c -> is_i32 d ->
      mstep s (mkMsys
        (set_end (base s) e (snd (ikcp_nodelay (snd (ikcp_wndsize (ep (base s) e) a b)) a b c d)) [] [] [])
        (posted s) (fetched s)).

(** It is the system of IkcpArq.v. *)
Lemma mstep_step s s' : mstep s s' -> step (base s) (base s').
Proof. destruct 1; cbn; by econstructor. Qed.

(** [F] is the fragments of each message, [n] how many messages each application took. *)
Record messages_inv (c : Z) (s : msys) (N D : bool -> list (Z * list Z))
    (F : bool -> list (list (Z * list Z))) (n : bool -> nat) : Prop := {
  mi_at : at_inv c N D (base s);
  mi_stream : forall e, stream (ep (base s) e) = 0;
  mi_posted : forall e, Forall2 framed (posted s e) (F e);
  mi_numbered : forall e, N e ++ (payload <$> snd_queue (ep (base s) e)) = mjoin (F e);
  mi_count : forall e, (n e <= length (F (negb e)))%nat;
  mi_taken : forall e, D e = mjoin (take (n e) (F (negb e)));
  mi_fetched : forall e, fetched s e = take (n e) (posted s (negb e)) }.

Definition minv_of (c : Z) (s : msys) (F : bool -> list (list (Z * list Z))) : Prop :=
  exists N D n, messages_inv c s N D F n.
Definition minv (c : Z) (s : msys) : Prop := exists F, minv_of c s F.

(** A step of end [e] that posts and fetches nothing. *)
Lemma minv_quiet c s N D F n e k' out a g l :
  messages_inv c s N D F n ->
  at_inv c (<[e := N e ++ (payload <$> l)]> N) D (set_end (base s) e k' out a g) ->
  modes k' = modes (ep (base s) e) -> snd_queue (ep (base s) e) = l ++ snd_queue k' ->
  messages_inv c (mkMsys (set_end (base s) e k' out a g) (posted s) (fetched s))
    (<[e := N e ++ (payload <$> l)]> N) D F n.
Proof.
  intros [Ha Hs Hp Hn Hc Ht Hf] Ha' [= _ Es _ _] Eq. constructor; try done; intros e'; cbn;
    (destruct (decide (e' = e)) as [->|Hne]; [rewrite !fn_lookup_insert|rewrite !fn_lookup_insert_ne by done]);
    try done.
  - by rewrite Es.
  - rewrite <- app_assoc, <- fmap_app, <- Eq. apply Hn.
Qed.

Lemma minv_still c s N D F n e k' out a g :
  messages_inv c s N D F n -> at_inv c N D (set_end (base s) e k' out a g) ->
  modes k' = modes (ep (base s) e) -> snd_queue k' = snd_queue (ep (base s) e) ->
  messages_inv c (mkMsys (set_end (base s) e k' out a g) (posted s) (fetched s)) N D F n.
Proof.
  intros [Ha Hs Hp Hn Hc Ht Hf] Ha' [= _ Es _ _] Eq. constructor; try done; intros e'; cbn;
    (destruct (decide (e' = e)) as [->|Hne]; [rewrite !fn_lookup_insert|rewrite !fn_lookup_insert_ne by done]);
    try done.
  - by rewrite Es.
  - by rewrite Eq.
Qed.

Lemma frag_count_pos m len : 1 <= frag_count m len.
Proof. unfold frag_count. lia. Qed.

(** What a send posts: the message in its fragments, or nothing when it is too long. *)
Definition posts (c : Z) (s' : msys) (F : bool -> list (list (Z * list Z))) (e : bool) (cnt r : Z) : Prop :=
  if cnt >=? IKCP_WND_RCV then r = -2 /\ minv_of c s' F
  else r = 0 /\ exists f, length f = Z.to_nat cnt /\ minv_of c s' (<[e := F e ++ [f]]> F).

Definition sent_state (s : msys) (e : bool) (b : list Z) (r : Z) (k' : ikcpcb) : msys :=
  mkMsys
    (set_end (base s) e k' []
      (if r =? 0 then b
       else drop (length (queue_bytes (snd_queue (ep (base s) e)))) (queue_bytes (snd_queue k'))) [])
    (<[e := posted s e ++ if r =? 0 then [b] else []]> (posted s)) (fetched s).

Definition fetched_state (s : msys) (e : bool) (len r : Z) (out : list Z) (k' : ikcpcb) : msys :=
  mkMsys (set_end (base s) e k' [] [] (if len <? 0 then [] else out)) (posted s)
    (<[e := fetched s e ++ if (r <? 0) || (len <? 0) then [] else [out]]> (fetched s)).

Lemma minv_send c s N D F n e b r k' :
  refusals_stop -> messages_inv c s N D F n -> Forall is_byte b -> Z.of_nat (length b) < 2147483648 ->
  ikcp_send (ep (base s) e) (Some b) (Z.of_nat (length b)) = Ok (r, k') ->
  posts c (sent_state s e b r k') F e
    (frag_count (mss (ep (base s) e)) (Z.of_nat (length b))) r.
Proof.
  intros Hstop Hi Hby Hlen H. pose proof Hi as [Ha Hs Hp Hn Hc Ht Hf].
  pose proof (link_kcp _ _ _ _ _ _ (ei_link _ _ _ _ _ _ _ _ _ (Ha e))) as Hk.
  pose proof (send_step_inv c N D (base s) e b r k' Ha Hby Hlen H) as Ha'.
  destruct (ikcp_send_took _ _ _ _ Hk Hby Hlen H) as [Hsame _].
  pose proof (ikcp_send_message_ok _ b r k' Hstop Hk (Hs e) Hlen H) as Hx.
  unfold posts. set (cnt := frag_count _ _) in *.
  destruct (Z.geb_spec cnt IKCP_WND_RCV) as [_|Hcnt].
  { injection Hx as -> ->. split; [done|]. exists N, D, n.
    destruct (minv_still c s N D F n e _ _ _ _ Hi Ha' eq_refl eq_refl) as [G1 G2 G3 G4 G5 G6 G7].
    constructor; try done; intros e'; cbn; rewrite app_nil_r, insert_same; auto. }
  injection Hx as -> Ek'. set (fs := fragments _ _ _ _) in Ek'.
  set (f := payload <$> fs).
  assert (framed b f) as Hfr.
  { apply fragments_framed; [done|done| |]; pose proof (frag_count_pos (mss (ep (base s) e)) (Z.of_nat (length b)));
      [unfold IKCP_WND_RCV in *; lia|].
    pose proof (wf_mtu _ Hk). pose proof (wf_mss _ Hk). unfold IKCP_OVERHEAD in *.
    rewrite <- (Nat2Z.id (length b)) at 1. apply frag_count_enough; lia. }
  assert (snd_queue k' = snd_queue (ep (base s) e) ++ fs) as Eq by (rewrite Ek'; apply push_segs_queue).
  assert (stream k' = stream (ep (base s) e)) as Es by by rewrite Hsame.
  split; [done|]. exists f. split; [subst f fs; by rewrite length_fmap, length_fragments|].
  exists N, D, n. constructor; cbn; try done; intros e'.
  - destruct (decide (e' = e)) as [->|?]; [rewrite fn_lookup_insert, Es|rewrite fn_lookup_insert_ne by done]; apply Hs.
  - destruct (decide (e' = e)) as [->|?]; [rewrite !fn_lookup_insert|by rewrite !fn_lookup_insert_ne].
    apply Forall2_app; [done|]. by constructor.
  - destruct (decide (e' = e)) as [->|?]; [rewrite !fn_lookup_insert|by rewrite !fn_lookup_insert_ne].
    rewrite Eq, fmap_app, app_assoc, Hn, join_app. cbn. by rewrite app_nil_r.
  - destruct (decide (negb e' = e)) as [<-|?]; [rewrite fn_lookup_insert|by rewrite fn_lookup_insert_ne].
    specialize (Hc e'). rewrite length_app. lia.
  - destruct (decide (negb e' = e)) as [<-|?]; [rewrite fn_lookup_insert|by rewrite fn_lookup_insert_ne].
    specialize (Hc e'). by rewrite take_app_le.
  - destruct (decide (negb e' = e)) as [<-|?]; [rewrite fn_lookup_insert|by rewrite fn_lookup_insert_ne].
    specialize (Hc e'). pose proof (Forall2_length _ _ _ (Hp (negb e'))) as El.
    by rewrite take_app_le by lia.
Qed.

(** What the application of [e] has not taken: the fragments in its queue, those that the
    connection has not got to, and those the peer has not numbered. *)
Lemma unread_stream c s N D F n e :
  messages_inv c s N D F n ->
  (payload <$> rcv_queue (ep (base s) e)) ++
    (drop (Z.to_nat (rcv_nxt (ep (base s) e))) (N (negb e)) ++
     (payload <$> snd_queue (ep (base s) (negb e)))) = mjoin (drop (n e) (F (negb e))).
Proof.
  intros [Ha Hs Hp Hn Hc Ht Hf]. pose proof (ei_link _ _ _ _ _ _ _ _ _ (Ha e)) as [Hk _ _ _ [_ Hq _] _].
  pose proof (take_drop (Z.to_nat (rcv_nxt (ep (base s) e))) (N (negb e))) as E.
  rewrite <- Hq, Ht, <- app_assoc in E. pose proof (Hn (negb e)) as E2.
  rewrite <- E in E2. rewrite <- (take_drop (n e) (F (negb e))) in E2 at 2.
  rewrite join_app, <- !app_assoc in E2. by apply app_inv_head in E2.
Qed.

(** A message that can be read is the next one of the peer. *)
Lemma next_message c s N D F n e :
  messages_inv c s N D F n -> recv_ready (ep (base s) e) = true ->
  exists f b m rest, F (negb e) !! n e = Some f /\ posted s (negb e) !! n e = Some b /\ framed b f /\
    first_message (rcv_queue (ep (base s) e)) = (m, rest) /\ (payload <$> m) = f.
Proof.
  intros Hi Hrd. pose proof (unread_stream _ _ _ _ _ _ e Hi) as E. pose proof Hi as [Ha _ Hp _ _ _ _].
  pose proof (ei_link _ _ _ _ _ _ _ _ _ (Ha e)) as [Hk _ _ _ _ _].
  destruct (drop (n e) (F (negb e))) as [|f fs] eqn:Ed.
  { exfalso. unfold recv_ready in Hrd. by destruct (rcv_queue (ep (base s) e)). }
  assert (F (negb e) !! n e = Some f) as Hfn by (by rewrite <- (Nat.add_0_r (n e)), <- lookup_drop, Ed).
  destruct (Forall2_lookup_r _ _ _ _ _ (Hp (negb e)) Hfn) as (b & Hb & Hfr).
  destruct (framed_first _ b f _ _ (kcp_wf_rcv _ Hk) Hfr Hrd E) as (m & q & Hm & Em & _).
  by exists f, b, m, q.
Qed.

Lemma minv_recv c s N D F n e len r out k' :
  messages_inv c s N D F n -> is_i32 len -> ikcp_recv (ep (base s) e) true len = Ok (r, out, k') ->
  minv_of c (fetched_state s e len r out k') F /\ modes k' = modes (ep (base s) e).
Proof.
  intros Hi Hlen H. pose proof Hi as [Ha Hs Hp Hn Hc Ht Hf].
  destruct (recv_step_inv c N D (base s) e len r out k' Ha Hlen H) as (l & Hl & Eq & Emo & Ha').
  split; [|exact Emo]. pose proof Emo as [= _ Es _ _]. unfold fetched_state. unfold took_message in Hl.
  destruct ((r <? 0) || (len <? 0)).
  { subst l. exists N, D, n.
    assert (at_inv c N D (set_end (base s) e k' [] [] (if len <? 0 then [] else out))) as Ha2.
    { eapply at_inv_ext; [exact Ha'|done|]. intros e'. by rewrite app_nil_r, insert_same. }
    destruct (minv_still c s N D F n e _ _ _ _ Hi Ha2 Emo Eq) as [G1 G2 G3 G4 G5 G6 G7].
    constructor; try done; intros e'; cbn; rewrite app_nil_r, insert_same; auto. }
  destruct Hl as (m & rest & Hrd & Hm & -> & ->).
  destruct (next_message _ _ _ _ _ _ e Hi Hrd) as (f & b & m' & q & Hfn & Hb & Hfr & Hm' & Em).
  rewrite Hm in Hm'. injection Hm' as <- <-. rewrite Em in *. set (ms := F (negb e)) in *.
  assert (bytes_of f = b) as Eb by apply Hfr. rewrite Eb in *.
  assert (n e < length ms)%nat as Hlt by by eapply lookup_lt_Some.
  exists N, (<[e := D e ++ f]> D), (<[e := S (n e)]> n). constructor; cbn; try done; intros e'.
  - destruct (decide (e' = e)) as [->|?]; [rewrite fn_lookup_insert, Es|rewrite fn_lookup_insert_ne by done]; apply Hs.
  - destruct (decide (e' = e)) as [->|?]; [rewrite fn_lookup_insert, Eq|rewrite fn_lookup_insert_ne by done]; apply Hn.
  - destruct (decide (e' = e)) as [->|?]; [rewrite fn_lookup_insert; exact Hlt|by rewrite fn_lookup_insert_ne].
  - destruct (decide (e' = e)) as [->|?]; [rewrite !fn_lookup_insert|by rewrite !fn_lookup_insert_ne].
    fold ms. rewrite (take_S_r _ _ _ Hfn), join_app, Ht. fold ms. cbn. by rewrite app_nil_r.
  - destruct (decide (e' = e)) as [->|?]; [rewrite !fn_lookup_insert|by rewrite !fn_lookup_insert_ne].
    by rewrite (take_S_r _ _ _ Hb), Hf.
Qed.

Lemma settings_modes k a b c d : modes (snd (ikcp_nodelay (snd (ikcp_wndsize k a b)) a b c d)) = modes k.
Proof.
  unfold ikcp_nodelay, ikcp_wndsize. cbn [snd].
  by destruct (a >? 0), (b >? 0), (a >=? 0), (b >=? 0), (c >=? 0), (d >=? 0).
Qed.

Lemma settings_queue k a b c d :
  snd_queue (snd (ikcp_nodelay (snd (ikcp_wndsize k a b)) a b c d)) = snd_queue k.
Proof.
  unfold ikcp_nodelay, ikcp_wndsize. cbn [snd].
  by destruct (a >? 0), (b >? 0), (a >=? 0), (b >=? 0), (c >=? 0), (d >=? 0).
Qed.

Lemma minv_input c s N D F n e d r k' :
  messages_inv c s N D F n -> d ∈ net (base s) (negb e) ->
  24 * ackcount (ep (base s) e) + Z.of_nat (length d) < 25769803776 ->
  ikcp_input (ep (base s) e) (Some d) (Z.of_nat (length d)) = Ok (r, k') ->
  minv_of c (mkMsys (set_end (base s) e k' [] [] []) (posted s) (fetched s)) F /\
  modes k' = modes (ep (base s) e) /\
  24 * ackcount k' <= 24 * ackcount (ep (base s) e) + Z.of_nat (length d).
Proof.
  intros Hi Hd Hc H. pose proof (mi_at _ _ _ _ _ _ Hi) as Ha.
  destruct (input_step_inv c N D (base s) e d r k' Ha) as (Ha' & Eq & Hk); try done.
  apply ikcp_input_modes in H as Em. split_and!; try done. exists N, D, n. by apply minv_still.
Qed.

Lemma minv_update c s N D F n e now k' out :
  is_u32 c -> messages_inv c s N D F n -> is_u32 now -> ackcount (ep (base s) e) < 2147483648 ->
  snd_nxt (ep (base s) e) + qlen (snd_queue (ep (base s) e)) < 2147483648 ->
  ikcp_update (ep (base s) e) now = Ok (k', out) ->
  minv_of c (mkMsys (set_end (base s) e k' out [] []) (posted s) (fetched s)) F /\
  modes k' = modes (ep (base s) e).
Proof.
  intros Hcu Hi Hnow Hc Hn H. pose proof (mi_at _ _ _ _ _ _ Hi) as Ha.
  destruct (update_step_inv c N D (base s) e now k' out Hcu Ha) as (l & Eq & Em & Ha'); try done.
  split; [|done]. eexists _, D, n. by eapply minv_quiet.
Qed.

Lemma minv_flush c s N D F n e k' out :
  is_u32 c -> messages_inv c s N D F n -> ackcount (ep (base s) e) < 2147483648 ->
  snd_nxt (ep (base s) e) + qlen (snd_queue (ep (base s) e)) < 2147483648 ->
  ikcp_flush (ep (base s) e) = Ok (k', out) ->
  minv_of c (mkMsys (set_end (base s) e k' out [] []) (posted s) (fetched s)) F /\
  modes k' = modes (ep (base s) e).
Proof.
  intros Hcu Hi Hc Hn H. pose proof (mi_at _ _ _ _ _ _ Hi) as Ha.
  destruct (flush_step_inv c N D (base s) e k' out Hcu Ha) as (l & Eq & Em & Ha'); try done.
  split; [|done]. eexists _, D, n. by eapply minv_quiet.
Qed.

Lemma mstep_inv c s s' : refusals_stop -> is_u32 c -> minv c s -> mstep s s' -> minv c s'.
Proof.
  intros Hstop Hcu (F & N & D & n & Hi) Hst. destruct Hst.
  - pose proof (minv_send c s N D F n e b r k' Hstop Hi) as Hp. unfold posts, sent_state in Hp.
    destruct (_ >=? _); destruct Hp as [Er Hp]; try done; [by exists F|].
    destruct Hp as (f & _ & Hp). by eexists.
  - exists F. by eapply minv_recv.
  - exists F. by eapply minv_input.
  - exists F. by eapply minv_update.
  - exists F. by eapply minv_flush.
  - exists F, N, D, n. pose proof (mi_at _ _ _ _ _ _ Hi) as Ha.
    apply minv_still; try done; [|apply settings_modes|apply settings_queue]. by apply settings_step_inv.
Qed.

(** Two connections in message mode, before anything was sent. *)
Definition minitial (c : Z) (s : msys) : Prop :=
  initial c (base s) /\
  forall e, stream (ep (base s) e) = 0 /\ posted s e = [] /\ fetched s e = [].

Lemma minitial_inv c s : minitial c s -> minv c s.
Proof.
  intros [Hi Hm]. destruct (initial_inv c (base s) Hi) as (N & D & Ha).
  assert (forall e, N e = [] /\ D e = []) as HND.
  { intros e. destruct (Ha e) as [Hl _ _ _]. destruct Hi as [_ Hi].
    destruct (Hi e) as (_ & _ & _ & Hk & _ & _ & _ & Hn & Hr & _ & _ & Hq & _).
    destruct (so_nxt _ _ _ (link_snd _ _ _ _ _ _ Hl)) as [El _]. rewrite Hn in El.
    pose proof (ro_queue _ _ _ (link_rcv _ _ _ _ _ _ Hl)) as E. rewrite Hr, take_0 in E.
    apply app_eq_nil in E as [-> _]. split; [|done]. destruct (N e); [done|cbn in El; lia]. }
  exists (fun _ => []), N, D, (fun _ => O). constructor; intros; try done; try apply Hm.
  - by destruct (Hm e) as (_ & -> & _).
  - destruct Hi as [_ Hi]. destruct (Hi e) as (_ & _ & _ & _ & _ & _ & _ & _ & _ & -> & _).
    destruct (HND e) as [-> _]. done.
  - cbn. apply HND.
Qed.

Lemma mreachable_inv c s0 s : refusals_stop -> minitial c s0 -> rtc mstep s0 s -> minv c s.
Proof.
  intros Hstop Hi Hr. pose proof (minitial_inv c s0 Hi) as H0. destruct Hi as [[Hc _] _].
  induction Hr as [|s1 s2 s3 Hs Hr IH]; [done|]. apply IH. by eapply mstep_inv.
Qed.

(** ** Calls that cannot fail

    In a state the system reaches, every call returns and leads to another one, given that
    malloc succeeds where the call allocates; [F] tells
    what was posted.  [numbered] counts the segments an end has queued so far. *)

Definition numbered (s : msys) (e : bool) : Z :=
  snd_nxt (ep (base s) e) + qlen (snd_queue (ep (base s) e)).

Lemma numbered_length c s F e : minv_of c s F -> numbered s e = Z.of_nat (length (mjoin (F e))).
Proof.
  intros (N & D & n & Hi). rewrite <- (mi_numbered _ _ _ _ _ _ Hi e), length_app, length_fmap.
  unfold numbered, qlen. pose proof (ei_link _ _ _ _ _ _ _ _ _ (mi_at _ _ _ _ _ _ Hi e)) as Hl.
  destruct (so_nxt _ _ _ (link_snd _ _ _ _ _ _ Hl)) as [-> _]. lia.
Qed.

Lemma minv_kcp c s F e :
  minv_of c s F -> kcp_wf (ep (base s) e) /\ output (ep (base s) e) = true /\ stream (ep (base s) e) = 0 /\
  exists ps, ack_rep (ep (base s) e) ps.
Proof.
  intros (N & D & n & Hi). pose proof (ei_link _ _ _ _ _ _ _ _ _ (mi_at _ _ _ _ _ _ Hi e)) as [Hk _ Ho _ _ Ha].
  split_and!; try done; [by apply Hi|]. destruct Ha as (ps & ? & _). by exists ps.
Qed.

Lemma minv_net_bytes c s F e d : minv_of c s F -> d ∈ net (base s) e -> Forall is_byte d.
Proof.
  intros (N & D & n & Hi) Hd. pose proof (ei_net _ _ _ _ _ _ _ _ _ (mi_at _ _ _ _ _ _ Hi e)) as Hn.
  rewrite Forall_forall in Hn. destruct (Hn d Hd) as (g & -> & _ & _ & Hg).
  unfold datagram. apply Forall_join, Forall_fmap. eapply Forall_impl; [exact Hg|].
  intros s0 (_ & _ & Hb & _). unfold compose, wire, seg_bytes. apply Forall_app.
  split; [apply header_bytes_byte|by apply Forall_take].
Qed.

(** An mtu is at least 50, so a fragment holds at least 26 bytes. *)
Lemma frag_count_le k len n : kcp_wf k -> 1 <= n -> 0 <= len <= 26 * n -> frag_count (mss k) len <= n.
Proof.
  intros Hk Hn Hlen. pose proof (wf_mtu _ Hk) as Hmtu. pose proof (wf_mss _ Hk) as Hmss.
  unfold IKCP_OVERHEAD, frag_count in *. assert ((len + mss k - 1) / mss k < n + 1); [|lia].
  apply Z.div_lt_upper_bound; nia.
Qed.

Lemma post_returns c s F e b :
  malloc_never_fails -> minv_of c s F -> Forall is_byte b -> Z.of_nat (length b) <= 3302 ->
  returns (ikcp_send (ep (base s) e) (Some b) (Z.of_nat (length b))) (fun '(r, k') =>
    r = 0 /\ modes k' = modes (ep (base s) e) /\ ackcount k' = ackcount (ep (base s) e) /\
    exists f, length f = Z.to_nat (frag_count (mss (ep (base s) e)) (Z.of_nat (length b))) /\
      minv_of c (sent_state s e b 0 k') (<[e := F e ++ [f]]> F)).
Proof.
  intros allocs Hi Hby Hlen. destruct (minv_kcp c s F e Hi) as (Hk & _ & Hs & _).
  destruct Hi as (N & D & n & Hi).
  pose proof (frag_count_le _ (Z.of_nat (length b)) 127 Hk ltac:(lia) ltac:(lia)) as Hf.
  pose proof (ikcp_send_message_exact (ep (base s) e) b allocs Hk Hs ltac:(lia)) as Hx. cbn zeta in Hx.
  set (cnt := frag_count _ _) in *.
  assert ((cnt >=? IKCP_WND_RCV) = false) as Ec by (unfold IKCP_WND_RCV; destruct (Z.geb_spec cnt 128); lia || done).
  rewrite Ec in Hx. eexists. split; [exact Hx|].
  destruct (ikcp_send_took _ _ _ _ Hk Hby ltac:(lia) Hx) as [Hsame _].
  pose proof (minv_send c s N D F n e b _ _ (or_intror allocs) Hi Hby ltac:(lia) Hx) as Hp. fold cnt in Hp.
  unfold posts in Hp. rewrite Ec in Hp. destruct Hp as [_ Hp].
  split_and!; [done|by rewrite Hsame|by rewrite Hsame|done].
Qed.

Lemma recv_keeps k len r out k' :
  kcp_wf k -> is_i32 len -> 0 <= len -> ikcp_recv k true len = Ok (r, out, k') ->
  ackcount k' = ackcount k /\
  ((r < 0 /\ out = []) \/
   (0 <= r <= len /\ (Z.of_nat (length out) < 2147483648 -> r = Z.of_nat (length out)))).
Proof.
  intros Hk Hlen H0 H. destruct (ikcp_recv_exact k true len (kcp_wf_rcv _ Hk) Hlen) as (x & Hx & Hres).
  rewrite H in Hx. injection Hx as <-.
  inversion Hres as [|m rest _ _ _|m rest _ _ _|m rest d k1 Hrd Hm Hal Hd]; subst;
    try (split; [done|left; split; (done || lia)]).
  split.
  - transitivity (ackcount k1); [by destruct (_ && _)|]. rewrite (moved_same _ _ _ Hd).
    by destruct (len <? 0).
  - right. rewrite Z.abs_eq, i32_small in Hal by (unfold is_i32 in Hlen; lia). split; [done|].
    intros Hl. apply (add_lens_exact 0); [|lia|lia].
    pose proof (first_message_app _ _ _ Hm) as Eq. pose proof (wf_rcv_queue _ Hk) as Hwq.
    rewrite Eq in Hwq. by apply Forall_app in Hwq as [? _].
Qed.

Lemma minv_short c s F e :
  minv_of c s F -> Forall (fun m => Forall is_byte m /\ Z.of_nat (length m) < 2147483648) (posted s e).
Proof.
  intros (N & D & n & Hi). pose proof (mi_posted _ _ _ _ _ _ Hi e) as Hp.
  apply Forall_forall. intros m Hm. apply list_elem_of_lookup in Hm as (i & Hm).
  destruct (Forall2_lookup_l _ _ _ _ _ Hp Hm) as (f & _ & Hb & Hl & _). done.
Qed.

(** No message takes more than 127 segments. *)
Lemma numbered_posted c s F e : minv_of c s F -> numbered s e <= 127 * Z.of_nat (length (posted s e)).
Proof.
  intros Hm. rewrite (numbered_length _ _ _ _ Hm). destruct Hm as (N & D & n & Hi).
  pose proof (mi_posted _ _ _ _ _ _ Hi e) as Hp. clear Hi.
  induction Hp as [|m f l ll (_ & _ & _ & Hf & _) _ IH]; [done|].
  change (mjoin (f :: ll)) with (f ++ mjoin ll). rewrite length_app. cbn [length]. lia.
Qed.

(** What an application has received is the first messages that the other one has sent. *)
Lemma fetched_prefix c s F e : minv_of c s F -> exists rest, posted s e = fetched s (negb e) ++ rest.
Proof.
  intros (N & D & n & Hm). rewrite (mi_fetched _ _ _ _ _ _ Hm), negb_involutive.
  eexists. symmetry. apply take_drop.
Qed.

Lemma fetch_returns c s F e len :
  minv_of c s F -> is_i32 len -> 0 <= len ->
  returns (ikcp_recv (ep (base s) e) true len) (fun '(r, out, k') =>
    modes k' = modes (ep (base s) e) /\ ackcount k' = ackcount (ep (base s) e) /\
    ((r < 0 /\ out = []) \/ (0 <= r <= len /\ r = Z.of_nat (length out) /\ Forall is_byte out)) /\
    minv_of c (fetched_state s e len r out k') F).
Proof.
  intros Hi Hlen H0. destruct (minv_kcp c s F e Hi) as (Hk & _). destruct Hi as (N & D & n & Hi).
  destruct (ikcp_recv_wf (ep (base s) e) true len Hk Hlen) as ([[r out] k'] & H & _).
  eexists. split; [exact H|]. destruct (minv_recv c s N D F n e len r out k' Hi Hlen H) as [Hm' Emo].
  destruct (recv_keeps _ _ _ _ _ Hk Hlen H0 H) as [Hac Hr]. split_and!; try done.
  destruct Hr as [?|[Hr Hl]]; [by left|]. right. split; [done|].
  assert (Forall is_byte out /\ Z.of_nat (length out) < 2147483648) as [? ?]; [|by auto].
  destruct (fetched_prefix _ _ _ (negb e) Hm') as (rest & E). rewrite negb_involutive in E.
  pose proof (minv_short _ _ _ (negb e) Hm') as Hs. rewrite E in Hs. apply Forall_app in Hs as [Hs _].
  rewrite Forall_forall in Hs. apply Hs. unfold fetched_state. cbn. rewrite fn_lookup_insert.
  destruct (Z.ltb_spec r 0), (Z.ltb_spec len 0); try lia. apply elem_of_app. right. by left.
Qed.

Lemma deliver_returns c s F e d :
  malloc_never_fails -> minv_of c s F -> d ∈ net (base s) (negb e) ->
  24 * ackcount (ep (base s) e) + Z.of_nat (length d) < 25769803776 ->
  returns (ikcp_input (ep (base s) e) (Some d) (Z.of_nat (length d))) (fun '(r, k') =>
    modes k' = modes (ep (base s) e) /\
    24 * ackcount k' <= 24 * ackcount (ep (base s) e) + Z.of_nat (length d) /\
    minv_of c (mkMsys (set_end (base s) e k' [] [] []) (posted s) (fetched s)) F).
Proof.
  intros allocs Hi Hd Hc. destruct (minv_kcp c s F e Hi) as (Hk & _ & _ & ps & Hps).
  pose proof (minv_net_bytes c s F (negb e) d Hi Hd) as Hby. destruct Hi as (N & D & n & Hi).
  pose proof (ikcp_input_safe (ep (base s) e) ps (Some d) (Z.of_nat (length d)) Hk Hps
    ltac:(split; [done|lia]) ltac:(rewrite <- (ack_count _ _ Hps); lia)) as H.
  destruct (ikcp_input _ _ _) as [[r k']|f] eqn:E.
  - eexists. split; [reflexivity|]. destruct (minv_input c s N D F n e d r k' Hi Hd Hc E) as (? & ? & ?). done.
  - destruct H as [_ (m & size & Hm)]. by rewrite allocs in Hm.
Qed.

Lemma tick_returns c s F e now :
  is_u32 c -> minv_of c s F -> is_u32 now -> ackcount (ep (base s) e) < 2147483648 ->
  numbered s e < 2147483648 ->
  returns (ikcp_update (ep (base s) e) now) (fun '(k', out) =>
    modes k' = modes (ep (base s) e) /\ ackcount k' <= ackcount (ep (base s) e) /\
    Forall (fun d => 0 < Z.of_nat (length d) <= mtu (ep (base s) e)) out /\
    minv_of c (mkMsys (set_end (base s) e k' out [] []) (posted s) (fetched s)) F).
Proof.
  intros Hcu Hi Hnow Hc Hn. destruct (minv_kcp c s F e Hi) as (Hk & Ho & _ & ps & Hps).
  destruct Hi as (N & D & n & Hi). pose proof (ack_count _ _ Hps) as Ec.
  destruct (ikcp_update_wf (ep (base s) e) now ps Hk Hps ltac:(lia) Ho Hnow) as ([k' out] & H & Hp).
  eexists. split; [exact H|]. destruct (minv_update c s N D F n e now k' out Hcu Hi Hnow Hc Hn H) as [? ?].
  destruct Hp as (_ & Hmtu & Hp). split_and!; try done.
  pose proof (update_clock_spec (ep (base s) e) now Hk Hnow) as Hs.
  destruct (update_clock _ now) as [k1 []]; cbn in Hp.
  - destruct Hp as (k2 & _ & Hf). rewrite (flushed_acks _ _ _ _ Hf). lia.
  - destruct Hp as [_ ->]. destruct Hs as [(u & t & -> & _) _]. cbn. lia.
Qed.

Lemma flush_returns c s F e :
  is_u32 c -> minv_of c s F -> ackcount (ep (base s) e) < 2147483648 -> numbered s e < 2147483648 ->
  returns (ikcp_flush (ep (base s) e)) (fun '(k', out) =>
    modes k' = modes (ep (base s) e) /\ ackcount k' <= ackcount (ep (base s) e) /\
    Forall (fun d => 0 < Z.of_nat (length d) <= mtu (ep (base s) e)) out /\
    minv_of c (mkMsys (set_end (base s) e k' out [] []) (posted s) (fetched s)) F).
Proof.
  intros Hcu Hi Hc Hn. destruct (minv_kcp c s F e Hi) as (Hk & Ho & _ & ps & Hps).
  destruct Hi as (N & D & n & Hi). pose proof (ack_count _ _ Hps) as Ec.
  destruct (decide (updated (ep (base s) e) = 0)) as [Hu|Hu].
  - assert (ikcp_flush (ep (base s) e) = Ok (ep (base s) e, [])) as H by (unfold ikcp_flush; by rewrite Hu).
    eexists. split; [exact H|]. destruct (minv_flush c s N D F n e _ _ Hcu Hi Hc Hn H). by split_and!.
  - destruct (ikcp_flush_spec _ ps Hk Hps ltac:(lia) Ho Hu) as ([k' out] & H & Hf).
    eexists. split; [exact H|]. destruct (minv_flush c s N D F n e _ _ Hcu Hi Hc Hn H).
    split_and!; try done; [rewrite (flushed_acks _ _ _ _ Hf); lia|apply Hf].
Qed.

(** *** New connections *)

Definition at_rest (k : ikcpcb) :=
  ((conv k, output k, stream k, user k, mtu k), (snd_nxt k, rcv_nxt k, ackcount k, acklist k, ackblock k),
   (snd_queue k, snd_buf k, rcv_queue k, rcv_buf k)).

(** A connection that nothing was sent or received on, in message mode. *)
Definition idle (c : Z) (o : bool) (u m : Z) (k : ikcpcb) : Prop :=
  kcp_wf k /\ at_rest k = ((c, o, 0, u, m), (0, 0, 0, None, 0), ([], [], [], [])).

Lemma idle_acks c o u m k : idle c o u m k -> ack_rep k [].
Proof.
  intros [_ H]. injection H as _ _ _ _ _ _ _ Hc Hl Hb _ _ _ _.
  constructor; rewrite ?Hl, ?Hb; [done|constructor|by_decide|done].
Qed.

Lemma idle_create c u : malloc_never_fails -> exists k, fst (ikcp_create c u) = Some k /\ idle c false u IKCP_MTU_DEF k.
Proof.
  intros allocs. pose proof (ikcp_create_wf c u) as Hw.
  assert (exists k, fst (ikcp_create c u) = Some k /\
    at_rest k = ((c, false, 0, u, IKCP_MTU_DEF), (0, 0, 0, None, 0), ([], [], [], []))) as (k & Ek & Hr).
  { unfold ikcp_create, ikcp_malloc. cbn zeta iota. rewrite !allocs. by eexists. }
  exists k. split; [done|]. destruct (ikcp_create c u) as [r n]. cbn [fst] in Ek. subst r. by split; [apply Hw|].
Qed.

Lemma idle_output c o u m k : idle c o u m k -> idle c true u m (ikcp_setoutput k true).
Proof.
  intros [[Hs Hr Hc Hu [ps Ha] Hl] H]. destruct Ha. split.
  - constructor; try carry_wf; try done. exists ps. by constructor.
  - injection H as. unfold ikcp_setoutput, at_rest. cbn. congruence.
Qed.

Lemma idle_wndsize c o u m k a b :
  is_i32 a -> is_i32 b -> idle c o u m k -> idle c o u m (snd (ikcp_wndsize k a b)).
Proof.
  intros Ha Hb [Hk H]. destruct (ikcp_settings_wf k a b 0 0 Hk) as (_ & Hk1 & _); try done. split; [done|].
  rewrite <- H. unfold ikcp_wndsize. cbn [snd]. by destruct (a >? 0), (b >? 0).
Qed.

Lemma idle_nodelay c o u m k n i r nc :
  is_i32 n -> is_i32 i -> is_i32 r -> is_i32 nc -> idle c o u m k -> idle c o u m (snd (ikcp_nodelay k n i r nc)).
Proof.
  intros H1 H2 H3 H4 [Hk H]. destruct (ikcp_settings_wf k n i r nc Hk) as (_ & _ & Hk1); try done. split; [done|].
  rewrite <- H. unfold ikcp_nodelay. cbn [snd]. by destruct (n >=? 0), (i >=? 0), (r >=? 0), (nc >=? 0).
Qed.

Lemma idle_setmtu c o u m k m' :
  malloc_never_fails -> 50 <= m' < 1073741824 -> idle c o u m k -> idle c o u m' (snd (ikcp_setmtu k m')).
Proof.
  intros allocs Hm [Hk H]. injection H as E1 E2 E3 E4 E5 E6 E7 E8 E9 E10 E11 E12 E13 E14.
  pose proof (ikcp_setmtu_wf k m' Hk ltac:(lia)) as Hw. rewrite E11, E12 in Hw.
  split; [by destruct (ikcp_setmtu k m'); apply Hw|].
  unfold ikcp_setmtu, ikcp_malloc. rewrite allocs. cbn [negb].
  destruct (Z.ltb_spec m' 50); [lia|]. destruct (Z.ltb_spec m' IKCP_OVERHEAD); [unfold IKCP_OVERHEAD in *; lia|].
  cbn [orb negb snd]. destruct (buffer _); unfold at_rest; cbn; congruence.
Qed.

Lemma idle_initial c k u m :
  is_u32 c -> (forall e : bool, idle c true (u e) (m e) (k e)) ->
  minitial c (mkMsys (mkSys k (fun _ => []) (fun _ => []) (fun _ => [])) (fun _ => []) (fun _ => [])).
Proof.
  intros Hc Hi. split; [split; [done|]|]; intros e; cbn; pose proof (idle_acks _ _ _ _ _ (Hi e)) as Ha;
    destruct (Hi e) as [Hk H]; injection H as E1 E2 E3 E4 E5 E6 E7 E8 E9 E10 E11 E12 E13 E14; by split_and!.
Qed.

(** C10: Messages keep their boundaries: between two connections in message mode, which have
    numbered fewer than 2^31 segments, over a network that loses, repeats and reorders
    datagrams, the messages one application has received are the first ones that the other
    sent, whole, each once and in order.  It holds for any allocator when assert is compiled
    in; in a program compiled with NDEBUG it takes that malloc never fails, since there a
    refused allocation in the middle of a message leaves its first fragments queued. *)
Theorem messages_delivered c s0 s e :
  ndebug env = false \/ malloc_never_fails ->
  minitial c s0 -> rtc mstep s0 s -> exists rest, posted s e = fetched s (negb e) ++ rest.
Proof.
  intros Hstop Hi Hr. destruct (mreachable_inv c s0 s Hstop Hi Hr) as (F & Hm). by eapply fetched_prefix.
Qed.
End Messages.

(** ** A run with messages: the one of IkcpArq.v *)

Section MessagesDemo.
#[local] Existing Instance demo_env.
#[local] Existing Instance x86_64.

Definition mdo_send (e : bool) (b : list Z) (s : msys) : msys :=
  mkMsys (do_send e b (base s)) (<[e := posted s e ++ [b]]> (posted s)) (fetched s).
Definition mdo_base (f : sys -> sys) (s : msys) : msys := mkMsys (f (base s)) (posted s) (fetched s).
Definition mdo_recv (e : bool) (len : Z) (s : msys) : msys :=
  match ikcp_recv (ep (base s) e) true len with
  | Ok (_, out, k') =>
      mkMsys (set_end (base s) e k' [] [] out) (posted s) (<[e := fetched s e ++ [out]]> (fetched s))
  | Err _ => s
  end.

Lemma mdo_send_step e b s r k' :
  Forall is_byte b -> Z.of_nat (length b) < 2147483648 ->
  ikcp_send (ep (base s) e) (Some b) (Z.of_nat (length b)) = Ok (r, k') -> r = 0 -> mstep s (mdo_send e b s).
Proof.
  intros Hb Hl H ->. unfold mdo_send, do_send. rewrite H. by apply (mstep_send s e b 0 k').
Qed.

Lemma mdo_update_step e now s k' out :
  is_u32 now -> ackcount (ep (base s) e) < 2147483648 ->
  snd_nxt (ep (base s) e) + qlen (snd_queue (ep (base s) e)) < 2147483648 ->
  ikcp_update (ep (base s) e) now = Ok (k', out) -> mstep s (mdo_base (do_update e now) s).
Proof. intros H1 H2 H3 H. unfold mdo_base, do_update. rewrite H. by apply (mstep_update s e now k' out). Qed.

Lemma mdo_input_step e s r k' :
  net (base s) (negb e) <> [] ->
  let d := default [] (last (net (base s) (negb e))) in
  24 * ackcount (ep (base s) e) + Z.of_nat (length d) < 25769803776 ->
  ikcp_input (ep (base s) e) (Some d) (Z.of_nat (length d)) = Ok (r, k') -> mstep s (mdo_base (do_input e) s).
Proof.
  intros Hne d Hl H. unfold mdo_base, do_input. fold d. rewrite H. apply (mstep_input s e d r k'); [|done|done].
  subst d. destruct (last (net (base s) (negb e))) as [d|] eqn:E; [by apply last_Some_elem_of|].
  by apply last_None in E.
Qed.

Lemma mdo_recv_step e len s r out k' :
  is_i32 len -> ikcp_recv (ep (base s) e) true len = Ok (r, out, k') ->
  (r <? 0) || (len <? 0) = false -> mstep s (mdo_recv e len s).
Proof.
  intros Hl H H0. unfold mdo_recv. rewrite H. pose proof (mstep_recv s e len r out k' Hl H) as Hs.
  rewrite H0 in Hs. apply orb_false_iff in H0 as [_ H0]. by rewrite H0 in Hs.
Qed.

Definition mdemo_0 : msys := mkMsys demo_start (fun _ => []) (fun _ => []).
Definition mdemo_1 := mdo_send true [1; 2; 3] mdemo_0.
Definition mdemo_2 := mdo_base (do_update true 1000) mdemo_1.
Definition mdemo_3 := mdo_base (do_update true 1100) mdemo_2.
Definition mdemo_4 := mdo_base (do_input false) mdemo_3.
Definition mdemo_5 := mdo_recv false 100 mdemo_4.

Lemma mdemo_run : rtc mstep mdemo_0 mdemo_5.
Proof.
  unfold mdemo_5, mdemo_4, mdemo_3, mdemo_2, mdemo_1.
  eapply rtc_l; [eapply (mdo_send_step true [1; 2; 3]); [by_decide|by_decide|evaluated|reflexivity]|].
  eapply rtc_l; [eapply (mdo_update_step true 1000); [by_decide|evaluated|evaluated|evaluated]|].
  eapply rtc_l; [eapply (mdo_update_step true 1100); [by_decide|evaluated|evaluated|evaluated]|].
  eapply rtc_l; [eapply (mdo_input_step false); [by_decide|evaluated|evaluated]|].
  eapply rtc_l; [eapply (mdo_recv_step false 100); [by_decide|evaluated|evaluated]|].
  apply rtc_refl.
Qed.

Lemma messages_delivered_witness :
  minitial 7 mdemo_0 /\ fetched mdemo_5 false = [[1; 2; 3]] /\
  exists rest, posted mdemo_5 true = fetched mdemo_5 false ++ rest.
Proof.
  assert (minitial 7 mdemo_0) as Hi by (split; [apply demo_initial|done]). split; [done|].
  split; [evaluated|].
  apply (@messages_delivered demo_env x86_64 7 mdemo_0 mdemo_5 true (or_introl eq_refl) Hi mdemo_run).
Defined.
End MessagesDemo.
