(* ===== verification/IkcpProgress.v ===== *)
(** * kcp_learn/ikcp.c: delivery can always be completed

    The theorems of IkcpArq.v and KcpMessages.v say that nothing wrong is delivered.  Here it
    is shown that the protocol cannot be wedged: whatever was lost, repeated or reordered
    so far, and whatever windows and timers have come to, there is a way to go on after
    which both applications have everything that was sent.  The way is the one the code is
    made for: read, retransmit what is overdue, acknowledge, and ask a closed window. *)

From stdpp Require Import functions relations.
From S2P Require Import Prelude IkcpBase IkcpCb IkcpSnd IkcpRcv IkcpInput IkcpFlush KcpSpec IkcpArq.
From S2P Require Import KcpMessages IkcpEffects.

Section Progress.
Context `{env : Env} `{host : Host}.
Hypothesis allocs : malloc_never_fails.

(** ** Two more invariants of the system *)

Definition calm (k : ikcpcb) : Prop := ackcount k < 1073741824 /\ settled k.

Lemma calm_same k k' :
  (ackcount k', rcv_buf k', rcv_nxt k', nrcv_que k') = (ackcount k, rcv_buf k, rcv_nxt k, nrcv_que k) ->
  calm k -> calm k'.
Proof. intros [= E1 E2 E3 E4] [Ha Hs]. split; [by rewrite E1|]. unfold settled. by rewrite E2, E3, E4. Qed.

Lemma moved_settled k k' d : moved k k' d -> settled k'.
Proof.
  intros Hd. pose proof (moved_all _ _ _ Hd) as Ha. pose proof (wf_rcv_wnd _ (moved_wf _ _ _ Hd)).
  unfold settled. destruct (rcv_buf k'); [done|]. lia.
Qed.

Lemma recv_calm k len r out k' :
  kcp_wf k -> is_i32 len -> ikcp_recv k true len = Ok (r, out, k') -> calm k -> calm k'.
Proof.
  intros Hk Hlen H Hc. destruct (ikcp_recv_exact k true len (kcp_wf_rcv _ Hk) Hlen) as (x & Hx & Hres).
  rewrite H in Hx. injection Hx as <-.
  inversion Hres as [|m rest _ _ _|m rest _ _ _|m rest d k1 Hrd Hm Hal Hd]; subst; try done.
  apply (calm_same k1); [by destruct (_ && _)|]. split; [|by eapply moved_settled].
  rewrite (moved_same _ _ _ Hd). destruct Hc as [Hc _]. by destruct (len <? 0).
Qed.

Lemma flushed_calm k ps k' out : flushed k ps k' out -> settled k -> calm k'.
Proof.
  intros Hf Hs. destruct (flushed_rcv _ _ _ _ Hf) as (_ & E1 & _ & E2 & _).
  destruct (flushed_rest _ _ _ _ Hf) as (_ & _ & _ & _ & E3 & _). split; [rewrite (flushed_acks _ _ _ _ Hf); lia|].
  unfold settled. by rewrite E1, E2, E3.
Qed.

Lemma clock_same k now :
  kcp_wf k -> is_u32 now ->
  exists u t, fst (update_clock k now) = k <| current := now |> <| updated := u |> <| ts_flush := t |> /\ u <> 0.
Proof.
  intros Hk Hn. pose proof (update_clock_spec k now Hk Hn) as Hs. destruct (update_clock k now).
  destruct Hs as [(u & t & -> & Hu & _) _]. by exists u, t.
Qed.

Lemma mstep_calm c s s' :
  minv c s -> mstep s s' -> (forall e, calm (ep (base s) e)) -> forall e, calm (ep (base s') e).
Proof.
  intros (F & Hm) Hst Hc e'.
  assert (forall e k' out a g p f, calm k' ->
    calm (ep (base (mkMsys (set_end (base s) e k' out a g) p f)) e')) as Hset.
  { intros e k' out a g p f Hk'. cbn. destruct (decide (e' = e)) as [->|]; [by rewrite fn_lookup_insert|].
    by rewrite fn_lookup_insert_ne. }
  destruct Hst as [e b r k' Hby Hl H|e len r out k' Hl H|e d r k' Hd Hl H|e now k' out Hn Ha Hg H|e k' out Ha Hg H|e];
    apply Hset; destruct (minv_kcp c s F e Hm) as (Hk & Ho & _ & ps & Hps); specialize (Hc e).
  - destruct (ikcp_send_took _ _ _ _ Hk Hby Hl H) as [Hsame _]. eapply calm_same; [|done]. by rewrite Hsame.
  - by eapply recv_calm.
  - destruct Hm as (N & D & n & Hm). destruct (minv_input c s N D F n e d r k' Hm Hd Hl H) as (_ & _ & Hac).
    destruct Hc as [_ Hs]. split; [lia|]. eapply fed_settled; [|done]. eapply ikcp_input_fed; [|done].
    apply (wf_rcv_wnd _ Hk).
  - pose proof (ack_count _ _ Hps) as Ec.
    destruct (ikcp_update_wf (ep (base s) e) now ps Hk Hps ltac:(lia) Ho Hn) as (x & Hx & Hp).
    rewrite H in Hx. injection Hx as <-. destruct Hp as (_ & _ & Hp).
    destruct (clock_same _ now Hk Hn) as (u & t & E & _). destruct (snd (update_clock _ now)).
    + destruct Hp as (k1 & -> & Hf). eapply flushed_calm; [done|]. rewrite E. by destruct Hc.
    + destruct Hp as [_ ->]. rewrite E. by eapply calm_same.
  - pose proof (ack_count _ _ Hps) as Ec. destruct (decide (updated (ep (base s) e) = 0)) as [Hu|Hu].
    + unfold ikcp_flush in H. rewrite Hu in H. by injection H as <- _.
    + destruct (ikcp_flush_spec _ ps Hk Hps ltac:(lia) Ho Hu) as (x & Hx & Hf). rewrite H in Hx.
      injection Hx as <-. eapply flushed_calm; [done|apply Hc].
  - eapply calm_same; [|done]. unfold ikcp_nodelay, ikcp_wndsize. cbn [snd].
    repeat match goal with |- context [if ?b then _ else _] => destruct b end; done.
Qed.

Lemma reachable_calm c s0 s :
  minitial c s0 -> rtc mstep s0 s -> forall e, calm (ep (base s) e).
Proof.
  intros Hi Hr. assert (forall e, calm (ep (base s0) e)) as H0.
  { intros e. destruct Hi as [[_ Hi] _]. destruct (Hi e) as (_ & _ & _ & _ & Ha & _ & _ & _ & _ & _ & _ & _ & Hb).
    split; [by rewrite (ack_count _ _ Ha)|]. unfold settled. by rewrite Hb. }
  pose proof (minitial_inv c s0 Hi) as Hm. destruct Hi as [[Hc _] _].
  induction Hr as [|s1 s2 s3 Hs Hr IH]; [done|]. apply IH.
  - by eapply mstep_calm.
  - eapply mstep_inv; [by right|done..].
Qed.

(** ** Moves that are always possible

    [F] is what was posted so far, in fragments; nothing more is posted. *)

Section Moves.
Context (c : Z) (F : bool -> list (list (Z * list Z))).
Hypothesis Hc : is_u32 c.
Hypothesis few : forall e, Z.of_nat (length (mjoin (F e))) < 2147483648.

Record fine (s : msys) : Prop := {
  fine_inv : minv_of c s F;
  fine_calm : forall e, calm (ep (base s) e);
  fine_wnd : forall e, rcv_wnd (ep (base s) e) < 65536 }.

(** Segments that are not acknowledged yet. *)
Definition todo (k : ikcpcb) : nat := (length (snd_queue k) + length (snd_buf k))%nat.

(** A clock that shows [now] after [k] has not been set back (by 2^31 or more it cannot be
    told). *)
Definition onward (k : ikcpcb) (now : Z) : Prop := u32 (now - current k) <= 2147483648.

Lemma onward_refl k : onward k (current k).
Proof. unfold onward. by rewrite Z.sub_diag. Qed.

(** A step during which no clock goes back. *)
Definition tstep (s s' : msys) : Prop :=
  mstep s s' /\ forall e, onward (ep (base s) e) (current (ep (base s') e)).

Record goes (s s' : msys) : Prop := {
  goes_run : rtc tstep s s';
  goes_fine : fine s';
  goes_posted : posted s' = posted s;
  goes_todo : forall e, (todo (ep (base s') e) <= todo (ep (base s) e))%nat }.

Lemma goes_refl s : fine s -> goes s s.
Proof. by constructor. Qed.

Lemma goes_trans s1 s2 s3 : goes s1 s2 -> goes s2 s3 -> goes s1 s3.
Proof.
  intros [] []. constructor; [by etrans|done|congruence|]. intros e.
  etrans; [|by apply goes_todo0]. done.
Qed.

(** A step of end [e] to [k']. *)
Lemma goes_step s e k' out a g f :
  fine s ->
  mstep s (mkMsys (set_end (base s) e k' out a g) (posted s) f) ->
  minv_of c (mkMsys (set_end (base s) e k' out a g) (posted s) f) F ->
  rcv_wnd k' = rcv_wnd (ep (base s) e) -> (todo k' <= todo (ep (base s) e))%nat ->
  onward (ep (base s) e) (current k') ->
  goes s (mkMsys (set_end (base s) e k' out a g) (posted s) f).
Proof.
  intros [Hm Hca Hw] Hst Hm' Ew Ht Hon.
  constructor; [apply rtc_once; split; [done|]| |done|]; [|constructor; [done| |]|]; cbn.
  - intros e'. destruct (decide (e' = e)) as [->|]; [by rewrite fn_lookup_insert|].
    rewrite fn_lookup_insert_ne by done. apply onward_refl.
  - exact (mstep_calm c s _ (ex_intro _ F Hm) Hst Hca).
  - intros e'. destruct (decide (e' = e)) as [->|]; [rewrite fn_lookup_insert, Ew|rewrite fn_lookup_insert_ne by done]; apply Hw.
  - intros e'. destruct (decide (e' = e)) as [->|]; [by rewrite fn_lookup_insert|by rewrite fn_lookup_insert_ne].
Qed.

Lemma fine_kcp s e : fine s -> kcp_wf (ep (base s) e).
Proof. intros [Hm _ _]. by apply (minv_kcp c s F e). Qed.

Lemma fine_numbered s e : fine s -> snd_nxt (ep (base s) e) + qlen (snd_queue (ep (base s) e)) < 2147483648.
Proof. intros [Hm _ _]. change (numbered s e < 2147483648). by rewrite (numbered_length c s F). Qed.

(** *** Reading *)

(** What reading leaves as it was. *)
Definition writing (k : ikcpcb) :=
  (snd_buf k, snd_queue k, snd_una k, snd_nxt k, rmt_wnd k, updated k, rcv_wnd k, current k, ack_view k).

Record reads (k k' : ikcpcb) : Prop := {
  reads_writing : writing k' = writing k;
  reads_tell : Z.land (probe k) IKCP_ASK_TELL <> 0 -> Z.land (probe k') IKCP_ASK_TELL <> 0 }.

Lemma first_message_nonempty l m rest : l <> [] -> first_message l = (m, rest) -> m <> [].
Proof.
  destruct l as [|s l]; [done|]. intros _. cbn. destruct (_ =? 0); [by intros [= <- _]|].
  destruct (first_message l). by intros [= <- _].
Qed.

Lemma read_one s e :
  fine s ->
  recv_ready (ep (base s) e) = false \/
  exists s', goes s s' /\ ep (base s') (negb e) = ep (base s) (negb e) /\
    reads (ep (base s) e) (ep (base s') e) /\
    (length (rcv_queue (ep (base s') e)) + length (rcv_buf (ep (base s') e)) <
     length (rcv_queue (ep (base s) e)) + length (rcv_buf (ep (base s) e)))%nat.
Proof.
  intros Hs. destruct (recv_ready (ep (base s) e)) eqn:Hrd; [right|by left].
  pose proof (fine_kcp s e Hs) as Hk. pose proof Hs as [Hm _ _].
  destruct (fetch_returns c s F e 2147483647 Hm) as ([[r out] k'] & H & Emo & Eac & _ & Hm'); [by_decide..|].
  destruct Hm as (N & D & n & Hi).
  destruct (next_message c s N D F n e Hi Hrd) as (f & b & m & rest & _ & _ & Hfr & Hfm & Em).
  destruct (ikcp_recv_exact _ true 2147483647 (kcp_wf_rcv _ Hk)) as (x & Hx & Hres); [by_decide|].
  rewrite H in Hx. injection Hx as <-.
  assert (add_lens 0 m = Z.of_nat (length b) /\ Z.of_nat (length b) < 2147483648) as [Hadd Hbl].
  { destruct Hfr as (_ & Hbl & _ & _ & Hb & _). split; [|done].
    pose proof (wf_rcv_queue _ Hk) as Hwq. rewrite (first_message_app _ _ _ Hfm) in Hwq.
    apply Forall_app in Hwq as [Hwq _].
    assert (msg_bytes m = b) as Emb by by rewrite (msg_bytes_payload m Hwq), Em.
    rewrite <- Emb in *. rewrite (add_lens_exact 0 m); [lia|done|lia|lia]. }
  inversion Hres as [E|m' rest' Hne Hfm' Hno|m' rest' _ Hfm' Hbig|m' rest' d k1 _ Hfm' Hal Hd]; subst;
    try (rewrite Hfm in Hfm'; injection Hfm' as <- <-).
  - unfold recv_ready in Hrd. by rewrite E in Hrd.
  - destruct Hno as [Hno|Hno]; [congruence|lia].
  - rewrite Hadd in Hbig. change (i32 (Z.abs 2147483647)) with 2147483647 in Hbig. lia.
  - cbn [Z.ltb Z.compare] in Hd. pose proof (moved_same _ _ _ Hd) as Hsame. unfold same_but_rcv in Hsame.
    set (k2 := if _ && _ then _ else k1) in *.
    assert (writing k2 = writing k1 /\ (rcv_queue k2, rcv_buf k2) = (rcv_queue k1, rcv_buf k1)) as [Ew Eq]
      by (subst k2; by destruct (_ && _)).
    assert (writing k1 = writing (ep (base s) e)) as Ew1 by (rewrite Hsame; done).
    assert (probe k1 = probe (ep (base s) e)) as Ep by (rewrite Hsame; done).
    eexists. split; [apply (goes_step s e k2); [done| |exact Hm'| | |]|].
    + by apply (mstep_recv s e 2147483647 _ _ k2).
    + rewrite Ew1 in Ew. by injection Ew.
    + rewrite Ew1 in Ew. injection Ew as E1 E2 _ _ _ _ _ _ _ _ _. unfold todo. by rewrite E1, E2.
    + rewrite Ew1 in Ew. injection Ew as _ _ _ _ _ _ _ E _ _ _. rewrite E. apply onward_refl.
    + cbn. rewrite fn_lookup_insert, fn_lookup_insert_ne by (by destruct e). split; [done|]. split.
      * constructor; [congruence|]. subst k2. destruct (_ && _); [intros _; apply lor_tell|by rewrite Ep].
      * injection Eq as -> ->. pose proof (moved_queue _ _ _ Hd) as E1. pose proof (moved_buf _ _ _ Hd) as E2.
        cbn in E1, E2. rewrite E1, E2, (first_message_app _ _ _ Hfm), !length_app.
        pose proof (first_message_nonempty (rcv_queue (ep (base s) e)) m rest) as Hmn.
        destruct m; [|cbn; lia]. exfalso. apply Hmn; [|done|done]. intros E. unfold recv_ready in Hrd. by rewrite E in Hrd.
Qed.

Lemma reads_trans k1 k2 k3 : reads k1 k2 -> reads k2 k3 -> reads k1 k3.
Proof. intros [] []. constructor; [congruence|auto]. Qed.

Lemma read_all s e :
  fine s ->
  exists s', goes s s' /\ ep (base s') (negb e) = ep (base s) (negb e) /\
    reads (ep (base s) e) (ep (base s') e) /\ recv_ready (ep (base s') e) = false.
Proof.
  remember (length (rcv_queue (ep (base s) e)) + length (rcv_buf (ep (base s) e)))%nat as m eqn:Em.
  revert s Em. induction (lt_wf m) as [m _ IH]. intros s -> Hs.
  destruct (read_one s e Hs) as [Hrd|(s1 & Hg & Eo & Hr & Hlt)].
  - exists s. split; [by apply goes_refl|done].
  - destruct (IH _ Hlt s1 eq_refl) as (s2 & Hg2 & Eo2 & Hr2 & Hrd); [apply Hg|].
    exists s2. split_and!; [by eapply goes_trans|congruence|by eapply reads_trans|done].
Qed.

(** An application that has read what it could has less than a message waiting. *)
Lemma read_out_short s e : fine s -> recv_ready (ep (base s) e) = false -> nrcv_que (ep (base s) e) < 128.
Proof.
  intros Hs Hrd. pose proof (fine_kcp s e Hs) as Hk. pose proof (wf_nrcv_que _ Hk) as En.
  destruct Hs as [(N & D & n & Hi) _ _]. pose proof (unread_stream c s N D F n e Hi) as E.
  unfold recv_ready in Hrd. destruct (rcv_queue (ep (base s) e)) as [|x q] eqn:Eq.
  { rewrite En. by_decide. }
  apply orb_false_iff in Hrd as [_ Hrd%Z.leb_gt].
  destruct (drop (n e) (F (negb e))) as [|f fs] eqn:Ed; [done|].
  assert (F (negb e) !! n e = Some f) as Hfn by (by rewrite <- (Nat.add_0_r (n e)), <- lookup_drop, Ed).
  destruct (Forall2_lookup_r _ _ _ _ _ (mi_posted _ _ _ _ _ _ Hi (negb e)) Hfn)
    as (b & _ & _ & _ & Hne & Hlen & _ & Hf).
  destruct f as [|p f]; [done|]. change (mjoin ((p :: f) :: fs)) with ((p :: f) ++ mjoin fs) in E.
  cbn in E. injection E as Ep _. pose proof (Hf O p eq_refl) as Hp. rewrite <- Ep in Hp. cbn in Hp, Hlen.
  lia.
Qed.

(** *** Flushing at a chosen time *)

Definition clocked (k : ikcpcb) (now : Z) (k1 : ikcpcb) : Prop :=
  exists u t, k1 = k <| current := now |> <| updated := u |> <| ts_flush := t |> /\ u <> 0.

Lemma flushed_todo k ps k' out : flushed k ps k' out -> todo k' = todo k.
Proof.
  intros Hf. destruct (flushed_queue _ _ _ _ Hf) as (l & E1 & E2 & E3 & _). unfold todo.
  rewrite E3, length_fmap, E2, E1, !length_app, length_imap. lia.
Qed.

(** The flush of [k1], which is what end [e] holds but for its clock. *)
Lemma flush_said s e now k1 ps k' out N D n :
  messages_inv c s N D F n -> clocked (ep (base s) e) now k1 -> kcp_wf k1 ->
  ack_rep k1 ps -> flushed k1 ps k' out -> fine s ->
  exists N', messages_inv c (mkMsys (set_end (base s) e k' out [] []) (posted s) (fetched s)) N' D F n /\
    Forall (genuine c (N' e) (recvd k')) (control_segs k1 ps ++ data_segs k1).
Proof.
  intros Hi (u & t & E & _) Hk1 Hps Hf Hs. pose proof (mi_at _ _ _ _ _ _ Hi) as Ha.
  pose proof (fine_numbered s e Hs) as Hn. destruct (Ha e) as [Hl _ _ _].
  destruct (link_frame c (N e) _ _ _ _ k1 Hl Hk1) as [Hl1 Hg1]; try by rewrite E.
  destruct (flushed_step_inv c N D (base s) e k1 ps k' out Hc Ha Hl1 Hg1) as (l & Eq & Em & Ha' & Hgen);
    try (by rewrite E); try done.
  exists (<[e := N e ++ (payload <$> l)]> N). split; [by eapply minv_quiet|]. by rewrite fn_lookup_insert.
Qed.

Lemma flush_at s e now :
  fine s -> is_u32 now -> onward (ep (base s) e) now ->
  exists s' k1 ps out N D n,
    goes s s' /\ ep (base s') (negb e) = ep (base s) (negb e) /\
    clocked (ep (base s) e) now k1 /\ kcp_wf k1 /\ ack_rep k1 ps /\ flushed k1 ps (ep (base s') e) out /\
    (forall d, d ∈ out -> d ∈ net (base s') e) /\ messages_inv c s' N D F n /\
    Forall (genuine c (N e) (recvd (ep (base s') e))) (control_segs k1 ps ++ data_segs k1).
Proof.
  intros Hs Hnow Hon. pose proof (fine_kcp s e Hs) as Hk. pose proof Hs as [Hm Hca Hw].
  destruct (minv_kcp c s F e Hm) as (_ & Ho & _ & ps & Hps). destruct (Hca e) as [Hac _].
  pose proof (fine_numbered s e Hs) as Hn. pose proof (ack_count _ _ Hps) as Ec.
  destruct (ikcp_update_wf (ep (base s) e) now ps Hk Hps ltac:(lia) Ho Hnow) as ([k' out] & H & _ & _ & Hp).
  destruct (update_clock_wf (ep (base s) e) now ps Hk Hps Hnow) as (Hk1 & Ha1 & Hu1).
  destruct (clock_same _ now Hk Hnow) as (u & t & E & Hu). set (k1 := fst (update_clock _ now)) in *.
  assert (clocked (ep (base s) e) now k1) as Hcl by (by exists u, t).
  destruct Hm as (N & D & n & Hi).
  assert (negb e <> e) as Hne by by destruct e.
  assert (mstep s (mkMsys (set_end (base s) e k' out [] []) (posted s) (fetched s))) as Hst
    by (eapply mstep_update; [done| |done|done]; lia).
  destruct (snd (update_clock (ep (base s) e) now)).
  - destruct Hp as (k2 & -> & Hf). destruct (flush_said s e now k1 ps k' out N D n) as (N' & Hi' & Hgen); try done.
    eexists _, k1, ps, out, N', D, n. split.
    { apply (goes_step s e k'); [done|exact Hst|by eexists _, _, _|..].
      - destruct (flushed_rest _ _ _ _ Hf) as (_ & _ & -> & _). by rewrite E.
      - rewrite (flushed_todo _ _ _ _ Hf), E. done.
      - destruct (flushed_rest _ _ _ _ Hf) as (-> & _). by rewrite E. }
    cbn. rewrite !fn_lookup_insert, fn_lookup_insert_ne by done. split_and!; try done.
    intros d Hd. apply elem_of_app. by right.
  - destruct Hp as [-> ->].
    assert (goes s (mkMsys (set_end (base s) e k1 [] [] []) (posted s) (fetched s))) as Hg1.
    { apply (goes_step s e k1); [done|exact Hst| |by rewrite E|by rewrite E|by rewrite E].
      apply (minv_update c s N D F n e now k1 []); done || lia. }
    set (s1 := mkMsys (set_end (base s) e k1 [] [] []) _ _) in *.
    assert (ep (base s1) e = k1) as E1 by (cbn; by rewrite fn_lookup_insert).
    pose proof (goes_fine _ _ Hg1) as Hs1. pose proof (fine_numbered s1 e Hs1) as Hn1. rewrite E1 in Hn1.
    destruct (ikcp_flush_spec k1 ps Hk1 Ha1) as ([k' out] & Hfl & Hf); [lia|by rewrite E|done|].
    destruct (fine_inv _ Hs1) as (N1 & D1 & n1 & Hi1).
    destruct (flush_said s1 e now k1 ps k' out N1 D1 n1) as (N' & Hi' & Hgen); try done.
    { rewrite E1. exists u, t. split; [|done]. rewrite E. done. }
    eexists _, k1, ps, out, N', D1, n1. split.
    { eapply goes_trans; [exact Hg1|]. apply (goes_step s1 e k'); [done| |by eexists _, _, _|..]; rewrite ?E1.
      - apply mstep_flush; rewrite ?E1; [|done|done]. rewrite (ack_count _ _ Ha1). lia.
      - by destruct (flushed_rest _ _ _ _ Hf) as (_ & _ & -> & _).
      - by rewrite (flushed_todo _ _ _ _ Hf).
      - destruct (flushed_rest _ _ _ _ Hf) as (-> & _). apply onward_refl. }
    cbn. rewrite !fn_lookup_insert, !fn_lookup_insert_ne by done. split_and!; try done.
    intros d Hd. apply elem_of_app. by right.
Qed.

(** A flush at the time the clock shows. *)
Lemma flush_now s e :
  fine s ->
  exists s' k1 ps out,
    goes s s' /\ ep (base s') (negb e) = ep (base s) (negb e) /\
    clocked (ep (base s) e) (current (ep (base s) e)) k1 /\ flushed k1 ps (ep (base s') e) out.
Proof.
  intros Hs. destruct (flush_at s e (current (ep (base s) e))) as (s' & k1 & ps & out & N & D & n & Hg & Eo & Hcl & _ & _ & Hf & _);
    [done|apply (wf_current _ (fine_kcp s e Hs))|apply onward_refl|]. by exists s', k1, ps, out.
Qed.

(** *** One end speaks and the other one hears *)

Lemma flush_announces k ps x : x ∈ control_segs k ps ++ data_segs k -> seg_wnd x = flush_wnd k.
Proof.
  intros [Hx|Hx]%elem_of_app.
  - unfold control_segs in Hx. apply elem_of_app in Hx as [(a & -> & _)%list_elem_of_fmap|Hx]; [done|].
    apply elem_of_app in Hx as [Hx|Hx]; destruct (negb _);
      (apply list_elem_of_singleton in Hx as -> || by apply not_elem_of_nil in Hx); by destruct (last ps).
  - unfold data_segs in Hx. apply list_elem_of_fmap in Hx as (y & -> & Hy). unfold outgoing in Hy.
    apply list_elem_of_filter in Hy as [Hne _]. unfold flush_update, resend_segment.
    by destruct (send_reason _ _ _).
Qed.

Lemma say_hear s e now :
  fine s -> is_u32 now -> onward (ep (base s) e) now -> ackcount (ep (base s) (negb e)) < 536870912 ->
  exists k1 ps k' out,
    clocked (ep (base s) e) now k1 /\ kcp_wf k1 /\ ack_rep k1 ps /\ flushed k1 ps k' out /\
    forall x, x ∈ control_segs k1 ps ++ data_segs k1 -> exists s',
      goes s s' /\ ep (base s') e = k' /\
      heard (ep (base s) (negb e)) (snd_nxt k') (flush_wnd k1) x (ep (base s') (negb e)).
Proof.
  intros Hs Hnow Hon Hack.
  destruct (flush_at s e now Hs Hnow Hon) as (s1 & k1 & ps & out & N & D & n & Hg1 & Eo & Hcl & Hk1 & Hps & Hf & Hout & Hi & Hgen).
  exists k1, ps, (ep (base s1) e), out. split_and!; try done. intros x Hx.
  destruct (flushed_out _ _ _ _ Hf) as (gs & -> & Egs). rewrite <- Egs in Hx, Hgen.
  pose proof Hx as (g & Hxg & Hgg)%list_elem_of_join.
  set (r := negb e) in *. assert (negb r = e) as Er by apply negb_involutive.
  assert (r <> e) as Hre by (subst r; by destruct e).
  pose proof (goes_fine _ _ Hg1) as Hs1. pose proof (fine_inv _ Hs1) as Hm1.
  assert (datagram g ∈ net (base s1) (negb r)) as Hnet by (rewrite Er; by apply Hout, list_elem_of_fmap_2).
  assert (Z.of_nat (length (datagram g)) < 1073741824) as Hlen.
  { pose proof (flushed_mtu _ _ _ _ Hf) as Hmtu. rewrite Forall_forall in Hmtu.
    destruct (Hmtu (datagram g)) as [_ ?]; [by apply list_elem_of_fmap_2|]. pose proof (wf_mtu _ Hk1). lia. }
  assert (Forall (genuine c (N e) (recvd (ep (base s1) e))) g /\ Forall (fun y => seg_wnd y = flush_wnd k1) g)
    as [Hgg2 Hwnd].
  { split; apply Forall_forall; intros y Hy; (assert (y ∈ mjoin gs) as Hy2 by (apply list_elem_of_join; by exists g)).
    - rewrite Forall_forall in Hgen. by apply Hgen.
    - rewrite Egs in Hy2. by eapply flush_announces. }
  destruct (deliver_returns c s1 F r (datagram g) allocs Hm1 Hnet) as ([q kr] & H & _ & _ & Hm2);
    [rewrite Eo; lia|].
  pose proof (mi_at _ _ _ _ _ _ Hi) as Ha. pose proof (ei_link _ _ _ _ _ _ _ _ _ (Ha r)) as Hl. rewrite Er in Hl.
  assert (heard (ep (base s1) r) (Z.of_nat (length (N e))) (flush_wnd k1) x kr) as Hh.
  { eapply ikcp_input_heard; [exact Hl| |exact Hgg2|done|done|lia|rewrite Eo; lia|apply (fine_wnd _ Hs1)|exact H].
    intros i Hi'. pose proof (Ha e) as Hae. fold r in Hae. by eapply recvd_numbered. }
  pose proof (ei_link _ _ _ _ _ _ _ _ _ (Ha e)) as Hle.
  destruct (so_nxt _ _ _ (link_snd _ _ _ _ _ _ Hle)) as [En _]. rewrite <- En, Eo in Hh.
  eexists. split; [eapply goes_trans; [exact Hg1|]; apply (goes_step s1 r kr); [done| |exact Hm2|..]|].
  - apply (mstep_input s1 r (datagram g) q kr); [done|rewrite Eo; lia|done].
  - rewrite Eo. apply (heard_fed _ _ _ _ _ Hh).
  - rewrite Eo. destruct (heard_fed _ _ _ _ _ Hh) as [Hsub Eq _ _ _ _]. unfold todo. rewrite Eq.
    apply sublist_length in Hsub. unfold sns in Hsub. rewrite !length_fmap in Hsub. lia.
  - rewrite Eo, (fed_current _ _ (heard_fed _ _ _ _ _ Hh)). apply onward_refl.
  - cbn. rewrite fn_lookup_insert, fn_lookup_insert_ne by done. done.
Qed.

(** *** The oldest segment is acknowledged *)

Lemma recvd_next k :
  rcv_wf k -> settled k -> nrcv_que k < 128 -> ~ recvd k (rcv_nxt k).
Proof.
  intros Hk Hs Hq [?|(y & Hy & Ey)]; [lia|]. pose proof (wf_rcv_buf _ Hk) as Hw.
  unfold settled in Hs. destruct (rcv_buf k) as [|h t] eqn:Eb; [by apply not_elem_of_nil in Hy|].
  cbn in Hw. destruct Hw as [Hh Hw].
  assert (off (rcv_nxt k) y = 0) as Ey0 by (unfold off; by rewrite Ey, Z.sub_diag).
  apply elem_of_cons in Hy as [<-|Hy]; [specialize (Hs Ey); lia|].
  pose proof (window_elem _ _ _ _ _ Hw Hy). lia.
Qed.

Lemma next_missing s e :
  fine s -> recv_ready (ep (base s) e) = false -> ~ recvd (ep (base s) e) (rcv_nxt (ep (base s) e)).
Proof.
  intros Hs Hrd. apply recvd_next; [apply (fine_kcp s e Hs)|by apply (fine_calm _ Hs)|by apply read_out_short].
Qed.

Lemma flight_short s e :
  fine s -> snd_una (ep (base s) e) <= snd_nxt (ep (base s) e) <= snd_una (ep (base s) e) + 65535.
Proof.
  intros Hs. pose proof (fine_kcp s e Hs) as Hk. pose proof (fine_numbered s e Hs) as Hn.
  pose proof (wf_inflight _ Hk) as Hf. pose proof (wf_snd_una _ Hk) as Hu. pose proof (kcp_wf_una _ Hk) as Ht.
  pose proof (qlen_nonneg (snd_queue (ep (base s) e))). unfold is_u32 in Hu.
  assert (snd_una (ep (base s) e) <= snd_nxt (ep (base s) e)) as Hle.
  { destruct (fine_inv _ Hs) as (N & D & n & Hi). destruct (mi_at _ _ _ _ _ _ Hi e) as [[_ _ _ [[En _] Hb _] _ _] _ _ _].
    unfold una_tight in Ht. destruct (snd_buf (ep (base s) e)) as [|x b]; [lia|].
    destruct (Hb x ltac:(by left)) as [?%at_sn_lt _]. lia. }
  rewrite u32_small in Hf by lia. lia.
Qed.

(** Everything below the oldest unacknowledged segment has got through, and the reader has
    made room. *)
Lemma oldest_in_reach s e :
  fine s -> recv_ready (ep (base s) (negb e)) = false ->
  snd_una (ep (base s) e) <= rcv_nxt (ep (base s) (negb e)).
Proof.
  intros Hs Hrd. pose proof (next_missing s (negb e) Hs Hrd) as Hno. pose proof (fine_kcp s e Hs) as Hk.
  pose proof (flight_short s e Hs) as Hfl. pose proof (fine_numbered s e Hs) as Hn.
  pose proof (qlen_nonneg (snd_queue (ep (base s) e))).
  destruct (Z.le_gt_cases (snd_una (ep (base s) e)) (rcv_nxt (ep (base s) (negb e)))) as [?|Hgt]; [done|exfalso].
  pose proof (wf_rcv_nxt _ (fine_kcp s (negb e) Hs)) as Hr. unfold is_u32 in Hr.
  destruct (fine_inv _ Hs) as (N & D & n & Hi). destruct (mi_at _ _ _ _ _ _ Hi e) as [[_ _ _ [[En _] _ Hkeep] _ _] _ _ _].
  destruct (Hkeep (rcv_nxt (ep (base s) (negb e)))) as [?|(y & Hy & Ey)]; [lia|done|].
  pose proof (window_elem _ _ _ _ _ (wf_snd_buf _ Hk) Hy) as Hoff. unfold off in Hoff. rewrite Ey in Hoff.
  pose proof (wf_inflight _ Hk). clear -Hoff Hgt Hr H0 Hfl Hn H. wrap_lia.
Qed.

Lemma sublist_shorter (l1 l2 : list Z) x : l1 `sublist_of` l2 -> x ∈ l2 -> x ∉ l1 -> (length l1 < length l2)%nat.
Proof.
  induction 1 as [|y l1 l2 Hs IH|y l1 l2 Hs IH]; intros H2 H1.
  - by apply not_elem_of_nil in H2.
  - cbn. apply not_elem_of_cons in H1 as [Hne H1]. apply elem_of_cons in H2 as [?|H2]; [done|].
    specialize (IH H2 H1). lia.
  - cbn. pose proof (sublist_length _ _ Hs). lia.
Qed.

Lemma recv_ready_view k k' :
  rcv_queue k' = rcv_queue k -> nrcv_que k' = nrcv_que k -> recv_ready k' = recv_ready k.
Proof. intros E1 E2. unfold recv_ready. by rewrite E1, E2. Qed.

(** A time that is not before [t], and not before what the clock shows. *)
Definition catch_up (k : ikcpcb) (t : Z) : Z := if _itimediff (current k) t >=? 0 then current k else u32 t.

Lemma catch_up_spec k t :
  is_u32 (current k) ->
  is_u32 (catch_up k t) /\ onward k (catch_up k t) /\ 0 <= _itimediff (catch_up k t) t.
Proof.
  intros Hk. unfold catch_up, onward. rewrite itimediff_i32.
  destruct (Z.geb_spec (i32 (current k - t)) 0) as [Hge|Hlt].
  - rewrite Z.sub_diag. by rewrite itimediff_i32.
  - split; [apply u32_range|]. rewrite u32_sub_l, itimediff_i32, <- (i32_u32 (u32 t - t)), u32_sub_l, Z.sub_diag.
    split; [|done]. clear Hk. wrap_lia.
Qed.

(** End [e] reads what it can and says what it has to say. *)
Lemma make_ready s e :
  fine s ->
  exists s', goes s s' /\ ep (base s') (negb e) = ep (base s) (negb e) /\
    recv_ready (ep (base s') e) = false /\ ackcount (ep (base s') e) = 0.
Proof.
  intros Hs. destruct (read_all s e Hs) as (s1 & Hg1 & Eo1 & _ & Hrd).
  destruct (flush_now s1 e) as (s2 & k1 & ps & out & Hg2 & Eo2 & (u & t & E & _) & Hf); [apply Hg1|].
  exists s2. split; [by eapply goes_trans|]. split; [congruence|]. split; [|apply Hf].
  rewrite <- Hrd. destruct (flushed_rcv _ _ _ _ Hf) as (_ & _ & E1 & _).
  destruct (flushed_rest _ _ _ _ Hf) as (_ & _ & _ & _ & E2 & _). rewrite E in E1, E2. by apply recv_ready_view.
Qed.

(** What an end has recorded goes out as acknowledgements. *)
Lemma acks_go_out k k1 now ps i :
  clocked k now k1 -> ack_rep k1 ps -> acks_has k i ->
  exists x, x ∈ control_segs k1 ps ++ data_segs k1 /\ seg_sn x = i /\ u8 (seg_cmd x) = IKCP_CMD_ACK.
Proof.
  intros (u & t & E & _) Hps (qs & ts & Hqs & Hin).
  assert (ack_rep k1 qs) as Hqs1 by (eapply ack_rep_view; [|exact Hqs]; by rewrite E).
  rewrite (ack_rep_inj _ _ _ Hps Hqs1). exists (ack_seg (flush_seg0 k1) (i, ts)). split; [|done].
  unfold control_segs. rewrite !elem_of_app. left. left. by apply (list_elem_of_fmap_2 (ack_seg (flush_seg0 k1))).
Qed.

Lemma flushed_sns k ps k' out x : flushed k ps k' out -> x ∈ snd_buf k -> seg_sn x ∈ sns k'.
Proof.
  intros Hf Hx. destruct (flushed_queue _ _ _ _ Hf) as (l & _ & E2 & E3 & _). unfold sns. rewrite E3.
  apply list_elem_of_fmap. eexists. split; [|apply list_elem_of_fmap_2; rewrite E2; apply elem_of_app; by left].
  unfold flush_update. by destruct (resend_segment_same (after_move k) (flush_rtomin k) (flush_wnd k)
    (send_reason (after_move k) (flush_resent k) x) x) as [-> _].
Qed.

Lemma ack_oldest s e :
  fine s -> snd_buf (ep (base s) e) <> [] ->
  exists s', goes s s' /\ (todo (ep (base s') e) < todo (ep (base s) e))%nat.
Proof.
  intros Hs Hne. set (r := negb e). assert (negb r = e) as Er by apply negb_involutive.
  destruct (make_ready s r Hs) as (s1 & Hg1 & Eo1 & Hrd & Hac). rewrite Er in Eo1.
  pose proof (goes_fine _ _ Hg1) as Hs1. pose proof (fine_kcp s1 e Hs1) as Hk. rewrite <- Eo1 in *.
  pose proof (kcp_wf_una _ Hk) as Ht. unfold una_tight in Ht.
  destruct (snd_buf (ep (base s1) e)) as [|x b] eqn:Eb; [done|]. clear Hne.
  assert (seg_cmd x = IKCP_CMD_PUSH) as Ecmd.
  { destruct (fine_inv _ Hs1) as (N & D & n & Hi). destruct (mi_at _ _ _ _ _ _ Hi e) as [[_ _ _ [_ Hb _] _ _] _ _ _].
    destruct (Hb x) as (_ & ? & _); [|done]. rewrite Eb. by left. }
  pose proof (oldest_in_reach s1 e Hs1 Hrd) as Hreach. fold r in Hreach.
  (* the segment is sent again *)
  destruct (catch_up_spec (ep (base s1) e) (seg_resendts x) (wf_current _ Hk)) as (Hnow & Hon & Hdue).
  destruct (say_hear s1 e _ Hs1 Hnow Hon) as (k1 & ps & k' & out & (u & t & Ek & _) & Hk1 & Hps & Hf & Hsay);
    [fold r; rewrite Hac; lia|].
  assert (x ∈ snd_buf k1) as Hx by (rewrite Ek; cbn; rewrite Eb; by left).
  destruct (due_segment_sent k1 ps k' out x Hk1 Hf Hx) as (x' & Hx' & _ & Esn & Ec).
  { right. left. rewrite <- itimediff_i32. by rewrite Ek. }
  destruct (Hsay x') as (s2 & Hg2 & E2 & Hh); [apply elem_of_app; by right|]. clear Hsay. fold r in Hh.
  pose proof (goes_fine _ _ Hg2) as Hs2. pose proof (flight_short s2 e Hs2) as Hfl. rewrite E2 in Hfl.
  destruct (flushed_rcv _ _ _ _ Hf) as (Eu & _). rewrite Ek in Eu. cbn in Eu.
  assert (acks_has (ep (base s2) r) (seg_sn x)) as Hacks.
  { rewrite <- Esn. apply (heard_push _ _ _ _ _ Hh); [by rewrite Ec, Ecmd|].
    pose proof (wf_rcv_wnd _ (fine_kcp s1 r Hs1)). rewrite Esn. lia. }
  (* and acknowledged *)
  destruct (say_hear s2 r (current (ep (base s2) r))) as (kr & qs & kr' & out2 & Hcl & _ & Hqs & _ & Hsay);
    [done|apply (wf_current _ (fine_kcp s2 r Hs2))|apply onward_refl| |].
  { rewrite Er, E2, (flushed_acks _ _ _ _ Hf). lia. }
  destruct (acks_go_out _ _ _ _ _ Hcl Hqs Hacks) as (y & Hy & Ey & Ecy).
  destruct (Hsay y Hy) as (s3 & Hg3 & _ & Hh3). rewrite Er, E2 in Hh3.
  exists s3. split; [eapply goes_trans; [done|]; by eapply goes_trans|].
  pose proof (heard_ack _ _ _ _ _ Hh3 Ecy) as Hgone. rewrite Ey in Hgone.
  destruct (heard_fed _ _ _ _ _ Hh3) as [Hsub Eq _ _ _ _].
  pose proof (sublist_shorter _ _ _ Hsub (flushed_sns _ _ _ _ _ Hf Hx) Hgone) as Hlt.
  pose proof (flushed_todo _ _ _ _ Hf) as Etd. rewrite Ek in Etd. unfold sns in Hlt. rewrite !length_fmap in Hlt.
  unfold todo in *. rewrite Eq. cbn in Etd. rewrite Eb in Etd |- *. lia.
Qed.

(** *** A closed window is asked *)

Lemma probe_asks k :
  0 <= probe_wait k <= IKCP_PROBE_LIMIT -> rmt_wnd k = 0 -> probe_wait k <> 0 ->
  0 <= _itimediff (current k) (ts_probe k) ->
  Z.land (probe (flush_probe_timer k)) IKCP_ASK_SEND <> 0.
Proof.
  intros Hp Hr Hw Hd. destruct (flush_probe_timer_backoff k Hp) as [_ ->]. rewrite Hr, (proj2 (Z.eqb_neq _ _) Hw).
  cbn [Z.eqb negb andb]. destruct (Z.geb_spec (_itimediff (current k) (ts_probe k)) 0); [|lia].
  rewrite Z.land_lor_distr_l, Z.land_diag, Z.lor_eq_0_iff. unfold IKCP_ASK_SEND. by intros [_ ?].
Qed.

Lemma probe_tells k :
  0 <= probe_wait k <= IKCP_PROBE_LIMIT -> Z.land (probe k) IKCP_ASK_TELL <> 0 ->
  Z.land (probe (flush_probe_timer k)) IKCP_ASK_TELL <> 0.
Proof.
  intros Hp Ht. destruct (flush_probe_timer_backoff k Hp) as [_ ->]. destruct (_ && _); [|done].
  rewrite Z.land_lor_distr_l, Z.lor_eq_0_iff. by intros [? _].
Qed.

Lemma ask_goes_out k ps :
  Z.land (probe (flush_probe_timer (k <| ackcount := 0 |>))) IKCP_ASK_SEND <> 0 ->
  exists x, x ∈ control_segs k ps ++ data_segs k /\ u8 (seg_cmd x) = IKCP_CMD_WASK.
Proof.
  intros H%Z.eqb_neq. eexists. split; [|shelve]. unfold control_segs. rewrite H. cbn [negb].
  rewrite !elem_of_app. left. right. left. by apply list_elem_of_singleton. Unshelve. done.
Qed.

Lemma answer_goes_out k ps :
  Z.land (probe (flush_probe_timer (k <| ackcount := 0 |>))) IKCP_ASK_TELL <> 0 ->
  exists x, x ∈ control_segs k ps ++ data_segs k.
Proof.
  intros H%Z.eqb_neq. eexists. unfold control_segs. rewrite H. cbn [negb].
  rewrite !elem_of_app. left. right. right. by apply list_elem_of_singleton.
Qed.

(** An end that has read announces a window, of 16 bits. *)
Lemma announced_window k : rcv_wf k -> nrcv_que k < 128 -> rcv_wnd k < 65536 -> 0 < u16 (flush_wnd k).
Proof.
  intros Hk Hq Hw. pose proof (wf_rcv_wnd _ Hk). pose proof (wf_nrcv_que _ Hk) as E.
  pose proof (qlen_nonneg (rcv_queue k)). unfold flush_wnd, ikcp_wnd_unused.
  destruct (Z.ltb_spec (nrcv_que k) (rcv_wnd k)); [|lia].
  rewrite (u32_small (rcv_wnd k - nrcv_que k)), i32_small, u32_small, u16_small by lia. lia.
Qed.

Lemma learn_window_of s e :
  fine s -> rmt_wnd (ep (base s) e) = 0 -> probe_wait (ep (base s) e) <> 0 ->
  exists s', goes s s' /\ 0 < rmt_wnd (ep (base s') e).
Proof.
  intros Hs Hw Hp. set (r := negb e). assert (negb r = e) as Er by apply negb_involutive.
  destruct (make_ready s r Hs) as (s1 & Hg1 & Eo1 & _ & Hac). rewrite Er in Eo1.
  pose proof (goes_fine _ _ Hg1) as Hs1. rewrite <- Eo1 in Hw, Hp.
  pose proof (wf_probe_wait _ (fine_kcp s1 e Hs1)) as Hpw.
  (* the question *)
  destruct (catch_up_spec (ep (base s1) e) (ts_probe (ep (base s1) e))
    (wf_current _ (fine_kcp s1 e Hs1))) as (Hnow & Hon & Hdue).
  destruct (say_hear s1 e _ Hs1 Hnow Hon) as (k1 & ps & k' & out & (u & t & Ek & _) & _ & _ & Hf & Hsay);
    [fold r; rewrite Hac; lia|].
  destruct (ask_goes_out k1 ps) as (x & Hx & Ecx).
  { rewrite Ek. by apply probe_asks. }
  destruct (Hsay x Hx) as (s2 & Hg2 & E2 & Hh). clear Hsay. fold r in Hh.
  pose proof (goes_fine _ _ Hg2) as Hs2.
  (* the other end reads *)
  destruct (read_all s2 r Hs2) as (s3 & Hg3 & Eo3 & Hre & Hrd). rewrite Er in Eo3.
  pose proof (goes_fine _ _ Hg3) as Hs3.
  pose proof (reads_tell _ _ Hre (heard_wask _ _ _ _ _ Hh Ecx)) as Htell.
  (* and answers *)
  destruct (say_hear s3 r (current (ep (base s3) r))) as (kr & qs & kr' & out2 & (u2 & t2 & Ekr & _) & _ & _ & _ & Hsay);
    [done|apply (wf_current _ (fine_kcp s3 r Hs3))|apply onward_refl| |].
  { rewrite Er, Eo3, E2, (flushed_acks _ _ _ _ Hf). lia. }
  destruct (answer_goes_out kr qs) as (y & Hy).
  { rewrite Ekr. apply probe_tells; [apply (wf_probe_wait _ (fine_kcp s3 r Hs3))|done]. }
  destruct (Hsay y Hy) as (s4 & Hg4 & _ & Hh4). rewrite Er in Hh4.
  exists s4. split; [do 3 (eapply goes_trans; [done|]); done|].
  rewrite (heard_wnd _ _ _ _ _ Hh4).
  change (flush_wnd kr) with (flush_wnd (ep (base s3) r)) || rewrite Ekr.
  apply (announced_window (ep (base s3) r)); [apply (fine_kcp s3 r Hs3)|by apply read_out_short|apply (fine_wnd _ Hs3)].
Qed.

Lemma learn_window s e : fine s -> exists s', goes s s' /\ 0 < rmt_wnd (ep (base s') e).
Proof.
  intros Hs. pose proof (wf_rmt_wnd _ (fine_kcp s e Hs)) as Hw.
  destruct (decide (rmt_wnd (ep (base s) e) = 0)) as [E|E].
  2:{ exists s. split; [by apply goes_refl|lia]. }
  destruct (decide (probe_wait (ep (base s) e) = 0)) as [Ep|Ep]; [|by apply learn_window_of].
  (* the first flush only starts the timer *)
  destruct (flush_now s e Hs) as (s1 & k1 & ps & out & Hg1 & _ & (u & t & Ek & _) & Hf).
  destruct (flushed_rest _ _ _ _ Hf) as (_ & E1 & _ & _ & _ & _ & _ & E2 & _).
  destruct (learn_window_of s1 e) as (s2 & Hg2 & H2); [apply Hg1|by rewrite E1, Ek| |].
  { rewrite E2, Ek. unfold after_control, flush_probe_timer. cbn. rewrite E, Ep. done. }
  exists s2. split; [by eapply goes_trans|done].
Qed.

(** *** Queued segments are sent *)

Lemma get_going s e :
  fine s -> (0 < todo (ep (base s) e))%nat ->
  exists s', goes s s' /\
    ((todo (ep (base s') e) < todo (ep (base s) e))%nat \/ snd_buf (ep (base s') e) <> []).
Proof.
  intros Hs Htd. destruct (learn_window s e Hs) as (s1 & Hg1 & Hw).
  pose proof (goes_fine _ _ Hg1) as Hs1. pose proof (goes_todo _ _ Hg1 e) as Ht1.
  destruct (decide (todo (ep (base s1) e) < todo (ep (base s) e))%nat) as [?|Hsame]; [exists s1; by auto|].
  (* the congestion window is at least one after a flush *)
  destruct (flush_now s1 e Hs1) as (s2 & k1 & ps & out & Hg2 & _ & (u & t & Ek & _) & Hf).
  destruct (flush_now s2 e) as (s3 & k2 & qs & out2 & Hg3 & _ & (u2 & t2 & Ek2 & _) & Hf2); [apply Hg2|].
  exists s3. split; [do 2 (eapply goes_trans; [done|]); done|]. right. intros Eb.
  pose proof (flushed_todo _ _ _ _ Hf) as Ed1. pose proof (flushed_todo _ _ _ _ Hf2) as Ed2.
  rewrite Ek in Ed1. rewrite Ek2 in Ed2. unfold todo in *. cbn in Ed1, Ed2. rewrite Eb in Ed2. cbn in Ed2.
  destruct (flushed_work _ _ _ _ Hf2) as [Eq|Hwin]; [rewrite Eq in Ed2; cbn in Ed2; lia|].
  pose proof (kcp_wf_una _ (fine_kcp s3 e (goes_fine _ _ Hg3))) as Hu. unfold una_tight in Hu. rewrite Eb in Hu.
  unfold in_flight in Hwin. rewrite Hu, Z.sub_diag in Hwin.
  destruct (flushed_rest _ _ _ _ Hf) as (_ & E1 & _). rewrite Ek in E1. cbn in E1.
  pose proof (flushed_cwnd _ _ _ _ Hf) as Hcw. pose proof (wf_snd_wnd _ (fine_kcp s2 e (goes_fine _ _ Hg2))) as Hsw.
  rewrite Ek2 in Hwin. unfold flush_window in Hwin. cbn in Hwin. rewrite !imin_min in Hwin.
  change (u32 0) with 0 in Hwin. destruct (nocwnd _ =? 0); lia.
Qed.

Lemma one_less s e :
  fine s -> (0 < todo (ep (base s) e))%nat ->
  exists s', goes s s' /\ (todo (ep (base s') e) < todo (ep (base s) e))%nat.
Proof.
  intros Hs Htd. destruct (get_going s e Hs Htd) as (s1 & Hg1 & [?|Hne]); [by exists s1|].
  destruct (ack_oldest s1 e (goes_fine _ _ Hg1) Hne) as (s2 & Hg2 & Hlt).
  exists s2. split; [by eapply goes_trans|]. pose proof (goes_todo _ _ Hg1 e). lia.
Qed.

Lemma all_acknowledged s : fine s -> exists s', goes s s' /\ forall e, todo (ep (base s') e) = O.
Proof.
  remember (todo (ep (base s) true) + todo (ep (base s) false))%nat as m eqn:Em.
  revert s Em. induction (lt_wf m) as [m _ IH]. intros s -> Hs.
  assert ((forall e, todo (ep (base s) e) = O) \/ exists e, (0 < todo (ep (base s) e))%nat) as [H0|[e He]].
  { destruct (todo (ep (base s) true)) eqn:Et; [|right; exists true; lia].
    destruct (todo (ep (base s) false)) eqn:Ef; [|right; exists false; lia]. left. by intros []. }
  - exists s. split; [by apply goes_refl|done].
  - destruct (one_less s e Hs He) as (s1 & Hg1 & Hlt). pose proof (goes_todo _ _ Hg1 (negb e)) as Hle.
    destruct (IH (todo (ep (base s1) true) + todo (ep (base s1) false))%nat) with (s := s1) as (s2 & Hg2 & H2);
      [destruct e; cbn in Hle; lia|done|apply Hg1|].
    exists s2. split; [by eapply goes_trans|done].
Qed.

(** *** What has been acknowledged has been received *)

Lemma all_fetched s e :
  fine s -> todo (ep (base s) (negb e)) = O -> recv_ready (ep (base s) e) = false ->
  fetched s e = posted s (negb e).
Proof.
  intros Hs Ht Hrd. pose proof (next_missing s e Hs Hrd) as Hno. pose proof (wf_nrcv_que _ (fine_kcp s e Hs)) as Enq.
  pose proof (wf_rcv_nxt _ (fine_kcp s e Hs)) as Hr0. unfold is_u32 in Hr0. unfold todo in Ht.
  destruct (fine_inv _ Hs) as (N & D & n & Hi). pose proof (unread_stream _ _ _ _ _ _ e Hi) as E.
  destruct (mi_at _ _ _ _ _ _ Hi (negb e)) as [[_ _ _ [_ _ Hkeep] _ _] _ _ _]. rewrite negb_involutive in Hkeep.
  destruct (mi_at _ _ _ _ _ _ Hi e) as [[_ _ _ _ [Hn _ _] _] _ _ _].
  destruct (snd_queue (ep (base s) (negb e))) as [|? ?]; [|done].
  destruct (snd_buf (ep (base s) (negb e))) as [|? ?] eqn:Eb; [|done].
  assert (rcv_nxt (ep (base s) e) = Z.of_nat (length (N (negb e)))) as En.
  { destruct (Z.lt_ge_cases (rcv_nxt (ep (base s) e)) (Z.of_nat (length (N (negb e))))) as [Hlt|]; [|lia].
    destruct (Hkeep (rcv_nxt (ep (base s) e))) as [?|(y & Hy & _)]; [lia|done|]. by apply not_elem_of_nil in Hy. }
  rewrite drop_ge, app_nil_r in E by lia. rewrite (mi_fetched _ _ _ _ _ _ Hi).
  pose proof (Forall2_length _ _ _ (mi_posted _ _ _ _ _ _ Hi (negb e))) as Elen.
  destruct (drop (n e) (F (negb e))) as [|f fs] eqn:Ed.
  { apply take_ge. apply (f_equal length) in Ed. rewrite length_drop in Ed. cbn in Ed. lia. }
  exfalso. assert (F (negb e) !! n e = Some f) as Hfn by (by rewrite <- (Nat.add_0_r (n e)), <- lookup_drop, Ed).
  destruct (Forall2_lookup_r _ _ _ _ _ (mi_posted _ _ _ _ _ _ Hi (negb e)) Hfn)
    as (b & _ & _ & _ & Hne & _ & _ & Hf).
  unfold recv_ready in Hrd. apply (f_equal length) in E as Elq. rewrite length_fmap in Elq.
  destruct f as [|p f]; [done|]. change (mjoin ((p :: f) :: fs)) with ((p :: f) ++ mjoin fs) in E, Elq.
  destruct (rcv_queue (ep (base s) e)) as [|x q] eqn:Eq; [done|]. cbn in E. injection E as Ep _.
  pose proof (Hf O p eq_refl) as Hp. rewrite <- Ep in Hp. apply orb_false_iff in Hrd as [_ Hrd%Z.leb_gt].
  rewrite length_app in Elq. unfold qlen in Enq. cbn in Hp, Elq, Enq. lia.
Qed.

Lemma can_complete s :
  fine s -> exists s', goes s s' /\ forall e, fetched s' (negb e) = posted s e.
Proof.
  intros Hs. destruct (all_acknowledged s Hs) as (s1 & Hg1 & H1). pose proof (goes_fine _ _ Hg1) as Hs1.
  destruct (read_all s1 true Hs1) as (s2 & Hg2 & Eo2 & _ & Hrd2). pose proof (goes_fine _ _ Hg2) as Hs2.
  destruct (read_all s2 false Hs2) as (s3 & Hg3 & Eo3 & _ & Hrd3). cbn in Eo2, Eo3.
  exists s3. assert (goes s s3) as Hg by (do 2 (eapply goes_trans; [done|]); done). split; [done|]. intros e.
  rewrite (all_fetched s3 (negb e)); [by rewrite negb_involutive, (goes_posted _ _ Hg)|apply Hg| |].
  - rewrite negb_involutive. pose proof (goes_todo _ _ Hg2 e). pose proof (goes_todo _ _ Hg3 e). specialize (H1 e). lia.
  - destruct e; cbn; [done|]. by rewrite Eo3.
Qed.
End Moves.

End Progress.

(** The system when, of the datagrams that are still under way, only [kept] will ever arrive:
    all the others are lost. *)
Definition left_with (kept : bool -> list (list Z)) (s : msys) : msys :=
  mkMsys (mkSys (ep (base s)) kept (acc (base s)) (got (base s))) (posted s) (fetched s).

Lemma left_with_inv `{Env} `{Host} c F kept s :
  (forall e d, d ∈ kept e -> d ∈ net (base s) e) -> minv_of c s F -> minv_of c (left_with kept s) F.
Proof.
  intros Hkept (N & D & n & [Ha Hs Hp Hn Hc Ht Hf]). exists N, D, n. constructor; try done.
  intros e. destruct (Ha e) as [H1 H2 H3 H4]. constructor; [done|done|done|].
  rewrite Forall_forall in H4 |- *. intros d Hd. by apply H4, Hkept.
Qed.

(** C3: No loss, repetition or reordering can wedge a connection: take any state that two
    connections in message mode reach, and lose any of the datagrams sent so far, all of them
    if you like.  As long as malloc does not fail there is a way to go on from there, sending
    no further message and setting no clock back, after which each application has received
    all the messages of the other: what was lost is sent again.  The receive windows must be
    below 65536, the first value that does not fit the 16 bits of the header, and fewer than
    2^31 segments in use. *)
Theorem delivery_always_possible `{Env} `{Host} c s0 s kept :
  malloc_never_fails -> minitial c s0 -> rtc mstep s0 s ->
  (forall e, numbered s e < 2147483648) -> (forall e, rcv_wnd (ep (base s) e) < 65536) ->
  (forall e d, d ∈ kept e -> d ∈ net (base s) e) ->
  exists s', rtc tstep (left_with kept s) s' /\ posted s' = posted s /\
    forall e, fetched s' (negb e) = posted s e.
Proof.
  intros allocs Hi Hr Hfew Hw Hkept.
  destruct (mreachable_inv c s0 s (or_intror allocs) Hi Hr) as (F & Hm).
  destruct (can_complete allocs c F) with (s := left_with kept s) as (s' & Hg & Hf).
  - apply Hi.
  - intros e. by rewrite <- (numbered_length c s F e Hm).
  - constructor; [by apply left_with_inv|exact (reachable_calm allocs c s0 s Hi Hr)|done].
  - exists s'. split; [eapply goes_run, Hg|]. split; [by rewrite (goes_posted _ _ _ _ Hg)|done].
Qed.

(** A receive window of 65536, which ikcp_wndsize accepts, is 0 in the 16 bits of the header:
    nothing this end ever sends opens the peer's window again, however empty its queue. *)
Theorem window_of_65536_looks_closed k ps x :
  rcv_wf k -> rcv_wnd k = 65536 -> rcv_queue k = [] -> x ∈ control_segs k ps ++ data_segs k ->
  h_wnd (header_of x) = 0.
Proof.
  intros Hk Hw Hq Hx%flush_announces. pose proof (wf_nrcv_que _ Hk) as En. rewrite Hq in En.
  cbn. rewrite Hx. unfold flush_wnd, ikcp_wnd_unused. rewrite En, Hw. done.
Qed.

(** ** A message whose only datagram is lost *)

Section ProgressDemo.
#[local] Existing Instance demo_env.
#[local] Existing Instance x86_64.

Lemma mdemo_run_3 : rtc mstep mdemo_0 mdemo_3.
Proof.
  unfold mdemo_3, mdemo_2, mdemo_1.
  eapply rtc_l; [eapply (mdo_send_step true [1; 2; 3]); [by_decide|by_decide|evaluated|reflexivity]|].
  eapply rtc_l; [eapply (mdo_update_step true 1000); [by_decide|evaluated|evaluated|evaluated]|].
  eapply rtc_l; [eapply (mdo_update_step true 1100); [by_decide|evaluated|evaluated|evaluated]|].
  apply rtc_refl.
Qed.

Lemma delivery_always_possible_witness :
  minitial 7 mdemo_0 /\ rtc mstep mdemo_0 mdemo_3 /\
  posted mdemo_3 true = [[1; 2; 3]] /\ fetched mdemo_3 false = [] /\
  length (net (base mdemo_3) true) = 1%nat /\ snd_queue (ep (base mdemo_3) true) = [] /\
  exists s', rtc tstep (left_with (fun _ => []) mdemo_3) s' /\ posted s' = posted mdemo_3 /\
    forall e, fetched s' (negb e) = posted mdemo_3 e.
Proof.
  assert (minitial 7 mdemo_0) as Hi by (split; [apply demo_initial|done]). split; [done|].
  split; [apply mdemo_run_3|]. split; [evaluated|]. split; [evaluated|].
  split; [evaluated|]. split; [evaluated|].
  apply (@delivery_always_possible demo_env x86_64 7 mdemo_0 mdemo_3 (fun _ => []) (fun _ _ => eq_refl) Hi mdemo_run_3);
    [intros []; evaluated|intros []; evaluated|by intros e d ?%not_elem_of_nil].
Defined.
End ProgressDemo.
