(* ===== verification/Simulator.v ===== *)
(** * The network simulator of kcp_learn/test.h

    The clock, the evenly distributed random numbers (class Random) and the network with
    loss and delay (class LatencySimulator) that test.cpp puts between two KCP
    connections.  gettimeofday and rand are the system's: [clock n] and [draw n] are what
    their [n]-th calls answer, and [calls] counts the calls.  Of itimeofday the __unix branch
    is modelled.  A DelayPacket is its bytes and its time; that its array is freed with
    delete instead of delete[] has no counterpart here. *)

From S2P Require Import Prelude.

Class Machine := { clock : nat -> Z * Z; draw : nat -> Z }.

(** rand answers between 0 and RAND_MAX. *)
Definition draws_ok `{Machine} : Prop := forall n, 0 <= draw n < 2147483648.

Record calls := mkCalls { ticks : nat; drawn : nat }.

(** ** Time *)

Definition i64 (z : Z) : Z :=
  let m := u64 z in if m <? 9223372036854775808 then m else m - 18446744073709551616.

Section Clock.
Context `{Machine}.

Definition itimeofday (c : calls) : (Z * Z) * calls :=
  (clock (ticks c), mkCalls (S (ticks c)) (drawn c)).

Definition iclock64 (c : calls) : Z * calls :=
  let '((s, u), c) := itimeofday c in
  (i64 (s * 1000 + Z.quot u 1000), c).

Definition iclock (c : calls) : Z * calls :=
  let '(t, c) := iclock64 c in (u32 (Z.land (u64 t) 4294967295), c).

Definition rand (c : calls) : Z * calls :=
  (draw (drawn c), mkCalls (ticks c) (S (drawn c))).

(** What isleep asks of usleep. *)
Definition isleep (millisecond : Z) : Z :=
  u64 (u64 (u64 (Z.shiftl millisecond 10) - u64 (Z.shiftl millisecond 4)) - u64 (Z.shiftl millisecond 3)).

(** ** Random: every number below [size] once, in random order, then again *)

Record Random := mkRandom { r_size : Z; seeds : list Z }.

Definition Random_new (size : nat) : Random := mkRandom 0 (replicate size 0).

Definition refill (r : Random) : Random :=
  if r_size r =? 0
  then mkRandom (Z.of_nat (length (seeds r))) (Z.of_nat <$> seq 0 (length (seeds r)))
  else r.

(** seeds[i]; a vector does not check the index. *)
Definition at_index (l : list Z) (i : Z) : res Z :=
  if i <? 0 then Err OutOfBounds
  else match l !! Z.to_nat i with Some x => Ok x | None => Err OutOfBounds end.

Definition random (r : Random) (c : calls) : res (Z * Random * calls) :=
  match seeds r with
  | [] => Ok (0, r, c)
  | _ =>
      let r := refill r in
      let '(n, c) := rand c in
      let i := Z.rem n (r_size r) in
      x ← at_index (seeds r) i;
      let size := r_size r - 1 in
      y ← at_index (seeds r) size;
      Ok (x, mkRandom size (<[Z.to_nat i := y]> (seeds r)), c)
  end.

End Clock.

(** ** LatencySimulator *)

Record DelayPacket := mkPacket { pkt : list Z; pkt_ts : Z }.

Record LatencySimulator := mkNet {
  tx1 : Z; tx2 : Z; sim_current : Z;
  lostrate : Z; rttmin : Z; rttmax : Z; nmax : Z;
  p12 : list DelayPacket; p21 : list DelayPacket;
  r12 : Random; r21 : Random }.

#[export] Instance eta_net : Eta LatencySimulator := fun v =>
  mkNet (tx1 v) (tx2 v) (sim_current v) (lostrate v) (rttmin v) (rttmax v) (nmax v)
    (p12 v) (p21 v) (r12 v) (r21 v).
#[export] Instance set_tx1 : Settable tx1 := ltac:(derive_setter).
#[export] Instance set_tx2 : Settable tx2 := ltac:(derive_setter).
#[export] Instance set_sim_current : Settable sim_current := ltac:(derive_setter).
#[export] Instance set_p12 : Settable p12 := ltac:(derive_setter).
#[export] Instance set_p21 : Settable p21 := ltac:(derive_setter).
#[export] Instance set_r12 : Settable r12 := ltac:(derive_setter).
#[export] Instance set_r21 : Settable r21 := ltac:(derive_setter).

Section Net.
Context `{Machine}.

Definition LatencySimulator_new (lost rmin rmax max : Z) (c : calls) : LatencySimulator * calls :=
  let '(now, c) := iclock c in
  (mkNet 0 0 now (Z.quot lost 2) (Z.quot rmin 2) (Z.quot rmax 2) max [] []
     (Random_new 100) (Random_new 100), c).

Definition sim_clear (v : LatencySimulator) : LatencySimulator := v <| p12 := [] |> <| p21 := [] |>.

(** What end 0 sends waits in p12, what the other end sends in p21. *)
Definition tunnel (peer : Z) (v : LatencySimulator) : list DelayPacket :=
  if peer =? 0 then p12 v else p21 v.
Definition dice (peer : Z) (v : LatencySimulator) : Random := if peer =? 0 then r12 v else r21 v.
Definition set_tunnel (peer : Z) (l : list DelayPacket) (v : LatencySimulator) : LatencySimulator :=
  if peer =? 0 then v <| p12 := l |> else v <| p21 := l |>.

Definition sim_send (peer : Z) (data : list Z) (v : LatencySimulator) (c : calls)
  : res (LatencySimulator * calls) :=
  let v := if peer =? 0 then v <| tx1 ::= Z.succ |> else v <| tx2 ::= Z.succ |> in
  '(x, r, c) ← random (dice peer v) c;
  let v := if peer =? 0 then v <| r12 := r |> else v <| r21 := r |> in
  if x <? lostrate v then Ok (v, c)
  else if nmax v <=? Z.of_nat (length (tunnel peer v)) then Ok (v, c)
  else
    let '(now, c) := iclock c in
    let v := v <| sim_current := now |> in
    let delay := u32 (rttmin v) in
    let '(delay, c) :=
      if rttmin v <? rttmax v then
        let '(n, c) := rand c in (u32 (delay + Z.rem n (rttmax v - rttmin v)), c)
      else (delay, c) in
    Ok (set_tunnel peer (tunnel peer v ++ [mkPacket data (u32 (now + delay))]) v, c).

(** The return value, the bytes stored at [data], and the new state. *)
Definition sim_recv (peer maxsize : Z) (v : LatencySimulator) (c : calls)
  : Z * list Z * LatencySimulator * calls :=
  let from := if peer =? 0 then 1 else 0 in
  match tunnel from v with
  | [] => (-1, [], v, c)
  | p :: rest =>
      let '(now, c) := iclock c in
      let v := v <| sim_current := now |> in
      if now <? pkt_ts p then (-2, [], v, c)
      else if maxsize <? Z.of_nat (length (pkt p)) then (-3, [], v, c)
      else (Z.of_nat (length (pkt p)), pkt p, set_tunnel from rest v, c)
  end.
End Net.

(** ** Random gives every number once *)

Section RandomSpec.
Context `{Machine}.

Fixpoint randoms (k : nat) (r : Random) (c : calls) : res (list Z * Random * calls) :=
  match k with
  | O => Ok ([], r, c)
  | S k =>
      '(x, r, c) ← random r c;
      '(l, r, c) ← randoms k r c;
      Ok (x :: l, r, c)
  end.

(** The numbers that are left in this round. *)
Definition left_over (r : Random) : list Z := take (Z.to_nat (r_size r)) (seeds r).

Definition random_ok (r : Random) : Prop :=
  seeds r <> [] /\ 0 <= r_size r <= Z.of_nat (length (seeds r)).

Lemma at_index_Ok l i : 0 <= i < Z.of_nat (length l) -> exists x, at_index l i = Ok x /\ l !! Z.to_nat i = Some x.
Proof.
  intros Hi. unfold at_index. destruct (Z.ltb_spec i 0); [lia|].
  destruct (lookup_lt_is_Some_2 l (Z.to_nat i)) as [x Hx]; [lia|]. exists x. by rewrite Hx.
Qed.

(** Moving the last element over the one that was drawn removes it from the first ones. *)
Lemma take_swap_last (l : list Z) i n x y :
  (i <= n)%nat -> l !! i = Some x -> l !! n = Some y ->
  take (S n) l ≡ₚ x :: take n (<[i := y]> l).
Proof.
  intros Hi Hx Hy. rewrite (take_S_r _ _ _ Hy). destruct (decide (i = n)) as [->|Hne].
  - rewrite take_insert_ge by lia. rewrite Hx in Hy. injection Hy as ->.
    by rewrite Permutation_app_comm.
  - rewrite take_insert_lt by lia. apply lookup_lt_Some in Hx as Hl.
    rewrite <- (take_drop_middle (take n l) i x) by (rewrite lookup_take_lt by lia; done).
    rewrite insert_app_r_alt by (rewrite length_take; lia).
    rewrite !length_take. replace (i - _)%nat with O by lia. cbn.
    rewrite <- app_assoc. cbn. rewrite <- !Permutation_middle. constructor.
    by rewrite app_nil_r.
Qed.

Hypothesis Hdraws : draws_ok.

Lemma refill_ok r : random_ok r -> random_ok (refill r) /\ 0 < r_size (refill r) /\
  length (seeds (refill r)) = length (seeds r).
Proof.
  intros [Hne Hs]. unfold refill, random_ok. destruct (Z.eqb_spec (r_size r) 0); cbn.
  - rewrite length_fmap, length_seq. destruct (seeds r); [done|]. cbn. split_and!; try done; lia.
  - split_and!; try done; lia.
Qed.

Lemma random_step r c :
  random_ok r -> returns (random r c) (fun '(x, r', _) =>
    random_ok r' /\ length (seeds r') = length (seeds r) /\
    r_size r' = r_size (refill r) - 1 /\ left_over (refill r) ≡ₚ x :: left_over r').
Proof.
  intros Hok. destruct (refill_ok r Hok) as ([Hne0 Hs0] & Hpos & El). unfold random.
  destruct (seeds r) as [|z zs] eqn:Er; [by destruct Hok|]. rewrite <- Er in *. clear z zs Er.
  set (r0 := refill r) in *. unfold rand. set (n := draw (drawn c)).
  assert (0 <= n) as Hn by apply Hdraws. set (i := Z.rem n (r_size r0)).
  assert (0 <= i < r_size r0) as Hi by (apply Z.rem_bound_pos; lia).
  destruct (at_index_Ok (seeds r0) i ltac:(lia)) as (x & -> & Hx).
  destruct (at_index_Ok (seeds r0) (r_size r0 - 1) ltac:(lia)) as (y & Ey & Hy).
  cbn [mbind res_bind]. rewrite Ey. cbn [mbind res_bind]. apply returns_Ok.
  unfold random_ok, left_over. cbn [seeds r_size]. rewrite length_insert. split_and!; try done; try lia.
  - intros E. apply (f_equal length) in E. rewrite length_insert in E. cbn in E. lia.
  - replace (Z.to_nat (r_size r0)) with (S (Z.to_nat (r_size r0 - 1))) by lia.
    apply take_swap_last; [lia|done|done].
Qed.

Lemma randoms_left k r c :
  random_ok r -> 0 < r_size r -> (k <= Z.to_nat (r_size r))%nat ->
  returns (randoms k r c) (fun '(l, r', _) =>
    random_ok r' /\ length (seeds r') = length (seeds r) /\
    r_size r' = r_size r - Z.of_nat k /\ left_over r ≡ₚ l ++ left_over r').
Proof.
  revert r c. induction k as [|k IH]; intros r c Hok Hp Hk; cbn [randoms].
  { apply returns_Ok. split_and!; try done. lia. }
  eapply returns_bind; [by apply random_step|]. intros [[x r1] c1] (Hok1 & El1 & Es1 & Hp1).
  assert (refill r = r) as Er by (unfold refill; destruct (Z.eqb_spec (r_size r) 0); [lia|done]).
  rewrite Er in *. destruct (decide (k = O)) as [->|Hk0].
  { cbn. apply returns_Ok. split_and!; done || lia. }
  eapply returns_bind; [apply IH; [done|lia|lia]|]. intros [[l r2] c2] (Hok2 & El2 & Es2 & Hp2).
  apply returns_Ok. split_and!; [done|congruence|lia|]. by rewrite Hp1, Hp2.
Qed.

(** One round of Random draws each number below its size exactly once, whatever rand
    answers, and ends as it began. *)
Theorem random_draws_each_once r c :
  seeds r <> [] -> r_size r = 0 ->
  returns (randoms (length (seeds r)) r c) (fun '(l, r', _) =>
    l ≡ₚ Z.of_nat <$> seq 0 (length (seeds r)) /\ r_size r' = 0 /\
    length (seeds r') = length (seeds r)).
Proof.
  intros Hne H0. assert (random_ok r) as Hok by (split; [done|lia]).
  destruct (refill_ok r Hok) as (Hok0 & Hpos & El).
  assert (length (seeds r) <> O) as Hm by (destruct (seeds r); done).
  assert (refill r = mkRandom (Z.of_nat (length (seeds r))) (Z.of_nat <$> seq 0 (length (seeds r)))) as E
    by (unfold refill; by rewrite H0).
  assert (random r c = random (refill r) c) as Hr.
  { unfold random. rewrite E. cbn [seeds]. destruct (length (seeds r)) as [|m]; [done|].
    destruct (seeds r); [done|]. reflexivity. }
  assert (randoms (length (seeds r)) r c = randoms (length (seeds r)) (refill r) c) as ->
    by (destruct (length (seeds r)) as [|m]; [done|]; cbn [randoms]; by rewrite Hr).
  set (m := length (seeds r)) in *.
  eapply returns_mono; [apply randoms_left; [done|done|rewrite E; cbn; lia]|].
  intros [[l r'] c'] (Hok' & El' & Es' & Hp'). rewrite El in El'. rewrite E in Es', Hp'. cbn in Es'.
  unfold left_over in Hp'. cbn [r_size seeds] in Hp'. replace (r_size r') with 0 in Hp' by lia.
  rewrite take_0, app_nil_r, take_ge in Hp' by (rewrite length_fmap, length_seq; lia).
  split_and!; [by symmetry|lia|done].
Qed.
End RandomSpec.

(** ** What the network does to the packets *)

Section NetSpec.
Context `{Machine}.
Hypothesis Hdraws : draws_ok.

Fixpoint sends (peer : Z) (ds : list (list Z)) (v : LatencySimulator) (c : calls)
  : res (LatencySimulator * calls) :=
  match ds with
  | [] => Ok (v, c)
  | d :: ds => '(v, c) ← sim_send peer d v c; sends peer ds v c
  end.

Definition settings (v : LatencySimulator) := (lostrate v, rttmin v, rttmax v, nmax v).

(** The same direction: peers are 0 and anything else. *)
Definition same_side (p q : Z) : Prop := (p =? 0) = (q =? 0).
#[export] Instance same_side_dec p q : Decision (same_side p q).
Proof. unfold same_side. apply _. Defined.

(** [x] is the number that was drawn. *)
Definition sent_one (peer : Z) (d : list Z) (v v' : LatencySimulator) (x : Z) : Prop :=
  settings v' = settings v /\
  (exists ts, tunnel peer v' = tunnel peer v ++
     (if (x <? lostrate v) || (nmax v <=? Z.of_nat (length (tunnel peer v)))
      then [] else [mkPacket d ts])) /\
  forall q, ~ same_side q peer -> tunnel q v' = tunnel q v /\ dice q v' = dice q v.

Lemma sim_send_spec peer d v c :
  random_ok (dice peer v) ->
  returns (sim_send peer d v c) (fun '(v', _) => exists x,
    random_ok (dice peer v') /\ length (seeds (dice peer v')) = length (seeds (dice peer v)) /\
    r_size (dice peer v') = r_size (refill (dice peer v)) - 1 /\
    left_over (refill (dice peer v)) ≡ₚ x :: left_over (dice peer v') /\
    sent_one peer d v v' x).
Proof.
  intros Hok. unfold sim_send, sent_one, same_side.
  set (v0 := if peer =? 0 then v <| tx1 ::= Z.succ |> else v <| tx2 ::= Z.succ |>).
  assert (dice peer v0 = dice peer v) as -> by (unfold v0, dice; by destruct (peer =? 0)).
  eapply returns_bind; [by apply random_step|]. intros [[x r] c1] (Hok' & El & Es & Hp).
  set (v1 := if peer =? 0 then v0 <| r12 := r |> else v0 <| r21 := r |>).
  assert (settings v1 = settings v /\ tunnel peer v1 = tunnel peer v /\ dice peer v1 = r /\
    forall q, (q =? 0) <> (peer =? 0) -> tunnel q v1 = tunnel q v /\ dice q v1 = dice q v)
    as (Eset & Et & Ed & Eo).
  { unfold v1, v0, tunnel, dice, settings. destruct (peer =? 0); split_and!; try done;
      intros q; by destruct (q =? 0). }
  clearbody v1. clear v0. injection Eset as E1 E2 E3 E4. rewrite E1, E4, Et.
  destruct (x <? lostrate v) eqn:Ex; cbn [orb].
  { apply returns_Ok. exists x. rewrite Ed. split_and!; try done; [unfold settings; congruence|].
    exists 0. rewrite Ex. cbn. by rewrite app_nil_r. }
  destruct (nmax v <=? Z.of_nat (length (tunnel peer v))) eqn:Em.
  { apply returns_Ok. exists x. rewrite Ed. split_and!; try done; [unfold settings; congruence|].
    exists 0. rewrite Ex. cbn. by rewrite app_nil_r. }
  destruct (iclock c1) as [now c2].
  match goal with |- returns (let '(_, _) := ?e in _) _ => destruct e as [delay c3] end.
  apply returns_Ok. exists x. set (v2 := v1 <| sim_current := now |>).
  assert (forall l, settings (set_tunnel peer l v2) = settings v1 /\ tunnel peer (set_tunnel peer l v2) = l /\
    dice peer (set_tunnel peer l v2) = dice peer v1 /\
    forall q, (q =? 0) <> (peer =? 0) -> tunnel q (set_tunnel peer l v2) = tunnel q v1 /\
      dice q (set_tunnel peer l v2) = dice q v1) as Hset.
  { intros l. subst v2. unfold set_tunnel, tunnel, dice, settings. destruct (peer =? 0); split_and!; try done;
      intros q; by destruct (q =? 0). }
  destruct (Hset (tunnel peer v ++ [mkPacket d (u32 (now + delay))])) as (F1 & F2 & F3 & F4).
  replace (tunnel peer v2) with (tunnel peer v) by (by rewrite <- Et). rewrite F1, F2, F3, Ed.
  split_and!; try done; [unfold settings; congruence|rewrite Ex; by eexists|].
  intros q Hq. destruct (F4 q Hq) as [-> ->]. by apply Eo.
Qed.

(** What is left of [ds] when the packets that drew less than [lostrate] are lost. *)
Definition sent_all (ds : list (list Z)) (peer : Z) (v v' : LatencySimulator) : Prop :=
  exists xs l,
    left_over (refill (dice peer v)) ≡ₚ xs ++ left_over (dice peer v') /\ length xs = length ds /\
    r_size (dice peer v') = r_size (refill (dice peer v)) - Z.of_nat (length ds) /\
    tunnel peer v' = tunnel peer v ++ l /\ sublist (pkt <$> l) ds /\
    length l = length (filter (fun x => lostrate v <= x) xs).

Lemma sends_left peer ds v c :
  random_ok (dice peer v) -> ds <> [] -> (length ds <= Z.to_nat (r_size (refill (dice peer v))))%nat ->
  Z.of_nat (length (tunnel peer v) + length ds) <= nmax v ->
  returns (sends peer ds v c) (fun '(v', _) => sent_all ds peer v v').
Proof.
  revert v c. induction ds as [|d ds IH]; intros v c Hok Hne Hlen Hmax; [done|]. cbn [sends].
  cbn [length] in *. eapply returns_bind; [by apply sim_send_spec|].
  intros [v1 c1] (x & Hok1 & _ & Es & Hp & Eset & (ts & Et) & _).
  injection Eset as E1 _ _ E4.
  destruct (Z.leb_spec (nmax v) (Z.of_nat (length (tunnel peer v)))) as [|_]; [lia|].
  rewrite orb_false_r in Et. set (new := if x <? lostrate v then [] else [mkPacket d ts]) in *.
  assert (length new <= 1)%nat as Hnew by (subst new; destruct (_ <? _); cbn; lia).
  assert (sublist (pkt <$> new) [d] /\ length new = length (filter (fun x => lostrate v <= x) [x])) as [Hsn Hln].
  { subst new. rewrite filter_cons, filter_nil. destruct (Z.ltb_spec x (lostrate v)).
    - rewrite decide_False by lia. split; [constructor; constructor|done].
    - rewrite decide_True by lia. split; [constructor; constructor|done]. }
  destruct (decide (ds = [])) as [->|Hds].
  { apply returns_Ok. exists [x], new. by split_and!. }
  assert (0 < length ds)%nat by (destruct ds; [done|cbn; lia]).
  assert (refill (dice peer v1) = dice peer v1) as Er.
  { unfold refill. destruct (Z.eqb_spec (r_size (dice peer v1)) 0); [lia|done]. }
  eapply returns_mono; [apply IH; rewrite ?Er; try done; [lia|rewrite Et, length_app; lia]|].
  intros [v2 c2] (xs & l & Hp2 & Hxs & Es2 & Et2 & Hsub & Hl). rewrite Er in *.
  exists (x :: xs), (new ++ l). split_and!.
  - by rewrite Hp, Hp2.
  - cbn. lia.
  - cbn. lia.
  - by rewrite Et2, Et, app_assoc.
  - rewrite fmap_app. change (d :: ds) with ([d] ++ ds). by apply sublist_app.
  - change (x :: xs) with ([x] ++ xs). rewrite E1 in Hl. rewrite filter_app, !length_app. lia.
Qed.

Lemma count_survivors n lost :
  0 <= lost <= Z.of_nat n ->
  length (filter (fun x => lost <= x) (Z.of_nat <$> seq 0 n)) = (n - Z.to_nat lost)%nat.
Proof.
  intros Hl. assert (forall k, length (filter (fun x => lost <= x) (Z.of_nat <$> seq 0 k)) = (k - Z.to_nat lost)%nat)
    as Hk; [|apply Hk].
  induction k as [|k IH]; [done|].
  rewrite seq_S, fmap_app, filter_app, length_app, IH. cbn [fmap list_fmap plus].
  rewrite filter_cons, filter_nil.
  destruct (decide (lost <= Z.of_nat k)); cbn; lia.
Qed.

(** The rate of loss is exact: of a round of packets of one end, as many as the random
    generator has numbers (100), [lostrate] are lost, whatever rand answers; the others
    wait in the tunnel, unchanged and in order. *)
Theorem loses_exactly_lostrate peer ds v c :
  seeds (dice peer v) <> [] -> r_size (dice peer v) = 0 ->
  length ds = length (seeds (dice peer v)) -> 0 <= lostrate v <= Z.of_nat (length ds) ->
  Z.of_nat (length (tunnel peer v) + length ds) <= nmax v ->
  returns (sends peer ds v c) (fun '(v', _) =>
    r_size (dice peer v') = 0 /\
    exists l, tunnel peer v' = tunnel peer v ++ l /\ sublist (pkt <$> l) ds /\
      Z.of_nat (length l) = Z.of_nat (length ds) - lostrate v).
Proof.
  intros Hne H0 Hlen Hrate Hmax.
  assert (refill (dice peer v) = mkRandom (Z.of_nat (length ds)) (Z.of_nat <$> seq 0 (length ds))) as E
    by (unfold refill; by rewrite H0, <- Hlen).
  assert (length ds <> O) as Hds by (rewrite Hlen; by destruct (seeds (dice peer v))).
  eapply returns_mono; [apply sends_left; [split; [done|lia]|by destruct ds|rewrite E; cbn; lia|done]|].
  intros [v' c'] (xs & l & Hp & Hxs & Es & Et & Hsub & Hl). rewrite E in *. cbn [r_size] in Es.
  assert (r_size (dice peer v') = 0) as Hs0 by lia. split; [done|].
  exists l. split_and!; [done|done|]. unfold left_over in Hp. rewrite Hs0 in Hp. cbn [r_size seeds] in Hp.
  rewrite take_0, app_nil_r, take_ge in Hp by (rewrite length_fmap, length_seq; lia).
  rewrite Hl, <- Hp, count_survivors by done. lia.
Qed.

(** ** Any use of the network *)

(** A call, and the bytes it stored. *)
Inductive net_call := Send (peer : Z) (data : list Z) | Recv (peer maxsize : Z).

Definition received (peer : Z) (r : Z) (out : list Z) (q : Z) : list (list Z) :=
  if bool_decide (same_side q peer) && (0 <=? r) then [out] else [].

(** The state, and by peer what was sent and received so far. *)
Record traffic := mkTraffic {
  net_state : LatencySimulator; net_calls : calls;
  sent_by : Z -> list (list Z); got_by : Z -> list (list Z) }.

Definition run_call (t : traffic) (o : net_call) : res traffic :=
  match o with
  | Send p d =>
      '(v, c) ← sim_send p d (net_state t) (net_calls t);
      Ok (mkTraffic v c (fun q => sent_by t q ++ if bool_decide (same_side q p) then [d] else []) (got_by t))
  | Recv p m =>
      let '(r, out, v, c) := sim_recv p m (net_state t) (net_calls t) in
      Ok (mkTraffic v c (sent_by t) (fun q => got_by t q ++ received p r out q))
  end.

Fixpoint run_calls (t : traffic) (l : list net_call) : res traffic :=
  match l with [] => Ok t | o :: l => t ← run_call t o; run_calls t l end.

Definition other (q : Z) : Z := if q =? 0 then 1 else 0.

Lemma sim_recv_spec p m v c :
  let '(r, out, v', _) := sim_recv p m v c in
  settings v' = settings v /\ (forall q, dice q v' = dice q v) /\
  ((r < 0 /\ out = [] /\ forall q, tunnel q v' = tunnel q v) \/
   exists pk rest, r = Z.of_nat (length (pkt pk)) /\ out = pkt pk /\ r <= m /\
     tunnel (other p) v = pk :: rest /\ tunnel (other p) v' = rest /\
     forall q, same_side q p -> tunnel q v' = tunnel q v).
Proof.
  unfold sim_recv, other. destruct (tunnel _ v) as [|pk rest] eqn:Et.
  { split_and!; try done. left. by split_and!. }
  destruct (iclock c) as [now c1]. cbn zeta. set (v1 := v <| sim_current := now |>).
  destruct (now <? pkt_ts pk); [split_and!; try done; left; by split_and!|].
  destruct (Z.ltb_spec m (Z.of_nat (length (pkt pk)))); [split_and!; try done; left; by split_and!|].
  unfold same_side, tunnel, set_tunnel, dice, settings in *.
  destruct (p =? 0) eqn:Ep; cbn in *; (split; [done|]; split; [intros q; by destruct (q =? 0)|]; right;
    exists pk, rest; split_and!; try done; try lia; intros q; by destruct (q =? 0)).
Qed.

Definition net_ok (v : LatencySimulator) : Prop := forall q, random_ok (dice q v).

Definition in_order (t : traffic) : Prop :=
  net_ok (net_state t) /\
  forall q, sublist (got_by t (other q) ++ (pkt <$> tunnel q (net_state t))) (sent_by t q).

Lemma run_call_in_order t o : in_order t -> returns (run_call t o) in_order.
Proof.
  intros [Hok Hs]. destruct o as [p d|p m]; cbn [run_call].
  - eapply returns_bind; [by apply sim_send_spec|].
    intros [v' c'] (x & Hok' & _ & _ & _ & _ & (ts & Et) & Ho). apply returns_Ok.
    assert (forall q, same_side q p -> tunnel q v' = tunnel p v' /\ dice q v' = dice p v' /\
      tunnel q (net_state t) = tunnel p (net_state t)) as Hsame
      by (intros q Hq; unfold same_side, tunnel, dice in *; by rewrite Hq).
    split; cbn.
    + intros q. destruct (decide (same_side q p)) as [Hq|Hq].
      * destruct (Hsame q Hq) as (_ & -> & _). done.
      * destruct (Ho q Hq) as [_ ->]. apply Hok.
    + intros q. specialize (Hs q). destruct (decide (same_side q p)) as [Hq|Hq].
      * rewrite bool_decide_true by done. destruct (Hsame q Hq) as (-> & _ & E). rewrite Et. rewrite E in Hs.
        rewrite fmap_app, app_assoc. apply sublist_app; [done|].
        case_match; [by apply sublist_nil_l|done].
      * rewrite bool_decide_false, app_nil_r by done. by destruct (Ho q Hq) as [-> _].
  - pose proof (sim_recv_spec p m (net_state t) (net_calls t)) as H1.
    destruct (sim_recv _ _ _ _) as [[[r out] v'] c']. destruct H1 as (_ & Hd & Hcase).
    apply returns_Ok. split; cbn; [intros q; rewrite Hd; apply Hok|].
    intros q. specialize (Hs q). unfold received.
    destruct Hcase as [(Hr & _ & Ht)|(pk & rest & -> & -> & _ & Et & Et' & Ho)].
    + rewrite Ht. destruct (Z.leb_spec 0 r); [lia|]. by rewrite andb_false_r, app_nil_r.
    + destruct (Z.leb_spec 0 (Z.of_nat (length (pkt pk)))); [|lia]. rewrite andb_true_r.
      destruct (decide (same_side (other q) p)) as [Hq|Hq].
      * rewrite bool_decide_true by done. rewrite <- app_assoc.
        assert (tunnel q (net_state t) = pk :: rest /\ tunnel q v' = rest) as [E E'].
        { rewrite <- Et, <- Et'. unfold same_side, other, tunnel in *.
          destruct (q =? 0), (p =? 0); done. }
        by rewrite E' , E in *.
      * rewrite bool_decide_false, app_nil_r by done. rewrite Ho; [done|].
        unfold same_side, other in *. destruct (q =? 0), (p =? 0); done.
Qed.

(** However the two ends call it, the network never invents, alters, repeats or reorders a
    packet: what one end has received, followed by what is on its way to it, is a
    subsequence of what the other end sent.  No call reads outside a vector. *)
Theorem network_keeps_order lost rmin rmax max c l :
  let '(v, c1) := LatencySimulator_new lost rmin rmax max c in
  returns (run_calls (mkTraffic v c1 (fun _ => []) (fun _ => [])) l) (fun t =>
    forall q, sublist (got_by t (other q) ++ (pkt <$> tunnel q (net_state t))) (sent_by t q)).
Proof.
  unfold LatencySimulator_new. destruct (iclock c) as [now c1].
  match goal with |- returns (run_calls ?t0 l) _ => assert (in_order t0) as H0 end.
  { split; cbn; intros q; unfold dice, tunnel; cbn; destruct (q =? 0); cbn;
      first [split; cbn; done || lia | constructor]. }
  revert H0. generalize (mkTraffic
    (mkNet 0 0 now (Z.quot lost 2) (Z.quot rmin 2) (Z.quot rmax 2) max [] [] (Random_new 100) (Random_new 100))
    c1 (fun _ => []) (fun _ => [])). clear now c1 c.
  induction l as [|o l IH]; intros t Ht; cbn [run_calls]; [by apply returns_Ok, Ht|].
  eapply returns_bind; [by apply run_call_in_order|]. auto.
Qed.
End NetSpec.

(** ** The clock *)

Section ClockSpec.
Context `{Machine}.

Lemma isleep_microseconds ms : 0 <= ms < 9007199254740992 -> isleep ms = 1000 * ms.
Proof.
  intros H0. unfold isleep. rewrite !Z.shiftl_mul_pow2 by lia.
  change (2 ^ 10) with 1024. change (2 ^ 4) with 16. change (2 ^ 3) with 8.
  unfold u64. rewrite !Z.mod_small by (Z.to_euclidean_division_equations; lia). lia.
Qed.

(** The time in milliseconds, modulo 2^32. *)
Lemma iclock_milliseconds c :
  0 <= snd (clock (ticks c)) ->
  fst (iclock c) = u32 (fst (clock (ticks c)) * 1000 + snd (clock (ticks c)) / 1000).
Proof.
  intros Hu. unfold iclock, iclock64, itimeofday. destruct (clock (ticks c)) as [s u]. cbn [fst snd] in *.
  rewrite Z.quot_div_nonneg by lia. set (t := s * 1000 + u / 1000).
  change 4294967295 with (Z.ones 32). rewrite Z.land_ones by lia.
  unfold u64, u32, i64, u64. cbn zeta. change (2 ^ 32) with 4294967296.
  destruct (_ <? _); Z.to_euclidean_division_equations; lia.
Qed.

Lemma iclock_range c : is_u32 (fst (iclock c)).
Proof. unfold iclock. destruct (iclock64 c) as [t c']. cbn. apply u32_range. Qed.
End ClockSpec.

(** ** The theorems on a concrete machine *)

Section SimulatorDemo.
#[local] Instance demo_machine : Machine := {|
  clock n := (1700000000 + Z.of_nat n, 250000);
  draw n := (Z.of_nat n * 7919 + 12345) mod 2147483648 |}.

Lemma demo_draws : draws_ok.
Proof. intros n. cbn. apply Z.mod_pos_bound. lia. Qed.

Lemma random_draws_each_once_witness :
  returns (randoms 5 (Random_new 5) (mkCalls 0 0)) (fun '(l, r', _) =>
    l ≡ₚ [0; 1; 2; 3; 4] /\ r_size r' = 0 /\ length (seeds r') = 5%nat).
Proof. apply (random_draws_each_once demo_draws (Random_new 5)); done. Defined.

Definition demo_net : LatencySimulator := fst (LatencySimulator_new 10 60 125 1000 (mkCalls 0 0)).

Lemma loses_exactly_lostrate_witness :
  lostrate demo_net = 5 /\
  returns (sends 0 (replicate 100 [1; 2; 3]) demo_net (mkCalls 1 0)) (fun '(v', _) =>
    r_size (dice 0 v') = 0 /\
    exists l, tunnel 0 v' = [] ++ l /\ sublist (pkt <$> l) (replicate 100 [1; 2; 3]) /\
      Z.of_nat (length l) = 95).
Proof.
  split; [done|].
  apply (loses_exactly_lostrate demo_draws 0 (replicate 100 [1; 2; 3]) demo_net); by_decide || done.
Defined.

Lemma network_keeps_order_witness :
  let '(v, c1) := LatencySimulator_new 10 60 125 1000 (mkCalls 0 0) in
  returns (run_calls (mkTraffic v c1 (fun _ => []) (fun _ => []))
             [Send 0 [1]; Send 0 [2]; Send 1 [3]; Recv 1 2000; Recv 0 2000]) (fun t =>
    forall q, sublist (got_by t (other q) ++ (pkt <$> tunnel q (net_state t))) (sent_by t q)).
Proof. apply (network_keeps_order demo_draws 10 60 125 1000 (mkCalls 0 0)). Defined.
End SimulatorDemo.
