(* ===== verification/KcpTest.v ===== *)
(** * The latency test of kcp_learn/test.cpp

    Two connections over the simulated network of Simulator.v: kcp1 sends a numbered
    message of eight bytes every 20 milliseconds, kcp2 sends back what it receives, and kcp1
    checks that the numbers come back in order.  The theorem is that they do, whatever the
    network loses and delays.

    kcp1 is [true], kcp2 is [false].  The buffer holds what the calls stored; a call is
    given the part of it that its length argument covers.  The printed lines are left out,
    and isleep, which only waits. *)

From stdpp Require Import functions relations.
From S2P Require Import Prelude IkcpBase IkcpCb IkcpSnd IkcpRcv IkcpInput IkcpFlush IkcpArq.
From S2P Require Import KcpMessages Simulator.

Record test_state := mkTest {
  kcps : bool -> ikcpcb;
  vnet : LatencySimulator;
  asked : calls;
  buf : list Z;
  slap : Z; index : Z; next : Z;
  sumrtt : Z; count : Z; maxrtt : Z; ts1 : Z }.

#[export] Instance eta_test : Eta test_state := fun s =>
  mkTest (kcps s) (vnet s) (asked s) (buf s) (slap s) (index s) (next s) (sumrtt s) (count s) (maxrtt s) (ts1 s).
#[export] Instance set_kcps : Settable kcps := ltac:(derive_setter).
#[export] Instance set_vnet : Settable vnet := ltac:(derive_setter).
#[export] Instance set_asked : Settable asked := ltac:(derive_setter).
#[export] Instance set_buf : Settable buf := ltac:(derive_setter).
#[export] Instance set_slap : Settable slap := ltac:(derive_setter).
#[export] Instance set_index : Settable index := ltac:(derive_setter).
#[export] Instance set_next : Settable next := ltac:(derive_setter).
#[export] Instance set_sumrtt : Settable sumrtt := ltac:(derive_setter).
#[export] Instance set_count : Settable count := ltac:(derive_setter).
#[export] Instance set_maxrtt : Settable maxrtt := ltac:(derive_setter).

(** The four bytes at an offset, as an IUINT32. *)
Definition load_at `{Host} (b : list Z) (i : nat) : res Z :=
  if (i + 4 <=? length b)%nat then Ok (host_val (take 4 (drop i b))) else Err OutOfBounds.

Inductive outcome := Going | Finished | ErrorSn.

Section Test.
Context `{env : Env} `{host : Host} `{machine : Machine}.

(** The int of the union with the pointer: the first four of its eight bytes. *)
Definition parameter_id (user0 : Z) : Z :=
  if host_big_endian then i32 (Z.shiftr (u64 user0) 32) else i32 user0.

Definition udp_output (d : list Z) (user0 : Z) (v : LatencySimulator) (c : calls)
  : res (LatencySimulator * calls) := sim_send (parameter_id user0) d v c.

Fixpoint udp_outputs (ds : list (list Z)) (user0 : Z) (v : LatencySimulator) (c : calls)
  : res (LatencySimulator * calls) :=
  match ds with
  | [] => Ok (v, c)
  | d :: ds => '(v, c) ← udp_output d user0 v c; udp_outputs ds user0 v c
  end.

(** ikcp_update(kcp, iclock()); the datagrams it hands to the callback go out in order. *)
Definition update_kcp (e : bool) (s : test_state) : res test_state :=
  let '(now, c) := iclock (asked s) in
  '(k, out) ← ikcp_update (kcps s e) now;
  '(v, c) ← udp_outputs out (user k) (vnet s) c;
  Ok (s <| kcps := <[e := k]> (kcps s) |> <| vnet := v |> <| asked := c |>).

(** The loop that sends what is due. *)
Fixpoint send_due (fuel : nat) (current : Z) (s : test_state) : res test_state :=
  match fuel with
  | O => Err Diverges
  | S fuel =>
      if current >=? slap s then
        b ← store_at (buf s) 0 (host_bytes 4 (index s));
        b ← store_at b 4 (host_bytes 4 current);
        '(_, k) ← ikcp_send (kcps s true) (Some (take 8 b)) 8;
        send_due fuel current
          (s <| index ::= fun i => u32 (i + 1) |> <| buf := b |> <| kcps := <[true := k]> (kcps s) |>
             <| slap ::= fun t => u32 (t + 20) |>)
      else Ok s
  end.

(** The loops that pass on what has arrived for end [e], whose number is [peer]. *)
Fixpoint pass_on (fuel : nat) (e : bool) (peer : Z) (s : test_state) : res test_state :=
  match fuel with
  | O => Err Diverges
  | S fuel =>
      let '(hr, out, v, c) := sim_recv peer 2000 (vnet s) (asked s) in
      let s := s <| vnet := v |> <| asked := c |> in
      if hr <? 0 then Ok s
      else
        b ← store_at (buf s) 0 out;
        '(_, k) ← ikcp_input (kcps s e) (Some (take (Z.to_nat hr) b)) hr;
        pass_on fuel e peer (s <| buf := b |> <| kcps := <[e := k]> (kcps s) |>)
  end.

(** kcp2 sends back what it receives. *)
Fixpoint echo_back (fuel : nat) (s : test_state) : res test_state :=
  match fuel with
  | O => Err Diverges
  | S fuel =>
      '(hr, out, k) ← ikcp_recv (kcps s false) true 10;
      b ← store_at (buf s) 0 out;
      let s := s <| buf := b |> <| kcps := <[false := k]> (kcps s) |> in
      if hr <? 0 then Ok s
      else
        '(_, k) ← ikcp_send (kcps s false) (Some (take (Z.to_nat hr) b)) hr;
        echo_back fuel (s <| kcps := <[false := k]> (kcps s) |>)
  end.

(** kcp1 checks what comes back; [false] is the return after the error message. *)
Fixpoint check_back (fuel : nat) (current : Z) (s : test_state) : res (bool * test_state) :=
  match fuel with
  | O => Err Diverges
  | S fuel =>
      '(hr, out, k) ← ikcp_recv (kcps s true) true 10;
      b ← store_at (buf s) 0 out;
      let s := s <| buf := b |> <| kcps := <[true := k]> (kcps s) |> in
      if hr <? 0 then Ok (true, s)
      else
        sn ← load_at b 0;
        ts ← load_at b 4;
        let rtt := u32 (current - ts) in
        if negb (sn =? next s) then Ok (false, s)
        else
          check_back fuel current
            (s <| next ::= fun n => u32 (n + 1) |> <| sumrtt ::= fun r => i64 (r + rtt) |>
               <| count ::= fun n => i32 (n + 1) |>
               <| maxrtt ::= fun m => if rtt >? u32 m then i32 rtt else m |>)
  end.

(** One round of the main loop. *)
Definition test_round (fuel : nat) (s : test_state) : res (outcome * test_state) :=
  let '(current, c) := iclock (asked s) in
  let s := s <| asked := c |> in
  s ← update_kcp true s;
  s ← update_kcp false s;
  s ← send_due fuel current s;
  s ← pass_on fuel false 1 s;
  s ← pass_on fuel true 0 s;
  s ← echo_back fuel s;
  '(good, s) ← check_back fuel current s;
  Ok (if negb good then ErrorSn else if next s >? 1000 then Finished else Going, s).

(** The main loop, for at most [rounds] rounds. *)
Fixpoint test_loop (rounds fuel : nat) (s : test_state) : res (outcome * test_state) :=
  match rounds with
  | O => Ok (Going, s)
  | S rounds =>
      '(o, s) ← test_round fuel s;
      match o with Going => test_loop rounds fuel s | _ => Ok (o, s) end
  end.

(** One end: created, given its callback, and set up for the mode. *)
Definition test_kcp (mode : Z) (fast : bool) (user0 : Z) : res ikcpcb :=
  match fst (ikcp_create 287454020 user0) with
  | None => Err NullDeref
  | Some k =>
      let k := ikcp_setoutput k true in
      let k := snd (ikcp_wndsize k 128 128) in
      let k :=
        if mode =? 0 then snd (ikcp_nodelay k 0 10 0 0)
        else if mode =? 1 then snd (ikcp_nodelay k 0 10 0 1)
        else snd (ikcp_nodelay k 2 10 2 1) in
      Ok (if fast && negb (mode =? 0) && negb (mode =? 1)
          then k <| rx_minrto := 10 |> <| fastresend := 1 |> else k)
  end.

(** Everything before the loop; [junk] is what the buffer holds at first. *)
Definition test_setup (mode : Z) (junk : list Z) (c : calls) : res test_state :=
  let '(v, c) := LatencySimulator_new 10 60 125 1000 c in
  k1 ← test_kcp mode true 0;
  k2 ← test_kcp mode false 1;
  let '(current, c) := iclock c in
  let '(started, c) := iclock c in
  Ok (mkTest (fun e => if e then k1 else k2) v c junk (u32 (current + 20)) 0 0 0 0 0 started).

(** What the function prints at the end. *)
Record report := mkReport { total_ms : Z; avg_rtt : Z; max_rtt : Z; tx_count : Z }.

(** Both connections are released; the number is of the blocks they still hold. *)
Definition test_end (mode : Z) (s : test_state) : res (report * Z) :=
  let '(now, c) := iclock (asked s) in
  let blocks := live (ikcp_release (kcps s true)) + live (ikcp_release (kcps s false)) in
  if (mode <? 0) || (2 <? mode) then Err OutOfBounds (* names[mode] *)
  else if count s =? 0 then Err DivByZero
  else Ok (mkReport (i32 (u32 (now - ts1 s))) (i32 (Z.quot (sumrtt s) (count s))) (maxrtt s)
             (i32 (tx1 (vnet s))), blocks).

(** test: the report, unless it returned early or [rounds] rounds were not enough. *)
Definition test (rounds fuel : nat) (mode : Z) (junk : list Z) (c : calls)
  : res (outcome * option (report * Z) * test_state) :=
  s ← test_setup mode junk c;
  '(o, s) ← test_loop rounds fuel s;
  match o with
  | Finished => r ← test_end mode s; Ok (o, Some r, s)
  | _ => Ok (o, None, s)
  end.

End Test.

(** ** The invariant of the main loop *)

Definition peer (e : bool) : Z := if e then 0 else 1.

(** The message number [i]: its number, and the time it was sent. *)
Definition numbered_msg `{Host} (i : nat) (m : list Z) : Prop :=
  exists t, m = host_bytes 4 (Z.of_nat i) ++ host_bytes 4 t.

(** [s] is the system of KcpMessages.v that the test drives. *)
Record test_inv `{Env} `{Host} `{Machine} (st : test_state) (s : msys)
    (F : bool -> list (list (Z * list Z))) : Prop := {
  ti_inv : minv_of 287454020 s F;
  ti_ep : ep (base s) = kcps st;
  ti_user : forall e, user (kcps st e) = peer e;
  ti_frames : forall e, length (mjoin (F e)) = length (posted s e);
  ti_net : net_ok (vnet st) /\ nmax (vnet st) = 1000;
  ti_tunnel : forall e, Forall (fun p => pkt p ∈ net (base s) e) (tunnel (peer e) (vnet st)) /\
    (length (tunnel (peer e) (vnet st)) <= 1000)%nat;
  ti_buf : length (buf st) = 2000%nat;
  ti_index : index st = Z.of_nat (length (posted s true));
  ti_posted : forall i m, posted s true !! i = Some m -> numbered_msg i m;
  ti_echo : posted s false = fetched s false;
  ti_next : next st = Z.of_nat (length (fetched s true)) /\ count st = next st }.

Section Invariant.
Context `{env : Env} `{host : Host} `{machine : Machine}.
Hypothesis allocs : malloc_never_fails.
Hypothesis Hdraws : draws_ok.
Hypothesis little : host_big_endian = false.

Lemma host_val_bytes v : is_u32 v -> host_val (host_bytes 4 v) = v.
Proof. intros Hv. rewrite host_val_le_bytes, le_val_bytes. apply u32_small, Hv. Qed.

(** ** The datagrams an update hands to the network *)

Lemma peer_same e q : same_side q (peer e) -> tunnel q = tunnel (peer e).
Proof. unfold same_side, peer, tunnel. intros Hq. destruct e, (q =? 0); done. Qed.

Lemma not_same_side e : ~ same_side (peer (negb e)) (peer e).
Proof. unfold same_side. by destruct e. Qed.

Lemma udp_outputs_spec e out v c (P : list Z -> Prop) :
  net_ok v -> nmax v = 1000 -> (forall d, d ∈ out -> P d) ->
  (length (tunnel (peer e) v) <= 1000)%nat -> Forall (fun p => P (pkt p)) (tunnel (peer e) v) ->
  returns (udp_outputs out (peer e) v c) (fun '(v', _) =>
    net_ok v' /\ nmax v' = 1000 /\ (length (tunnel (peer e) v') <= 1000)%nat /\
    Forall (fun p => P (pkt p)) (tunnel (peer e) v') /\
    tunnel (peer (negb e)) v' = tunnel (peer (negb e)) v).
Proof.
  revert v c. induction out as [|d out IH]; intros v c Hok Hmax Hout Hlen HP; cbn [udp_outputs].
  { by apply returns_Ok. }
  unfold udp_output. assert (parameter_id (peer e) = peer e) as -> by (unfold parameter_id; rewrite little; by destruct e).
  eapply returns_bind; [by apply sim_send_spec|].
  intros [v1 c1] (x & Hd & _ & _ & _ & Eset & (ts & Et) & Ho).
  assert (nmax v1 = 1000) as Hmax1 by (injection Eset; congruence).
  assert (tunnel (peer (negb e)) v1 = tunnel (peer (negb e)) v) as Eo.
  { apply Ho. apply not_same_side. }
  rewrite <- Eo. apply IH; [|done|intros; apply Hout; by right|..].
  - intros q. destruct (decide (same_side q (peer e))) as [Hq|Hq].
    + assert (dice q v1 = dice (peer e) v1) as ->; [|done]. unfold same_side, dice in *. by rewrite Hq.
    + destruct (Ho q Hq) as [_ ->]. apply Hok.
  - rewrite Et, length_app. destruct (Z.leb_spec (nmax v) (Z.of_nat (length (tunnel (peer e) v)))).
    + rewrite orb_true_r. cbn. lia.
    + rewrite orb_false_r. destruct (_ <? _); cbn; lia.
  - rewrite Et. apply Forall_app. split; [done|]. destruct (_ || _); [done|].
    apply Forall_singleton. apply Hout. by left.
Qed.

(** The acknowledgements that wait do not grow by more than [b] bytes of datagrams. *)
Definition acks_within (st st' : test_state) (b : Z) : Prop :=
  forall e, 24 * ackcount (kcps st' e) <= 24 * ackcount (kcps st e) + b.

Lemma conv_u32 : is_u32 287454020.
Proof. by_decide. Qed.

Lemma update_kcp_inv e st s F :
  test_inv st s F -> ackcount (kcps st e) < 2147483648 ->
  Z.of_nat (length (posted s e)) < 2147483648 ->
  returns (update_kcp e st) (fun st' => exists s',
    test_inv st' s' F /\ posted s' = posted s /\ fetched s' = fetched s /\
    slap st' = slap st /\ acks_within st st' 0).
Proof.
  intros [Hm Hep Hu Hf [Hok Hmax] Ht Hb Hi Hp He Hn] Hac Hlen. unfold update_kcp.
  pose proof (iclock_range (asked st)) as Hnow. destruct (iclock (asked st)) as [now c]. cbn [fst] in Hnow.
  rewrite <- Hep in Hac.
  pose proof (tick_returns 287454020 s F e now conv_u32 Hm Hnow Hac
    ltac:(rewrite (numbered_length _ _ _ _ Hm), Hf; lia)) as Htick. rewrite Hep in Htick.
  eapply returns_bind; [exact Htick|]. intros [k out] (Emo & Hk & _ & Hm').
  injection Emo as _ _ Eu _. rewrite Eu, Hu.
  destruct (Ht e) as [Hte Hle].
  eapply returns_bind.
  { apply (udp_outputs_spec e out (vnet st) c (fun d => d ∈ net (base s) e ++ out)); try done.
    - intros d Hd. apply elem_of_app. by right.
    - eapply Forall_impl; [exact Hte|]. intros p Hin. apply elem_of_app. by left. }
  intros [v c'] (Hok' & Hmax' & Hle' & Hte' & Eo). apply returns_Ok.
  exists (mkMsys (set_end (base s) e k out [] []) (posted s) (fetched s)).
  split; [|split_and!; try done].
  - constructor; cbn; try done.
    + by rewrite Hep.
    + intros e'. destruct (decide (e' = e)) as [->|?];
        [rewrite fn_lookup_insert; congruence|by rewrite fn_lookup_insert_ne].
    + intros e'. destruct (decide (e' = e)) as [->|Hne]; [by rewrite fn_lookup_insert|].
      rewrite fn_lookup_insert_ne by done. assert (e' = negb e) as -> by (by destruct e, e').
      rewrite Eo. apply Ht.
  - intros e'. cbn. destruct (decide (e' = e)) as [->|?];
      [rewrite fn_lookup_insert; lia|rewrite fn_lookup_insert_ne by done; lia].
Qed.

Lemma bytes8_byte m i : numbered_msg i m -> Forall is_byte m /\ length m = 8%nat.
Proof.
  intros (t & ->). split; [apply Forall_app; split; apply host_bytes_byte|].
  by rewrite length_app, !length_host_bytes.
Qed.

(** A message that is posted. *)
Lemma post_inv e k0 s F b :
  minv_of 287454020 s F -> (forall e', length (mjoin (F e')) = length (posted s e')) ->
  ep (base s) e = k0 -> Forall is_byte b -> length b = 8%nat ->
  returns (ikcp_send k0 (Some b) 8) (fun '(_, k) => exists s' F',
    minv_of 287454020 s' F' /\ base s' = set_end (base s) e k [] b [] /\
    posted s' = <[e := posted s e ++ [b]]> (posted s) /\ fetched s' = fetched s /\
    (forall e', length (mjoin (F' e')) = length (posted s' e')) /\
    user k = user k0 /\ ackcount k = ackcount k0).
Proof.
  intros Hm Hf Hep Hby Hl.
  destruct (minv_kcp _ _ _ e Hm) as (Hk0 & _).
  pose proof (post_returns 287454020 s F e b allocs Hm Hby ltac:(lia)) as H.
  pose proof (frag_count_le _ 8 1 Hk0 ltac:(lia) ltac:(lia)) as H1.
  pose proof (frag_count_pos (mss (ep (base s) e)) 8) as H2. rewrite Hl in H. change (Z.of_nat 8) with 8 in H.
  replace (frag_count (mss (ep (base s) e)) 8) with 1 in H by lia. rewrite Hep in H.
  eapply returns_mono; [exact H|]. intros [r k] (-> & Emo & Hk & (f & Hlf & Hm')).
  eexists _, _. split_and!; [exact Hm'|done|done|done| |injection Emo; congruence|done].
  intros e'. cbn. destruct (decide (e' = e)) as [->|?]; [|by rewrite !fn_lookup_insert_ne].
  rewrite !fn_lookup_insert, join_app, !length_app, Hf. cbn. rewrite app_nil_r. lia.
Qed.

(** ** How the parts of [test_inv] survive a call of one end *)

Section Turn.
Variables (e : bool) (st : test_state) (s s' : msys) (k : ikcpcb) (out : list (list Z)) (a g : list Z).
Hypothesis (Hep : ep (base s) = kcps st) (Hu : forall e', user (kcps st e') = peer e').
Hypothesis (Eb : base s' = set_end (base s) e k out a g) (Euk : user k = peer e).

Lemma turn_ep : ep (base s') = <[e := k]> (kcps st).
Proof. by rewrite Eb; cbn; rewrite Hep. Qed.

Lemma turn_user e' : user (<[e := k]> (kcps st) e') = peer e'.
Proof.
  destruct (decide (e' = e)) as [->|?]; [by rewrite fn_lookup_insert|by rewrite fn_lookup_insert_ne].
Qed.

Lemma turn_net (P : bool -> list DelayPacket) n :
  (forall e', Forall (fun p => pkt p ∈ net (base s) e') (P e') /\ (length (P e') <= n)%nat) ->
  forall e', Forall (fun p => pkt p ∈ net (base s') e') (P e') /\ (length (P e') <= n)%nat.
Proof.
  intros H e'. destruct (H e') as [H1 H2]. split; [|done]. eapply Forall_impl; [exact H1|].
  intros p Hp. rewrite Eb. cbn. destruct (decide (e' = e)) as [->|?];
    [rewrite fn_lookup_insert; apply elem_of_app; by left|by rewrite fn_lookup_insert_ne].
Qed.

Lemma turn_acks st' b :
  kcps st' = <[e := k]> (kcps st) -> 0 <= b -> 24 * ackcount k <= 24 * ackcount (kcps st e) + b ->
  acks_within st st' b.
Proof.
  intros E Hb Hk e'. rewrite E. destruct (decide (e' = e)) as [->|?];
    [by rewrite fn_lookup_insert|rewrite fn_lookup_insert_ne by done; lia].
Qed.
End Turn.

Lemma acks_within_trans a b c x y : acks_within a b x -> acks_within b c y -> acks_within a c (x + y).
Proof. intros H1 H2 e. specialize (H1 e). specialize (H2 e). lia. Qed.

(** A message is appended for one end. *)
Lemma post_lookup (f : bool -> list (list Z)) e e' m :
  <[e := f e ++ [m]]> f e' = if decide (e' = e) then f e' ++ [m] else f e'.
Proof. destruct (decide (e' = e)) as [->|?]; [by rewrite fn_lookup_insert|by rewrite fn_lookup_insert_ne]. Qed.

(** How many messages are due. *)
Definition due (current slap0 : Z) : Z := Z.max 0 ((current - slap0) / 20 + 1).

Lemma due_nonneg current t : 0 <= due current t.
Proof. unfold due. lia. Qed.

Lemma due_none current t : current < t -> due current t = 0.
Proof. intros H. unfold due. assert ((current - t) / 20 < 0) by (apply Z.div_lt_upper_bound; lia). lia. Qed.

Lemma due_one current t : t <= current -> due current t = 1 + due current (t + 20).
Proof.
  intros H. unfold due. pose proof (Z.div_pos (current - t) 20 ltac:(lia) ltac:(lia)).
  replace (current - (t + 20)) with (current - t + -1 * 20) by lia. rewrite Z.div_add by lia. lia.
Qed.

Lemma send_due_inv fuel current st s F :
  test_inv st s F -> is_u32 current -> current < 4294967276 -> is_u32 (slap st) ->
  index st + due current (slap st) < 2147483648 -> due current (slap st) < Z.of_nat fuel ->
  returns (send_due fuel current st) (fun st' => exists s' F',
    test_inv st' s' F' /\ fetched s' = fetched s /\ acks_within st st' 0 /\
    index st' = index st + due current (slap st) /\
    slap st' = slap st + 20 * due current (slap st) /\ current < slap st' /\
    next st' = next st).
Proof.
  revert st s F. induction fuel as [|fuel IH]; intros st s F Hi Hc Hcur Hsl Hidx Hfuel.
  { pose proof (due_nonneg current (slap st)). lia. }
  cbn [send_due].
  unfold is_u32 in *. destruct (Z.geb_spec current (slap st)) as [Hge|Hlt].
  2:{ apply returns_Ok. exists s, F. rewrite due_none in * by done.
      split_and!; try done; try lia. intros e. lia. }
  pose proof Hi as [Hm Hep Hu Hf Hv Ht Hb Hix Hp He Hn]. rewrite (due_one _ _ Hge) in *.
  pose proof (due_nonneg current (slap st + 20)) as Hdue.
  rewrite store_at_Ok by (rewrite length_host_bytes; lia). cbn [mbind res_bind].
  rewrite length_host_bytes. set (b1 := take 0 (buf st) ++ _).
  assert (length b1 = 2000%nat) as Hb1.
  { subst b1. rewrite take_0, app_nil_l, length_app, length_drop, length_host_bytes, Hb. done. }
  rewrite store_at_Ok by (rewrite length_host_bytes; lia). cbn [mbind res_bind].
  rewrite length_host_bytes. set (b2 := take 4 b1 ++ _).
  set (msg := host_bytes 4 (index st) ++ host_bytes 4 current).
  assert (take 8 b2 = msg) as ->.
  { subst b2 msg. assert (take 4 b1 = host_bytes 4 (index st)) as ->.
    { subst b1. rewrite take_0, app_nil_l. apply take_app_length'. by rewrite length_host_bytes. }
    rewrite app_assoc. apply take_app_length'. by rewrite length_app, !length_host_bytes. }
  assert (length b2 = 2000%nat) as Hb2.
  { subst b2. rewrite !length_app, length_take, length_drop, length_host_bytes, Hb1. done. }
  assert (numbered_msg (length (posted s true)) msg) as Hmsg by (exists current; by rewrite <- Hix).
  destruct (bytes8_byte _ _ Hmsg) as [Hby Hl8].
  eapply returns_bind; [by apply (post_inv true (kcps st true) s F msg); rewrite ?Hep|].
  intros [r k] (s' & F' & Hm' & Eb & Epo & Efe & Hf' & Euk & Hak). rewrite Hu in Euk.
  assert (u32 (index st + 1) = index st + 1) as Ei1 by (apply u32_small; lia).
  assert (u32 (slap st + 20) = slap st + 20) as Es1 by (apply u32_small; lia).
  eapply returns_mono; [apply (IH _ s' F')|]; cbn; rewrite ?Ei1, ?Es1; try done; try lia.
  - constructor; cbn [kcps vnet buf slap index next count]; try done.
    + eapply turn_ep; eauto.
    + eapply turn_user; eauto.
    + eapply turn_net; eauto.
    + rewrite Epo, post_lookup, decide_True, length_app by done. cbn. lia.
    + intros i m. rewrite Epo, post_lookup, decide_True by done.
      intros [?|[Hge' E]]%lookup_app_Some; [by apply Hp|].
      destruct (i - _)%nat as [|?] eqn:Ei; cbn in E; [|done]. injection E as <-.
      by replace i with (length (posted s true)) by lia.
    + by rewrite Epo, Efe, post_lookup, decide_False.
    + by rewrite Efe.
  - intros st' (s2 & F2 & Hi2 & Ef2 & Hac & Ei & Es & Hlt & En). exists s2, F2. cbn in *. rewrite ?Ei1, ?Es1 in *.
    split_and!; try done; try lia; [congruence|].
    replace 0 with (0 + 0) by done. eapply acks_within_trans; [|exact Hac].
    eapply turn_acks; [done|lia|rewrite Hak; lia].
Qed.
(** ** Datagrams that arrive *)

Lemma other_peer e : other (peer e) = peer (negb e).
Proof. by destruct e. Qed.

Lemma dice_ok v v' : (forall q, dice q v' = dice q v) -> net_ok v -> net_ok v'.
Proof. intros E H q. rewrite E. apply H. Qed.

Lemma pass_on_inv fuel e st s F :
  test_inv st s F -> (length (tunnel (peer (negb e)) (vnet st)) < fuel)%nat ->
  24 * ackcount (kcps st e) + 2000 * Z.of_nat (length (tunnel (peer (negb e)) (vnet st))) < 25769803776 ->
  returns (pass_on fuel e (peer e) st) (fun st' => exists s',
    test_inv st' s' F /\ posted s' = posted s /\ fetched s' = fetched s /\ slap st' = slap st /\
    acks_within st st' (2000 * Z.of_nat (length (tunnel (peer (negb e)) (vnet st)))) /\
    kcps st' (negb e) = kcps st (negb e) /\ index st' = index st /\ next st' = next st).
Proof.
  revert st s. induction fuel as [|fuel IH]; intros st s Hi Hfuel Hack; [lia|]. cbn [pass_on].
  pose proof Hi as [Hm Hep Hu Hf [Hok Hmax] Ht Hb Hix Hp He Hn].
  pose proof (sim_recv_spec (peer e) 2000 (vnet st) (asked st)) as Hr.
  destruct (sim_recv _ _ _ _) as [[[hr out] v] c]. destruct Hr as (Eset & Hd & Hcase). rewrite other_peer in Hcase.
  assert (net_ok v /\ nmax v = 1000) as [Hok' Hmax'].
  { split; [by eapply dice_ok|]. unfold settings in Eset. congruence. }
  destruct Hcase as [(Hr & _ & Et)|(p & rest & -> & -> & Hle & Et & Et' & Ho)].
  - destruct (Z.ltb_spec hr 0); [|lia]. apply returns_Ok. exists s. split_and!; try done; [|intros e'; cbn; lia].
    constructor; cbn; try done. intros e'. rewrite Et. apply Ht.
  - destruct (Z.ltb_spec (Z.of_nat (length (pkt p))) 0); [lia|]. cbn [buf kcps].
    destruct (Ht (negb e)) as [Htp Htl]. rewrite Et in Htp, Htl, Hfuel, Hack |- *. cbn [length] in *.
    apply Forall_cons in Htp as [Hp0 Htp].
    destruct (store_front_Ok (buf st) (pkt p)) as (b & Hsb & Hlb & Hpb); [lia|].
    cbn. rewrite Hsb. cbn [mbind res_bind]. rewrite Nat2Z.id, Hpb.
    pose proof (deliver_returns 287454020 s F e (pkt p) allocs Hm Hp0) as Hdel. rewrite Hep in Hdel.
    eapply returns_bind; [apply Hdel; lia|]. intros [r k] (Emo & Hak & Hm').
    set (s1 := mkMsys (set_end (base s) e k [] [] []) (posted s) (fetched s)) in *.
    assert (user k = peer e) as Euk by (injection Emo; intros; rewrite <- Hu; congruence).
    assert (tunnel (peer e) v = tunnel (peer e) (vnet st)) as Eo by (by apply Ho).
    set (st1 := _ <| kcps := _ |>).
    assert (acks_within st st1 (Z.of_nat (length (pkt p)))) as Hac1 by (eapply turn_acks; [done|lia|done]).
    eapply returns_mono; [apply (IH st1 s1)|]; cbn; rewrite ?Et'; try lia.
    + constructor; cbn; try done; [by rewrite Hep|by apply turn_user| |congruence].
      eapply (turn_net e s s1); [done|]. intros e'.
      destruct (decide (e' = e)) as [->|Hne]; [rewrite Eo; apply Ht|].
      assert (e' = negb e) as -> by (by destruct e, e'). rewrite Et'. split; [done|lia].
    + specialize (Hac1 e). cbn in Hac1. lia.
    + intros st' (s2 & Hi2 & Epo & Efe & Esl & Hac2 & Ek & Eix & Enx).
      exists s2. split_and!; try done.
      2:{ rewrite Ek. cbn. rewrite fn_lookup_insert_ne; [done|by destruct e]. }
      intros e'. specialize (Hac1 e'). specialize (Hac2 e'). lia.
Qed.

(** ** Messages that are taken *)

(** What a call that took nothing, or message number [length (fetched s e)], leaves. *)
Lemma fetch_inv e st s F :
  test_inv st s F ->
  returns (ikcp_recv (kcps st e) true 10) (fun '(hr, out, k) => exists s',
    minv_of 287454020 s' F /\ base s' = set_end (base s) e k [] [] out /\ posted s' = posted s /\
    user k = peer e /\ ackcount k = ackcount (kcps st e) /\
    ((hr < 0 /\ out = [] /\ forall e', fetched s' e' = fetched s e') \/
     (hr = 8 /\ fetched s' = <[e := fetched s e ++ [out]]> (fetched s) /\
      numbered_msg (length (fetched s e)) out))).
Proof.
  intros [Hm Hep Hu Hf _ _ _ _ Hp He _].
  pose proof (fetch_returns 287454020 s F e 10 Hm ltac:(by_decide) ltac:(lia)) as Hfe. rewrite Hep in Hfe.
  destruct Hfe as ([[hr out] k] & Hrc & Emo & Hak & Hres & Hm'). eexists. split; [exact Hrc|].
  exists (fetched_state s e 10 hr out k). injection Emo as _ _ Euk _. rewrite Hu in Euk.
  split_and!; try done. destruct Hres as [[Hneg ->]|(Hpos & Hlen & _)].
  2:{ right. assert (fetched (fetched_state s e 10 hr out k) = <[e := fetched s e ++ [out]]> (fetched s)) as Efe.
    { unfold fetched_state. cbn. destruct (Z.ltb_spec hr 0); [lia|done]. }
    destruct (fetched_prefix _ _ _ (negb e) Hm') as (rest & Epo). rewrite negb_involutive, Efe in Epo.
    cbn [posted fetched_state] in Epo. rewrite fn_lookup_insert, <- app_assoc in Epo.
    assert (numbered_msg (length (fetched s e)) out) as Hnum.
    { apply Hp. destruct e; cbn in Epo.
      - destruct (fetched_prefix _ _ _ true Hm) as (rest' & ->). cbn. rewrite <- He, Epo.
        rewrite <- app_assoc. rewrite lookup_app_r by lia. by rewrite Nat.sub_diag.
      - rewrite Epo, lookup_app_r by lia. by rewrite Nat.sub_diag. }
    destruct (bytes8_byte _ _ Hnum) as [_ Hl8]. split_and!; [|done|done]. rewrite Hlen, Hl8. lia. }
  left. split_and!; try done. unfold fetched_state. cbn. destruct (Z.ltb_spec hr 0); [|lia].
  intros e'. cbn. rewrite app_nil_r. apply insert_same.
Qed.

Lemma echo_back_inv fuel st s F :
  test_inv st s F -> (length (posted s true) < fuel + length (fetched s false))%nat ->
  returns (echo_back fuel st) (fun st' => exists s' F',
    test_inv st' s' F' /\ slap st' = slap st /\ acks_within st st' 0 /\
    index st' = index st /\ next st' = next st /\ vnet st' = vnet st).
Proof.
  revert st s F. induction fuel as [|fuel IH]; intros st s F Hi Hfuel.
  { destruct (fetched_prefix _ _ _ true (ti_inv _ _ _ Hi)) as (rest & E). rewrite E, length_app in Hfuel. cbn in Hfuel. lia. }
  cbn [echo_back]. eapply returns_bind; [by apply fetch_inv|].
  intros [[hr out] k] (s1 & Hm1 & Eb1 & Epo1 & Euk1 & Hak1 & Hcase).
  pose proof Hi as [Hm Hep Hu Hf Hv Ht Hb Hix Hp He Hn].
  destruct Hcase as [(Hneg & -> & Efe1)|(-> & Efe1 & Hnum)].
  - destruct (store_front_Ok (buf st) []) as (b & Hsb & Hlb & _); [cbn; lia|]. rewrite Hsb. cbn [mbind res_bind].
    destruct (Z.ltb_spec hr 0); [|lia]. apply returns_Ok. exists s1, F.
    split_and!; try done; [|eapply turn_acks; [done|lia|lia]].
    constructor; cbn; try done; rewrite ?Epo1, ?Efe1; try done; [by eapply turn_ep|by apply turn_user| |congruence].
    eapply turn_net; eauto.
  - destruct (bytes8_byte _ _ Hnum) as [Hby Hl8].
    destruct (store_front_Ok (buf st) out) as (b & Hsb & Hlb & Hpb); [lia|]. rewrite Hsb. cbn [mbind res_bind].
    change (8 <? 0) with false. cbn [kcps]. rewrite Hl8 in Hpb. change (Z.to_nat 8) with 8%nat. rewrite Hpb.
    assert (ep (base s1) = <[false := k]> (kcps st)) as Hep1 by (by eapply turn_ep).
    assert (forall e', user (<[false := k]> (kcps st) e') = peer e') as Hu1 by by apply turn_user.
    set (st1 := _ <| kcps := _ |>).
    eapply returns_bind.
    { apply (post_inv false (kcps st1 false) s1 F out); try done; [by rewrite Epo1|by rewrite Hep1]. }
    intros [r k2] (s2 & F2 & Hm2 & Eb2 & Epo2 & Efe2 & Hf2 & Euk2 & Hak2).
    cbn in Euk2, Hak2. rewrite Hu1 in Euk2. rewrite fn_lookup_insert in Hak2.
    rewrite Epo1 in Epo2. rewrite Efe1 in Efe2.
    set (st2 := st1 <| kcps := _ |>).
    assert (acks_within st st1 0) as Hac1 by (eapply turn_acks; [done|lia|lia]).
    assert (acks_within st1 st2 0) as Hac2.
    { eapply turn_acks; [done|lia|]. cbn. rewrite fn_lookup_insert. lia. }
    eapply returns_mono; [apply (IH st2 s2 F2)|].
    + constructor; cbn; try done.
      * by eapply (turn_ep false st1).
      * by apply (turn_user false st1).
      * eapply turn_net; [exact Eb2|]. eapply turn_net; [exact Eb1|done].
      * congruence.
      * by rewrite Epo2, post_lookup, decide_False.
      * by rewrite Epo2, post_lookup, decide_False.
      * rewrite Epo2, Efe2, !post_lookup, !decide_True by done. by rewrite He.
      * by rewrite Efe2, post_lookup, decide_False.
    + rewrite Epo2, Efe2, !post_lookup, decide_False, decide_True, length_app by done. cbn. lia.
    + intros st' (s3 & F3 & Hi3 & Esl & Hac3 & Eix & Enx & Ev). exists s3, F3. split_and!; try done.
      intros e'. specialize (Hac1 e'). specialize (Hac2 e'). specialize (Hac3 e'). lia.
Qed.

Lemma check_back_inv fuel current st s F :
  test_inv st s F -> index st < 2147483648 -> index st - next st < Z.of_nat fuel ->
  returns (check_back fuel current st) (fun '(good, st') => good = true /\ exists s',
    test_inv st' s' F /\ slap st' = slap st /\ acks_within st st' 0 /\ index st' = index st /\
    next st <= next st' /\ vnet st' = vnet st).
Proof.
  revert st s. induction fuel as [|fuel IH]; intros st s Hi Hidx Hfuel;
    pose proof Hi as [Hm Hep Hu Hf Hv Ht Hb Hix Hp He [Hn Hcn]];
    destruct (fetched_prefix _ _ _ true Hm) as (rest & E1);
    destruct (fetched_prefix _ _ _ false Hm) as (rest' & E2); cbn in E1, E2;
    rewrite He in E2; rewrite E2 in E1; rewrite E1, !length_app in Hix; [lia|].
  cbn [check_back]. eapply returns_bind; [by apply fetch_inv|].
  intros [[hr out] k] (s1 & Hm1 & Eb1 & Epo1 & Euk1 & Hak1 & Hcase).
  destruct Hcase as [(Hneg & -> & Efe1)|(-> & Efe1 & Hnum)].
  - destruct (store_front_Ok (buf st) []) as (b & Hsb & Hlb & _); [cbn; lia|]. rewrite Hsb. cbn [mbind res_bind].
    destruct (Z.ltb_spec hr 0); [|lia]. apply returns_Ok. split; [done|]. exists s1.
    split_and!; try done; [|eapply turn_acks; [done|lia|lia]].
    constructor; cbn; try done; rewrite ?Epo1, ?Efe1; try done;
      [by eapply turn_ep|by apply turn_user| |congruence|rewrite E1, !length_app; lia].
    eapply turn_net; eauto.
  - destruct (bytes8_byte _ _ Hnum) as [Hby Hl8].
    destruct (store_front_Ok (buf st) out) as (b & Hsb & Hlb & Hpb); [lia|]. rewrite Hsb. cbn [mbind res_bind].
    change (8 <? 0) with false. cbn [buf next].
    assert (exists sent, out = host_bytes 4 (next st) ++ host_bytes 4 sent) as (t & Eout).
    { destruct Hnum as (t & ->). exists t. by rewrite Hn. }
    assert (is_u32 (next st)) as Hnu by (unfold is_u32; lia).
    assert (load_at b 0 = Ok (next st)) as Eld.
    { unfold load_at. rewrite (proj2 (Nat.leb_le (0 + 4) _)) by lia. f_equal. rewrite drop_0.
      assert (take 4 b = take 4 (take 8 b)) as -> by (by rewrite take_take). rewrite <- Hl8, Hpb, Eout.
      rewrite take_app_length' by by rewrite length_host_bytes. by apply host_val_bytes. }
    assert (exists ts, load_at b 4 = Ok ts) as (ts & Ets).
    { unfold load_at. rewrite (proj2 (Nat.leb_le (4 + 4) _)) by lia. by eexists. }
    cbn. rewrite Eld. cbn [mbind res_bind]. rewrite Ets. cbn [mbind res_bind]. rewrite Z.eqb_refl. cbn [negb].
    set (st1 := _ <| maxrtt ::= _ |>).
    assert (acks_within st st1 0) as Hac1 by (eapply turn_acks; [done|lia|lia]).
    pose proof (fetched_prefix _ _ _ false Hm1) as (rest1 & E3). cbn in E3.
    rewrite Epo1, Efe1, post_lookup, decide_True in E3 by done.
    assert (length (fetched s true) < length (posted s false))%nat as Hlt
      by (rewrite E3, !length_app; cbn; lia).
    rewrite He, E2, length_app in Hlt.
    assert (next st1 = next st + 1) as En1 by (cbn; apply u32_small; lia).
    eapply returns_mono; [apply (IH st1 s1)|].
    + constructor; try done; rewrite ?Epo1; cbn [kcps vnet buf index]; try done.
      * by eapply turn_ep.
      * by apply turn_user.
      * eapply turn_net; eauto.
      * cbn. congruence.
      * cbn. rewrite E1, !length_app. lia.
      * by rewrite Efe1, post_lookup, decide_False.
      * rewrite En1, Efe1, post_lookup, decide_True, length_app by done. cbn. split; [lia|].
        rewrite Hcn. apply i32_small. lia.
    + done.
    + cbn in *. lia.
    + intros [good st'] (-> & s3 & Hi3 & Esl & Hac3 & Eix & Enx & Ev). split; [done|]. exists s3.
      split_and!; try done; [|lia]. intros e'. specialize (Hac1 e'). specialize (Hac3 e'). lia.
Qed.
(** ** The main loop *)

(** The clock stays in [t0, t0 + span], clear of its wrap; [t1] is the first time a message
    is due, and [b] bounds the acknowledgements that wait. *)
Section Loop.
Variables (t0 span t1 : Z).
Hypothesis (Hclock : forall c, t0 <= fst (iclock c) <= t0 + span).
Hypothesis (Ht0 : 0 <= t0) (Hwrap : t0 + span < 4294967276) (Ht1 : t0 + 20 <= t1).

Definition running (b : Z) (st : test_state) : Prop :=
  (exists s F, test_inv st s F) /\ slap st = t1 + 20 * index st /\ slap st <= t0 + span + 20 /\
  forall e, 24 * ackcount (kcps st e) <= b.

Lemma due_bound current t : t <= t0 + span + 20 -> current <= t0 + span -> t + 20 * due current t <= t0 + span + 20.
Proof. intros H1 H2. unfold due. Z.to_euclidean_division_equations. lia. Qed.

Lemma test_inv_range st s F : test_inv st s F -> 0 <= next st <= index st.
Proof.
  intros Hi. destruct (fetched_prefix _ _ _ true (ti_inv _ _ _ Hi)) as (r1 & E1).
  destruct (fetched_prefix _ _ _ false (ti_inv _ _ _ Hi)) as (r2 & E2). cbn in E1, E2.
  rewrite (ti_index _ _ _ Hi), (proj1 (ti_next _ _ _ Hi)), E1, <- (ti_echo _ _ _ Hi), E2, !length_app. lia.
Qed.

Lemma test_round_inv fuel b st :
  running b st -> 0 <= b <= 25000000000 -> 1000 < Z.of_nat fuel -> span / 20 < Z.of_nat fuel ->
  returns (test_round fuel st) (fun '(o, st') =>
    running (b + 2000000) st' /\ o <> ErrorSn /\ (o = Finished <-> 1000 < next st')).
Proof.
  intros ((s & F & Hi) & Esl & Hsl & Hac) Hb Hf1 Hf2. unfold test_round.
  pose proof (Hclock (asked st)) as Hnow. destruct (iclock (asked st)) as [now c]. cbn [fst] in Hnow.
  assert (test_inv (st <| asked := c |>) s F) as Hi0 by (destruct Hi; constructor; done).
  set (st0 := st <| asked := c |>) in *.
  assert (index st <= span / 20) as Hix by (apply Z.div_le_lower_bound; lia).
  assert (span / 20 < 214748364) as Hspan by (apply Z.div_lt_upper_bound; lia).
  pose proof (test_inv_range _ _ _ Hi) as Hnx.
  assert (forall e, Z.of_nat (length (posted s e)) < 2147483648) as Hlen.
  { pose proof (ti_index _ _ _ Hi). destruct (fetched_prefix _ _ _ true (ti_inv _ _ _ Hi)) as (r1 & E1).
    cbn in E1. pose proof (f_equal length E1) as El. rewrite length_app in El.
    intros []; [lia|]. rewrite (ti_echo _ _ _ Hi). lia. }
  eapply returns_bind.
  { apply (update_kcp_inv true _ _ _ Hi0); [specialize (Hac true); cbn; lia|apply Hlen]. }
  intros st1 (s1 & Hi1 & Epo1 & Efe1 & Esl1 & Hac1).
  eapply returns_bind.
  { apply (update_kcp_inv false _ _ _ Hi1); [specialize (Hac1 false); specialize (Hac false); cbn in *; lia|].
    rewrite Epo1. apply Hlen. }
  intros st2 (s2 & Hi2 & Epo2 & Efe2 & Esl2 & Hac2).
  assert (index st2 = index st) as Eix2
    by (rewrite (ti_index _ _ _ Hi2), (ti_index _ _ _ Hi), Epo2, Epo1; done).
  assert (slap st2 = slap st) as Eslap by (rewrite Esl2, Esl1; done).
  pose proof (due_nonneg now (slap st2)) as Hd0.
  pose proof (due_bound now (slap st2) ltac:(lia) ltac:(lia)) as Hd.
  assert (due now (slap st2) <= span / 20) as Hd2 by (apply Z.div_le_lower_bound; lia).
  eapply returns_bind.
  { apply (send_due_inv fuel now _ _ _ Hi2); unfold is_u32; lia. }
  intros st3 (s3 & F3 & Hi3 & Efe3 & Hac3 & Eix3 & Esl3 & _ & _).
  assert (index st3 <= span / 20) as Hix3 by (apply Z.div_le_lower_bound; lia).
  assert (forall e, 24 * ackcount (kcps st3 e) <= b) as Hb3.
  { intros e. specialize (Hac e). specialize (Hac1 e). specialize (Hac2 e). specialize (Hac3 e). cbn in *. lia. }
  pose proof (ti_tunnel _ _ _ Hi3 true) as [_ Ht3].
  eapply returns_bind.
  { apply (pass_on_inv fuel false _ _ _ Hi3); cbn [negb]; [lia|]. specialize (Hb3 false). lia. }
  intros st4 (s4 & Hi4 & Epo4 & Efe4 & Esl4 & Hac4 & Ek4 & Eix4 & _). cbn [negb] in *.
  pose proof (ti_tunnel _ _ _ Hi4 false) as [_ Ht4].
  eapply returns_bind.
  { apply (pass_on_inv fuel true _ _ _ Hi4); cbn [negb]; [lia|]. rewrite Ek4. specialize (Hb3 true). lia. }
  intros st5 (s5 & Hi5 & Epo5 & Efe5 & Esl5 & Hac5 & Ek5 & Eix5 & _). cbn [negb] in *.
  assert (forall e, 24 * ackcount (kcps st5 e) <= b + 2000000) as Hb5.
  { intros []; [specialize (Hac5 true); rewrite Ek4 in Hac5; specialize (Hb3 true); lia|].
    rewrite Ek5. specialize (Hac4 false). specialize (Hb3 false). lia. }
  eapply returns_bind.
  { apply (echo_back_inv fuel _ _ _ Hi5). pose proof (ti_index _ _ _ Hi5). lia. }
  intros st6 (s6 & F6 & Hi6 & Esl6 & Hac6 & Eix6 & Enx6 & _).
  pose proof (test_inv_range _ _ _ Hi6) as Hnx6.
  eapply returns_bind; [apply (check_back_inv fuel now _ _ _ Hi6); lia|].
  intros [good st7] (-> & s7 & Hi7 & Esl7 & Hac7 & Eix7 & Enx7 & _). apply returns_Ok. cbn [negb].
  split_and!; [|by destruct (next st7 >? 1000)|destruct (Z.gtb_spec (next st7) 1000); split; (done || lia)].
  split_and!; [by exists s7, F6|lia|lia|].
  intros e. specialize (Hb5 e). specialize (Hac6 e). specialize (Hac7 e). lia.
Qed.

Lemma test_loop_inv fuel rounds b st :
  running b st -> 0 <= b -> b + 2000000 * Z.of_nat rounds <= 25000000000 ->
  1000 < Z.of_nat fuel -> span / 20 < Z.of_nat fuel -> next st <= 1000 ->
  returns (test_loop rounds fuel st) (fun '(o, st') =>
    (exists b', running b' st') /\ o <> ErrorSn /\ (o = Finished <-> 1000 < next st')).
Proof.
  revert b st. induction rounds as [|rounds IH]; intros b st Hr Hb Hbr Hf1 Hf2 Hn; cbn [test_loop].
  { apply returns_Ok. split_and!; [by eexists|done|split; (done || lia)]. }
  eapply returns_bind; [apply (test_round_inv fuel b); (done || lia)|].
  intros [o st1] (Hr1 & Ho & Hfin). destruct o; [|by apply returns_Ok; split_and!; [by eexists|..]|done].
  eapply returns_mono; [apply (IH (b + 2000000)); try done; try lia|by intros [o st2]].
  destruct (Z.le_gt_cases (next st1) 1000); [done|]. by assert (Going = Finished) by (apply Hfin; lia).
Qed.
End Loop.
(** ** Before the loop *)

Definition fresh_end (e : bool) : ikcpcb -> Prop := idle 287454020 true (peer e) IKCP_MTU_DEF.

Lemma fresh_fast e k : fresh_end e k -> fresh_end e (k <| rx_minrto := 10 |> <| fastresend := 1 |>).
Proof.
  intros [[Hs Hr Hc Hu [ps Ha] Hl] Hrest]. split; [|done]. destruct Hc, Ha.
  constructor; try carry_wf; try done; try (exists ps; by constructor); constructor; cbn; try done; lia.
Qed.

Lemma test_kcp_ready mode fast e : returns (test_kcp mode fast (peer e)) (fresh_end e).
Proof.
  unfold test_kcp. destruct (idle_create 287454020 (peer e) allocs) as (k & -> & Hk). apply returns_Ok.
  destruct (mode =? 0); [|destruct (mode =? 1)]; cbn [negb andb]; rewrite ?andb_false_r;
    try destruct fast; cbn [andb]; try apply fresh_fast; apply idle_nodelay; try by_decide;
    apply idle_wndsize; try by_decide; by eapply idle_output.
Qed.

Lemma test_setup_inv mode junk c t0 span :
  (forall c, t0 <= fst (iclock c) <= t0 + span) -> 0 <= t0 -> t0 + span < 4294967276 ->
  length junk = 2000%nat ->
  returns (test_setup mode junk c) (fun st => exists t1,
    t0 + 20 <= t1 /\ running t0 span t1 0 st /\ next st = 0).
Proof.
  intros Hclock Ht0 Hwrap Hj. unfold test_setup, LatencySimulator_new.
  destruct (iclock c) as [now0 c1].
  eapply returns_bind; [apply (test_kcp_ready mode true true)|]. intros k1 Hk1.
  eapply returns_bind; [apply (test_kcp_ready mode false false)|]. intros k2 Hk2.
  pose proof (Hclock c1) as Hnow. destruct (iclock c1) as [now c2]. cbn [fst] in Hnow.
  destruct (iclock c2) as [now' c3]. apply returns_Ok. exists (now + 20). rewrite (u32_small (now + 20)) by lia.
  set (kk := fun e : bool => if e then k1 else k2).
  set (s0 := mkMsys (mkSys kk (fun _ => []) (fun _ => []) (fun _ => [])) (fun _ => []) (fun _ => [])).
  assert (forall e, fresh_end e (kk e)) as Hfe by (intros []; done).
  assert (minitial 287454020 s0) as Hini by (by apply (idle_initial _ kk peer (fun _ => IKCP_MTU_DEF)); [apply conv_u32|]).
  destruct (minitial_inv _ _ Hini) as (F & Hm).
  assert (forall e, length (mjoin (F e)) = O) as HF.
  { intros e. pose proof (numbered_posted _ _ _ e Hm) as Hn0. rewrite (numbered_length _ _ _ e Hm) in Hn0. cbn in Hn0. lia. }
  assert (forall e, user (kk e) = peer e /\ ackcount (kk e) = 0) as Hkk
    by (intros e; destruct (Hfe e) as [_ H]; by injection H).
  split_and!; [lia| |done]. split_and!; cbn; try lia.
  2:{ intros e. fold kk. destruct (Hkk e) as [_ ->]. done. }
  exists s0, F. constructor; try done; cbn.
  - intros e. apply Hkk.
  - split; [|done]. intros q. unfold dice. cbn. destruct (q =? 0); split; cbn; done || lia.
  - intros e. assert (tunnel (peer e) (mkNet 0 0 now0 (Z.quot 10 2) (Z.quot 60 2) (Z.quot 125 2) 1000 [] []
      (Random_new 100) (Random_new 100)) = []) as -> by (by destruct e). split; [constructor|cbn; lia].
Qed.

(** On a host that stores the high half of a pointer first, both ends get the number 0. *)
Lemma big_endian_ids : host_big_endian = true -> parameter_id 0 = parameter_id 1.
Proof. unfold parameter_id. by intros ->. Qed.

Lemma test_end_returns mode st s F :
  test_inv st s F -> 0 < next st -> 0 <= mode <= 2 -> returns (test_end mode st) (fun '(r, blocks) => blocks = 0).
Proof.
  intros Hi Hn Hmode. unfold test_end. destruct (iclock (asked st)) as [now c'].
  destruct (ti_next _ _ _ Hi) as [_ ->].
  destruct (Z.ltb_spec mode 0), (Z.ltb_spec 2 mode); try lia. cbn [orb].
  destruct (Z.eqb_spec (next st) 0); [lia|]. apply returns_Ok.
  assert (forall e, live (ikcp_release (kcps st e)) = 0) as Hl; [|by rewrite !Hl].
  intros e. apply ikcp_release_frees. rewrite <- (ti_ep _ _ _ Hi). eapply minv_kcp, ti_inv, Hi.
Qed.

End Invariant.

(** C11: The latency test never reports its error, in any of its modes, whatever rand answers
    and so whatever the network loses and delays: as long as malloc does not fail, for 12000
    rounds of its loop every call returns, no access leaves the buffer, the numbers come back
    in order, and it ends when, and only when, more than 1000 have come back, each counted
    once; then it prints its report and the connections have given back all their memory.
    The clock may read anything that does not come near its wrap; the fuel covers the
    messages that can be due.  The host is little-endian (see big_endian_ids). *)
Theorem test_never_errs `{Env} `{Host} `{Machine} mode junk c t0 span fuel rounds :
  malloc_never_fails -> draws_ok -> host_big_endian = false ->
  0 <= mode <= 2 ->
  (forall c, t0 <= fst (iclock c) <= t0 + span) -> 0 <= t0 -> t0 + span < 4294967276 ->
  length junk = 2000%nat -> Z.of_nat rounds <= 12000 ->
  1000 < Z.of_nat fuel -> span / 20 < Z.of_nat fuel ->
  returns (test rounds fuel mode junk c) (fun '(o, r, st) =>
    o <> ErrorSn /\ (o = Finished <-> 1000 < next st) /\ count st = next st /\
    next st <= index st <= span / 20 /\ (o = Finished -> exists rep, r = Some (rep, 0))).
Proof.
  intros allocs Hdraws little Hmode Hclock Ht0 Hwrap Hj Hr Hf1 Hf2. unfold test.
  eapply returns_bind; [by apply (test_setup_inv allocs mode junk c t0 span)|].
  intros st (t1 & Ht1 & Hrun & Hn).
  eapply returns_bind; [apply (test_loop_inv allocs Hdraws little t0 span t1 Hclock Ht0 Hwrap Ht1 fuel rounds 0 st Hrun); lia|].
  intros [o st'] ((b & (s & F & Hi) & Esl & Hsl & _) & Ho & Hfin).
  destruct (test_inv_range _ _ _ Hi) as [Hr0 Hr1].
  assert (index st' <= span / 20) as Hix by (apply Z.div_le_lower_bound; lia).
  pose proof (ti_next _ _ _ Hi) as [_ Hc].
  destruct o; [by apply returns_Ok| |done].
  eapply returns_bind; [apply (test_end_returns mode st' s F Hi); [pose proof (proj1 Hfin eq_refl); lia|done]|].
  intros [rep blocks] ->. apply returns_Ok. split_and!; try done. intros _. by exists rep.
Qed.

(** ** On a concrete machine *)

Section KcpTestDemo.
#[local] Existing Instance demo_env.
#[local] Existing Instance x86_64.

(** A clock that is one millisecond further each time it is read, up to 400 seconds. *)
#[local] Instance ticking_machine : Machine := {|
  clock n := let ms := Z.min (Z.of_nat n) 400000 in (1000 + ms / 1000, ms mod 1000 * 1000);
  draw n := (Z.of_nat n * 7919 + 12345) mod 2147483648 |}.

Lemma ticking_clock c : 1000000 <= fst (iclock c) <= 1000000 + 400000.
Proof.
  rewrite iclock_milliseconds; cbn [clock ticking_machine fst snd]; [|Z.to_euclidean_division_equations; lia].
  rewrite u32_small; Z.to_euclidean_division_equations; lia.
Qed.

Lemma ticking_draws : draws_ok.
Proof. intros n. apply (Z.mod_pos_bound (Z.of_nat n * 7919 + 12345) 2147483648 eq_refl). Qed.

(** Within 200 rounds messages have gone all the way to the echo and back. *)
Example test_gets_echoes :
  match test 200 1001 2 (replicate 2000 0) (mkCalls 0 0) with
  | Ok (Going, None, st) => (0 <? next st) && (next st <=? index st)
  | _ => false
  end = true.
Proof. vm_compute. reflexivity. Qed.

Lemma test_never_errs_witness :
  returns (test (Z.to_nat 12000) (Z.to_nat 20001) 2 (replicate 2000 0) (mkCalls 0 0)) (fun '(o, r, st) =>
    o <> ErrorSn /\ (o = Finished <-> 1000 < next st) /\ count st = next st /\
    next st <= index st <= 400000 / 20 /\ (o = Finished -> exists rep, r = Some (rep, 0))).
Proof.
  apply (@test_never_errs demo_env x86_64 ticking_machine
    2 (replicate 2000 0) (mkCalls 0 0) 1000000 400000 (Z.to_nat 20001) (Z.to_nat 12000) (fun _ _ => eq_refl) ticking_draws eq_refl);
    [lia|apply ticking_clock|lia|lia|by_decide|rewrite Z2Nat.id by lia; lia|rewrite Z2Nat.id by lia; lia|rewrite Z2Nat.id by lia; by_decide].
Defined.
End KcpTestDemo.
