(* ===== verification/KcpServer.v ===== *)
(** * The echo server over KCP of kcp_learn/server.c

    The loop of the server, one round for each answer of recvfrom, and its correctness
    when the other end is any application on a KCP connection: it serves every sequence
    of datagrams without a fault, and what it sends back is what it was sent, in order.
    A message longer than any datagram of the other end stops it (long_message_blocks).

    [None] is a recvfrom that found nothing; the empty datagram ends the loop.  sendto
    either sends the datagram or does not, which the network of KcpMessages.v covers.  The
    sockets, the sleeps and the printed log are left out; the code of the clock is that of
    test.h (Simulator.v), and a round is given what iclock answers. *)

From stdpp Require Import functions relations.
From S2P Require Import Prelude IkcpBase IkcpCb IkcpSnd IkcpRcv IkcpInput IkcpFlush IkcpArq KcpMessages.

Definition RECV_BUF : nat := 1500.

(** [number] counts the replies. *)
Record server := mkServer { pkcp : ikcpcb; sbuf : list Z; number : Z }.

(** What a round leaves: whether the loop goes on, the datagrams given to udp_output, and
    the messages that were sent back. *)
Record round := mkRound {
  goes_on : bool; server_after : server; handed : list (list Z); echoed : list (list Z) }.

Section Server.
Context `{env : Env} `{host : Host}.

(** The body of the loop of function loop. *)
Definition server_round (now : Z) (answer : option (list Z)) (sv : server) : res round :=
  '(k, out1) ← ikcp_update (pkcp sv) now;
  match answer with
  | None => Ok (mkRound true (mkServer k (sbuf sv) (number sv)) out1 [])
  | Some d =>
      let d := take RECV_BUF d in
      let n := Z.of_nat (length d) in
      if n =? 0 then Ok (mkRound false (mkServer k (sbuf sv) (number sv)) out1 [])
      else
        b ← store_at (sbuf sv) 0 d;
        '(ret, k) ← ikcp_input k (Some (take (Z.to_nat n) b)) n;
        if ret <? 0 then Ok (mkRound true (mkServer k b (number sv)) out1 [])
        else
          '(ret, out, k) ← ikcp_recv k true n;
          b ← store_at b 0 out;
          if ret <? 0 then Ok (mkRound true (mkServer k b (number sv)) out1 [])
          else
            let send_size := ret in
            '(_, k) ← ikcp_send k (Some (take (Z.to_nat send_size) b)) send_size;
            '(k, out2) ← ikcp_flush k;
            Ok (mkRound true (mkServer k b (i32 (number sv + 1))) (out1 ++ out2)
                  [take (Z.to_nat send_size) b])
  end.

(** function loop up to its loop: the first update, and the cleared buffer. *)
Definition server_start (now : Z) (k : ikcpcb) : res (server * list (list Z)) :=
  '(k, out) ← ikcp_update k now;
  Ok (mkServer k (replicate RECV_BUF 0) 0, out).

(** The connection that main sets up; ikcp_setmtu follows the pointer it is given. *)
Definition server_kcp (user0 : Z) : res ikcpcb :=
  match fst (ikcp_create 1 user0) with
  | None => Err NullDeref
  | Some k =>
      let k := snd (ikcp_setmtu k 1400) in
      let k := ikcp_setoutput k true in
      let k := snd (ikcp_nodelay k 0 10 0 0) in
      Ok (snd (ikcp_wndsize k 128 128))
  end.
End Server.

(** ** The server in the system of KcpMessages.v

    The server is end [false]; end [true] is any application that uses the entry points. *)

(** What one end has. *)
Definition side (s : msys) (e : bool) :=
  (ep (base s) e, net (base s) e, posted s e, fetched s e).

Definition after_round (s : msys) (r : round) : msys :=
  mkMsys (set_end (base s) false (pkcp (server_after r)) (handed r) (mjoin (echoed r)) (mjoin (echoed r)))
    (<[false := posted s false ++ echoed r]> (posted s))
    (<[false := fetched s false ++ echoed r]> (fetched s)).

Section Serving.
Context `{env : Env} `{host : Host}.
Hypothesis allocs : malloc_never_fails.

Record world := mkWorld { srv : server; wsys : msys; up : bool }.

(** A round is given nothing, or any datagram that the other end ever sent, if it fits the
    buffer.  The bounds are those of the system's steps. *)
Inductive world_step (w : world) : world -> Prop :=
  | peer_moves s' :
      mstep (wsys w) s' -> side s' false = side (wsys w) false ->
      world_step w (mkWorld (srv w) s' (up w))
  | server_moves now answer r :
      up w = true -> is_u32 now ->
      match answer with
      | None => True
      | Some d => d ∈ net (base (wsys w)) true /\ (length d <= RECV_BUF)%nat
      end ->
      24 * ackcount (pkcp (srv w)) + 1500 < 25769803776 -> numbered (wsys w) false < 2147483520 ->
      server_round now answer (srv w) = Ok r ->
      world_step w (mkWorld (server_after r) (after_round (wsys w) r) (goes_on r)).

(** Both ends are new; main has set up the connection of the server and loop has updated it
    once. *)
Definition world_initial (w : world) : Prop :=
  exists s0 user0 now out,
    minitial 1 s0 /\ server_kcp user0 = Ok (ep (base s0) false) /\ is_u32 now /\
    server_start now (ep (base s0) false) = Ok (srv w, out) /\ up w = true /\
    wsys w = mkMsys (set_end (base s0) false (pkcp (srv w)) out [] []) (posted s0) (fetched s0).

Definition within_mtu (s : msys) (e : bool) : Prop :=
  Forall (fun d => Z.of_nat (length d) <= mtu (ep (base s) e)) (net (base s) e).

Lemma mstep_mtu c s s' e :
  is_u32 c -> minv c s -> mstep s s' ->
  mtu (ep (base s') e) = mtu (ep (base s) e) /\ (within_mtu s e -> within_mtu s' e).
Proof.
  intros Hc (F & Hm) Hst.
  assert (forall e' k' out a g (p f : bool -> list (list Z)), mtu k' = mtu (ep (base s) e') ->
    Forall (fun d => 0 < Z.of_nat (length d) <= mtu (ep (base s) e')) out ->
    let s2 := mkMsys (set_end (base s) e' k' out a g) p f in
    mtu (ep (base s2) e) = mtu (ep (base s) e) /\ (within_mtu s e -> within_mtu s2 e)) as Hset.
  { intros e' k' out a g p f Emtu Hout s2. unfold within_mtu, s2. cbn.
    destruct (decide (e = e')) as [<-|?]; [|by rewrite !fn_lookup_insert_ne].
    rewrite !fn_lookup_insert, Emtu. split; [done|]. intros Hn. apply Forall_app. split; [done|].
    eapply Forall_impl; [exact Hout|]. cbn. lia. }
  pose proof Hm as (N & D & n & Hi).
  destruct Hst as [e' b r k' Hby Hl H|e' len r out k' Hl H|e' d r k' Hd Hl H|e' now k' out Hn Ha Hg H|e' k' out Ha Hg H|e'];
    apply Hset; try constructor; destruct (minv_kcp c s F e' Hm) as (Hk & _).
  - destruct (ikcp_send_took _ _ _ _ Hk Hby Hl H) as [Hsame _]. by rewrite Hsame.
  - destruct (minv_recv c s N D F n e' len r out k' Hi Hl H) as [_ Emo]. unfold modes in Emo. congruence.
  - destruct (minv_input c s N D F n e' d r k' Hi Hd Hl H) as (_ & Emo & _). unfold modes in Emo. congruence.
  - destruct (tick_returns c s F e' now Hc Hm Hn Ha Hg) as ([k2 o2] & H2 & Emo & _ & _ & _).
    rewrite H in H2. injection H2 as <- <-. unfold modes in Emo. congruence.
  - destruct (tick_returns c s F e' now Hc Hm Hn Ha Hg) as ([k2 o2] & H2 & _ & _ & Hout & _).
    rewrite H in H2. by injection H2 as <- <-.
  - destruct (flush_returns c s F e' Hc Hm Ha Hg) as ([k2 o2] & H2 & Emo & _ & _ & _).
    rewrite H in H2. injection H2 as <- <-. unfold modes in Emo. congruence.
  - destruct (flush_returns c s F e' Hc Hm Ha Hg) as ([k2 o2] & H2 & _ & _ & Hout & _).
    rewrite H in H2. by injection H2 as <- <-.
  - pose proof (settings_modes (ep (base s) e') a b c0 d) as Emo. unfold modes in Emo. congruence.
Qed.

Record world_inv (w : world) : Prop := {
  wi_sys : minv 1 (wsys w);
  wi_ep : ep (base (wsys w)) false = pkcp (srv w);
  wi_buf : length (sbuf (srv w)) = RECV_BUF;
  wi_up : up w = true;
  wi_echo : posted (wsys w) false = fetched (wsys w) false;
  (** no datagram is longer than the mtu of its sender, and no message that was read longer
      than a datagram *)
  wi_net : within_mtu (wsys w) true;
  wi_small : Forall (fun m => Z.of_nat (length m) <= mtu (ep (base (wsys w)) true)) (fetched (wsys w) false) }.

(** Only what each end has matters. *)
Lemma minv_same c s s' F :
  (forall e, ep (base s') e = ep (base s) e /\ net (base s') e = net (base s) e /\
    acc (base s') e = acc (base s) e /\ got (base s') e = got (base s) e /\
    posted s' e = posted s e /\ fetched s' e = fetched s e) ->
  minv_of c s F -> minv_of c s' F.
Proof.
  intros H (N & D & n & [Ha Hs Hp Hn Hc Ht Hf]). exists N, D, n.
  constructor; intros e; destruct (H e) as (E1 & E2 & E3 & E4 & E5 & E6);
    destruct (H (negb e)) as (G1 & _ & _ & _ & G5 & _); rewrite ?E1, ?E5, ?E6, ?G5; try done.
  rewrite E2, E3, E4, G1. apply Ha.
Qed.

Lemma net_nonempty c s F e d : minv_of c s F -> d ∈ net (base s) e -> d <> [].
Proof.
  intros (N & D & n & Hi) Hd. pose proof (ei_net _ _ _ _ _ _ _ _ _ (mi_at _ _ _ _ _ _ Hi e)) as Hn.
  rewrite Forall_forall in Hn. destruct (Hn d Hd) as (g & -> & Hg & _). destruct g as [|x g]; [done|].
  unfold datagram. rewrite fmap_cons. cbn [mjoin list_join]. intros E. apply app_eq_nil in E as [E _].
  unfold wire in E. apply app_eq_nil in E as [E _].
  pose proof (length_header_bytes x) as Hl. by rewrite E in Hl.
Qed.

(** Two states with the same ends. *)
Ltac same_ends :=
  intros []; cbn; rewrite ?app_nil_r; split_and!; try done; rewrite ?app_assoc; done.

(** A round returns; nothing of the other end changes; a message that is taken is sent back. *)
Lemma server_round_spec c s F sv now answer :
  is_u32 c -> minv_of c s F -> ep (base s) false = pkcp sv -> length (sbuf sv) = RECV_BUF -> is_u32 now ->
  match answer with None => True | Some d => d ∈ net (base s) true /\ (length d <= RECV_BUF)%nat end ->
  24 * ackcount (pkcp sv) + 1500 < 25769803776 -> numbered s false < 2147483520 ->
  returns (server_round now answer sv) (fun r =>
    goes_on r = true /\ length (sbuf (server_after r)) = RECV_BUF /\
    modes (pkcp (server_after r)) = modes (pkcp sv) /\
    24 * ackcount (pkcp (server_after r)) <= 24 * ackcount (pkcp sv) + 1500 /\
    Forall (fun d => 0 < Z.of_nat (length d) <= mtu (pkcp sv)) (handed r) /\
    Forall (fun m => exists d, answer = Some d /\ (length m <= length d)%nat) (echoed r) /\
    exists F', minv_of c (after_round s r) F').
Proof.
  intros Hc Hm Hep Hb Hnow Hans Hack Hnum. unfold server_round. rewrite <- Hep in *.
  pose proof (numbered_length _ _ _ false Hm) as Hnl.
  eapply returns_bind; [apply (tick_returns c s F false now); (done || lia)|].
  intros [k1 out1] (Emo1 & Hac1 & Hout1 & Hm1). set (s1 := mkMsys _ _ _) in Hm1.
  destruct answer as [d|].
  2:{ apply returns_Ok. cbn. split_and!; try done; [lia|]. exists F. eapply minv_same; [|exact Hm1]. same_ends. }
  destruct Hans as [Hd Hdl]. rewrite take_ge by done.
  pose proof (net_nonempty c s F true d Hm Hd) as Hne.
  destruct (Z.eqb_spec (Z.of_nat (length d)) 0); [destruct d; [congruence|cbn in *; lia]|].
  destruct (store_front_Ok (sbuf sv) d) as (b1 & Hs1 & Hb1 & Ht1); [lia|]. rewrite Hs1. cbn [mbind res_bind].
  rewrite Nat2Z.id, Ht1.
  pose proof (deliver_returns c s1 F false d allocs Hm1 Hd) as Hdel. change (ep (base s1) false) with k1 in Hdel.
  unfold RECV_BUF in *. eapply returns_bind; [apply Hdel; lia|].
  intros [r2 k2] (Emo2 & Hac2 & Hm2). set (s2 := mkMsys _ _ _) in Hm2.
  destruct (Z.ltb_spec r2 0) as [Hr2|Hr2].
  { apply returns_Ok. cbn. split_and!; try done; [lia|congruence|lia|].
    exists F. eapply minv_same; [|exact Hm2]. same_ends. }
  pose proof (fetch_returns c s2 F false (Z.of_nat (length d)) Hm2 ltac:(unfold is_i32; lia) ltac:(lia)) as Hf.
  change (ep (base s2) false) with k2 in Hf. eapply returns_bind; [exact Hf|].
  intros [[r3 out] k3] (Emo3 & Hac3 & Hr3 & Hm3). set (s3 := fetched_state _ _ _ _ _ _) in Hm3.
  destruct (store_front_Ok b1 out) as (b2 & Hs2 & Hb2 & Ht2); [destruct Hr3 as [[_ ->]|(? & ? & _)]; cbn; lia|].
  rewrite Hs2. cbn [mbind res_bind]. destruct (Z.ltb_spec r3 0) as [Hn3|Hn3].
  { destruct Hr3 as [[_ ->]|]; [|lia]. apply returns_Ok. cbn. split_and!; try done; [lia|congruence|lia|].
    exists F. eapply minv_same; [|exact Hm3].
    unfold s3, fetched_state. destruct (Z.ltb_spec r3 0); [|lia].
    destruct (Z.of_nat (length d) <? 0); same_ends. }
  destruct Hr3 as [[? _]|(Hr3 & Er3 & Hby)]; [lia|]. rewrite Er3, Nat2Z.id, Ht2.
  pose proof (post_returns c s3 F false out allocs Hm3 Hby ltac:(lia)) as Hp.
  assert (kcp_wf k3) as Hk3 by apply (minv_kcp c s3 F false Hm3).
  pose proof (frag_count_le k3 (Z.of_nat (length out)) 58 Hk3 ltac:(lia) ltac:(lia)) as Hfc.
  change (ep (base s3) false) with k3 in Hp. eapply returns_bind; [exact Hp|].
  intros [r4 k4] (-> & Emo4 & Hac4 & f & Hlf & Hm4). set (s4 := sent_state _ _ _ _ _) in Hm4.
  assert (numbered s4 false < 2147483648) as Hn4.
  { rewrite (numbered_length _ _ _ false Hm4), fn_lookup_insert, join_app, length_app. cbn.
    rewrite app_nil_r. lia. }
  pose proof (flush_returns c s4 _ false Hc Hm4) as Hfl. change (ep (base s4) false) with k4 in Hfl.
  eapply returns_bind; [apply Hfl; lia|]. intros [k5 out2] (Emo5 & Hac5 & Hout2 & Hm5).
  apply returns_Ok. cbn. assert (mtu k4 = mtu (ep (base s) false)) as Emtu.
  { unfold modes in *. congruence. }
  rewrite Emtu in Hout2. split_and!; [done|lia|congruence|lia|by apply Forall_app|apply Forall_singleton; exists d; split; [done|lia]|].
  eexists. eapply minv_same; [|exact Hm5]. unfold s4, s3, sent_state, fetched_state, after_round.
  rewrite Z.eqb_refl. destruct (Z.ltb_spec (Z.of_nat (length d)) 0); [lia|].
  destruct (Z.ltb_spec r3 0); [lia|]. same_ends.
Qed.

Lemma conv_one : is_u32 1.
Proof. by_decide. Qed.

Lemma world_initial_inv w : world_initial w -> world_inv w.
Proof.
  intros (s0 & user0 & now & out & Hi & _ & Hnow & Hst & Hup & Es).
  destruct (minitial_inv _ _ Hi) as (F & Hm).
  destruct Hi as [[_ Hi] Hi2]. destruct (Hi false) as (_ & _ & _ & _ & Ha & _ & _ & Hn & _ & Hq & _).
  destruct (Hi2 false) as (_ & Hp0 & Hf0). destruct (Hi true) as [Hnet _].
  pose proof (ack_count _ _ Ha) as Hac. cbn in Hac.
  assert (numbered s0 false = 0) as Hn0 by (unfold numbered; by rewrite Hn, Hq).
  destruct (tick_returns 1 s0 F false now conv_one Hm Hnow ltac:(lia) ltac:(lia)) as ([k' out'] & Hu & _ & _ & _ & Hm').
  unfold server_start in Hst. rewrite Hu in Hst. cbn in Hst. injection Hst as Esv <-.
  constructor; rewrite ?Es, <- ?Esv; cbn; rewrite ?Hf0, ?Hp0; try done.
  - rewrite <- Esv in Es. by exists F.
  - unfold within_mtu. cbn. change (<[false := _]> (net (base s0)) true) with (net (base s0) true).
    rewrite Hnet. constructor.
Qed.

Lemma world_step_inv w w' : world_inv w -> world_step w w' -> world_inv w'.
Proof.
  intros [(F & Hm) Hep Hb Hup He Hnet Hsm] Hst. destruct Hst as [s' Hst Hside|now answer r _ Hnow Hans Hac Hn Hr].
  - injection Hside as E1 E2 E3 E4. constructor; cbn; rewrite ?E1, ?E3, ?E4; try done.
    + eapply mstep_inv; [by right|apply conv_one|by exists F|done].
    + eapply mstep_mtu; [apply conv_one|by exists F|done|done].
    + destruct (mstep_mtu 1 _ s' true conv_one (ex_intro _ F Hm) Hst) as [-> _]. done.
  - destruct (server_round_spec 1 _ F _ now answer conv_one Hm Hep Hb Hnow Hans Hac Hn) as (x & Hx & Hgo & Hb' & _ & _ & _ & Hs & Hm').
    rewrite Hr in Hx. injection Hx as <-. constructor; cbn; try done.
    + by rewrite !fn_lookup_insert, He.
    + rewrite fn_lookup_insert, fn_lookup_insert_ne by done. apply Forall_app. split; [done|].
      eapply Forall_impl; [exact Hs|]. cbn. intros m (d & -> & Hlen). destruct Hans as [Hd _].
      unfold within_mtu in Hnet. rewrite Forall_forall in Hnet. specialize (Hnet d Hd). lia.
Qed.

Lemma world_reachable_inv w0 w : world_initial w0 -> rtc world_step w0 w -> world_inv w.
Proof.
  intros Hi%world_initial_inv Hr. induction Hr as [|w1 w2 w3 Hs _ IH]; [done|]. apply IH. by eapply world_step_inv.
Qed.

End Serving.

(** C12: The server echoes.  Whatever the network loses, repeats and reorders and whatever the
    other application does with its connection, which is new and in message mode, as long as malloc does not fail and the
    datagrams that reach the server fit its buffer of 1500 bytes: the loop is still running,
    the messages it has read are the first ones that were sent to it, it has answered each of
    them with the same bytes, and the answers that have come back are the first messages that
    were sent, in order; and the next round returns and goes on, for any such datagram or
    none, as long as the server has numbered fewer than 2^31 - 128 segments and about a
    thousand million acknowledgements at most are pending.  (A message longer than a datagram is never read: see long_message_blocks.) *)
Theorem server_echoes `{Env} `{Host} w0 w :
  malloc_never_fails -> world_initial w0 -> rtc world_step w0 w ->
  up w = true /\ posted (wsys w) false = fetched (wsys w) false /\
  (exists rest, posted (wsys w) true = fetched (wsys w) false ++ rest) /\
  (exists rest, posted (wsys w) true = fetched (wsys w) true ++ rest) /\
  forall now answer,
    is_u32 now ->
    match answer with
    | None => True
    | Some d => d ∈ net (base (wsys w)) true /\ (length d <= RECV_BUF)%nat
    end ->
    24 * ackcount (pkcp (srv w)) + 1500 < 25769803776 -> numbered (wsys w) false < 2147483520 ->
    returns (server_round now answer (srv w)) (fun r => goes_on r = true).
Proof.
  intros allocs Hi Hr. destruct (world_reachable_inv allocs w0 w Hi Hr) as [(F & Hm) Hep Hb Hup He _ _].
  destruct (fetched_prefix _ _ _ true Hm) as (r1 & E1). destruct (fetched_prefix _ _ _ false Hm) as (r2 & E2).
  cbn [negb] in *. split_and!; [done|done|by exists r1| |].
  - exists (r2 ++ r1). by rewrite app_assoc, <- E2, He.
  - intros now answer Hnow Hans Hac Hn.
    eapply returns_mono; [by apply (server_round_spec allocs 1 (wsys w) F (srv w) now answer conv_one)|]. by intros r [? _].
Qed.

(** C14: A message that is longer than the mtu of its sender stops the echo: no datagram is
    longer than the mtu, and the server passes the length of the datagram to ikcp_recv, which
    refuses a longer message.  As long as malloc does not fail, the message and those behind
    it are never read, whatever else happens. *)
Theorem long_message_blocks `{Env} `{Host} w0 w j m :
  malloc_never_fails -> world_initial w0 -> rtc world_step w0 w ->
  posted (wsys w) true !! j = Some m -> mtu (ep (base (wsys w)) true) < Z.of_nat (length m) ->
  (length (fetched (wsys w) false) <= j)%nat.
Proof.
  intros allocs Hi Hr Hj Hl. destruct (world_reachable_inv allocs w0 w Hi Hr) as [(F & Hm) _ _ _ _ _ Hsm].
  destruct (fetched_prefix _ _ _ true Hm) as (rest & E). cbn in E. rewrite E in Hj.
  apply Nat.le_ngt. intros Hlt. rewrite lookup_app_l in Hj by done.
  apply (Forall_lookup_1 _ _ _ _ Hsm) in Hj. lia.
Qed.

(** ** A run

    The other end sends three bytes and updates twice, the datagram arrives, and the
    server's round answers it. *)

Section ServerDemo.
#[local] Existing Instance demo_env.
#[local] Existing Instance x86_64.

Definition demo_kcp : ikcpcb := Eval vm_compute in
  match server_kcp 0 with Ok k => k | Err _ => demo_cb end.

Lemma demo_kcp_ready : server_kcp 0 = Ok demo_kcp.
Proof. evaluated. Qed.

Lemma demo_kcp_wf : kcp_wf demo_kcp.
Proof. kcp_wf_by_evaluation. Qed.

Definition demo_s0 : msys :=
  mkMsys (mkSys (fun _ => demo_kcp) (fun _ => []) (fun _ => []) (fun _ => [])) (fun _ => []) (fun _ => []).

Lemma demo_s0_initial : minitial 1 demo_s0.
Proof.
  assert (ack_rep demo_kcp []) by (constructor; [by_decide|by constructor|by_decide|by split]).
  split; [|done]. split; [by_decide|]. intros e. split_and!; first [done|apply demo_kcp_wf].
Qed.

Definition demo_started : ikcpcb := Eval vm_compute in
  match ikcp_update demo_kcp 1000 with Ok (k, _) => k | Err _ => demo_kcp end.

Definition demo_w0 : world :=
  mkWorld (mkServer demo_started (replicate RECV_BUF 0) 0)
    (mkMsys (set_end (base demo_s0) false demo_started [] [] []) (posted demo_s0) (fetched demo_s0)) true.

Lemma demo_w0_initial : world_initial demo_w0.
Proof.
  exists demo_s0, 0, 1000, []. split; [apply demo_s0_initial|]. split; [apply demo_kcp_ready|].
  split; [by_decide|]. split; [|by split]. unfold server_start.
  assert (ikcp_update (ep (base demo_s0) false) 1000 = Ok (demo_started, [])) as -> by evaluated. done.
Qed.

Definition peer_does (f : msys -> msys) (w : world) : world := mkWorld (srv w) (f (wsys w)) (up w).
Definition serve (now : Z) (w : world) : world :=
  match server_round now (last (net (base (wsys w)) true)) (srv w) with
  | Ok r => mkWorld (server_after r) (after_round (wsys w) r) (goes_on r)
  | Err _ => w
  end.

Definition demo_w1 := peer_does (mdo_send true [1; 2; 3]) demo_w0.
Definition demo_w2 := peer_does (mdo_base (do_update true 1000)) demo_w1.
Definition demo_w3 := peer_does (mdo_base (do_update true 1100)) demo_w2.
Definition demo_w4 := serve 1100 demo_w3.

Lemma serve_step now w r d :
  up w = true -> is_u32 now -> last (net (base (wsys w)) true) = Some d -> (length d <= RECV_BUF)%nat ->
  24 * ackcount (pkcp (srv w)) + 1500 < 25769803776 -> numbered (wsys w) false < 2147483520 ->
  server_round now (Some d) (srv w) = Ok r -> world_step w (serve now w).
Proof.
  intros Hup Hnow Hd Hl Hac Hn Hr. unfold serve. rewrite Hd, Hr.
  apply (server_moves w now (Some d) r); try done. split; [|done]. by apply last_Some_elem_of.
Qed.

Lemma demo_world_run : rtc world_step demo_w0 demo_w4.
Proof.
  unfold demo_w4, demo_w3, demo_w2, demo_w1.
  eapply rtc_l; [apply peer_moves; [eapply (mdo_send_step true [1; 2; 3]); [by_decide|by_decide|evaluated|reflexivity]|evaluated]|].
  eapply rtc_l; [apply peer_moves; [eapply (mdo_update_step true 1000); [by_decide|evaluated|evaluated|evaluated]|evaluated]|].
  eapply rtc_l; [apply peer_moves; [eapply (mdo_update_step true 1100); [by_decide|evaluated|evaluated|evaluated]|evaluated]|].
  eapply rtc_l; [eapply (serve_step 1100); [evaluated|by_decide|evaluated|by_decide|evaluated|evaluated|evaluated]|].
  apply rtc_refl.
Qed.

Lemma server_echoes_witness :
  world_initial demo_w0 /\ fetched (wsys demo_w4) false = [[1; 2; 3]] /\
  up demo_w4 = true /\ posted (wsys demo_w4) false = fetched (wsys demo_w4) false /\
  (exists rest, posted (wsys demo_w4) true = fetched (wsys demo_w4) false ++ rest) /\
  (exists rest, posted (wsys demo_w4) true = fetched (wsys demo_w4) true ++ rest) /\
  forall now answer,
    is_u32 now ->
    match answer with
    | None => True
    | Some d => d ∈ net (base (wsys demo_w4)) true /\ (length d <= RECV_BUF)%nat
    end ->
    24 * ackcount (pkcp (srv demo_w4)) + 1500 < 25769803776 -> numbered (wsys demo_w4) false < 2147483520 ->
    returns (server_round now answer (srv demo_w4)) (fun r => goes_on r = true).
Proof.
  split; [apply demo_w0_initial|]. split; [evaluated|].
  apply (@server_echoes demo_env x86_64 demo_w0 demo_w4 (fun _ _ => eq_refl) demo_w0_initial demo_world_run).
Defined.

(** A message of 1401 bytes, one more than the mtu: its first datagram reaches the server, is
    acknowledged, and the second one too, and still nothing is read. *)
Definition demo_long : list Z := replicate 1401 7.
Definition hear (w : world) : world := peer_does (mdo_base (do_input true)) w.
Definition tick (now : Z) (w : world) : world := peer_does (mdo_base (do_update true now)) w.

Definition demo_l1 := peer_does (mdo_send true demo_long) demo_w0.
Definition demo_l2 := tick 1000 demo_l1.
Definition demo_l3 := tick 1100 demo_l2.
Definition demo_l4 := serve 1100 demo_l3.
Definition demo_l5 := serve 1110 demo_l4.
Definition demo_l6 := hear demo_l5.
Definition demo_l7 := tick 1200 demo_l6.
Definition demo_l8 := serve 1200 demo_l7.

Lemma tick_step now w k' out :
  is_u32 now -> ackcount (ep (base (wsys w)) true) < 2147483648 ->
  snd_nxt (ep (base (wsys w)) true) + qlen (snd_queue (ep (base (wsys w)) true)) < 2147483648 ->
  ikcp_update (ep (base (wsys w)) true) now = Ok (k', out) ->
  side (wsys (tick now w)) false = side (wsys w) false -> world_step w (tick now w).
Proof. intros. apply peer_moves; [by eapply mdo_update_step|done]. Qed.

Lemma demo_long_run : rtc world_step demo_w0 demo_l8.
Proof.
  unfold demo_l8, demo_l7, demo_l6, demo_l5, demo_l4, demo_l3, demo_l2, demo_l1.
  eapply rtc_l; [apply peer_moves; [eapply (mdo_send_step true demo_long); [by_decide|by_decide|evaluated|reflexivity]|evaluated]|].
  eapply rtc_l; [eapply (tick_step 1000); [by_decide|evaluated|evaluated|evaluated|evaluated]|].
  eapply rtc_l; [eapply (tick_step 1100); [by_decide|evaluated|evaluated|evaluated|evaluated]|].
  eapply rtc_l; [eapply (serve_step 1100); [evaluated|by_decide|evaluated|by_decide|evaluated|evaluated|evaluated]|].
  eapply rtc_l; [eapply (serve_step 1110); [evaluated|by_decide|evaluated|by_decide|evaluated|evaluated|evaluated]|].
  eapply rtc_l; [apply peer_moves; [eapply (mdo_input_step true); [by_decide|evaluated|evaluated]|evaluated]|].
  eapply rtc_l; [eapply (tick_step 1200); [by_decide|evaluated|evaluated|evaluated|evaluated]|].
  eapply rtc_l; [eapply (serve_step 1200); [evaluated|by_decide|evaluated|by_decide|evaluated|evaluated|evaluated]|].
  apply rtc_refl.
Qed.

Lemma long_message_blocks_witness :
  world_initial demo_w0 /\ posted (wsys demo_l8) true !! 0%nat = Some demo_long /\
  rcv_nxt (pkcp (srv demo_l8)) = 2 /\ qlen (rcv_queue (pkcp (srv demo_l8))) = 2 /\
  (length (fetched (wsys demo_l8) false) <= 0)%nat.
Proof.
  assert (posted (wsys demo_l8) true !! 0%nat = Some demo_long) as Hj by evaluated.
  split; [apply demo_w0_initial|]. split; [exact Hj|]. split; [evaluated|]. split; [evaluated|].
  apply (@long_message_blocks demo_env x86_64 demo_w0 demo_l8 0 demo_long (fun _ _ => eq_refl) demo_w0_initial
    demo_long_run Hj). evaluated.
Defined.
End ServerDemo.
