(* ===== verification/Delay.v ===== *)
(** * kcp_learn/delay.c: the objects whose delay is measured

    A delay object is its bytes, laid out as on a 64-bit machine.  The clock is that of
    Simulator.v (delay.c has the same code as test.h).  kcp_learn/tcp/delay.c is the same
    code once more. *)

From S2P Require Import Prelude IkcpBase Simulator.

(** sizeof(t_delay_obj): seqno at 0, send_time at 8, recv_time at 16, body at 24. *)
Definition obj_size : nat := 1328.

(** objs[i]; outside the array there is nothing. *)
Definition obj_at (l : list (list Z)) (i : nat) : res (list Z) :=
  match l !! i with Some o => Ok o | None => Err OutOfBounds end.

Section Delay.
Context `{host : Host} `{machine : Machine}.

(** The function has no return statement: only NULL is a value its caller may use. *)
Definition delay_new (ok : bool) : res (option (list Z)) :=
  if ok then Err Uninitialised else Ok None.

Definition delay_set_seqno (obj : list Z) (seqno : Z) : res (list Z) :=
  store_at obj 0 (host_bytes 2 seqno).

Definition delay_set_send_time (obj : list Z) (c : calls) : res (list Z * calls) :=
  let '(t, c) := iclock64 c in
  obj ← store_at obj 8 (host_bytes 8 t); Ok (obj, c).

Definition delay_set_recv_time (obj : list Z) (c : calls) : res (list Z * calls) :=
  let '(t, c) := iclock64 c in
  obj ← store_at obj 16 (host_bytes 8 t); Ok (obj, c).

Definition delay_set_seqno_send_time (obj : list Z) (seqno : Z) (c : calls) : res (list Z * calls) :=
  obj ← delay_set_seqno obj seqno;
  delay_set_send_time obj c.

Definition obj_seqno (obj : list Z) : Z := host_val (take 2 obj).
Definition obj_send_time (obj : list Z) : Z := i64 (host_val (take 8 (drop 8 obj))).
Definition obj_recv_time (obj : list Z) : Z := i64 (host_val (take 8 (drop 16 obj))).

(** The row printed for each object: index, sequence number, round trip. *)
Definition delay_print_rtt_time (objs : list (list Z)) (num : nat) : res (list (nat * Z * Z)) :=
  if (num <=? length objs)%nat
  then Ok (imap (fun i o => (i, obj_seqno o, i64 (obj_recv_time o - obj_send_time o))) (take num objs))
  else Err OutOfBounds.

(** ** Objects keep their size *)

Definition obj_ok (o : list Z) : Prop := length o = obj_size /\ Forall is_byte o.

Lemma obj_at_ok l i : Forall obj_ok l -> (i < length l)%nat -> returns (obj_at l i) obj_ok.
Proof.
  intros Hl Hi. unfold obj_at. destruct (lookup_lt_is_Some_2 l i Hi) as [o Ho]. rewrite Ho.
  apply returns_Ok. exact (Forall_lookup_1 _ _ _ _ Hl Ho).
Qed.

Lemma store_obj o i bytes :
  obj_ok o -> Forall is_byte bytes -> (i + length bytes <= obj_size)%nat ->
  returns (store_at o i bytes) (fun o' => obj_ok o' /\ o' = take i o ++ bytes ++ drop (i + length bytes) o).
Proof.
  intros [Hl Hb] Hby Hi. rewrite store_at_Ok by lia. apply returns_Ok. split; [|done]. split.
  - rewrite !length_app, length_take, length_drop. lia.
  - apply Forall_app. split; [by apply Forall_take|]. apply Forall_app. split; [done|by apply Forall_drop].
Qed.

Lemma recv_time_seqno o c :
  obj_ok o -> returns (delay_set_recv_time o c) (fun '(o', _) => obj_ok o' /\ obj_seqno o' = obj_seqno o).
Proof.
  intros Ho. unfold delay_set_recv_time. destruct (iclock64 c) as [t c'].
  eapply returns_bind; [apply (store_obj o 16); [done|apply host_bytes_byte|rewrite length_host_bytes; by_decide]|].
  intros o' [Ho' ->]. apply returns_Ok. split; [done|]. unfold obj_seqno.
  rewrite take_app_le by (rewrite length_take; destruct Ho as [-> _]; by_decide). by rewrite take_take.
Qed.

Lemma recv_time_ok o c : obj_ok o -> returns (delay_set_recv_time o c) (fun '(o', _) => obj_ok o').
Proof. intros Ho. eapply returns_mono; [by apply recv_time_seqno|]. by intros [o' c'] [? _]. Qed.

Lemma seqno_send_time_ok o n c :
  obj_ok o -> 0 <= n < 65536 ->
  returns (delay_set_seqno_send_time o n c) (fun '(o', _) => obj_ok o' /\ obj_seqno o' = n).
Proof.
  intros Ho Hn. unfold delay_set_seqno_send_time, delay_set_seqno, delay_set_send_time.
  eapply returns_bind; [apply (store_obj o 0); [done|apply host_bytes_byte|rewrite length_host_bytes; by_decide]|].
  intros o1 [Ho1 E1]. destruct (iclock64 c) as [t c'].
  eapply returns_bind; [apply (store_obj o1 8); [done|apply host_bytes_byte|rewrite length_host_bytes; by_decide]|].
  intros o2 [Ho2 E2]. apply returns_Ok. split; [done|]. unfold obj_seqno.
  assert (take 2 o2 = host_bytes 2 n) as ->.
  { rewrite E2, take_app_le by (rewrite length_take; destruct Ho1 as [-> _]; by_decide).
    rewrite take_take, E1, take_0, app_nil_l. apply take_app_length'. by rewrite length_host_bytes. }
  rewrite host_val_le_bytes, le_val_bytes. apply Z.mod_small. change (256 ^ Z.of_nat 2) with 65536. lia.
Qed.
End Delay.
