(* ===== verification/KcpClient.v ===== *)
(** * The delay test of kcp_learn/client.c against the server

    The client sends DELAY_TEST2_N time-stamped objects through a KCP connection, and waits
    for the server of KcpServer.v to send them back.  Both programs are put over a network
    that loses, repeats and reorders datagrams; the theorem is that the client never takes
    an error exit and gets its objects back in order.

    Sockets, sleeps and printed lines are left out; the rows that delay_print_rtt_time
    prints are its result. *)

From stdpp Require Import functions relations.
From S2P Require Import Prelude IkcpBase IkcpCb IkcpSnd IkcpRcv IkcpInput IkcpFlush IkcpArq KcpMessages.
From S2P Require Import Simulator KcpServer Delay.

(** ** client.c *)

Definition DELAY_TEST2_N : nat := 5.
Definition UDP_RECV_BUF_SIZE : nat := 1500.

(** Where delay_test2 is: in its first loop, in its second, past its end, or returned from
    an error exit. *)
Inductive stage := Sending (i : nat) | Waiting (i : nat) | Ended | Gave_up.

Record client := mkClient {
  ckcp : ikcpcb; cbuf : list Z; objs : list (list Z); recv_objs : nat; at_stage : stage }.

(** One turn: the datagrams given to udp_output, the messages given to ikcp_send and those
    that ikcp_recv gave. *)
Record turn := mkTurn {
  client_after : client; clock_after : calls;
  out_of_client : list (list Z); given : list (list Z); taken : list (list Z) }.

Section Client.
Context `{env : Env} `{host : Host} `{machine : Machine}.

(** What both loops do after ikcp_update: [None] for an early continue, otherwise what
    ikcp_recv returned.  objs[i] gets the bytes, objs[recv_objs] the time. *)
Definition take_reply (i : nat) (answer : option (list Z)) (s : client) (c : calls)
  : res (option Z * client * calls * list (list Z)) :=
  match answer with
  | None => Ok (None, s, c, [])
  | Some d =>
      let d := take UDP_RECV_BUF_SIZE d in
      b ← store_at (cbuf s) 0 d;
      '(ret, k) ← ikcp_input (ckcp s) (Some (take (length d) b)) (Z.of_nat (length d));
      let s := mkClient k b (objs s) (recv_objs s) (at_stage s) in
      if ret <? 0 then Ok (None, s, c, [])
      else
        '(ret, out, k) ← ikcp_recv (ckcp s) true (Z.of_nat obj_size);
        o ← obj_at (objs s) i;
        o ← store_at o 0 out;
        let l := <[i := o]> (objs s) in
        if ret <? 0 then Ok (None, mkClient k b l (recv_objs s) (at_stage s), c, [])
        else
          o ← obj_at l (recv_objs s);
          '(o, c) ← delay_set_recv_time o c;
          Ok (Some ret, mkClient k b (<[recv_objs s := o]> l) (S (recv_objs s)) (at_stage s), c, [out])
  end.

Definition set_stage (p : stage) (s : client) : client :=
  mkClient (ckcp s) (cbuf s) (objs s) (recv_objs s) p.

(** The loops end by their tests: after the first comes the second, which starts at
    recv_objs, and after that the flush. *)
Definition enter_waiting (i : nat) (s : client) : res (client * list (list Z)) :=
  if (i <? DELAY_TEST2_N)%nat then Ok (set_stage (Waiting i) s, [])
  else '(k, out) ← ikcp_flush (ckcp s);
       Ok (mkClient k (cbuf s) (objs s) (recv_objs s) Ended, out).

Definition enter_sending (i : nat) (s : client) : res (client * list (list Z)) :=
  if (i <? DELAY_TEST2_N)%nat then Ok (set_stage (Sending i) s, [])
  else enter_waiting (recv_objs s) s.

(** The body of the first loop. *)
Definition send_turn (i : nat) (answer : option (list Z)) (s : client) (c : calls) : res turn :=
  o ← obj_at (objs s) i;
  '(o, c) ← delay_set_seqno_send_time o (u16 (Z.of_nat i)) c;
  let l := <[i := o]> (objs s) in
  '(ret, k) ← ikcp_send (ckcp s) (Some o) (Z.of_nat obj_size);
  if ret <? 0 then Ok (mkTurn (mkClient k (cbuf s) l (recv_objs s) Gave_up) c [] [] [])
  else
    let '(now, c) := iclock c in
    '(k, out) ← ikcp_update k now;
    '(r, s, c, got) ← take_reply i answer (mkClient k (cbuf s) l (recv_objs s) (at_stage s)) c;
    let failed := match r with Some ret => negb (ret =? Z.of_nat obj_size) | None => false end in
    if failed then Ok (mkTurn (set_stage Gave_up s) c out [o] got)
    else
      '(s, out2) ← enter_sending (S i) s;
      Ok (mkTurn s c (out ++ out2) [o] got).

(** The body of the second loop. *)
Definition wait_turn (i : nat) (answer : option (list Z)) (s : client) (c : calls) : res turn :=
  let '(now, c) := iclock c in
  '(k, out) ← ikcp_update (ckcp s) now;
  '(r, s, c, got) ← take_reply i answer (mkClient k (cbuf s) (objs s) (recv_objs s) (at_stage s)) c;
  match r with
  | None => Ok (mkTurn s c out [] got)
  | Some ret =>
      if negb (ret =? Z.of_nat obj_size) then Ok (mkTurn (set_stage Gave_up s) c out [] got)
      else
        '(s, out2) ← enter_waiting (S i) s;
        Ok (mkTurn s c (out ++ out2) [] got)
  end.

Definition delay_test2 (answer : option (list Z)) (s : client) (c : calls) : res turn :=
  match at_stage s with
  | Sending i => send_turn i answer s c
  | Waiting i => wait_turn i answer s c
  | Ended | Gave_up => Ok (mkTurn s c [] [] [])
  end.

(** The connection that main sets up. *)
Definition client_kcp (user0 : Z) : res ikcpcb :=
  match fst (ikcp_create 1 user0) with
  | None => Err NullDeref
  | Some k =>
      let k := ikcp_setoutput k true in
      let k := snd (ikcp_nodelay k 0 10 0 0) in
      let k := snd (ikcp_wndsize k 128 128) in
      Ok (snd (ikcp_setmtu k 1400))
  end.

(** delay_test2 after its flush, and the release in main: the rows that are printed, and
    the blocks that the connection still holds. *)
Definition client_end (s : client) : res (list (nat * Z * Z) * Z) :=
  rows ← delay_print_rtt_time (objs s) DELAY_TEST2_N;
  Ok (rows, live (ikcp_release (ckcp s))).

(** delay_test2 up to its first loop; [junk] is what the arrays hold at first. *)
Definition client_start (k : ikcpcb) (junk_buf : list Z) (junk : list (list Z)) (c : calls)
  : res (client * calls * list (list Z)) :=
  let '(now, c) := iclock c in
  '(k, out) ← ikcp_update k now;
  Ok (mkClient k junk_buf junk 0 (Sending 0), c, out).
End Client.

(** ** The two programs and the network *)

Record hosts := mkHosts {
  hsrv : server; hup : bool; hcli : client;
  (** the datagrams that each end has sent so far; the client is [true] *)
  wire_of : bool -> list (list Z);
  hclock : calls;
  (** what the client has given to ikcp_send and got from ikcp_recv *)
  hsent : list (list Z); hgot : list (list Z) }.

(** Whose turn it is, and which of the other end's datagrams its recvfrom finds. *)
Inductive event := Server_turn (pick : option nat) | Client_turn (pick : option nat).

Section Hosts.
Context `{env : Env} `{host : Host} `{machine : Machine}.

Definition heard_from (e : bool) (pick : option nat) (h : hosts) : option (list Z) :=
  match pick with Some i => wire_of h e !! i | None => None end.

Definition host_step (h : hosts) (ev : event) : res hosts :=
  match ev with
  | Server_turn pick =>
      if hup h then
        let '(now, c) := iclock (hclock h) in
        r ← server_round now (heard_from true pick h) (hsrv h);
        Ok (mkHosts (server_after r) (goes_on r) (hcli h)
              (<[false := wire_of h false ++ handed r]> (wire_of h)) c (hsent h) (hgot h))
      else Ok h
  | Client_turn pick =>
      t ← delay_test2 (heard_from false pick h) (hcli h) (hclock h);
      Ok (mkHosts (hsrv h) (hup h) (client_after t)
            (<[true := wire_of h true ++ out_of_client t]> (wire_of h)) (clock_after t)
            (hsent h ++ given t) (hgot h ++ taken t))
  end.

Fixpoint host_steps (h : hosts) (evs : list event) : res hosts :=
  match evs with [] => Ok h | ev :: evs => h ← host_step h ev; host_steps h evs end.

Definition hosts_start (user1 user2 : Z) (junk_buf : list Z) (junk : list (list Z)) (c : calls) : res hosts :=
  k1 ← client_kcp user1;
  k2 ← server_kcp user2;
  let '(now, c) := iclock c in
  '(sv, out2) ← server_start now k2;
  '(cl, c, out1) ← client_start k1 junk_buf junk c;
  Ok (mkHosts sv true cl (fun e : bool => if e then out1 else out2) c [] []).
End Hosts.

(** ** What the client's calls do to the system of KcpMessages.v

    The client is end [true].  [moved] is what one or several of its calls change. *)

Record moved (s s' : msys) (out sent got : list (list Z)) : Prop := {
  mv_other : side s' false = side s false;
  mv_net : net (base s') true = net (base s) true ++ out;
  mv_posted : posted s' true = posted s true ++ sent;
  mv_fetched : fetched s' true = fetched s true ++ got }.

Lemma moved_trans s1 s2 s3 o1 g1 t1 o2 g2 t2 :
  moved s1 s2 o1 g1 t1 -> moved s2 s3 o2 g2 t2 -> moved s1 s3 (o1 ++ o2) (g1 ++ g2) (t1 ++ t2).
Proof.
  intros [A1 A2 A3 A4] [B1 B2 B3 B4]. constructor; [by rewrite B1|..].
  - by rewrite B2, A2, app_assoc.
  - by rewrite B3, A3, app_assoc.
  - by rewrite B4, A4, app_assoc.
Qed.

Section Moves.
Context `{env : Env} `{host : Host} `{machine : Machine}.
Hypothesis allocs : malloc_never_fails.

(** The object number [j] as it was sent. *)
Definition sent_obj (j : nat) (m : list Z) : Prop := length m = obj_size /\ obj_seqno m = Z.of_nat j.

Record cview (s : msys) (k : ikcpcb) (b : Z) : Prop := {
  cv_sys : minv 1 s;
  cv_ep : ep (base s) true = k;
  cv_mtu : mtu k = 1400;
  cv_acks : 24 * ackcount k <= b;
  cv_echo : posted s false = fetched s false;
  cv_objs : forall j m, posted s true !! j = Some m -> sent_obj j m;
  cv_few : (length (posted s true) <= DELAY_TEST2_N)%nat }.

Lemma cview_numbered s k b e : cview s k b -> numbered s e <= 635.
Proof.
  intros [(F & Hm) _ _ _ He _ Hf]. pose proof (numbered_posted 1 s F e Hm) as Hn.
  unfold DELAY_TEST2_N in Hf. destruct (fetched_prefix _ _ _ true Hm) as (r & E). cbn in E.
  apply (f_equal length) in E. rewrite length_app, <- He in E. destruct e; lia.
Qed.

(** A call of [true] that only hands over datagrams. *)
Lemma quiet_moved s k out :
  moved s (mkMsys (set_end (base s) true k out [] []) (posted s) (fetched s)) out [] [].
Proof. constructor; cbn; by rewrite ?app_nil_r. Qed.

Lemma cview_quiet s k b k' out :
  cview s k b -> modes k' = modes k -> 24 * ackcount k' <= b ->
  (exists F, minv_of 1 (mkMsys (set_end (base s) true k' out [] []) (posted s) (fetched s)) F) ->
  cview (mkMsys (set_end (base s) true k' out [] []) (posted s) (fetched s)) k' b.
Proof.
  intros [Hm Hep Hmtu Hac He Ho Hf] Emo Hac' Hm'. constructor; try done. unfold modes in Emo. congruence.
Qed.

Definition fits (out : list (list Z)) : Prop :=
  Forall (fun d => (length d <= 1400)%nat) out.

Lemma fits_mtu k out : mtu k = 1400 -> Forall (fun d => 0 < Z.of_nat (length d) <= mtu k) out -> fits out.
Proof. intros E H. eapply Forall_impl; [exact H|]. intros d Hd. cbn in Hd. lia. Qed.

Lemma client_update s k b now :
  cview s k b -> b < 25769803776 -> is_u32 now ->
  returns (ikcp_update k now) (fun '(k', out) => exists s',
    cview s' k' b /\ moved s s' out [] [] /\ fits out).
Proof.
  intros Hv Hb Hnow. pose proof (cview_numbered _ _ _ true Hv) as Hn.
  pose proof Hv as [(F & Hm) Hep Hmtu Hac _ _ _]. rewrite <- Hep in *.
  eapply returns_mono; [apply (tick_returns 1 s F true now); try done; try lia; apply conv_one|].
  intros [k' out] (Emo & Hac' & Hout & Hm'). eexists. split; [|split; [apply quiet_moved|by eapply fits_mtu]].
  eapply cview_quiet; [exact Hv|congruence|lia|by exists F].
Qed.

Lemma client_flush s k b :
  cview s k b -> b < 25769803776 ->
  returns (ikcp_flush k) (fun '(k', out) => exists s', cview s' k' b /\ moved s s' out [] [] /\ fits out).
Proof.
  intros Hv Hb. pose proof (cview_numbered _ _ _ true Hv) as Hn.
  pose proof Hv as [(F & Hm) Hep Hmtu Hac _ _ _]. rewrite <- Hep in *.
  eapply returns_mono; [apply (flush_returns 1 s F true); try done; try lia; apply conv_one|].
  intros [k' out] (Emo & Hac' & Hout & Hm'). eexists. split; [|split; [apply quiet_moved|by eapply fits_mtu]].
  eapply cview_quiet; [exact Hv|congruence|lia|by exists F].
Qed.

Lemma client_input s k b d :
  cview s k b -> b + 1500 < 25769803776 -> d ∈ net (base s) false -> (length d <= 1500)%nat ->
  returns (ikcp_input k (Some d) (Z.of_nat (length d))) (fun '(_, k') => exists s',
    cview s' k' (b + 1500) /\ moved s s' [] [] []).
Proof.
  intros Hv Hb Hd Hl. pose proof Hv as [(F & Hm) Hep Hmtu Hac He Ho Hf]. rewrite <- Hep in *.
  eapply returns_mono; [apply (deliver_returns 1 s F true d allocs); (done || lia)|].
  intros [r k'] (Emo & Hac' & Hm'). eexists. split; [|apply quiet_moved].
  constructor; try done; [by exists F|unfold modes in Emo; congruence|lia].
Qed.

Lemma client_send s k b o :
  cview s k b -> Forall is_byte o -> sent_obj (length (posted s true)) o ->
  (length (posted s true) < DELAY_TEST2_N)%nat ->
  returns (ikcp_send k (Some o) (Z.of_nat obj_size)) (fun '(r, k') => r = 0 /\ exists s',
    cview s' k' b /\ moved s s' [] [o] []).
Proof.
  intros Hv Hby [Hl Hsq] Hlt. pose proof Hv as [(F & Hm) Hep Hmtu Hac He Ho Hf]. rewrite <- Hep in *. rewrite <- Hl.
  eapply returns_mono; [apply (post_returns 1 s F true o allocs Hm Hby); rewrite Hl; by_decide|].
  intros [r k'] (-> & Emo & Hac' & f & _ & Hm'). split; [done|]. eexists. split.
  - constructor; [by eexists|done|unfold modes in Emo; congruence|lia|..].
    + done.
    + intros j m. cbn. rewrite fn_lookup_insert. intros [?|[Hj E]]%lookup_app_Some; [by apply Ho|].
      destruct (j - _)%nat as [|?] eqn:Ej; cbn in E; [|done]. injection E as <-.
      by replace j with (length (posted s true)) by lia.
    + cbn. rewrite fn_lookup_insert, length_app. cbn. lia.
  - constructor; cbn; rewrite ?fn_lookup_insert, ?app_nil_r; done.
Qed.

(** What comes back is the next object, whole. *)
Lemma client_recv s k b :
  cview s k b ->
  returns (ikcp_recv k true (Z.of_nat obj_size)) (fun '(r, out, k') => exists s',
    cview s' k' b /\
    ((r < 0 /\ out = [] /\ moved s s' [] [] []) \/
     (r = Z.of_nat obj_size /\ Forall is_byte out /\ length out = obj_size /\ moved s s' [] [] [out]))).
Proof.
  intros Hv. pose proof Hv as [(F & Hm) Hep Hmtu Hac He Ho Hf]. rewrite <- Hep in *.
  eapply returns_mono; [apply (fetch_returns 1 s F true (Z.of_nat obj_size) Hm); by_decide|].
  intros [[r out] k'] (Emo & Hac' & Hr & Hm'). exists (fetched_state s true (Z.of_nat obj_size) r out k').
  split; [constructor; try done; [by exists F|unfold modes in Emo; congruence|lia]|].
  destruct Hr as [[Hneg ->]|(Hr & Er & Hby)].
  - left. split_and!; try done. unfold fetched_state. destruct (Z.ltb_spec r 0); [|lia].
    constructor; cbn; rewrite ?fn_lookup_insert, ?app_nil_r; done.
  - right. assert (moved s (fetched_state s true (Z.of_nat obj_size) r out k') [] [] [out]) as Hmv.
    { unfold fetched_state. destruct (Z.ltb_spec r 0); [lia|].
      constructor; cbn; rewrite ?fn_lookup_insert, ?app_nil_r; done. }
    destruct (fetched_prefix _ _ _ true Hm) as (r1 & E1).
    destruct (fetched_prefix _ _ _ false Hm') as (r2 & E2). cbn [negb] in *.
    change (posted (fetched_state s true (Z.of_nat obj_size) r out k')) with (posted s) in E2.
    rewrite (mv_fetched _ _ _ _ _ Hmv), He, <- app_assoc in E2.
    assert (sent_obj (length (fetched s true)) out) as [Hl _].
    { apply Ho. rewrite E1, E2, <- app_assoc, lookup_app_r by lia. by rewrite Nat.sub_diag. }
    split_and!; try done. lia.
Qed.

Lemma cview_fetched s k b : cview s k b -> (length (fetched s true) <= length (posted s true))%nat.
Proof.
  intros [(F & Hm) _ _ _ He _ _]. destruct (fetched_prefix _ _ _ true Hm) as (r1 & E1).
  destruct (fetched_prefix _ _ _ false Hm) as (r2 & E2). cbn in *.
  rewrite E1, <- He, E2, !length_app. lia.
Qed.

Lemma cview_weaken s k b b' : cview s k b -> b <= b' -> cview s k b'.
Proof. intros [] ?. constructor; done || lia. Qed.

(** *** The client's memory *)

Record mem_ok (cl : client) (n : nat) : Prop := {
  mo_buf : length (cbuf cl) = UDP_RECV_BUF_SIZE;
  mo_len : length (objs cl) = DELAY_TEST2_N;
  mo_objs : Forall obj_ok (objs cl);
  mo_recv : recv_objs cl = n }.

Lemma take_reply_spec i answer s cl c b n :
  cview s (ckcp cl) b -> mem_ok cl n -> n = length (fetched s true) -> b + 1500 < 25769803776 ->
  (i < DELAY_TEST2_N)%nat ->
  match answer with None => True | Some d => d ∈ net (base s) false /\ (length d <= 1500)%nat end ->
  returns (take_reply i answer cl c) (fun '(r, cl', _, got) => exists s',
    cview s' (ckcp cl') (b + 1500) /\ moved s s' [] [] got /\ mem_ok cl' (length (fetched s' true)) /\
    at_stage cl' = at_stage cl /\
    match r with None => got = [] | Some ret => ret = Z.of_nat obj_size /\ length got = 1%nat end).
Proof.
  intros Hv [Hcb Hol Ho Hro] En Hb Hi Hans. unfold take_reply. destruct answer as [d|].
  2:{ apply returns_Ok. exists s. split; [eapply cview_weaken; [exact Hv|lia]|].
      split; [by constructor; rewrite ?app_nil_r|]. split; [|done]. by constructor; rewrite <- ?En. }
  destruct Hans as [Hd Hl]. rewrite take_ge by done.
  destruct (store_front_Ok (cbuf cl) d) as (b1 & Hs1 & Hb1 & Ht1); [unfold UDP_RECV_BUF_SIZE in *; lia|].
  rewrite Hs1. cbn [mbind res_bind]. rewrite Ht1.
  eapply returns_bind; [by apply (client_input s (ckcp cl) b d)|]. intros [ret k1] (s1 & Hv1 & Hm1).
  pose proof (mv_fetched _ _ _ _ _ Hm1) as Ef1. rewrite app_nil_r in Ef1.
  destruct (ret <? 0).
  { apply returns_Ok. exists s1. split_and!; try done. constructor; cbn; congruence. }
  cbn [ckcp objs recv_objs]. eapply returns_bind; [by apply client_recv|].
  intros [[r out] k2] (s2 & Hv2 & Hcase).
  eapply returns_bind; [apply obj_at_ok; [exact Ho|lia]|]. intros o Hoo.
  assert (Forall is_byte out /\ (length out <= obj_size)%nat) as [Hby Hlo].
  { destruct Hcase as [(_ & -> & _)|(_ & ? & -> & _)]; [split; [constructor|cbn; lia]|done]. }
  eapply returns_bind; [by apply (store_obj o 0)|]. intros o' [Ho' _]. cbn [at_stage].
  assert (Forall obj_ok (<[i := o']> (objs cl))) as Hobjs by (by apply Forall_insert).
  destruct Hcase as [(Hneg & -> & Hm2)|(-> & _ & Hlen & Hm2)].
  - destruct (Z.ltb_spec r 0); [|lia]. apply returns_Ok. exists s2.
    pose proof (moved_trans _ _ _ _ _ _ _ _ _ Hm1 Hm2) as Hm. pose proof (mv_fetched _ _ _ _ _ Hm) as Ef.
    rewrite app_nil_r in Ef. split_and!; try done.
    constructor; cbn; rewrite ?length_insert; congruence.
  - change (Z.of_nat obj_size <? 0) with false. cbn [recv_objs].
    pose proof (moved_trans _ _ _ _ _ _ _ _ _ Hm1 Hm2) as Hm. pose proof (mv_fetched _ _ _ _ _ Hm) as Ef.
    cbn in Ef. pose proof (f_equal length Ef) as El. rewrite length_app in El. cbn in El.
    pose proof (cview_fetched _ _ _ Hv2) as Hf2. pose proof (cv_few _ _ _ Hv2) as Hf3.
    eapply returns_bind; [apply obj_at_ok; [exact Hobjs|rewrite length_insert; lia]|]. intros o2 Ho2.
    eapply returns_bind; [by apply recv_time_ok|]. intros [o3 c3] Ho3. apply returns_Ok. exists s2.
    split_and!; try done. constructor; cbn; rewrite ?length_insert; try congruence; [by apply Forall_insert|lia].
Qed.

(** *** A turn of the client *)

Definition stage_ok (p : stage) (posts fetches : nat) : Prop :=
  match p with
  | Sending i => i = posts /\ (i < DELAY_TEST2_N)%nat
  | Waiting i => posts = DELAY_TEST2_N /\ i = fetches /\ (i < DELAY_TEST2_N)%nat
  | Ended => posts = DELAY_TEST2_N /\ fetches = DELAY_TEST2_N
  | Gave_up => False
  end.

Record client_ok (s : msys) (cl : client) (b : Z) : Prop := {
  co_view : cview s (ckcp cl) b;
  co_mem : mem_ok cl (length (fetched s true));
  co_stage : stage_ok (at_stage cl) (length (posted s true)) (length (fetched s true)) }.

Lemma enter_waiting_spec s cl b :
  cview s (ckcp cl) b -> b < 25769803776 -> mem_ok cl (length (fetched s true)) ->
  length (posted s true) = DELAY_TEST2_N ->
  returns (enter_waiting (length (fetched s true)) cl) (fun '(cl', out) => exists s',
    client_ok s' cl' b /\ moved s s' out [] [] /\ fits out).
Proof.
  intros Hv Hb Hm Hp. pose proof (cview_fetched _ _ _ Hv) as Hf. unfold enter_waiting.
  destruct (Nat.ltb_spec (length (fetched s true)) DELAY_TEST2_N).
  - apply returns_Ok. exists s. split; [|split; [by constructor; rewrite ?app_nil_r|constructor]].
    destruct Hm. by constructor.
  - eapply returns_bind; [by apply (client_flush s (ckcp cl) b)|]. intros [k out] (s' & Hv' & Hmv & Hfit).
    apply returns_Ok. exists s'. pose proof (mv_posted _ _ _ _ _ Hmv) as Ep. pose proof (mv_fetched _ _ _ _ _ Hmv) as Ef.
    rewrite app_nil_r in Ep, Ef. split; [|done]. destruct Hm. constructor; cbn; rewrite ?Ep, ?Ef; try done.
    split; [done|lia].
Qed.

Lemma enter_sending_spec i s cl b :
  cview s (ckcp cl) b -> b < 25769803776 -> mem_ok cl (length (fetched s true)) ->
  length (posted s true) = i -> (i <= DELAY_TEST2_N)%nat ->
  returns (enter_sending i cl) (fun '(cl', out) => exists s',
    client_ok s' cl' b /\ moved s s' out [] [] /\ fits out).
Proof.
  intros Hv Hb Hm Hp Hi. unfold enter_sending. destruct (Nat.ltb_spec i DELAY_TEST2_N).
  - apply returns_Ok. exists s. split; [|split; [by constructor; rewrite ?app_nil_r|constructor]].
    destruct Hm. by constructor.
  - rewrite (mo_recv _ _ Hm). apply enter_waiting_spec; try done. lia.
Qed.

Definition heard_ok (s : msys) (answer : option (list Z)) : Prop :=
  match answer with None => True | Some d => d ∈ net (base s) false /\ (length d <= 1500)%nat end.

Definition turned (s : msys) (b : Z) (t : turn) : Prop :=
  exists s', client_ok s' (client_after t) (b + 1500) /\
    moved s s' (out_of_client t) (given t) (taken t) /\ fits (out_of_client t).

Lemma heard_moved s s' o g t answer : moved s s' o g t -> heard_ok s answer -> heard_ok s' answer.
Proof. intros [Ho _ _ _] H. injection Ho as _ E _ _. unfold heard_ok. by rewrite E. Qed.

Lemma send_turn_spec i answer s cl c b :
  client_ok s cl b -> at_stage cl = Sending i -> heard_ok s answer -> 0 <= b -> b + 1500 < 25769803776 ->
  returns (send_turn i answer cl c) (turned s b).
Proof.
  intros [Hv [Hcb Hol Ho Hro] Hst] Est Hans Hb0 Hb. rewrite Est in Hst. destruct Hst as [-> Hi]. unfold send_turn.
  eapply returns_bind; [apply obj_at_ok; [done|lia]|]. intros o Hoo.
  assert (u16 (Z.of_nat (length (posted s true))) = Z.of_nat (length (posted s true))) as Eu
    by (apply u16_small; unfold DELAY_TEST2_N in *; lia). rewrite Eu.
  eapply returns_bind; [apply seqno_send_time_ok; [done|unfold DELAY_TEST2_N in *; lia]|].
  intros [o1 c1] [Ho1 Esq].
  eapply returns_bind; [apply (client_send s (ckcp cl) b o1); [done|apply Ho1|split; [apply Ho1|done]|done]|].
  intros [ret k1] (-> & s1 & Hv1 & Hm1). change (0 <? 0) with false. cbn match.
  pose proof (iclock_range c1) as Hnow. destruct (iclock c1) as [now c2]. cbn [fst] in Hnow.
  eapply returns_bind; [apply (client_update s1 k1 b now); (done || lia)|]. intros [k2 out] (s2 & Hv2 & Hm2 & Hfit).
  pose proof (moved_trans _ _ _ _ _ _ _ _ _ Hm1 Hm2) as Hm12. cbn [app] in Hm12.
  pose proof (mv_fetched _ _ _ _ _ Hm12) as Ef. rewrite app_nil_r in Ef.
  eapply returns_bind.
  { apply (take_reply_spec (length (posted s true)) answer s2 _ c2 b (length (fetched s true))); cbn; try done.
    - constructor; cbn; rewrite ?length_insert; try done. by apply Forall_insert.
    - by rewrite Ef.
    - by eapply heard_moved. }
  intros [[[r cl3] c3] got] (s3 & Hv3 & Hm3 & Hmem & _ & Hr).
  pose proof (moved_trans _ _ _ _ _ _ _ _ _ Hm12 Hm3) as Hm13. rewrite !app_nil_r in Hm13. cbn [app] in Hm13.
  assert (match r with Some ret => negb (ret =? Z.of_nat obj_size) | None => false end = false) as ->.
  { destruct r as [ret|]; [|done]. destruct Hr as [-> _]. by rewrite Z.eqb_refl. }
  eapply returns_bind.
  { apply (enter_sending_spec _ s3 cl3 (b + 1500)); try done.
    rewrite (mv_posted _ _ _ _ _ Hm13), length_app. cbn. lia. }
  intros [cl4 out2] (s4 & Hok & Hm4 & Hfit2). apply returns_Ok. exists s4. split; [done|].
  pose proof (moved_trans _ _ _ _ _ _ _ _ _ Hm13 Hm4) as Hm14. rewrite !app_nil_r in Hm14.
  split; [done|]. by apply Forall_app.
Qed.

Lemma wait_turn_spec i answer s cl c b :
  client_ok s cl b -> at_stage cl = Waiting i -> heard_ok s answer -> 0 <= b -> b + 1500 < 25769803776 ->
  returns (wait_turn i answer cl c) (turned s b).
Proof.
  intros [Hv Hm Hst] Est Hans Hb0 Hb. rewrite Est in Hst. destruct Hst as (Hp & -> & Hi). unfold wait_turn.
  pose proof (iclock_range c) as Hnow. destruct (iclock c) as [now c2]. cbn [fst] in Hnow.
  eapply returns_bind; [apply (client_update s (ckcp cl) b now); (done || lia)|].
  intros [k2 out] (s2 & Hv2 & Hm2 & Hfit). pose proof (mv_fetched _ _ _ _ _ Hm2) as Ef. rewrite app_nil_r in Ef.
  pose proof (mv_posted _ _ _ _ _ Hm2) as Epo. rewrite app_nil_r in Epo.
  eapply returns_bind.
  { apply (take_reply_spec (length (fetched s true)) answer s2 _ c2 b (length (fetched s true))); cbn; try done.
    - destruct Hm. by constructor.
    - by rewrite Ef.
    - by eapply heard_moved. }
  intros [[[r cl3] c3] got] (s3 & Hv3 & Hm3 & Hmem & Est3 & Hr). cbn in Est3.
  pose proof (moved_trans _ _ _ _ _ _ _ _ _ Hm2 Hm3) as Hm13. rewrite !app_nil_r in Hm13. cbn [app] in Hm13.
  pose proof (mv_fetched _ _ _ _ _ Hm13) as Ef3. pose proof (mv_posted _ _ _ _ _ Hm13) as Ep3. rewrite app_nil_r in Ep3.
  destruct r as [ret|].
  - destruct Hr as [-> Hg]. rewrite Z.eqb_refl. cbn [negb].
    assert (S (length (fetched s true)) = length (fetched s3 true)) as -> by (rewrite Ef3, length_app; lia).
    eapply returns_bind; [apply (enter_waiting_spec s3 cl3 (b + 1500)); try done; congruence|].
    intros [cl4 out2] (s4 & Hok & Hm4 & Hfit2). apply returns_Ok. exists s4. split; [done|].
    pose proof (moved_trans _ _ _ _ _ _ _ _ _ Hm13 Hm4) as Hm14. rewrite !app_nil_r in Hm14.
    split; [done|]. by apply Forall_app.
  - subst got. apply returns_Ok. exists s3. split; [|done]. rewrite app_nil_r in Ef3.
    constructor; try done. cbn. rewrite Est3, Est, Ep3, Ef3. by split_and!.
Qed.

Lemma delay_test2_spec answer s cl c b :
  client_ok s cl b -> heard_ok s answer -> 0 <= b -> b + 1500 < 25769803776 ->
  returns (delay_test2 answer cl c) (turned s b).
Proof.
  intros Hok Hans Hb0 Hb. unfold delay_test2. destruct (at_stage cl) as [i|i| |] eqn:Est.
  - by apply send_turn_spec.
  - by apply wait_turn_spec.
  - apply returns_Ok. exists s. split; [|split; [by constructor; rewrite ?app_nil_r|constructor]].
    destruct Hok as [Hv Hm Hst]. constructor; try done. eapply cview_weaken; [exact Hv|lia].
  - destruct Hok as [_ _ Hst]. by rewrite Est in Hst.
Qed.
End Moves.

(** ** The two programs together *)

Section Together.
Context `{env : Env} `{host : Host} `{machine : Machine}.
Hypothesis allocs : malloc_never_fails.

Record hosts_inv (b : Z) (h : hosts) (s : msys) : Prop := {
  hi_cli : client_ok s (hcli h) b;
  hi_ep : ep (base s) false = pkcp (hsrv h);
  hi_mtu : mtu (pkcp (hsrv h)) = 1400;
  hi_acks : 24 * ackcount (pkcp (hsrv h)) <= b;
  hi_buf : length (sbuf (hsrv h)) = RECV_BUF;
  hi_up : hup h = true;
  hi_wire : forall e, wire_of h e = net (base s) e /\ fits (wire_of h e);
  hi_log : hsent h = posted s true /\ hgot h = fetched s true }.

Lemma heard_from_ok b h s e pick d :
  hosts_inv b h s -> heard_from e pick h = Some d -> d ∈ net (base s) e /\ (length d <= 1400)%nat.
Proof.
  intros Hi H. unfold heard_from in H. destruct pick as [i|]; [|done].
  destruct (hi_wire _ _ _ Hi e) as [E Hf]. split; [rewrite <- E; by eapply list_elem_of_lookup_2|].
  exact (Forall_lookup_1 _ _ _ _ Hf H).
Qed.

Lemma wire_moved (f g : bool -> list (list Z)) e out :
  (forall e', f e' = g e' /\ fits (f e')) -> fits out ->
  forall e', <[e := f e ++ out]> f e' = <[e := g e ++ out]> g e' /\ fits (<[e := f e ++ out]> f e').
Proof.
  intros H Ho e'. destruct (decide (e' = e)) as [->|?];
    [rewrite !fn_lookup_insert|rewrite !fn_lookup_insert_ne by done; apply H].
  destruct (H e) as [-> Hf]. split; [done|]. by apply Forall_app.
Qed.

Lemma server_turn_inv b h s pick :
  hosts_inv b h s -> 0 <= b -> b + 1500 < 25769803776 ->
  returns (host_step h (Server_turn pick)) (fun h' => exists s', hosts_inv (b + 1500) h' s').
Proof.
  intros Hi Hb0 Hb. pose proof Hi as [[Hv Hmem Hst] Hep Hmtu Hac Hbuf Hup Hw [Hl1 Hl2]].
  cbn [host_step]. rewrite Hup. pose proof (iclock_range (hclock h)) as Hnow.
  destruct (iclock (hclock h)) as [now c]. cbn [fst] in Hnow.
  pose proof (cview_numbered _ _ _ false Hv) as Hn. pose proof Hv as [(F & Hm) Hept Hmtut Hact He Ho Hf].
  eapply returns_bind.
  { apply (server_round_spec allocs 1 s F (hsrv h) now (heard_from true pick h) conv_one Hm Hep Hbuf Hnow);
      [|lia|lia]. destruct (heard_from true pick h) as [d|] eqn:Ed; [|done].
    destruct (heard_from_ok _ _ _ _ _ _ Hi Ed) as [? ?]. split; [done|]. unfold RECV_BUF. lia. }
  intros r (Hgo & Hb' & Emo & Hac' & Hout & Hech & Hm'). apply returns_Ok. exists (after_round s r).
  assert (fits (handed r)) as Hfit by (eapply fits_mtu; [exact Hmtu|exact Hout]).
  constructor; cbn; try done; [|unfold modes in Emo; congruence|lia|by apply wire_moved].
  constructor; try done. constructor; cbn; try done; [lia|].
  by rewrite !fn_lookup_insert, He.
Qed.

Lemma client_turn_inv b h s pick :
  hosts_inv b h s -> 0 <= b -> b + 1500 < 25769803776 ->
  returns (host_step h (Client_turn pick)) (fun h' => exists s', hosts_inv (b + 1500) h' s').
Proof.
  intros Hi Hb0 Hb. pose proof Hi as [Hcli Hep Hmtu Hac Hbuf Hup Hw [Hl1 Hl2]]. cbn [host_step].
  eapply returns_bind.
  { apply (delay_test2_spec allocs (heard_from false pick h) s (hcli h) (hclock h) b Hcli); [|done|done].
    destruct (heard_from false pick h) as [d|] eqn:Ed; [|done].
    destruct (heard_from_ok _ _ _ _ _ _ Hi Ed) as [? ?]. split; [done|]. lia. }
  intros t (s' & Hcli' & [Ho En Ep Ef] & Hfit). apply returns_Ok. exists s'.
  injection Ho as Eep Enet _ _.
  constructor; cbn; try done; [congruence|lia| |by rewrite Ep, Ef, Hl1, Hl2].
  intros e'. pose proof (wire_moved _ _ true _ Hw Hfit e') as [E1 E2]. split; [|done]. rewrite E1.
  destruct e'; [by rewrite fn_lookup_insert, En|by rewrite fn_lookup_insert_ne, Enet].
Qed.

Lemma host_steps_inv evs b h s :
  hosts_inv b h s -> 0 <= b -> b + 1500 * Z.of_nat (length evs) < 25769803776 ->
  returns (host_steps h evs) (fun h' => exists b' s', hosts_inv b' h' s').
Proof.
  revert b h s. induction evs as [|ev evs IH]; intros b h s Hi Hb0 Hb; cbn [host_steps].
  { apply returns_Ok. by eexists _, _. }
  cbn [length] in Hb. eapply returns_bind with (P := fun h' => exists s', hosts_inv (b + 1500) h' s').
  { destruct ev; [by eapply server_turn_inv; [|lia|lia]|by eapply client_turn_inv; [|lia|lia]]. }
  intros h' [s' Hi']. eapply IH; [exact Hi'|lia|lia].
Qed.

(** *** The start *)

Lemma server_kcp_idle user0 : returns (server_kcp user0) (idle 1 true user0 1400).
Proof.
  unfold server_kcp. destruct (idle_create 1 user0 allocs) as (k & -> & Hk). apply returns_Ok.
  apply idle_wndsize; [by_decide|by_decide|]. apply idle_nodelay; [by_decide..|].
  apply (idle_output _ false). by eapply idle_setmtu; [done|lia|].
Qed.

Lemma client_kcp_idle user0 : returns (client_kcp user0) (idle 1 true user0 1400).
Proof.
  unfold client_kcp. destruct (idle_create 1 user0 allocs) as (k & -> & Hk). apply returns_Ok.
  eapply idle_setmtu; [done|lia|]. apply idle_wndsize; [by_decide|by_decide|].
  apply idle_nodelay; [by_decide..|]. by eapply (idle_output _ false).
Qed.

Lemma hosts_start_inv user1 user2 junk_buf junk c :
  length junk_buf = UDP_RECV_BUF_SIZE -> length junk = DELAY_TEST2_N -> Forall obj_ok junk ->
  returns (hosts_start user1 user2 junk_buf junk c) (fun h => exists s, hosts_inv 0 h s).
Proof.
  intros Hjb Hjl Hjo. unfold hosts_start.
  eapply returns_bind; [apply client_kcp_idle|]. intros k1 Hk1.
  eapply returns_bind; [apply server_kcp_idle|]. intros k2 Hk2.
  set (kk := fun e : bool => if e then k1 else k2).
  set (s0 := mkMsys (mkSys kk (fun _ => []) (fun _ => []) (fun _ => [])) (fun _ => []) (fun _ => [])).
  assert (minitial 1 s0) as Hini.
  { apply (idle_initial 1 kk (fun e => if e then user1 else user2) (fun _ => 1400) conv_one). by intros []. }
  destruct (minitial_inv _ _ Hini) as (F & Hm).
  assert (forall e, mtu (kk e) = 1400 /\ ackcount (kk e) = 0) as Hkk.
  { intros e. assert (at_rest (kk e) = ((1, true, 0, if e then user1 else user2, 1400), (0, 0, 0, None, 0), ([], [], [], [])))
      as H by (destruct e; [apply Hk1|apply Hk2]). by injection H. }
  pose proof (numbered_posted _ _ _ false Hm) as Hn0. cbn in Hn0.
  pose proof (iclock_range c) as Hnow. destruct (iclock c) as [now c1]. cbn [fst] in Hnow.
  destruct (Hkk true) as [Hmt Hat]. destruct (Hkk false) as [Hmf Haf]. cbn in Hmt, Hat, Hmf, Haf.
  destruct (tick_returns 1 s0 F false now conv_one Hm Hnow) as ([k2' out2] & Eu & Emo & Hac2 & Hout2 & Hm2); [cbn; lia|lia|].
  cbn [ep base s0 kk] in Eu, Emo, Hac2, Hout2. unfold server_start. rewrite Eu. cbn [mbind res_bind].
  set (s1 := mkMsys _ _ _) in Hm2.
  assert (cview s1 k1 0) as Hv by (constructor; cbn; done || lia || by exists F).
  unfold client_start. pose proof (iclock_range c1) as Hnow1. destruct (iclock c1) as [now1 c2]. cbn [fst] in Hnow1.
  destruct (client_update s1 k1 0 now1 Hv) as ([k1' out1] & Ec & s2 & Hv2 & [Ho En Ep Ef] & Hfit1); [lia|done|].
  rewrite Ec. cbn [mbind res_bind]. apply returns_Ok. exists s2. injection Ho as Eep Enet _ _.
  cbn in En, Ep, Ef, Enet.
  assert (fits out2) as Hfit2 by (eapply fits_mtu; [exact Hmf|exact Hout2]).
  constructor; cbn; rewrite ?Ep, ?Ef; try done; [|unfold modes in Emo; congruence|lia|].
  - constructor; rewrite ?Ep, ?Ef; [done|by constructor|cbn; split; [done|by_decide]].
  - intros []; [by rewrite En|by rewrite Enet].
Qed.

End Together.

(** C13: The two programs work together.  Whatever the order of their turns, whatever the
    network loses, repeats or reorders, and whatever the clock shows, as long as malloc does
    not fail: no call faults, the server does not stop, the client never takes an error exit, and what it has got back is
    the first objects it sent, whole and in order.  When it ends it has got all of them, and
    its connection gives back all its memory.  The bound on the turns keeps the lists of
    acknowledgements below the size where their array cannot grow. *)
Theorem client_gets_objects_back `{Env} `{Host} `{Machine} user1 user2 junk_buf junk c evs :
  malloc_never_fails ->
  length junk_buf = UDP_RECV_BUF_SIZE -> length junk = DELAY_TEST2_N -> Forall obj_ok junk ->
  Z.of_nat (length evs) <= 17000000 ->
  returns (h ← hosts_start user1 user2 junk_buf junk c; host_steps h evs) (fun h =>
    hup h = true /\ at_stage (hcli h) <> Gave_up /\
    (exists rest, hsent h = hgot h ++ rest) /\ length (hgot h) = recv_objs (hcli h) /\
    (forall j m, hsent h !! j = Some m -> sent_obj j m) /\
    (at_stage (hcli h) = Ended ->
       hgot h = hsent h /\ length (hgot h) = DELAY_TEST2_N /\
       returns (client_end (hcli h)) (fun '(rows, blocks) => length rows = DELAY_TEST2_N /\ blocks = 0))).
Proof.
  intros allocs Hjb Hjl Hjo Hev. eapply returns_bind; [by apply hosts_start_inv|]. intros h0 [s0 Hs0].
  eapply returns_mono; [apply (host_steps_inv allocs evs 0 h0 s0 Hs0); lia|].
  intros h (b & s & [[Hv Hmem Hst] _ _ _ _ Hup _ [El1 El2]]). pose proof Hv as [(F & Hm) Hep _ _ He Ho _].
  destruct (fetched_prefix _ _ _ true Hm) as (r1 & E1). destruct (fetched_prefix _ _ _ false Hm) as (r2 & E2).
  cbn [negb] in *. assert (posted s true = fetched s true ++ r2 ++ r1) as E by (by rewrite E1, <- He, E2, app_assoc).
  rewrite El1, El2. split_and!; try done.
  - intros Hg. by rewrite Hg in Hst.
  - by eexists.
  - by rewrite (mo_recv _ _ Hmem).
  - intros Hend. rewrite Hend in Hst. destruct Hst as [Hp Hf]. split; [|split; [done|]].
    + assert (r2 ++ r1 = []) as Er; [|by rewrite E, Er, app_nil_r].
      apply length_zero_iff_nil. apply (f_equal length) in E. rewrite (length_app (fetched s true)) in E. lia.
    + unfold client_end, delay_print_rtt_time. rewrite (mo_len _ _ Hmem). apply returns_Ok.
      rewrite length_imap, length_take, (mo_len _ _ Hmem). split; [done|]. apply ikcp_release_frees.
      rewrite <- Hep. eapply minv_kcp, Hm.
Qed.


(** ** On a concrete machine *)

Section HostsDemo.
#[local] Existing Instance demo_env.
#[local] Existing Instance x86_64.

#[local] Instance minutes : Machine := {|
  clock n := (1000, Z.of_nat n * 10000);
  draw n := 0 |}.

Lemma client_gets_objects_back_witness :
  returns (h ← hosts_start 1 2 (replicate 1500 0) (replicate 5 (replicate 1328 255)) (mkCalls 0 0);
           host_steps h [Client_turn None; Client_turn None; Server_turn (Some 0%nat); Server_turn (Some 0%nat);
             Client_turn (Some 1%nat)]) (fun h =>
    hup h = true /\ at_stage (hcli h) <> Gave_up /\
    (exists rest, hsent h = hgot h ++ rest) /\ length (hgot h) = recv_objs (hcli h) /\
    (forall j m, hsent h !! j = Some m -> sent_obj j m) /\
    (at_stage (hcli h) = Ended ->
       hgot h = hsent h /\ length (hgot h) = DELAY_TEST2_N /\
       returns (client_end (hcli h)) (fun '(rows, blocks) => length rows = DELAY_TEST2_N /\ blocks = 0))).
Proof.
  apply (@client_gets_objects_back demo_env x86_64 minutes); [by intros n size|by_decide|by_decide| |by_decide].
  apply Forall_replicate. split; [by_decide|]. apply Forall_replicate. by_decide.
Defined.

(** A run without loss, to its end: the client takes each datagram of the server's in turn,
    and the server each of the client's.  The rows that are printed are wrong: objs[1] was
    overwritten by object 0, which came back while the client was still sending. *)
Fixpoint alternate (n i j : nat) (h : hosts) : res hosts :=
  match n with
  | O => Ok h
  | S n =>
      h1 ← host_step h (Client_turn (Some i));
      h2 ← host_step h1 (Server_turn (Some j));
      alternate n (if (i <? length (wire_of h false))%nat then S i else i)
        (if (j <? length (wire_of h1 true))%nat then S j else j) h2
  end.

Definition printed (h : hosts) : option (list Z) :=
  match at_stage (hcli h), client_end (hcli h) with
  | Ended, Ok (rows, _) => Some ((fun '(_, n, _) => n) <$> rows)
  | _, _ => None
  end.

Lemma rows_are_mixed_up :
  match h ← hosts_start 1 2 (replicate 1500 0) (replicate 5 (replicate 1328 255)) (mkCalls 0 0);
        alternate 12 0 0 h with
  | Ok h => printed h = Some [0; 0; 2; 3; 4]
  | Err _ => False
  end.
Proof. vm_compute. reflexivity. Qed.
End HostsDemo.
