(* ===== verification/Mmpool.v ===== *)
(** * mempool/mmpool.c: the pool allocator

    A pool is a chain of blocks from which small requests are carved one after the
    other, and a list of large requests that went to malloc.  Addresses are
    integers; posix_memalign, malloc and the contents of fresh memory are the
    libc's. *)

From S2P Require Import Prelude.

Definition MP_ALIGNMENT : Z := 32.
Definition MP_PAGE_SIZE : Z := 4096.
Definition MP_MAX_ALLOC_FROM_POOL : Z := MP_PAGE_SIZE - 1.

(** sizeof on an LP64 host *)
Definition sizeof_mp_pool_s : Z := 24.
Definition sizeof_mp_node_s : Z := 32.
Definition sizeof_mp_large_s : Z := 16.

Definition mp_align_ptr (p alignment : Z) : Z :=
  Z.land (u64 (p + (alignment - 1))) (u64 (Z.lnot (alignment - 1))).

(** ** State *)

(** [large_addr] is where the header lies, [alloc] is [None] for NULL. *)
Record mp_large_s := mkLarge { large_addr : Z; alloc : option Z }.

Record mp_node_s := mkNode { node_addr : Z; last : Z; end_ : Z; failed : Z }.

(** The chain of nodes in the order of their [next] pointers, head first; [current] is the
    position of the node pool->current points to; [large] is the list of large
    headers.  [next_written] is whether the [next] field of the head was ever
    assigned (mp_create_pool does not).  [blocks] are the blocks of the libc that are
    allocated, with their sizes, and [requests] how many were asked for. *)
Record mp_pool_s := mkPool {
  pool_addr : Z; max : Z; current : nat; large : list mp_large_s; chain : list mp_node_s;
  next_written : bool; blocks : gmap Z Z; requests : nat }.

#[export] Instance eta_large : Eta mp_large_s := fun l => mkLarge (large_addr l) (alloc l).
#[export] Instance set_alloc : Settable alloc := ltac:(derive_setter).
#[export] Instance eta_node : Eta mp_node_s := fun n =>
  mkNode (node_addr n) (last n) (end_ n) (failed n).
#[export] Instance set_last : Settable last := ltac:(derive_setter).
#[export] Instance set_failed : Settable failed := ltac:(derive_setter).
#[export] Instance eta_pool : Eta mp_pool_s := fun p =>
  mkPool (pool_addr p) (max p) (current p) (large p) (chain p) (next_written p) (blocks p) (requests p).
#[export] Instance set_current : Settable current := ltac:(derive_setter).
#[export] Instance set_large : Settable large := ltac:(derive_setter).
#[export] Instance set_chain : Settable chain := ltac:(derive_setter).
#[export] Instance set_next_written : Settable next_written := ltac:(derive_setter).
#[export] Instance set_blocks : Settable blocks := ltac:(derive_setter).
#[export] Instance set_requests : Settable requests := ltac:(derive_setter).

(** [get n align size] is the address the [n]-th request of the libc returns, if it succeeds;
    [stale_null n] is whether a pointer that was never written in that block happens to read
    as NULL. *)
Class Libc := { get : nat -> Z -> Z -> option Z; stale_null : nat -> bool }.

Section Operations.
Context `{Libc}.

Definition libc_alloc (pool : mp_pool_s) (align size : Z) : option Z * mp_pool_s :=
  match get (requests pool) align size with
  | None => (None, pool <| requests ::= S |>)
  | Some a => (Some a, pool <| requests ::= S |> <| blocks ::= <[a := size]> |>)
  end.

(** free of a block that is not allocated is undefined; free(NULL) does nothing *)
Definition libc_free (pool : mp_pool_s) (a : Z) : res mp_pool_s :=
  match blocks pool !! a with
  | Some _ => Ok (pool <| blocks ::= delete a |>)
  | None => Err OutOfBounds
  end.

Definition mp_create_pool (size : Z) : option mp_pool_s :=
  let empty := mkPool 0 0 0 [] [] false ∅ 0 in
  let '(p, pool) := libc_alloc empty MP_ALIGNMENT (u64 (size + sizeof_mp_pool_s + sizeof_mp_node_s)) in
  match p with
  | None => None
  | Some p =>
      let first := p + sizeof_mp_pool_s + sizeof_mp_node_s in
      Some (mkPool p (if size <? MP_MAX_ALLOC_FROM_POOL then size else MP_MAX_ALLOC_FROM_POOL)
              0 [] [mkNode (p + sizeof_mp_pool_s) first (first + size) 0] false
              (blocks pool) (requests pool))
  end.

(** Reading [next] of the last node of the chain: NULL, unless the node is the head and
    the field was never written. *)
Definition last_next (pool : mp_pool_s) : res unit :=
  if next_written pool || stale_null 0 then Ok tt else Err Uninitialised.

(** The loops that free the large blocks. *)
Fixpoint free_large (l : list mp_large_s) (pool : mp_pool_s) : res mp_pool_s :=
  match l with
  | [] => Ok pool
  | h :: l =>
      pool ← (match alloc h with Some a => libc_free pool a | None => Ok pool end);
      free_large l pool
  end.

Fixpoint free_nodes (l : list mp_node_s) (pool : mp_pool_s) : res mp_pool_s :=
  match l with
  | [] => Ok pool
  | h :: l => pool ← libc_free pool (node_addr h); free_nodes l pool
  end.

Definition mp_destory_pool (pool : mp_pool_s) : res mp_pool_s :=
  pool ← free_large (large pool) pool;
  _ ← last_next pool;
  pool ← free_nodes (tail (chain pool)) pool;
  libc_free pool (pool_addr pool).

Definition mp_reset_pool (pool : mp_pool_s) : res mp_pool_s :=
  pool ← free_large (large pool) pool;
  let pool := pool <| large := [] |> in
  _ ← last_next pool;
  Ok (pool <| chain ::= fmap (fun h => h <| last := node_addr h + sizeof_mp_node_s |>) |>).

(** The loop of mp_alloc_block from node [i]: count a failure on each node but the last,
    and move [cur] past those that failed too often. *)
Fixpoint count_failed (l : list mp_node_s) (i cur : nat) : list mp_node_s * nat :=
  match l with
  | p :: ((_ :: _) as l') =>
      let cur := if failed p >? 4 then S i else cur in
      let '(l', cur) := count_failed l' (S i) cur in
      (p <| failed ::= fun f => u64 (f + 1) |> :: l', cur)
  | _ => (l, cur)
  end.

Definition mp_alloc_block (pool : mp_pool_s) (size : Z) : res (option Z * mp_pool_s) :=
  match chain pool with
  | [] => Err NullDeref
  | h :: _ =>
      let psize := u64 (end_ h - node_addr h) in
      let '(b, pool) := libc_alloc pool MP_ALIGNMENT psize in
      match b with
      | None => Ok (None, pool)
      | Some b =>
          let m := mp_align_ptr (b + sizeof_mp_node_s) MP_ALIGNMENT in
          let new_node := mkNode b (m + size) (b + psize) 0 in
          _ ← last_next pool;
          let before := take (current pool) (chain pool) in
          let '(l, cur) := count_failed (drop (current pool) (chain pool)) (current pool) (current pool) in
          Ok (Some m, pool <| chain := before ++ l ++ [new_node] |> <| next_written := true |>
                           <| current := cur |>)
      end
  end.

(** The search from pool->current: the address found and the nodes with that one's [last]
    moved.  The room left is computed in size_t. *)
Fixpoint find_room (aligned : bool) (l : list mp_node_s) (size : Z) : option (Z * list mp_node_s) :=
  match l with
  | [] => None
  | p :: l =>
      let m := if aligned then mp_align_ptr (last p) MP_ALIGNMENT else last p in
      if u64 (end_ p - m) >=? size then Some (m, p <| last := m + size |> :: l)
      else match find_room aligned l size with
           | Some (m, l') => Some (m, p :: l')
           | None => None
           end
  end.

(** The branch [size <= pool->max] of mp_alloc and mp_nalloc. *)
Definition alloc_small (aligned : bool) (pool : mp_pool_s) (size : Z) : res (option Z * mp_pool_s) :=
  let before := take (current pool) (chain pool) in
  match find_room aligned (drop (current pool) (chain pool)) size with
  | Some (m, l) => Ok (Some m, pool <| chain := before ++ l |>)
  | None => _ ← last_next pool; mp_alloc_block pool size
  end.

(** The first free slot among the first five headers. *)
Fixpoint reuse_slot (n : nat) (l : list mp_large_s) (a : Z) : option (list mp_large_s) :=
  match l with
  | [] => None
  | h :: l =>
      match alloc h with
      | None => Some (h <| alloc := Some a |> :: l)
      | Some _ => if (3 <? n)%nat then None else (cons h) <$> reuse_slot (S n) l a
      end
  end.

(** Record a block of the libc in a header that [mp_alloc] allocates from the pool. *)
Definition push_large (mp_alloc : mp_pool_s -> Z -> res (option Z * mp_pool_s))
    (pool : mp_pool_s) (p : Z) : res (option Z * mp_pool_s) :=
  '(h, pool) ← mp_alloc pool sizeof_mp_large_s;
  match h with
  | None => pool ← libc_free pool p; Ok (None, pool)
  | Some h => Ok (Some p, pool <| large ::= cons (mkLarge h (Some p)) |>)
  end.

Definition alloc_large (mp_alloc : mp_pool_s -> Z -> res (option Z * mp_pool_s))
    (pool : mp_pool_s) (size : Z) : res (option Z * mp_pool_s) :=
  let '(p, pool) := libc_alloc pool 16 size in
  match p with
  | None => Ok (None, pool)
  | Some p =>
      match reuse_slot 0 (large pool) p with
      | Some l => Ok (Some p, pool <| large := l |>)
      | None => push_large mp_alloc pool p
      end
  end.

(** mp_alloc and mp_alloc_large call each other; [fuel] bounds the depth of the calls. *)
Fixpoint mp_alloc (fuel : nat) (pool : mp_pool_s) (size : Z) : res (option Z * mp_pool_s) :=
  match fuel with
  | O => Err Diverges
  | S fuel =>
      if size <=? max pool then alloc_small true pool size
      else alloc_large (mp_alloc fuel) pool size
  end.

Definition mp_alloc_large (fuel : nat) : mp_pool_s -> Z -> res (option Z * mp_pool_s) :=
  alloc_large (mp_alloc fuel).

Definition mp_nalloc (fuel : nat) (pool : mp_pool_s) (size : Z) : res (option Z * mp_pool_s) :=
  if size <=? max pool then alloc_small false pool size else mp_alloc_large fuel pool size.

Definition mp_memalign (fuel : nat) (pool : mp_pool_s) (size alignment : Z) : res (option Z * mp_pool_s) :=
  let '(p, pool) := libc_alloc pool alignment size in
  match p with
  | None => Ok (None, pool)
  | Some p => push_large (mp_alloc fuel) pool p
  end.

(** The result, and the range of bytes that memset clears. *)
Definition mp_calloc (fuel : nat) (pool : mp_pool_s) (size : Z)
  : res (option Z * option (Z * Z) * mp_pool_s) :=
  '(p, pool) ← mp_alloc fuel pool size;
  Ok (p, match p with Some p => Some (p, size) | None => None end, pool).

Fixpoint free_slot (l : list mp_large_s) (p : option Z) : option (option Z * list mp_large_s) :=
  match l with
  | [] => None
  | h :: l =>
      if decide (p = alloc h) then Some (alloc h, h <| alloc := None |> :: l)
      else match free_slot l p with Some (a, l') => Some (a, h :: l') | None => None end
  end.

Definition mp_free (pool : mp_pool_s) (p : option Z) : res mp_pool_s :=
  match free_slot (large pool) p with
  | None => Ok pool
  | Some (a, l) =>
      pool ← (match a with Some a => libc_free pool a | None => Ok pool end);
      Ok (pool <| large := l |>)
  end.
End Operations.

(** ** Alignment *)

Lemma land_high x : 0 <= x < 18446744073709551616 -> Z.land x 18446744073709551584 = x / 32 * 32.
Proof.
  intros Hx. change 18446744073709551584 with (Z.shiftl (Z.ones 59) 5).
  assert (x / 32 * 32 = Z.shiftl (Z.shiftr x 5) 5) as ->
    by (rewrite Z.shiftl_mul_pow2, Z.shiftr_div_pow2 by lia; done).
  apply Z.bits_inj'. intros n Hn. rewrite Z.land_spec.
  destruct (Z.lt_ge_cases n 5) as [Hlt|Hge].
  - rewrite !Z.shiftl_spec_low by done. by rewrite andb_false_r.
  - rewrite !Z.shiftl_spec_high, Z.shiftr_spec by lia.
    replace (n - 5 + 5) with n by lia. destruct (Z.lt_ge_cases n 64).
    + rewrite Z.ones_spec_low by lia. apply andb_true_r.
    + rewrite <- (Z.mod_small x (2 ^ 64)) by lia. by rewrite Z.mod_pow2_bits_high by lia.
Qed.

(** The address rounded up to a multiple of 32. *)
Lemma mp_align_ptr_eq p :
  0 <= p < 9223372036854775808 -> mp_align_ptr p MP_ALIGNMENT = (p + 31) / 32 * 32.
Proof.
  intros Hp. unfold mp_align_ptr, MP_ALIGNMENT. change (u64 (Z.lnot (32 - 1))) with 18446744073709551584.
  replace (u64 (p + (32 - 1))) with (p + 31) by (unfold u64; rewrite Z.mod_small; lia).
  apply land_high. lia.
Qed.

Lemma mp_align_ptr_bounds p :
  0 <= p < 9223372036854775808 ->
  p <= mp_align_ptr p MP_ALIGNMENT < p + 32 /\ mp_align_ptr p MP_ALIGNMENT mod 32 = 0.
Proof.
  intros Hp. rewrite mp_align_ptr_eq by done. split; [Z.to_euclidean_division_equations; lia|].
  apply Z_mod_mult.
Qed.

Lemma mp_align_ptr_id p :
  0 <= p < 9223372036854775808 -> p mod 32 = 0 -> mp_align_ptr p MP_ALIGNMENT = p.
Proof. intros Hp Hm. rewrite mp_align_ptr_eq by done. Z.to_euclidean_division_equations. lia. Qed.

(** ** The invariant *)

Definition shape (n : mp_node_s) : Z * Z := (node_addr n, end_ n).
Definition core (n : mp_node_s) : Z * Z * Z := (node_addr n, last n, end_ n).

(** A node's free part lies between [last] and [end]. *)
Definition core_ok (c : Z * Z * Z) : Prop :=
  let '(a, l, e) := c in 0 < a /\ a + sizeof_mp_node_s <= l <= e /\ e < 4611686018427387904.

Definition apart (r s : Z * Z) : Prop := snd r <= fst s \/ snd s <= fst r.
Definition pairwise_apart (l : list (Z * Z)) : Prop :=
  forall i j r s, l !! i = Some r -> l !! j = Some s -> i <> j -> apart r s.

Record pool_wf (p : mp_pool_s) : Prop := {
  wf_head : exists h t, chain p = h :: t /\ node_addr h = pool_addr p + sizeof_mp_pool_s /\
    0 < pool_addr p /\ blocks p !! pool_addr p = Some (end_ h - pool_addr p) /\
    sizeof_mp_node_s + max p <= end_ h - node_addr h /\
    Forall (fun n => blocks p !! node_addr n = Some (end_ n - node_addr n)) t;
  wf_cores : Forall core_ok (core <$> chain p);
  wf_apart : pairwise_apart (shape <$> chain p);
  wf_current : (current p < length (chain p))%nat;
  wf_max : 0 <= max p }.

(** What posix_memalign and malloc promise for the next request: an aligned block that does
    not meet any block still allocated. *)
Definition libc_ok `{Libc} (p : mp_pool_s) (align size : Z) : Prop :=
  forall a, get (requests p) align size = Some a ->
    0 < a /\ a mod align = 0 /\ a + size < 4611686018427387904 /\ blocks p !! a = None /\
    forall b n, blocks p !! b = Some n -> a + size <= b \/ b + n <= a.

(** No alignment of a free part passes the end of its block. *)
Definition no_overhang (p : mp_pool_s) : Prop :=
  Forall (fun n => mp_align_ptr (last n) MP_ALIGNMENT <= end_ n) (chain p).

(** The memory of the pool's requests: the parts [(a, a + n)] lie in the used part of a node
    and no two of them meet. *)
Record carved (p : mp_pool_s) (rs : list (Z * Z)) : Prop := {
  carved_in : forall r, r ∈ rs -> exists n, n ∈ chain p /\
    node_addr n + sizeof_mp_node_s <= fst r /\ snd r <= last n;
  carved_apart : pairwise_apart rs }.

Lemma shape_core (l l' : list mp_node_s) : core <$> l = core <$> l' -> shape <$> l = shape <$> l'.
Proof.
  assert (forall l : list mp_node_s, shape <$> l = (fun c : Z * Z * Z => (fst (fst c), snd c)) <$> (core <$> l)) as E.
  { intros m. by rewrite <- list_fmap_compose. }
  intros Hc. by rewrite !E, Hc.
Qed.

(** ** find_room *)

Lemma find_room_spec al l size m l' :
  find_room al l size = Some (m, l') -> Forall core_ok (core <$> l) -> 0 <= size ->
  (al = true -> Forall (fun n => mp_align_ptr (last n) MP_ALIGNMENT <= end_ n) l) ->
  exists l1 n l2, l = l1 ++ n :: l2 /\ l' = l1 ++ n <| last := m + size |> :: l2 /\
    last n <= m /\ m + size <= end_ n /\ (al = true -> m mod 32 = 0).
Proof.
  revert l'. induction l as [|p l IH]; intros l'; cbn [find_room]; [done|].
  set (m0 := if al then _ else _). intros Hf Hc Hs Ho. cbn in Hc.
  apply Forall_cons in Hc as [Hp Hc]. destruct Hp as (Ha & Hl & He). unfold sizeof_mp_node_s in *.
  assert (last p <= m0 <= end_ p /\ (al = true -> m0 mod 32 = 0)) as [Hm0 Hmod].
  { subst m0. destruct al; [|split; [lia|done]].
    specialize (Ho eq_refl). apply Forall_cons in Ho as [Ho _].
    destruct (mp_align_ptr_bounds (last p)) as [? ?]; [lia|]. split; [lia|done]. }
  assert (u64 (end_ p - m0) = end_ p - m0) as E by (unfold u64; apply Z.mod_small; lia).
  rewrite E in Hf. revert Hf. destruct (Z.geb_spec (end_ p - m0) size); intros Hf.
  - injection Hf as <- <-. exists [], p, l. split_and!; done || lia.
  - destruct (find_room al l size) as [[m1 l1]|] eqn:Er; [|done]. injection Hf as <- <-.
    destruct (IH l1) as (x & n & y & -> & -> & ? & ? & ?); try done.
    { intros Hal. specialize (Ho Hal). by apply Forall_cons in Ho as [_ ?]. }
    by exists (p :: x), n, y.
Qed.

(** ** mp_alloc_block *)

Lemma count_failed_cons p q l i cur :
  count_failed (p :: q :: l) i cur =
    let '(l', c) := count_failed (q :: l) (S i) (if failed p >? 4 then S i else cur) in
    (p <| failed ::= fun f => u64 (f + 1) |> :: l', c).
Proof. reflexivity. Qed.

Lemma count_failed_spec l i cur l' cur' :
  count_failed l i cur = (l', cur') -> l <> [] ->
  core <$> l' = core <$> l /\ (cur' = cur \/ (i < cur' < i + length l)%nat).
Proof.
  revert i cur l' cur'. induction l as [|p l IH]; intros i cur l' cur' H Hne; [done|].
  destruct l as [|q l].
  - cbn in H. injection H as <- <-. auto.
  - rewrite count_failed_cons in H.
    destruct (count_failed (q :: l) (S i) (if failed p >? 4 then S i else cur)) as [m c] eqn:E.
    injection H as <- <-. destruct (IH _ _ _ _ E) as [Hcore Hcur]; [done|].
    split; [cbn in *; f_equal; exact Hcore|]. cbn [length] in *.
    destruct (failed p >? 4); destruct Hcur; lia.
Qed.

Lemma pairwise_apart_snoc l r :
  pairwise_apart l -> (forall s, s ∈ l -> apart s r) -> pairwise_apart (l ++ [r]).
Proof.
  intros Hl Hr i j x y Hi Hj Hne. apply lookup_app_Some in Hi, Hj.
  destruct Hi as [Hi|[Hi1 Hi]], Hj as [Hj|[Hj1 Hj]].
  - by eapply Hl.
  - apply list_lookup_singleton_Some in Hj as [_ <-]. apply Hr. by eapply list_elem_of_lookup_2.
  - apply list_lookup_singleton_Some in Hi as [_ <-].
    destruct (Hr y) as [?|?]; [by eapply list_elem_of_lookup_2|by right|by left].
  - apply list_lookup_singleton_Some in Hi as [? _], Hj as [? _]. lia.
Qed.

(** ** Allocation from the pool *)

Lemma carved_cons p p' rs m e n :
  carved p rs -> n ∈ chain p' -> node_addr n + sizeof_mp_node_s <= m -> e <= last n ->
  (forall x, x ∈ chain p -> exists y, y ∈ chain p' /\ node_addr y = node_addr x /\ last x <= last y) ->
  (forall r, r ∈ rs -> apart r (m, e)) ->
  carved p' ((m, e) :: rs).
Proof.
  intros [Hin Hap] Hn Hm He Hmono Hnew. constructor.
  - intros r [->|Hr]%elem_of_cons; [by exists n|].
    destruct (Hin r Hr) as (x & Hx & H1 & H2). destruct (Hmono x Hx) as (y & Hy & Ea & Hl).
    exists y. rewrite Ea. split_and!; [done|done|lia].
  - intros [|i] [|j] r s; cbn; intros Hi Hj Hne; simplify_eq; try done.
    + apply list_elem_of_lookup_2 in Hj. destruct (Hnew s Hj); [by right|by left].
    + apply list_elem_of_lookup_2 in Hi. auto.
    + eapply Hap; [done|done|congruence].
Qed.

Lemma carved_mono p p' rs :
  carved p rs ->
  (forall x, x ∈ chain p -> exists y, y ∈ chain p' /\ node_addr y = node_addr x /\ last x <= last y) ->
  carved p' rs.
Proof.
  intros [Hin Hap] Hmono. constructor; [|done]. intros r Hr.
  destruct (Hin r Hr) as (x & Hx & H1 & H2). destruct (Hmono x Hx) as (y & Hy & Ea & Hl).
  exists y. rewrite Ea. split_and!; [done|done|lia].
Qed.

(** Two requests served from different nodes cannot meet. *)
Lemma wf_node_apart p i j x y :
  pool_wf p -> chain p !! i = Some x -> chain p !! j = Some y -> i <> j ->
  end_ x <= node_addr y \/ end_ y <= node_addr x.
Proof.
  intros H Hi Hj Hne. destruct (wf_apart _ H i j (shape x) (shape y)); [..|done|by left|by right];
    rewrite list_lookup_fmap; [by rewrite Hi|by rewrite Hj].
Qed.

Lemma wf_node_core p n : pool_wf p -> n ∈ chain p -> core_ok (core n).
Proof.
  intros H Hn. pose proof (wf_cores _ H) as Hc. rewrite Forall_fmap, Forall_forall in Hc. by apply Hc.
Qed.

(** Moving [last] of one node over a free part of it. *)
Lemma bump_last p c1 n c2 m size rs :
  pool_wf p -> chain p = c1 ++ n :: c2 -> last n <= m -> 0 <= size -> m + size <= end_ n ->
  carved p rs ->
  let p' := p <| chain := c1 ++ n <| last := m + size |> :: c2 |> in
  pool_wf p' /\ carved p' ((m, m + size) :: rs).
Proof.
  intros H Ec Hm Hs He Hc p'. set (n' := n <| last := m + size |>).
  assert (n ∈ chain p) as Hn by (rewrite Ec; apply elem_of_app; right; by left).
  pose proof (wf_node_core p n H Hn) as (Ha & Hl & Hle).
  assert (shape <$> chain p' = shape <$> chain p) as Es by (rewrite Ec; cbn; by rewrite !fmap_app).
  split.
  - pose proof H as [(h & t & Ect & Eh & Hp0 & Hb & Hsz & Ht) Hco Hap Hcur Hmax]. constructor.
    + rewrite Ec in Ect. destruct c1 as [|h' c1]; cbn in *; simplify_eq.
      * exists n', t. by split_and!.
      * exists h, (c1 ++ n' :: c2). split_and!; try done. rewrite Forall_app, Forall_cons in Ht |- *.
        by destruct Ht as (? & ? & ?).
    + rewrite Ec in Hco. cbn. rewrite fmap_app, fmap_cons, Forall_app, Forall_cons in Hco |- *.
      destruct Hco as (? & ? & ?). split_and!; try done. unfold core_ok, n', core; cbn. lia.
    + by rewrite Es.
    + cbn. rewrite Ec, length_app in Hcur. by rewrite length_app.
    + done.
  - apply (carved_cons p p' rs m (m + size) n'); try done.
    + cbn. apply elem_of_app. right. by left.
    + cbn. lia.
    + intros x Hx. rewrite Ec in Hx. apply elem_of_app in Hx as [Hx|[->|Hx]%elem_of_cons].
      * exists x. split_and!; [apply elem_of_app; by left|done|lia].
      * exists n'. split_and!; [apply elem_of_app; right; by left|done|cbn; lia].
      * exists x. split_and!; [apply elem_of_app; right; by right|done|lia].
    + intros r Hr. destruct (carved_in _ _ Hc r Hr) as (x & Hx & H1 & H2). unfold apart. cbn.
      apply list_elem_of_lookup_1 in Hx as [j Hj].
      destruct (decide (j = length c1)) as [->|Hne].
      * assert (x = n) as -> by (rewrite Ec, list_lookup_middle in Hj by done; congruence). left. lia.
      * assert (chain p !! length c1 = Some n) as Hi by (rewrite Ec; by apply list_lookup_middle).
        pose proof (wf_node_core p x H (list_elem_of_lookup_2 _ _ _ Hj)) as (Hxa & Hxl & Hxe).
        unfold sizeof_mp_node_s in *. destruct (wf_node_apart p j (length c1) x n H Hj Hi Hne); lia.
Qed.

Lemma core_elem (l l' : list mp_node_s) x : core <$> l' = core <$> l -> x ∈ l -> exists y, y ∈ l' /\ core y = core x.
Proof.
  intros E Hx. assert (core x ∈ core <$> l') as Hy by (rewrite E; by apply list_elem_of_fmap_2).
  apply list_elem_of_fmap in Hy as (y & Ey & Hy). by exists y.
Qed.

(** A new block at the end of the chain, for the request [size]. *)
Lemma grow_chain p p' l b psize size rs :
  pool_wf p -> core <$> l = core <$> chain p -> 0 <= size <= max p ->
  (forall h, head (chain p) = Some h -> psize = end_ h - node_addr h) ->
  0 < b -> b mod 32 = 0 -> b + psize < 4611686018427387904 -> blocks p !! b = None ->
  (forall a n, blocks p !! a = Some n -> b + psize <= a \/ a + n <= b) ->
  chain p' = l ++ [mkNode b (b + 32 + size) (b + psize) 0] -> pool_addr p' = pool_addr p ->
  max p' = max p -> blocks p' = <[b := psize]> (blocks p) -> (current p' < length (chain p'))%nat ->
  carved p rs ->
  pool_wf p' /\ carved p' ((b + 32, b + 32 + size) :: rs).
Proof.
  intros H El Hs Hps Hb Hbm Hbe Hbn Hbd Ec Epa Emax Ebl Hcur' Hc.
  pose proof H as [(h & t & Ect & Eh & Hp0 & Hbh & Hsz & Ht) Hco Hap Hcur Hmax].
  specialize (Hps h ltac:(by rewrite Ect)). unfold sizeof_mp_node_s, sizeof_mp_pool_s in *.
  set (new := mkNode b (b + 32 + size) (b + psize) 0) in *.
  assert (forall x, x ∈ chain p -> end_ x <= b \/ b + psize <= node_addr x) as Hnew.
  { intros x Hx. rewrite Ect in Hx. apply elem_of_cons in Hx as [->|Hx].
    - destruct (Hbd _ _ Hbh); lia.
    - rewrite Forall_forall in Ht. specialize (Ht x Hx). destruct (Hbd _ _ Ht); lia. }
  split; [constructor|].
  - destruct l as [|h' t']; [by rewrite Ect in El|]. rewrite Ect in El. cbn in El.
    injection El as E1 E2 E3 E4. exists h', (t' ++ [new]). rewrite Ec, Epa, Emax, Ebl. cbn.
    rewrite E1, E3. split_and!; try done; try lia.
    + rewrite lookup_insert_ne; [done|]. intros ->. congruence.
    + apply Forall_app. split.
      * apply Forall_forall. intros x Hx. destruct (core_elem t' t x) as (y & Hy & Ey); [done|done|].
        injection Ey as F1 F2 F3. rewrite Forall_forall in Ht. specialize (Ht y Hy). rewrite F1, F3 in Ht.
        rewrite lookup_insert_ne; [done|]. intros ->. congruence.
      * apply Forall_singleton. cbn. rewrite lookup_insert_eq. f_equal. lia.
  - rewrite Ec, fmap_app, El. apply Forall_app. split; [done|]. apply Forall_singleton.
    unfold core_ok, core, new, sizeof_mp_node_s. cbn. lia.
  - rewrite Ec, fmap_app. rewrite (shape_core l (chain p) El). cbn [fmap list_fmap].
    apply pairwise_apart_snoc; [done|]. intros s (x & -> & Hx)%list_elem_of_fmap. unfold apart. cbn.
    destruct (Hnew x Hx); auto.
  - done.
  - by rewrite Emax.
  - apply (carved_cons p p' rs _ _ new); [done|rewrite Ec; apply elem_of_app; right; by left|unfold sizeof_mp_node_s; cbn; lia|cbn; lia| |].
    + intros x Hx. destruct (core_elem (chain p) l x) as (y & Hy & Ey); [done|done|].
      injection Ey as F1 F2 F3. exists y. rewrite Ec. split_and!; [apply elem_of_app; by left|done|lia].
    + intros r Hr. destruct (carved_in _ _ Hc r Hr) as (x & Hx & H1 & H2).
      pose proof (wf_node_core p x H Hx) as (? & ? & ?). unfold apart, sizeof_mp_node_s in *. cbn.
      destruct (Hnew x Hx); lia.
Qed.

Definition block_size (p : mp_pool_s) : Z :=
  match chain p with h :: _ => end_ h - node_addr h | [] => 0 end.

(** The result of a request of [size] bytes: NULL, or memory that meets no other. *)
Definition serves (p' : mp_pool_s) (rs : list (Z * Z)) (al : bool) (r : option Z) (size : Z) : Prop :=
  match r with
  | None => carved p' rs
  | Some m => carved p' ((m, m + size) :: rs) /\ (al = true -> m mod 32 = 0)
  end.

Section Small.
Context `{Libc}.

Lemma mp_alloc_block_spec p size rs :
  pool_wf p -> 0 <= size <= max p -> libc_ok p MP_ALIGNMENT (block_size p) ->
  next_written p || stale_null 0 = true -> carved p rs ->
  returns (mp_alloc_block p size) (fun '(r, p') =>
    pool_wf p' /\ large p' = large p /\ max p' = max p /\ serves p' rs true r size /\
    (r = None -> get (requests p) MP_ALIGNMENT (block_size p) = None)).
Proof.
  intros H0 Hs Hlibc Hnext Hc. unfold mp_alloc_block.
  pose proof H0 as [(h & t & Ect & Eh & Hp0 & Hbh & Hsz & Ht) Hco Hap Hcur Hmax].
  assert (block_size p = end_ h - node_addr h) as Ebs by (unfold block_size; by rewrite Ect).
  assert (core_ok (core h)) as (Ha & Hl & He) by (apply (wf_node_core p h H0); rewrite Ect; by left).
  unfold sizeof_mp_node_s in *. rewrite Ect.
  assert (u64 (end_ h - node_addr h) = block_size p) as -> by (rewrite Ebs; apply Z.mod_small; lia).
  unfold libc_alloc. destruct (get (requests p) MP_ALIGNMENT (block_size p)) as [b|] eqn:Eg.
  2:{ apply returns_Ok. split_and!; try done; [|by destruct Hc].
      constructor; cbn; try done. by exists h, t. }
  destruct (Hlibc b Eg) as (Hb & Hbm & Hbe & Hbn & Hbd). unfold MP_ALIGNMENT in Hbm.
  change (last_next (p <| requests ::= S |> <| blocks ::= <[b:=block_size p]> |>)) with (last_next p).
  unfold last_next. rewrite Hnext. cbn [mbind res_bind].
  rewrite mp_align_ptr_id; [|lia|Z.to_euclidean_division_equations; lia].
  cbn [current chain upd set_requests set_blocks].
  set (cur := current p) in *. set (l := drop cur (chain p)).
  assert (l <> []) as Hne by (subst l; intros E; apply (f_equal length) in E; rewrite length_drop in E; cbn in E; lia).
  destruct (count_failed l cur cur) as [l' cur'] eqn:Ecf.
  destruct (count_failed_spec _ _ _ _ _ Ecf Hne) as [Hcore Hcur'].
  apply returns_Ok.
  destruct (grow_chain p (p <| requests ::= S |> <| blocks ::= <[b := block_size p]> |>
      <| chain := take cur (chain p) ++ l' ++ [mkNode b (b + 32 + size) (b + block_size p) 0] |>
      <| next_written := true |> <| current := cur' |>)
      (take cur (chain p) ++ l') b (block_size p) size rs) as [Hwf Hcv]; try done.
  - by rewrite fmap_app, Hcore, <- fmap_app; unfold l; rewrite take_drop.
  - intros h' Eh'. rewrite Ect in Eh'. cbn in Eh'. congruence.
  - cbn. by rewrite <- app_assoc.
  - cbn. apply (f_equal length) in Hcore. rewrite !length_fmap in Hcore. subst l.
    rewrite !length_app, length_take. rewrite length_drop in *. cbn. lia.
  - split_and!; try done. split; [exact Hcv|intros _]. Z.to_euclidean_division_equations. lia.
Qed.

(** C20: A request that fits the pool is served from memory that meets no earlier request's,
    inside a block of the pool, and mp_alloc aligns it; NULL is returned only when
    posix_memalign fails.  [no_overhang] is what mp_alloc needs and does not check (mp_nalloc
    needs no such thing), and [libc_ok] that posix_memalign gives an aligned block of its own.
    One fault remains: when no node has room and the pool has one node only, the search reads
    head->next, which mp_create_pool never writes, and so memory that malloc left as it was
    and that need not hold NULL. *)
Theorem alloc_small_carves al p size rs :
  pool_wf p -> (al = true -> no_overhang p) -> 0 <= size <= max p ->
  libc_ok p MP_ALIGNMENT (block_size p) -> carved p rs ->
  safely (fun e => e = Uninitialised /\ next_written p = false /\ stale_null 0 = false /\
                   find_room al (drop (current p) (chain p)) size = None)
    (alloc_small al p size) (fun '(r, p') =>
    pool_wf p' /\ large p' = large p /\ max p' = max p /\ serves p' rs al r size /\
    (r = None -> get (requests p) MP_ALIGNMENT (block_size p) = None)).
Proof.
  intros H0 Ho Hs Hlibc Hc. unfold alloc_small.
  destruct (find_room al (drop (current p) (chain p)) size) as [[m l]|] eqn:Ef.
  - apply find_room_spec in Ef as (l1 & n & l2 & Ed & -> & Hm & He & Hal); [| |lia|].
    2:{ rewrite fmap_drop. apply Forall_drop, (wf_cores _ H0). }
    2:{ intros E. specialize (Ho E). by apply Forall_drop. }
    cbn [safely].
    destruct (bump_last p (take (current p) (chain p) ++ l1) n l2 m size rs) as [Hwf Hcv]; try done; [|lia|].
    { by rewrite <- app_assoc, <- Ed, take_drop. }
    rewrite <- app_assoc in Hwf, Hcv. split_and!; try done.
  - destruct (next_written p || stale_null 0) eqn:Hnext; unfold last_next at 1; rewrite Hnext.
    2:{ apply orb_false_iff in Hnext as [? ?]. by split_and!. }
    cbn [mbind res_bind].
    destruct (mp_alloc_block_spec p size rs) as ([r p'] & -> & ? & ? & ? & Hsv & ?); try done.
    split_and!; try done.
    destruct r; [|done]. destruct Hsv as [? Hmod]. split; [done|auto].
Qed.
End Small.

(** ** Creation *)

Section Create.
Context `{Libc}.

Theorem mp_create_pool_wf size :
  0 <= size < 2305843009213693952 ->
  libc_ok (mkPool 0 0 0 [] [] false ∅ 0) MP_ALIGNMENT (size + 56) ->
  match mp_create_pool size with
  | None => get 0 MP_ALIGNMENT (size + 56) = None
  | Some p => pool_wf p /\ carved p [] /\ large p = [] /\ max p = Z.min size 4095 /\
      (** the first request is served from an aligned place with [size - 8] bytes *)
      (8 <= size -> no_overhang p)
  end.
Proof.
  intros Hs Hl. unfold mp_create_pool, libc_alloc, sizeof_mp_pool_s, sizeof_mp_node_s.
  replace (size + 24 + 32) with (size + 56) by lia.
  assert (u64 (size + 56) = size + 56) as -> by (apply Z.mod_small; lia). cbn [requests].
  destruct (get 0 MP_ALIGNMENT (size + 56)) as [a|] eqn:Eg; [|done].
  destruct (Hl a Eg) as (Ha & Hm & He & _ & _). cbn [blocks requests upd set_requests set_blocks].
  assert ((if size <? MP_MAX_ALLOC_FROM_POOL then size else MP_MAX_ALLOC_FROM_POOL) = Z.min size 4095) as ->.
  { unfold MP_MAX_ALLOC_FROM_POOL, MP_PAGE_SIZE. destruct (Z.ltb_spec size (4096 - 1)); lia. }
  split_and!; try done.
  - constructor; cbn.
    + eexists _, []. split; [done|]. cbn. unfold sizeof_mp_pool_s, sizeof_mp_node_s.
      split_and!; try done; [|lia]. rewrite lookup_insert_eq. f_equal. lia.
    + constructor; [|done]. unfold core_ok, sizeof_mp_node_s. cbn. lia.
    + intros [|i] [|j] r s; cbn; intros; simplify_eq.
    + lia.
    + lia.
  - constructor; [intros r Hr; by apply not_elem_of_nil in Hr|intros i j r s Hi; by rewrite lookup_nil in Hi].
  - intros Hs8. constructor; [|done]. cbn. rewrite mp_align_ptr_eq by lia. unfold MP_ALIGNMENT in Hm.
    Z.to_euclidean_division_equations. lia.
Qed.
End Create.

(** ** Termination *)

Section Termination.
Context `{Libc}.

(** When a header fits the pool, one nested call is all there is. *)
Theorem mp_alloc_depth n p size :
  sizeof_mp_large_s <= max p -> mp_alloc (S (S n)) p size = mp_alloc 2 p size.
Proof.
  intros Hm. cbn [mp_alloc]. destruct (size <=? max p); [done|].
  unfold alloc_large, libc_alloc. destruct (get _ _ _) as [a|]; [|done].
  destruct (reuse_slot _ _ _); [done|]. unfold push_large. cbn [max upd set_requests set_blocks].
  by rewrite (proj2 (Z.leb_le _ _) Hm).
Qed.

(** In a pool created for fewer than 16 bytes a header does not fit: the first larger
    request recurses until malloc fails. *)
Theorem mp_alloc_tiny_pool_diverges fuel p size :
  max p < sizeof_mp_large_s -> large p = [] -> max p < size ->
  (forall n align size, get n align size <> None) ->
  mp_alloc fuel p size = Err Diverges.
Proof.
  intros Hm Hl Hs Hget. revert p size Hm Hl Hs. induction fuel as [|fuel IH]; intros p size Hm Hl Hs; [done|].
  cbn [mp_alloc]. destruct (Z.leb_spec size (max p)); [lia|].
  unfold alloc_large, libc_alloc. destruct (get _ _ _) as [a|] eqn:E; [|by apply Hget in E].
  cbn [large upd set_requests set_blocks]. rewrite Hl. cbn [reuse_slot]. unfold push_large.
  by rewrite IH by done.
Qed.
End Termination.

(** ** Ownership: nothing is leaked and nothing is freed twice *)

(** The blocks the pool must give back. *)
Definition owned (p : mp_pool_s) : list Z :=
  pool_addr p :: (node_addr <$> tail (chain p)) ++ omap alloc (large p).

Record heap_wf (p : mp_pool_s) : Prop := {
  heap_nodup : NoDup (owned p);
  heap_blocks : forall a, is_Some (blocks p !! a) <-> a ∈ owned p;
  heap_chain : chain p <> [] }.

(** The pool after the blocks of [l] were freed. *)
Definition freed (p p' : mp_pool_s) (l : list Z) : Prop :=
  p' = p <| blocks := blocks p' |> /\
  forall a, blocks p' !! a = if decide (a ∈ l) then None else blocks p !! a.

Lemma freed_nil p : freed p p [].
Proof. split; [by destruct p|]. intros a. by rewrite decide_False by apply not_elem_of_nil. Qed.

Section Ownership.
Context `{Libc}.

Lemma libc_free_spec p a l p1 :
  freed p p1 l -> a ∉ l -> is_Some (blocks p !! a) ->
  exists p2, libc_free p1 a = Ok p2 /\ freed p p2 (l ++ [a]).
Proof.
  intros [E Hb] Hn [n Hs]. unfold libc_free. rewrite Hb, decide_False, Hs by done.
  eexists. split; [done|]. split; [rewrite E; reflexivity|]. intros b. cbn.
  destruct (decide (b = a)) as [->|Hne].
  - rewrite lookup_delete_eq, decide_True; [done|]. apply elem_of_app. right. by left.
  - rewrite lookup_delete_ne, Hb by done. destruct (decide (b ∈ l)).
    + rewrite decide_True; [done|]. apply elem_of_app. by left.
    + rewrite decide_False; [done|]. rewrite elem_of_app, elem_of_cons. pose proof (not_elem_of_nil b). tauto.
Qed.

Lemma free_large_spec l p p1 d :
  freed p p1 d -> NoDup (d ++ omap alloc l) -> (forall a, a ∈ omap alloc l -> is_Some (blocks p !! a)) ->
  exists p2, free_large l p1 = Ok p2 /\ freed p p2 (d ++ omap alloc l).
Proof.
  revert p1 d. induction l as [|h l IH]; intros p1 d Hf Hnd Hs; cbn [free_large].
  { exists p1. by rewrite app_nil_r. }
  change (omap alloc (h :: l)) with
    (match alloc h with Some a => a :: omap alloc l | None => omap alloc l end) in *.
  destruct (alloc h) as [a|] eqn:Ea; [|by apply IH].
  destruct (libc_free_spec p a d p1 Hf) as (p2 & -> & Hf2).
  - apply NoDup_app in Hnd as (_ & Hnd & _). intros Hin. by apply (Hnd a Hin); left.
  - apply Hs. by left.
  - cbn [mbind res_bind]. rewrite cons_middle, app_assoc in Hnd |- *.
    apply IH; [done|done|]. intros b Hb. apply Hs. by right.
Qed.

Lemma free_nodes_spec l p p1 d :
  freed p p1 d -> NoDup (d ++ (node_addr <$> l)) ->
  (forall a, a ∈ node_addr <$> l -> is_Some (blocks p !! a)) ->
  exists p2, free_nodes l p1 = Ok p2 /\ freed p p2 (d ++ (node_addr <$> l)).
Proof.
  revert p1 d. induction l as [|h l IH]; intros p1 d Hf Hnd Hs; cbn [free_nodes].
  { exists p1. by rewrite app_nil_r. }
  rewrite fmap_cons in *.
  destruct (libc_free_spec p (node_addr h) d p1 Hf) as (p2 & -> & Hf2).
  - apply NoDup_app in Hnd as (_ & Hnd & _). intros Hin. by apply (Hnd _ Hin); left.
  - apply Hs. by left.
  - cbn [mbind res_bind]. rewrite cons_middle, app_assoc in Hnd |- *.
    apply IH; [done|done|]. intros b Hb. apply Hs. by right.
Qed.

(** C35: mp_destory_pool gives back every block of the pool, each of them once, unless it
    follows head->next of a pool that never grew: mp_create_pool does not write it, and in
    memory that malloc left as it was it need not read as NULL. *)
Theorem mp_destory_pool_frees p :
  heap_wf p ->
  safely (fun e => e = Uninitialised /\ next_written p = false /\ stale_null 0 = false)
    (mp_destory_pool p) (fun p' => blocks p' = ∅).
Proof.
  intros [Hnd Hb _]. unfold owned in *.
  assert (forall a, a ∈ pool_addr p :: (node_addr <$> tail (chain p)) ++ omap alloc (large p) ->
    is_Some (blocks p !! a)) as Hs by (intros; by apply Hb).
  apply NoDup_cons in Hnd as [Hpa Hnd].
  assert (NoDup (omap alloc (large p) ++ (node_addr <$> tail (chain p)))) as Hnd2
    by by rewrite (Permutation_app_comm (omap _ _)).
  unfold mp_destory_pool.
  destruct (free_large_spec (large p) p p [] (freed_nil p)) as (p1 & -> & Hf1).
  { by apply NoDup_app in Hnd2 as [? _]. }
  { intros a Ha. apply Hs. right. apply elem_of_app. by right. }
  cbn [mbind res_bind app] in *. pose proof Hf1 as [E1 _].
  assert (last_next p1 = last_next p) as -> by (unfold last_next; by rewrite E1).
  destruct (next_written p || stale_null 0) eqn:Hnext; unfold last_next; rewrite Hnext.
  2:{ by apply orb_false_iff in Hnext as [? ?]. }
  cbn [mbind res_bind]. assert (chain p1 = chain p) as -> by by rewrite E1.
  destruct (free_nodes_spec (tail (chain p)) p p1 _ Hf1) as (p2 & -> & Hf2); [done| |].
  { intros a Ha. apply Hs. right. apply elem_of_app. by left. }
  cbn [mbind res_bind]. pose proof Hf2 as [E2 _]. assert (pool_addr p2 = pool_addr p) as -> by by rewrite E2.
  destruct (libc_free_spec p (pool_addr p) _ p2 Hf2) as (p3 & -> & Hf3).
  { rewrite elem_of_app in *. tauto. }
  { apply Hs. by left. }
  cbn [safely]. apply map_empty. intros a. destruct Hf3 as [_ ->].
  destruct (decide _) as [|Hn]; [done|]. apply eq_None_not_Some. rewrite Hb. intros Hin. apply Hn.
  rewrite !elem_of_app, elem_of_cons in *. rewrite elem_of_app in Hin. naive_solver.
Qed.

(** mp_reset_pool gives the large blocks back and empties every node. *)
Theorem mp_reset_pool_spec p :
  heap_wf p -> pool_wf p -> next_written p || stale_null 0 = true ->
  returns (mp_reset_pool p) (fun p' => heap_wf p' /\ pool_wf p' /\ carved p' [] /\ large p' = [] /\
    (node_addr <$> chain p') = (node_addr <$> chain p)).
Proof.
  intros [Hnd Hb Hch] Hwf Hnext. unfold owned in *. unfold mp_reset_pool.
  apply NoDup_cons in Hnd as [Hpa Hnd]. pose proof Hnd as (Hnd1 & Hdis & Hnd2)%NoDup_app.
  destruct (free_large_spec (large p) p p [] (freed_nil p)) as (p1 & -> & E1 & Hf1); [done| |].
  { intros a Ha. apply Hb. right. apply elem_of_app. by right. }
  cbn [mbind res_bind app] in *.
  assert (last_next (p1 <| large := [] |>) = Ok tt) as ->.
  { unfold last_next. cbn. rewrite E1. cbn. by rewrite Hnext. }
  cbn [mbind res_bind]. apply returns_Ok.
  set (f := fun h : mp_node_s => h <| last := node_addr h + sizeof_mp_node_s |>).
  set (p2 := p1 <| large := [] |> <| chain ::= fmap f |>).
  assert (chain p2 = f <$> chain p /\ pool_addr p2 = pool_addr p /\ large p2 = [] /\ max p2 = max p /\
    current p2 = current p /\ blocks p2 = blocks p1) as (Ec & Ea & El & Em & Ecu & Ebl)
    by (subst p2; rewrite E1; done). clearbody p2.
  assert (forall l, node_addr <$> (f <$> l) = node_addr <$> l) as Efn
    by (intros l; rewrite <- list_fmap_compose; by apply list_fmap_ext).
  assert (forall a, a ∉ omap alloc (large p) -> blocks p2 !! a = blocks p !! a) as Hkeep.
  { intros a Ha. rewrite Ebl, Hf1. by rewrite decide_False. }
  pose proof Hwf as [(h & t & Ect & Eh & Hp0 & Hbh & Hsz & Ht) Hco Hap Hcur Hmax].
  split_and!; [constructor|constructor| |done|by rewrite Ec].
  - unfold owned. rewrite Ea, Ec, El. cbn. rewrite app_nil_r. constructor.
    + rewrite Ect. cbn. rewrite Efn. intros Hin. apply Hpa. apply elem_of_app. left. by rewrite Ect.
    + rewrite Ect. cbn. rewrite Efn. by rewrite Ect in Hnd1.
  - intros a. unfold owned. rewrite Ea, Ec, El. cbn. rewrite app_nil_r, Ect. cbn. rewrite Efn, Ebl, Hf1.
    destruct (decide (a ∈ omap alloc (large p))) as [Hin|Hin].
    + split; [intros [? ?]; done|]. intros [->|Ha]%elem_of_cons; exfalso.
      * apply Hpa. apply elem_of_app. by right.
      * apply (Hdis a); [by rewrite Ect|done].
    + rewrite Hb, elem_of_cons, elem_of_app, elem_of_cons, Ect. cbn. tauto.
  - rewrite Ec. by destruct (chain p).
  - exists (f h), (f <$> t). rewrite Ec, Ect, Ea, Em. cbn. split_and!; try done.
    + rewrite Hkeep; [done|]. intros Hin. apply Hpa. apply elem_of_app. by right.
    + apply Forall_fmap, Forall_forall. intros x Hx. rewrite Forall_forall in Ht.
      cbn. rewrite Hkeep; [by apply Ht|]. apply Hdis. rewrite Ect. cbn. by apply list_elem_of_fmap_2.
  - rewrite Ec, <- list_fmap_compose. rewrite Forall_fmap in Hco |- *.
    eapply Forall_impl; [exact Hco|]. intros x (? & ? & ?). unfold compose, core_ok, core, f. cbn.
    unfold sizeof_mp_node_s in *. lia.
  - rewrite Ec, <- list_fmap_compose. exact Hap.
  - rewrite Ecu, Ec, length_fmap. done.
  - by rewrite Em.
  - constructor; [intros r Hr; by apply not_elem_of_nil in Hr|intros i j r s Hi; by rewrite lookup_nil in Hi].
Qed.
End Ownership.

(** ** Large requests *)

Lemma free_slot_spec l a :
  match free_slot l (Some a) with
  | None => a ∉ omap alloc l
  | Some (b, l') => b = Some a /\ exists l1 h l2, l = l1 ++ h :: l2 /\ alloc h = Some a /\
      l' = l1 ++ h <| alloc := None |> :: l2
  end.
Proof.
  induction l as [|h l IH]; cbn [free_slot]; [apply not_elem_of_nil|].
  destruct (decide (Some a = alloc h)) as [E|E].
  - split; [done|]. by exists [], h, l.
  - destruct (free_slot l (Some a)) as [[b l']|].
    + destruct IH as (-> & l1 & x & l2 & -> & Hx & ->). split; [done|]. by exists (h :: l1), x, l2.
    + change (omap alloc (h :: l)) with
        (match alloc h with Some a => a :: omap alloc l | None => omap alloc l end).
      destruct (alloc h) as [c|]; [|done]. intros [->|?]%elem_of_cons; [done|by apply IH].
Qed.

Lemma omap_alloc_free l1 h l2 a :
  alloc h = Some a ->
  omap alloc (l1 ++ h :: l2) = omap alloc l1 ++ a :: omap alloc l2 /\
  omap alloc (l1 ++ h <| alloc := None |> :: l2) = omap alloc l1 ++ omap alloc l2.
Proof.
  intros E. rewrite !omap_app. split; f_equal; cbn; by rewrite ?E.
Qed.

Section Large.
Context `{Libc}.

(** mp_free gives a large block back to the libc, keeps its header for reuse, and ignores
    any other pointer. *)
Theorem mp_free_spec p a :
  heap_wf p ->
  returns (mp_free p (Some a)) (fun p' =>
    heap_wf p' /\ chain p' = chain p /\
    (if decide (a ∈ omap alloc (large p))
     then blocks p' = delete a (blocks p) /\ (exists h, h ∈ large p' /\ alloc h = None) /\
          length (large p') = length (large p)
     else p' = p)).
Proof.
  intros [Hnd Hb Hch]. unfold mp_free. pose proof (free_slot_spec (large p) a) as Hf.
  destruct (free_slot (large p) (Some a)) as [[b l']|].
  2:{ apply returns_Ok. by rewrite decide_False. }
  destruct Hf as (-> & l1 & h & l2 & El & Eh & ->).
  destruct (omap_alloc_free l1 h l2 a Eh) as [E1 E2].
  assert (a ∈ omap alloc (large p)) as Hin
    by (rewrite El, E1; apply elem_of_app; right; by left).
  assert (is_Some (blocks p !! a)) as [n Hn].
  { apply Hb. unfold owned. right. apply elem_of_app. by right. }
  unfold libc_free. rewrite Hn. cbn [mbind res_bind]. apply returns_Ok.
  rewrite decide_True by done. unfold owned in *. rewrite El, E1 in Hnd, Hb.
  assert (Permutation (pool_addr p :: (node_addr <$> tail (chain p)) ++ omap alloc l1 ++ a :: omap alloc l2)
    (a :: pool_addr p :: (node_addr <$> tail (chain p)) ++ omap alloc l1 ++ omap alloc l2)) as HP.
  { rewrite <- (Permutation_middle (omap alloc l1)), <- (Permutation_middle (node_addr <$> _)).
    apply Permutation_swap. }
  rewrite HP in Hnd. apply NoDup_cons in Hnd as [Hna Hnd].
  split_and!; [constructor|done|done| |].
  - unfold owned. cbn [pool_addr chain large upd set_large set_blocks]. by rewrite E2.
  - intros c. unfold owned. cbn [pool_addr chain large blocks upd set_large set_blocks]. rewrite E2.
    specialize (Hb c). rewrite HP, elem_of_cons in Hb.
    destruct (decide (c = a)) as [->|Hne].
    + rewrite lookup_delete_eq. split; [intros [? ?]; done|done].
    + rewrite lookup_delete_ne by done. rewrite Hb. tauto.
  - done.
  - exists (h <| alloc := None |>). split; [|done]. cbn. apply elem_of_app. right. by left.
  - cbn. rewrite El, !length_app. done.
Qed.

(** A header whose block was freed is used again, if it is one of the first five. *)
Lemma reuse_slot_spec n l a l' :
  reuse_slot n l a = Some l' ->
  exists l1 h l2, l = l1 ++ h :: l2 /\ alloc h = None /\ l' = l1 ++ h <| alloc := Some a |> :: l2.
Proof.
  revert n l'. induction l as [|h l IH]; intros n l'; cbn [reuse_slot]; [done|].
  destruct (alloc h) as [b|] eqn:E.
  - destruct (3 <? n)%nat; [done|]. destruct (reuse_slot (S n) l a) as [m|] eqn:Er; [|done].
    cbn. intros [= <-]. destruct (IH _ _ Er) as (l1 & x & l2 & -> & ? & ->). by exists (h :: l1), x, l2.
  - intros [= <-]. by exists [], h, l.
Qed.

(** After mp_free the next large request takes no header from the pool. *)
Theorem mp_free_then_alloc n p a size b :
  heap_wf p -> a ∈ omap alloc (take 4 (large p)) -> max p < size ->
  get (requests p) 16 size = Some b ->
  returns (mp_free p (Some a)) (fun p1 =>
    returns (mp_alloc (S n) p1 size) (fun '(r, p2) =>
      r = Some b /\ chain p2 = chain p /\ length (large p2) = length (large p))).
Proof.
  intros Hh Ha Hs Hg.
  assert (a ∈ omap alloc (large p)) as Ha'.
  { rewrite <- (take_drop 4 (large p)), omap_app. apply elem_of_app. by left. }
  unfold mp_free. pose proof (free_slot_spec (large p) a) as Hf.
  assert (forall l n, a ∈ omap alloc (take n l) -> forall c l', free_slot l (Some a) = Some (c, l') ->
    (exists h, h ∈ take n l' /\ alloc h = None)) as Hslot.
  { intros l. induction l as [|h l IH]; intros k Hk c l'; [done|]. destruct k as [|k]; [by apply not_elem_of_nil in Hk|].
    cbn [free_slot take] in *. destruct (decide (Some a = alloc h)).
    - intros [= <- <-]. eexists. split; [by left|done].
    - destruct (free_slot l (Some a)) as [[c' m]|] eqn:E; [|done]. intros [= <- <-].
      destruct (IH k) with (c := c') (l' := m) as (x & Hx & Ex); try done.
      + change (omap alloc (h :: take k l)) with
          (match alloc h with Some a => a :: omap alloc (take k l) | None => omap alloc (take k l) end) in Hk.
        destruct (alloc h); [|done]. apply elem_of_cons in Hk as [->|?]; [done|done].
      + exists x. split; [by right|done]. }
  destruct (free_slot (large p) (Some a)) as [[c l']|] eqn:Ef; [|done].
  destruct Hf as (-> & l1 & h & l2 & El & Eh & El').
  destruct Hh as [Hnd Hb Hch].
  assert (is_Some (blocks p !! a)) as [k Hk].
  { apply Hb. unfold owned. right. apply elem_of_app. by right. }
  unfold libc_free. rewrite Hk. cbn [mbind res_bind]. apply returns_Ok.
  cbn [mp_alloc max upd set_large set_blocks]. destruct (Z.leb_spec size (max p)); [lia|].
  unfold alloc_large, libc_alloc. cbn [requests upd set_large set_blocks]. rewrite Hg.
  cbn [large upd set_large set_blocks set_requests].
  destruct (Hslot (large p) 4%nat Ha _ _ Ef) as (x & Hx & Ex).
  assert (forall m j, (j + m <= 4)%nat -> forall l, (exists x, x ∈ take m l /\ alloc x = None) ->
    exists l2, reuse_slot j l b = Some l2 /\ length l2 = length l) as Hre.
  { intros m. induction m as [|m IH]; intros j Hj l (y & Hy & Ey); [by apply not_elem_of_nil in Hy|].
    destruct l as [|z l]; [by apply not_elem_of_nil in Hy|]. cbn [reuse_slot take] in *.
    destruct (alloc z) eqn:Ez; [|by eexists].
    apply elem_of_cons in Hy as [->|Hy]; [congruence|].
    destruct (Nat.ltb_spec 3 j); [lia|]. destruct (IH (S j) ltac:(lia) l) as (l3 & -> & El3); [eauto|].
    eexists. split; [done|]. cbn. by rewrite El3. }
  destruct (Hre 4%nat O ltac:(lia) l') as (l3 & -> & El3); [eauto|]. apply returns_Ok.
  split_and!; try done. cbn. rewrite El3, El, El', !length_app. done.
Qed.
End Large.

(** ** The alignment of a free part is not checked *)

(** A libc whose blocks lie one mebibyte apart and read as zero. *)
#[export] Instance demo_libc : Libc := {
  get n align size := Some (1048576 * (Z.of_nat n + 1)); stale_null n := true }.

(** A pool of 64 bytes, one request of 56 bytes and one of 1 byte: the second is served past
    the end of the pool's only block, because [p->end - m] is negative and is compared as a
    size_t. *)
Theorem mp_alloc_overrun :
  exists p p1 p2 m, mp_create_pool 64 = Some p /\ mp_alloc 2 p 56 = Ok (Some 1048640, p1) /\
    mp_alloc 2 p1 1 = Ok (Some m, p2) /\
    forall a n, blocks p2 !! a = Some n -> a + n <= m.
Proof.
  eexists _, _, _, _. split; [reflexivity|]. split; [vm_compute; reflexivity|].
  split; [vm_compute; reflexivity|]. intros a n H. cbn [blocks] in H.
  match type of H with ?b !! _ = _ => assert (b = {[1048576 := 120]}) as E by (vm_compute; reflexivity) end.
  rewrite E in H. apply lookup_singleton_Some in H as [<- <-]. lia.
Qed.

(** ** A pool to evaluate on *)

(** A pool of 4096 bytes that has served one large request. *)
Definition demo_created : mp_pool_s :=
  default (mkPool 0 0 0 [] [] false ∅ 0) (mp_create_pool 4096).
Definition demo_pool : mp_pool_s :=
  match mp_alloc 2 demo_created 5000 with Ok (_, p) => p | Err _ => demo_created end.

Lemma demo_pool_heap : heap_wf demo_pool.
Proof.
  constructor; [by_decide| |done]. intros a. rewrite <- elem_of_dom.
  assert (dom (blocks demo_pool) = list_to_set (owned demo_pool)) as -> by (vm_compute; reflexivity).
  apply elem_of_list_to_set.
Qed.

Lemma demo_pool_wf : pool_wf demo_pool.
Proof.
  constructor.
  - eexists _, []. split; [vm_compute; reflexivity|].
    split_and!; try (vm_compute; first [reflexivity|discriminate]). constructor.
  - constructor; [by_decide|constructor].
  - intros [|i] [|j] r s; cbn; try done; intros ??; by destruct i, j.
  - by_decide.
  - by_decide.
Qed.

Lemma alloc_small_carves_witness :
  carved demo_pool [] /\
  safely (fun e => e = Uninitialised /\ next_written demo_pool = false /\ stale_null 0 = false /\
                   find_room true (drop (current demo_pool) (chain demo_pool)) 100 = None)
    (alloc_small true demo_pool 100) (fun '(r, p') =>
    pool_wf p' /\ large p' = large demo_pool /\ max p' = max demo_pool /\ serves p' [] true r 100 /\
    (r = None -> get (requests demo_pool) MP_ALIGNMENT (block_size demo_pool) = None)).
Proof.
  assert (carved demo_pool []) as Hc by (constructor; [intros r Hr; by apply not_elem_of_nil in Hr|done]).
  split; [done|].
  apply (alloc_small_carves true demo_pool 100 []); try done; [apply demo_pool_wf| |].
  - intros _. constructor; [by_decide|constructor].
  - intros a [= <-]. split_and!; by_decide.
Defined.

Lemma mp_create_pool_wf_witness :
  libc_ok (mkPool 0 0 0 [] [] false ∅ 0) MP_ALIGNMENT (4096 + 56) /\
  match mp_create_pool 4096 with
  | None => get 0%nat MP_ALIGNMENT (4096 + 56) = None
  | Some p => pool_wf p /\ carved p [] /\ large p = [] /\ max p = Z.min 4096 4095 /\ (8 <= 4096 -> no_overhang p)
  end.
Proof.
  assert (libc_ok (mkPool 0 0 0 [] [] false ∅ 0) MP_ALIGNMENT (4096 + 56)) as Hl.
  { intros a [= <-]. split_and!; by_decide. }
  split; [exact Hl|]. apply (mp_create_pool_wf 4096); [by_decide|exact Hl].
Defined.

Lemma mp_alloc_depth_witness :
  sizeof_mp_large_s <= max demo_pool /\ mp_alloc 7 demo_pool 5000 = mp_alloc 2 demo_pool 5000.
Proof.
  assert (sizeof_mp_large_s <= max demo_pool) as H by by_decide.
  split; [exact H|]. apply (mp_alloc_depth 5 demo_pool 5000 H).
Defined.

Lemma mp_destory_pool_frees_witness :
  size (blocks demo_pool) = 2%nat /\
  safely (fun e => e = Uninitialised /\ next_written demo_pool = false /\ stale_null 0 = false)
    (mp_destory_pool demo_pool) (fun p' => blocks p' = ∅).
Proof.
  split; [vm_compute; reflexivity|]. apply (mp_destory_pool_frees demo_pool demo_pool_heap).
Defined.

Lemma mp_reset_pool_spec_witness :
  large demo_pool <> [] /\
  returns (mp_reset_pool demo_pool) (fun p' => heap_wf p' /\ pool_wf p' /\ carved p' [] /\ large p' = [] /\
    (node_addr <$> chain p') = (node_addr <$> chain demo_pool)).
Proof.
  split; [vm_compute; discriminate|].
  apply (mp_reset_pool_spec demo_pool demo_pool_heap demo_pool_wf). reflexivity.
Defined.

Lemma mp_free_then_alloc_witness :
  2097152 ∈ omap alloc (take 4 (large demo_pool)) /\
  returns (mp_free demo_pool (Some 2097152)) (fun p1 =>
    returns (mp_alloc 1 p1 6000) (fun '(r, p2) =>
      r = Some 3145728 /\ chain p2 = chain demo_pool /\ length (large p2) = length (large demo_pool))).
Proof.
  assert (2097152 ∈ omap alloc (take 4 (large demo_pool))) as Ha by (vm_compute; by left).
  split; [exact Ha|].
  apply (mp_free_then_alloc 0 demo_pool 2097152 6000 3145728 demo_pool_heap Ha); [by_decide|reflexivity].
Defined.

Lemma mp_alloc_tiny_pool_diverges_witness :
  let p := default demo_created (mp_create_pool 8) in
  max p = 8 /\ mp_alloc 100 p 9 = Err Diverges.
Proof.
  intros p. split; [vm_compute; reflexivity|].
  apply (mp_alloc_tiny_pool_diverges 100 p 9); [by_decide|vm_compute; reflexivity|by_decide|done].
Defined.
