(* ===== verification/MemPool.v ===== *)
(** * The pool allocator of mempool/mem_pool.c

    An unfinished ancestor of mmpool.c.  A pool is one block made by mp_create,
    with its first node behind the header; mp_alloc_block chains further nodes.
    Addresses are integers; what posix_memalign answers is the libc's.  The
    memory the functions read and write are the nodes, by address, and the blocks
    that are allocated, by address and size. *)

From S2P Require Import Prelude.

Definition MP_ALIGNMENT : Z := 32.
Definition MP_PAGE_SIZE : Z := 4096.

(** sizeof on an LP64 host *)
Definition sizeof_mp_pool_t : Z := 32.
Definition sizeof_mp_node_t : Z := 32.
Definition sizeof_mp_large_t : Z := 16.

(** [failed_times] is [None] until it is assigned. *)
Record mp_node_t := mkNode { last : Z; end_ : Z; next : Z; failed_times : option Z }.

(** The pool, the nodes, the large headers (whose [next] and [alloc] are 0 for
    NULL), the blocks and how often the libc was asked.  [max] is never
    assigned. *)
Record mp_pool_t := mkPool {
  current : Z;
  large : Z;
  head : Z;
  nodes : gmap Z mp_node_t;
  larges : gmap Z (Z * Z);
  blocks : gmap Z Z;
  requests : nat }.

#[export] Instance eta_node : Eta mp_node_t := fun n => mkNode (last n) (end_ n) (next n) (failed_times n).
#[export] Instance set_last : Settable last. Proof. derive_setter. Defined.
#[export] Instance set_next : Settable next. Proof. derive_setter. Defined.
#[export] Instance set_failed_times : Settable failed_times. Proof. derive_setter. Defined.
#[export] Instance eta_pool : Eta mp_pool_t := fun p =>
  mkPool (current p) (large p) (head p) (nodes p) (larges p) (blocks p) (requests p).
#[export] Instance set_nodes : Settable nodes. Proof. derive_setter. Defined.
#[export] Instance set_larges : Settable larges. Proof. derive_setter. Defined.
#[export] Instance set_blocks : Settable blocks. Proof. derive_setter. Defined.
#[export] Instance set_requests : Settable requests. Proof. derive_setter. Defined.

Section Operations.
(** The address of the [n]-th block the libc is asked for, if it has one. *)
Variable memalign : nat -> Z -> Z -> option Z.

Definition posix_memalign (mp : mp_pool_t) (size : Z) : option Z * mp_pool_t :=
  match memalign (requests mp) MP_ALIGNMENT size with
  | None => (None, mp <| requests ::= S |>)
  | Some a => (Some a, mp <| requests ::= S |> <| blocks ::= <[a := size]> |>)
  end.

Definition get_node (mp : mp_pool_t) (p : Z) : res mp_node_t :=
  match nodes mp !! p with Some n => Ok n | None => Err OutOfBounds end.

(** The loop of mp_alloc_block: every node but the last counts a failure, and the
    local [current] moves on; the last node is where it stops. *)
Fixpoint find_last (fuel : nat) (mp : mp_pool_t) (p : Z) : res (mp_pool_t * Z) :=
  match fuel with
  | O => Err Diverges
  | S fuel =>
      n ← get_node mp p;
      if next n =? 0 then Ok (mp, p)
      else
        match failed_times n with
        | None => Err Uninitialised
        | Some k => find_last fuel (mp <| nodes ::= <[p := n <| failed_times := Some (k + 1) |>]> |>) (next n)
        end
  end.

(** The [size] asked for is not used; [mp->current] stays. *)
Definition mp_alloc_block (fuel : nat) (mp : mp_pool_t) (size : Z) : res (option Z * mp_pool_t) :=
  let '(r, mp) := posix_memalign mp MP_PAGE_SIZE in
  match r with
  | None => Ok (None, mp)
  | Some block =>
      let mp := mp <| nodes ::= <[block := mkNode (block + sizeof_mp_node_t) (block + MP_PAGE_SIZE) 0 None]> |> in
      '(mp, p) ← find_last fuel mp (current mp);
      n ← get_node mp p;
      Ok (Some block, mp <| nodes ::= <[p := n <| next := block |>]> |>)
  end.

(** The header and the first node must fit the block that was asked for. *)
Definition mp_create (size : Z) : res (option mp_pool_t) :=
  match memalign 0 MP_ALIGNMENT (sizeof_mp_pool_t + size) with
  | None => Ok None
  | Some mp =>
      if sizeof_mp_pool_t + size <? sizeof_mp_pool_t + sizeof_mp_node_t then Err OutOfBounds
      else
        let head := mp + sizeof_mp_pool_t in
        Ok (Some (mkPool head 0 head
              {[head := mkNode (mp + sizeof_mp_pool_t + sizeof_mp_node_t) (mp + size) 0 None]}
              ∅ {[mp := sizeof_mp_pool_t + size]} 1))
  end.

(** The loop of mp_alloc_large over the headers: the first free one, if any. *)
Fixpoint free_header (fuel : nat) (mp : mp_pool_t) (l : Z) : res (option Z) :=
  match fuel with
  | O => Err Diverges
  | S fuel =>
      if l =? 0 then Ok None
      else
        match larges mp !! l with
        | None => Err OutOfBounds
        | Some (nx, a) => if a =? 0 then Ok (Some l) else free_header fuel mp nx
        end
  end.

(** The small part of mp_alloc.  The difference of the pointers is compared as a
    size_t; without room the function has no return statement, [None]. *)
Definition alloc_small (mp : mp_pool_t) (size : Z) : res (option Z * mp_pool_t) :=
  node ← get_node mp (current mp);
  if size <=? u64 (end_ node - last node)
  then Ok (Some (last node), mp <| nodes ::= <[current mp := node <| last ::= Z.add size |>]> |>)
  else Ok (None, mp).

(** A header is a small request; the value of a call that returned none is used. *)
Definition mp_alloc_large (fuel : nat) (mp : mp_pool_t) (size : Z) : res (option Z * mp_pool_t) :=
  let '(r, mp) := posix_memalign mp size in
  match r with
  | None => Ok (None, mp)
  | Some m =>
      slot ← free_header fuel mp (large mp);
      match slot with
      | Some l =>
          Ok (Some m, mp <| larges ::= alter (fun '(nx, _) => (nx, m)) l |>)
      | None =>
          '(l, mp) ← alloc_small mp sizeof_mp_large_t;
          match l with
          | None => Err Uninitialised
          | Some l => Ok (Some m, mp <| larges ::= <[l := (large mp, m)]> |>)
          end
      end
  end.

Definition mp_alloc (fuel : nat) (mp : mp_pool_t) (size : Z) : res (option Z * mp_pool_t) :=
  if MP_PAGE_SIZE - sizeof_mp_node_t <? size then mp_alloc_large fuel mp size
  else alloc_small mp size.

(** ** The first block *)

(** A pool on its first node, with the pieces [rs] (address and size) given out. *)
Record carved (base size : Z) (mp : mp_pool_t) (rs : list (Z * Z)) : Prop := {
  ca_current : current mp = base + sizeof_mp_pool_t;
  ca_large : large mp = 0;
  ca_node : exists n, nodes mp !! current mp = Some n /\ end_ n = base + size /\
      base + 64 + foldr (fun r t => snd r + t) 0 rs = last n /\ last n <= end_ n;
  ca_block : blocks mp !! base = Some (sizeof_mp_pool_t + size);
  ca_inside : Forall (fun r => base + 64 <= r.1 /\ 0 <= r.2 /\
      forall n, nodes mp !! current mp = Some n -> r.1 + r.2 <= last n) rs;
  ca_apart : ForallOrdPairs (fun r s => s.1 + s.2 <= r.1) rs }.

Lemma mp_create_carved size base :
  64 <= size -> memalign 0 MP_ALIGNMENT (sizeof_mp_pool_t + size) = Some base ->
  exists mp, mp_create size = Ok (Some mp) /\ carved base size mp [].
Proof.
  intros Hs Hm. unfold mp_create. rewrite Hm. unfold sizeof_mp_pool_t, sizeof_mp_node_t in *.
  destruct (Z.ltb_spec (32 + size) (32 + 32)); [lia|]. eexists. split; [done|].
  constructor; cbn; try done.
  - eexists. rewrite lookup_singleton_eq. split; [done|]. cbn. lia.
  - by rewrite lookup_singleton_eq.
  - constructor.
Qed.

(** A small request that fits the node gets the next piece of it, inside the block
    and apart from every earlier piece; one that does not fit gets nothing. *)
Theorem mp_alloc_carves fuel base size mp rs n :
  carved base size mp rs -> 0 < n <= MP_PAGE_SIZE - sizeof_mp_node_t ->
  0 <= base -> base + size < 9223372036854775808 ->
  returns (mp_alloc fuel mp n) (fun '(r, mp') =>
    match r with
    | Some m => carved base size mp' ((m, n) :: rs) /\ base <= m /\ m + n <= base + size
    | None => mp' = mp
    end).
Proof.
  intros [Hc Hl (nd & Hnd & He & Hs & Hle) Hb Hin Hap] Hn Hba Hsz. unfold mp_alloc.
  destruct (Z.ltb_spec (MP_PAGE_SIZE - sizeof_mp_node_t) n); [lia|].
  unfold alloc_small, get_node. rewrite Hnd. cbn [mbind res_bind].
  assert (0 <= foldr (fun r t => snd r + t) 0 rs) as Hpos.
  { clear -Hin. induction Hin as [|r rs (_ & ? & _) _ IH]; cbn; lia. }
  assert (u64 (end_ nd - last nd) = end_ nd - last nd) as -> by (apply Z.mod_small; lia).
  destruct (Z.leb_spec n (end_ nd - last nd)); apply returns_Ok; [|done].
  split; [|lia]. constructor; cbn.
  - done.
  - done.
  - eexists. rewrite lookup_insert_eq. split; [done|]. cbn. lia.
  - done.
  - rewrite lookup_insert_eq. constructor; cbn.
    + split_and!; [lia..|]. intros ? [= <-]. cbn. lia.
    + eapply Forall_impl; [exact Hin|]. cbn. intros r (? & ? & Hr). split_and!; [done..|].
      intros ? [= <-]. cbn. specialize (Hr nd Hnd). lia.
  - constructor; [|done]. eapply Forall_impl; [exact Hin|]. cbn. intros r (_ & _ & Hr). by apply Hr.
Qed.

(** mp_alloc_block chains a new block behind the others, but mp_alloc only ever
    looks at [mp->current], which nothing moves: the block is never used. *)
Lemma find_last_spec fuel mp p mp' q :
  find_last fuel mp p = Ok (mp', q) ->
  current mp' = current mp /\ large mp' = large mp /\ blocks mp' = blocks mp /\
  (forall a n', nodes mp' !! a = Some n' -> exists n, nodes mp !! a = Some n /\
     last n' = last n /\ end_ n' = end_ n) /\ dom (nodes mp') = dom (nodes mp).
Proof.
  revert mp p. induction fuel as [|fuel IH]; intros mp p; [done|]. cbn.
  intros (n & Hn & H)%bind_Ok. unfold get_node in Hn.
  destruct (nodes mp !! p) as [n0|] eqn:Hp; [|done]. injection Hn as ->.
  destruct (next n =? 0).
  - simplify_eq. split_and!; try done. eauto.
  - destruct (failed_times n) as [k|]; [|done]. apply IH in H as (E1 & E2 & E3 & E4 & E5). cbn in *.
    split_and!; [done..| |].
    + intros a n' Ha. destruct (E4 a n' Ha) as (u & Hu & El & Ee).
      destruct (decide (a = p)) as [->|].
      * rewrite lookup_insert_eq in Hu. injection Hu as <-. eauto.
      * rewrite lookup_insert_ne in Hu by done. eauto.
    + rewrite E5, dom_insert_L. apply elem_of_dom_2 in Hp. set_solver.
Qed.

Theorem new_block_unused fuel mp mp' size n b m1 m2 r1 r2 :
  mp_alloc_block fuel mp size = Ok (Some b, mp') -> b <> current mp ->
  n <= MP_PAGE_SIZE - sizeof_mp_node_t ->
  mp_alloc fuel mp n = Ok (r1, m1) -> mp_alloc fuel mp' n = Ok (r2, m2) -> r1 = r2.
Proof.
  intros Hb Hne Hn H1 H2. unfold mp_alloc in *.
  destruct (Z.ltb_spec (MP_PAGE_SIZE - sizeof_mp_node_t) n); [lia|].
  unfold mp_alloc_block, posix_memalign in Hb. destruct (memalign _ _ _) as [a|]; [|done].
  apply bind_Ok in Hb as ([mp1 p] & Hf & Hb). apply bind_Ok in Hb as (nd & Hnd & Hb). simplify_eq.
  apply find_last_spec in Hf as (E1 & _ & _ & E4 & _). cbn in E1, E4.
  unfold alloc_small, get_node in *. cbn [current nodes upd set_nodes] in H2. rewrite E1 in H2.
  destruct (nodes mp !! current mp) as [c|] eqn:Hc; [|done]. cbn in H1.
  apply bind_Ok in H2 as (c' & Hc' & H2).
  destruct (<[p := nd <| next := b |>]> (nodes mp1) !! current mp) as [c''|] eqn:Hl; [|done].
  injection Hc' as ->.
  assert (last c' = last c /\ end_ c' = end_ c) as [El Ee].
  { assert (forall u, nodes mp1 !! current mp = Some u -> last u = last c /\ end_ u = end_ c) as Hu.
    { intros u Hu. destruct (E4 _ _ Hu) as (v & Hv & ? & ?).
      rewrite lookup_insert_ne in Hv by done. by simplify_eq. }
    destruct (decide (p = current mp)) as [->|].
    - rewrite lookup_insert_eq in Hl. injection Hl as <-. cbn.
      destruct (nodes mp1 !! current mp) as [v|]; [|done]. injection Hnd as ->. by apply Hu.
    - rewrite lookup_insert_ne in Hl by done. by apply Hu. }
  rewrite El, Ee in H2. destruct (_ <=? _); by simplify_eq.
Qed.
End Operations.

(** A libc that puts its blocks one mebibyte apart. *)
Definition demo_memalign (n : nat) (align size : Z) : option Z := Some (1048576 * (Z.of_nat n + 1)).

(** A pool of fewer than 64 bytes ends before its first node does; the negative
    difference is compared as a size_t, and the piece lies outside the block. *)
Theorem small_pool_overrun :
  exists mp mp' m, mp_create demo_memalign 48 = Ok (Some mp) /\
    blocks mp = {[1048576 := 80]} /\
    mp_alloc demo_memalign 1 mp 4000 = Ok (Some m, mp') /\ 1048576 + 80 < m + 4000.
Proof. eexists _, _, _. split_and!; try (vm_compute; reflexivity). Qed.

(** A header for a large block is written but never linked into [mp->large], so no
    header is ever found again: a second large request takes another piece of the
    node. *)
Theorem large_headers_are_lost :
  exists mp mp1 mp2 m1 m2, mp_create demo_memalign 4096 = Ok (Some mp) /\
    mp_alloc demo_memalign 1 mp 5000 = Ok (Some m1, mp1) /\
    mp_alloc demo_memalign 1 mp1 5000 = Ok (Some m2, mp2) /\
    large mp2 = 0 /\ size (larges mp2) = 2%nat.
Proof. eexists _, _, _, _, _. split_and!; try (vm_compute; reflexivity). Qed.

(** ** A pool to evaluate on *)

Definition demo_created : mp_pool_t :=
  match mp_create demo_memalign 4096 with Ok (Some mp) => mp | _ => mkPool 0 0 0 ∅ ∅ ∅ 0 end.

Lemma demo_carved : carved 1048576 4096 demo_created [].
Proof.
  constructor; try (vm_compute; reflexivity).
  - eexists. split; [vm_compute; reflexivity|]. by_decide.
  - constructor.
  - constructor.
Qed.

Lemma mp_alloc_carves_witness :
  carved 1048576 4096 demo_created [] /\
  returns (mp_alloc demo_memalign 1 demo_created 500) (fun '(r, mp') =>
    match r with
    | Some m => carved 1048576 4096 mp' [(m, 500)] /\ 1048576 <= m /\ m + 500 <= 1048576 + 4096
    | None => mp' = demo_created
    end).
Proof.
  split; [apply demo_carved|].
  apply (mp_alloc_carves demo_memalign 1 1048576 4096 demo_created [] 500 demo_carved); by_decide.
Defined.
