(* ===== verification/Llist.v ===== *)
(** * The singly headed list macros of the two thread pools

    LIST_ADD and LIST_REMOVE of threadpool/thread_pool.c, LL_ADD and LL_REMOVE
    of threadpool/tp.c: the macros have the same assignments in the same order.
    They work on the [prev]/[next] fields of the items, which are the cells of a
    store of links as in Iqueue.v; the head is a pointer of its own, and NULL is
    0.  [chain] reads the list that starts at a pointer.

    LIST_ADD never writes the [prev] of the old head, so every [prev] stays NULL:
    removal is right for the head and only for the head. *)

From S2P Require Import Prelude Iqueue.

(** ** The macros: the new links and the new value of the head *)

Definition LIST_ADD (h : links) (list item : Z) : res (links * Z) :=
  h ← set_prev h item 0;
  h ← set_next h item list;
  Ok (h, item).

Definition LIST_REMOVE (h : links) (list item : Z) : res (links * Z) :=
  p ← get_prev h item;
  h ← (if p =? 0 then Ok h else n ← get_next h item; set_next h p n);
  n ← get_next h item;
  h ← (if n =? 0 then Ok h else p ← get_prev h item; set_prev h n p);
  n ← get_next h item;
  let list := if item =? list then n else list in
  h ← set_next h item 0;
  h ← set_prev h item 0;
  Ok (h, list).

(** ** The list that starts at a pointer *)

Fixpoint chain (h : links) (p : Z) (l : list Z) : Prop :=
  match l with
  | [] => p = 0
  | x :: l => p = x /\ x <> 0 /\ exists c, h !! x = Some c /\ chain h (next c) l
  end.

(** No item has a predecessor recorded. *)
Definition no_prev (h : links) : Prop := forall x c, h !! x = Some c -> prev c = 0.

Lemma chain_det h p l l' : chain h p l -> chain h p l' -> l = l'.
Proof.
  revert p l'; induction l as [|x l IH]; intros p [|y l']; cbn; [done|naive_solver..|].
  intros (-> & Hx & c & Hc & Hl) (-> & _ & c' & Hc' & Hl'). simplify_eq. f_equal. by eapply IH.
Qed.

Lemma chain_suffix h p l1 x l2 : chain h p (l1 ++ x :: l2) -> chain h x (x :: l2).
Proof.
  revert p; induction l1 as [|y l1 IH]; intros p; cbn; [naive_solver|].
  intros (_ & _ & c & _ & H). by eapply IH.
Qed.

Lemma chain_NoDup h p l : chain h p l -> NoDup l.
Proof.
  revert p; induction l as [|x l IH]; intros p H; [by constructor|].
  assert (Hx : x ∉ l).
  { intros (l1 & l2 & ->)%list_elem_of_split.
    pose proof (chain_suffix _ _ (x :: l1) _ _ H) as H2.
    assert (x = p) as -> by (destruct H; congruence).
    pose proof (chain_det h p _ _ H2 H) as E.
    apply (f_equal length) in E. cbn in E. rewrite length_app in E. cbn in E. lia. }
  destruct H as (-> & _ & c & _ & H). constructor; eauto.
Qed.

(** Links of other items may change. *)
Lemma chain_frame h h' p l :
  (forall x, x ∈ l -> next <$> h' !! x = next <$> h !! x) -> chain h p l -> chain h' p l.
Proof.
  revert p; induction l as [|x l IH]; intros p Hx; cbn; [done|].
  intros (-> & H0 & c & Hc & Hl). split; [done|]. split; [done|].
  pose proof (Hx x ltac:(by left)) as E. rewrite Hc in E.
  destruct (h' !! x) as [c'|]; [|done]. cbn in E. injection E as E.
  exists c'. split; [done|]. rewrite E. apply IH; [|done]. intros. apply Hx. by right.
Qed.

Lemma chain_elem h p l x : chain h p l -> x ∈ l -> x <> 0 /\ is_Some (h !! x).
Proof.
  intros H (l1 & l2 & ->)%list_elem_of_split. apply chain_suffix in H.
  destruct H as (_ & ? & c & ? & _). split; [done|]. by exists c.
Qed.

Lemma chain_head h p l : chain h p l -> p = default 0 (head l).
Proof. destruct l; cbn; naive_solver. Qed.

(** ** What the macros do *)

(** LIST_ADD puts the item in front, and links no [prev]. *)
Lemma LIST_ADD_spec h p l item :
  chain h p l -> item <> 0 -> item ∉ l -> is_Some (h !! item) ->
  LIST_ADD h p item = Ok (<[item := mkHead p 0]> h, item) /\
  chain (<[item := mkHead p 0]> h) item (item :: l).
Proof.
  intros Hl H0 Hx [c Hc]. split.
  - unfold LIST_ADD, set_prev, set_next. rewrite Hc. cbn.
    rewrite lookup_insert_eq. cbn. by rewrite insert_insert_eq.
  - cbn. split; [done|]. split; [done|]. eexists. rewrite lookup_insert_eq. split; [done|].
    cbn. eapply chain_frame; [|done]. intros y Hy. rewrite lookup_insert_ne by congruence. done.
Qed.

(** What LIST_REMOVE leaves in the store, for an item without a [prev]: its
    successor loses its [prev], the item both links. *)
Definition unlinked (h : links) (item : Z) (c : IQUEUEHEAD) : links :=
  <[item := mkHead 0 0]> (alter (fun d => mkHead (next d) 0) (next c) h).

(** With every [prev] NULL the removal never fails unless the successor of the
    item is gone; it moves the head only if the item is the head. *)
Lemma LIST_REMOVE_spec h p item c :
  h !! item = Some c -> prev c = 0 -> next c <> item ->
  next c = 0 \/ is_Some (h !! next c) -> h !! 0 = None ->
  LIST_REMOVE h p item =
    Ok (unlinked h item c, if item =? p then next c else p).
Proof.
  intros Hc Hp Hne Hn H0. unfold LIST_REMOVE, get_prev, get_next, set_next, set_prev, unlinked.
  rewrite !Hc. cbn. rewrite Hp. cbn. rewrite !Hc. cbn.
  destruct (Z.eqb_spec (next c) 0) as [E|E]; cbn.
  - rewrite !Hc. cbn. rewrite lookup_insert_eq. cbn. rewrite insert_insert_eq.
    do 3 f_equal. rewrite E. apply map_eq. intros q. destruct (decide (q = 0)) as [->|].
    + by rewrite lookup_alter_eq, H0.
    + by rewrite lookup_alter_ne.
  - destruct Hn as [|[d Hd]]; [done|]. rewrite Hd. cbn.
    rewrite !(lookup_insert_ne _ (next c) item) by done. rewrite !Hc. cbn.
    rewrite lookup_insert_eq. cbn. rewrite insert_insert_eq, Hp.
    do 2 f_equal. f_equal. apply map_eq. intros q.
    destruct (decide (q = next c)) as [->|].
    + by rewrite lookup_insert_eq, lookup_alter_eq, Hd.
    + by rewrite lookup_insert_ne, lookup_alter_ne.
Qed.

Lemma unlinked_dom h item c : is_Some (h !! item) -> dom (unlinked h item c) = dom h.
Proof. intros H%elem_of_dom. unfold unlinked. rewrite dom_insert_L, dom_alter_L. set_solver. Qed.

Lemma unlinked_next h item c x : x <> item -> next <$> unlinked h item c !! x = next <$> h !! x.
Proof.
  intros Hx. unfold unlinked. rewrite lookup_insert_ne by done.
  destruct (decide (x = next c)) as [->|].
  - rewrite lookup_alter_eq. by destruct (h !! next c).
  - by rewrite lookup_alter_ne.
Qed.

Lemma unlinked_no_prev h item c : no_prev h -> no_prev (unlinked h item c).
Proof.
  intros Hn x d. unfold unlinked. destruct (decide (x = item)) as [->|].
  - rewrite lookup_insert_eq. by intros [= <-].
  - rewrite lookup_insert_ne by done. destruct (decide (x = next c)) as [->|].
    + rewrite lookup_alter_eq. destruct (h !! next c); [|done]. by intros [= <-].
    + rewrite lookup_alter_ne by done. apply Hn.
Qed.

Lemma chain_next h p l1 x l2 c :
  chain h p (l1 ++ x :: l2) -> h !! x = Some c ->
  next c <> x /\ (next c = 0 \/ is_Some (h !! next c)) /\ chain h (next c) l2.
Proof.
  intros H Hc. pose proof (chain_NoDup _ _ _ (chain_suffix _ _ _ _ _ H)) as Hnd.
  apply chain_suffix in H. destruct H as (_ & Hx & c' & Hc' & Hl). simplify_eq.
  rewrite NoDup_cons in Hnd. split_and!; [|..|done].
  - intros E. destruct l2 as [|y l2]; cbn in Hl; [congruence|].
    destruct Hl as (E' & _). apply (proj1 Hnd). rewrite <- E, E'. by left.
  - destruct l2 as [|y l2]; cbn in Hl; [by left|]. right.
    destruct Hl as (-> & _ & d & Hd & _). by exists d.
Qed.

(** Removing the head is the list operation. *)
Lemma LIST_REMOVE_first h x l c :
  chain h x (x :: l) -> h !! x = Some c -> prev c = 0 -> h !! 0 = None ->
  LIST_REMOVE h x x = Ok (unlinked h x c, next c) /\
  chain (unlinked h x c) (next c) l.
Proof.
  intros H Hc Hp H0. destruct (chain_next h x [] x l c H Hc) as (Hne & Hn & Hl).
  split; [by rewrite (LIST_REMOVE_spec h x x c), Z.eqb_refl|].
  eapply chain_frame; [|done]. intros y Hy. apply unlinked_next. intros ->.
  apply chain_NoDup in H. rewrite NoDup_cons in H. tauto.
Qed.

(** Removing another item leaves the item in the list, as its last element, and
    loses everything that followed it. *)
Lemma LIST_REMOVE_truncates h p l1 x l2 :
  chain h p (l1 ++ x :: l2) -> l1 <> [] -> no_prev h -> h !! 0 = None ->
  exists h', LIST_REMOVE h p x = Ok (h', p) /\ chain h' p (l1 ++ [x]).
Proof.
  intros H Hl1 Hnp H0.
  destruct (chain_elem _ _ _ x H ltac:(set_solver)) as (Hx0 & c & Hc).
  destruct (chain_next _ _ _ _ _ _ H Hc) as (Hne & Hn & _).
  assert (Hxp : (x =? p) = false).
  { apply Z.eqb_neq. intros ->. apply chain_NoDup in H as Hnd.
    destruct l1 as [|y l1]; [done|]. cbn in H. destruct H as (-> & _).
    cbn in Hnd; rewrite NoDup_cons in Hnd. set_solver. }
  exists (unlinked h x c). split; [by rewrite (LIST_REMOVE_spec h p x c), Hxp by eauto|].
  apply chain_NoDup in H as Hnd. clear Hl1 Hxp.
  revert p H Hnd; induction l1 as [|y l1 IH]; intros p; cbn.
  - intros (-> & _ & _) _. split; [done|]. split; [done|]. exists (mkHead 0 0).
    split; [by unfold unlinked; rewrite lookup_insert_eq|done].
  - intros (-> & Hy & d & Hd & H) Hnd. rewrite NoDup_cons in Hnd.
    split; [done|]. split; [done|].
    pose proof (unlinked_next h x c y ltac:(set_solver)) as E. rewrite Hd in E.
    destruct (unlinked h x c !! y) as [d'|]; [|done]. injection E as E.
    exists d'. split; [done|]. rewrite E. apply IH; tauto.
Qed.

(** Whatever the list looks like, a macro that succeeds keeps the set of live
    items, and the NULL predecessors. *)
Lemma set_next_Ok h p v h' :
  set_next h p v = Ok h' -> dom h' = dom h /\ (no_prev h -> no_prev h').
Proof.
  unfold set_next. destruct (h !! p) as [c|] eqn:Hc; [|done]. intros [= <-]. split.
  - rewrite dom_insert_L. apply elem_of_dom_2 in Hc. set_solver.
  - intros Hn x d. destruct (decide (x = p)) as [->|].
    + rewrite lookup_insert_eq. intros [= <-]. cbn. eauto.
    + rewrite lookup_insert_ne by done. eauto.
Qed.

Lemma set_prev_Ok h p h' :
  set_prev h p 0 = Ok h' -> dom h' = dom h /\ (no_prev h -> no_prev h').
Proof.
  unfold set_prev. destruct (h !! p) as [c|] eqn:Hc; [|done]. intros [= <-]. split.
  - rewrite dom_insert_L. apply elem_of_dom_2 in Hc. set_solver.
  - intros Hn x d. destruct (decide (x = p)) as [->|].
    + rewrite lookup_insert_eq. by intros [= <-].
    + rewrite lookup_insert_ne by done. eauto.
Qed.

Lemma get_prev_0 h p v : no_prev h -> get_prev h p = Ok v -> v = 0.
Proof. unfold get_prev. intros Hn. destruct (h !! p) as [c|] eqn:Hc; [|done]. intros [= <-]. eauto. Qed.

Lemma LIST_ADD_Ok h p item h' p' :
  LIST_ADD h p item = Ok (h', p') ->
  p' = item /\ dom h' = dom h /\ (no_prev h -> no_prev h').
Proof.
  unfold LIST_ADD. intros (h1 & (D1 & N1)%set_prev_Ok & H)%bind_Ok.
  apply bind_Ok in H as (h2 & (D2 & N2)%set_next_Ok & [= <- <-]). split; [done|]. split; [congruence|tauto].
Qed.

Lemma LIST_REMOVE_Ok h p item h' p' :
  no_prev h -> LIST_REMOVE h p item = Ok (h', p') -> dom h' = dom h /\ no_prev h'.
Proof.
  unfold LIST_REMOVE. intros Hn (v & Hv & H)%bind_Ok.
  rewrite (get_prev_0 h item v Hn Hv) in H. cbn in H.
  apply bind_Ok in H as (n & _ & H). apply bind_Ok in H as (h1 & H1 & H).
  assert (dom h1 = dom h /\ no_prev h1) as [D1 N1].
  { destruct (n =? 0); [by simplify_eq|]. apply bind_Ok in H1 as (v' & Hv' & H1).
    rewrite (get_prev_0 h item v' Hn Hv') in H1. apply set_prev_Ok in H1 as [? HN]. auto. }
  apply bind_Ok in H as (n' & _ & H). apply bind_Ok in H as (h2 & (D2 & N2)%set_next_Ok & H).
  apply bind_Ok in H as (h3 & (D3 & N3)%set_prev_Ok & [= <- _]). split; [congruence|tauto].
Qed.

(** A removal without a predecessor needs only a live successor. *)
Lemma LIST_REMOVE_returns h p item c :
  no_prev h -> h !! item = Some c -> next c = 0 \/ is_Some (h !! next c) ->
  exists r, LIST_REMOVE h p item = Ok r.
Proof.
  intros Hnp Hc Hn. unfold LIST_REMOVE, get_prev, get_next, set_next, set_prev.
  rewrite !Hc. cbn. rewrite (Hnp _ _ Hc). cbn. rewrite !Hc. cbn.
  destruct (Z.eqb_spec (next c) 0) as [E|E]; cbn.
  - rewrite Hc. cbn. rewrite lookup_insert_eq. cbn. by eexists.
  - destruct Hn as [|[d Hd]]; [done|]. rewrite Hd. cbn.
    destruct (decide (next c = item)) as [Hi|Hi].
    + rewrite Hi, !lookup_insert_eq. cbn. rewrite !lookup_insert_eq. cbn. by eexists.
    + rewrite !lookup_insert_ne by done. rewrite !Hc. cbn. rewrite lookup_insert_eq. cbn. by eexists.
Qed.
