(* ===== verification/Counting.v ===== *)
(** * Counting the threads of a system

    [vals m] are the values of a map from threads; [omap f] keeps what [f] sees of each
    thread, and [weight] is what one thread adds to the count. *)

From S2P Require Import Prelude.

Section counting.
Context {A B : Type}.
Implicit Types (m : gmap Z A) (f : A -> option B).

Definition vals (m : gmap Z B) : list B := (map_to_list m).*2.

Lemma alter_Some g i m x : m !! i = Some x -> alter g i m = <[i := g x]> m.
Proof.
  intros Hx. apply map_eq. intros j. destruct (decide (j = i)) as [->|].
  - by rewrite lookup_alter_eq, lookup_insert_eq, Hx.
  - by rewrite lookup_alter_ne, lookup_insert_ne.
Qed.

Lemma omap_same f i x x' m :
  m !! i = Some x -> f x' = f x -> omap f (<[i := x']> m) = omap f m.
Proof.
  intros Hx Hf. apply map_eq. intros j. rewrite !lookup_omap.
  destruct (decide (j = i)) as [->|].
  - by rewrite lookup_insert_eq, Hx.
  - by rewrite lookup_insert_ne.
Qed.

Lemma omap_fmap_same f (g : A -> A) m : (forall x, f (g x) = f x) -> omap f (g <$> m) = omap f m.
Proof.
  intros Hg. apply map_eq. intros j. rewrite !lookup_omap, lookup_fmap.
  destruct (m !! j); cbn; [apply Hg|done].
Qed.

Lemma omap_alter_same f (g : A -> A) i m :
  (forall x, f (g x) = f x) -> omap f (alter g i m) = omap f m.
Proof.
  intros Hg. destruct (m !! i) as [x|] eqn:Hx.
  - rewrite (alter_Some g i m x Hx). by eapply omap_same.
  - f_equal. apply map_eq. intros j. destruct (decide (j = i)) as [->|].
    + by rewrite lookup_alter_eq, Hx.
    + by rewrite lookup_alter_ne.
Qed.

Lemma vals_enter f i x' b m :
  omap f m !! i = None -> f x' = Some b ->
  vals (omap f (<[i := x']> m)) ≡ₚ b :: vals (omap f m).
Proof.
  intros Hx Hb. rewrite (omap_insert_Some f m i x' b Hb). unfold vals.
  by rewrite map_to_list_insert.
Qed.

Lemma vals_leave f i x x' b m :
  m !! i = Some x -> f x = Some b -> f x' = None ->
  vals (omap f m) ≡ₚ b :: vals (omap f (<[i := x']> m)).
Proof.
  intros Hx Hb Hn. rewrite (omap_insert_None f m i x' Hn). unfold vals.
  rewrite <- (map_to_list_delete (omap f m) i b); [done|]. by rewrite lookup_omap, Hx.
Qed.

Lemma omap_delete_None f i x m :
  m !! i = Some x -> f x = None -> omap f (delete i m) = omap f m.
Proof.
  intros Hx Hn. rewrite omap_delete. apply delete_id. by rewrite lookup_omap, Hx.
Qed.

Lemma omap_insert_none f i x' m :
  m !! i = None -> f x' = None -> omap f (<[i := x']> m) = omap f m.
Proof.
  intros Hx Hn. rewrite omap_insert_None by done. apply delete_id. by rewrite lookup_omap, Hx.
Qed.
End counting.

Definition weight {B} (x : option B) : Z := match x with Some _ => 1 | None => 0 end.

Lemma count_insert {A B} (f : A -> option B) (m : gmap Z A) w o o' :
  m !! w = Some o ->
  Z.of_nat (length (vals (omap f (<[w := o']> m)))) =
  Z.of_nat (length (vals (omap f m)))
    - weight (f o) + weight (f o').
Proof.
  intros Hw. destruct (f o) as [b|] eqn:Ho, (f o') as [b'|] eqn:Ho'.
  - rewrite (omap_insert_Some f m w o' b' Ho'). unfold vals.
    rewrite <- (map_to_list_delete (omap f m) w b) by (by rewrite lookup_omap, Hw).
    rewrite <- insert_delete_eq, map_to_list_insert by apply lookup_delete_eq. cbn. lia.
  - rewrite (vals_leave f w o o' b m Hw Ho Ho'). cbn. lia.
  - rewrite (vals_enter f w o' b' m); [cbn; lia| |done]. by rewrite lookup_omap, Hw.
  - rewrite (omap_same f w o o' m Hw) by congruence. cbn. lia.
Qed.

Lemma count_new {A B} (f : A -> option B) (m : gmap Z A) w o' :
  m !! w = None ->
  Z.of_nat (length (vals (omap f (<[w := o']> m)))) =
  Z.of_nat (length (vals (omap f m))) + weight (f o').
Proof.
  intros Hw. destruct (f o') as [b'|] eqn:Ho'.
  - rewrite (vals_enter f w o' b' m); [cbn; lia| |done]. by rewrite lookup_omap, Hw.
  - rewrite omap_insert_none by done. cbn. lia.
Qed.
