(* ===== verification/ThreadPool.v ===== *)
(** * The thread pool of threadpool/thread_pool.c

    The pool is a transition system: the control thread that calls
    thread_pool_add_worker, thread_pool_remove_workers, thread_pool_destroy and
    thread_pool_add_job one after the other, and one thread per worker running
    thread_pool_cycle.  [pc] and [mpc] are their program counters, a step of the
    system is one access to shared data that no mutex protects, or one mutex
    operation, or one section under a mutex every access to whose data takes that
    mutex.  The mutexes and the condition variable behave as POSIX says: a lock
    step needs a free mutex, a wait releases the mutex and sleeps, a signal wakes
    one sleeper of the scheduler's choice, a broadcast all of them, and a sleeper
    may wake up on its own.

    The job list and the worker list are the lists of Llist.v; a free removes the
    object from its store, so that a later access is a fault.  The names of the
    workers, which are only printed, are left out.  The counters are integers: an
    int overflows after 2^31 workers or jobs. *)

From S2P Require Import Prelude Iqueue Llist Counting.

(** ** State *)

(** Where a worker is in thread_pool_cycle. *)
Inductive pc : Set :=
  | W_while             (* while (worker->terminate == 0) *)
  | W_lock              (* before pthread_mutex_lock(jobs_mtx) *)
  | W_test              (* has jobs_mtx; if (waiting_jobs_num == 0) *)
  | W_wait              (* asleep in pthread_cond_wait *)
  | W_wake              (* woken up, pthread_cond_wait locks jobs_mtx again *)
  | W_take              (* has jobs_mtx; job = tp->jobs *)
  | W_start (job : Z)   (* worker->running = 1 *)
  | W_inc (job : Z)     (* running_workers_num++ *)
  | W_run (job : Z)     (* job->func(job) *)
  | W_done              (* worker->running = 0 *)
  | W_dec               (* running_workers_num-- *)
  | W_exit              (* left the loop, before the removal from tp->workers *)
  | W_free.             (* removed, before free(worker) *)

(** A worker_t: the flags and its thread.  The list fields are in [wlinks]. *)
Record worker_t := mkWorker { terminate : Z; running : Z; at_ : pc }.

(** Where the control thread is. *)
Inductive mpc : Set :=
  | M_idle
  | M_add (n : Z)             (* add_worker: [n] iterations left *)
  | M_link (w n : Z)          (* thread of [w] created, before LIST_ADD *)
  | M_remove (n : Z)          (* remove_workers, before the lock *)
  | M_idle_ones (w n : Z)     (* first loop at [w], [n] workers left to remove *)
  | M_running_ones (w n : Z)  (* second loop *)
  | M_destroy                 (* destroy, before the lock *)
  | M_mark (w : Z)            (* loop at [w] *)
  | M_mark_next (w : Z)       (* worker = worker->next *)
  | M_job (job : Z)           (* add_job, before the lock *)
  | M_push (job : Z).         (* has jobs_mtx *)

#[export] Instance pc_eq_dec : EqDecision pc.
Proof. solve_decision. Defined.
#[export] Instance mpc_eq_dec : EqDecision mpc.
Proof. solve_decision. Defined.

(** thread_pool_t, the heap, the program counters and what was observed: the jobs
    handed to the pool and the jobs executed, with the worker that ran them.  A
    mutex holds the thread that owns it, 0 for the control thread. *)
Record thread_pool_t := mkPool {
  workers : Z;
  jobs : Z;
  waiting_jobs_num : Z;
  total_workers_num : Z;
  running_workers_num : Z;
  terminate_workers_num : Z;
  jobs_mtx : option Z;
  workers_mtx : option Z;
  wobj : gmap Z worker_t;
  wlinks : links;
  jlinks : links;
  jworker : gmap Z Z;
  control : mpc;
  added : list Z;
  ran : list (Z * Z) }.

#[export] Instance eta_worker : Eta worker_t := fun r => mkWorker (terminate r) (running r) (at_ r).
#[export] Instance set_terminate : Settable terminate. Proof. derive_setter. Defined.
#[export] Instance set_running : Settable running. Proof. derive_setter. Defined.
#[export] Instance set_at_ : Settable at_. Proof. derive_setter. Defined.

#[export] Instance eta_pool : Eta thread_pool_t := fun r =>
  mkPool (workers r) (jobs r) (waiting_jobs_num r) (total_workers_num r)
    (running_workers_num r) (terminate_workers_num r) (jobs_mtx r) (workers_mtx r)
    (wobj r) (wlinks r) (jlinks r) (jworker r) (control r) (added r) (ran r).
#[export] Instance set_workers : Settable workers. Proof. derive_setter. Defined.
#[export] Instance set_jobs : Settable jobs. Proof. derive_setter. Defined.
#[export] Instance set_waiting_jobs_num : Settable waiting_jobs_num. Proof. derive_setter. Defined.
#[export] Instance set_total_workers_num : Settable total_workers_num. Proof. derive_setter. Defined.
#[export] Instance set_running_workers_num : Settable running_workers_num. Proof. derive_setter. Defined.
#[export] Instance set_terminate_workers_num : Settable terminate_workers_num. Proof. derive_setter. Defined.
#[export] Instance set_jobs_mtx : Settable jobs_mtx. Proof. derive_setter. Defined.
#[export] Instance set_workers_mtx : Settable workers_mtx. Proof. derive_setter. Defined.
#[export] Instance set_wobj : Settable wobj. Proof. derive_setter. Defined.
#[export] Instance set_wlinks : Settable wlinks. Proof. derive_setter. Defined.
#[export] Instance set_jlinks : Settable jlinks. Proof. derive_setter. Defined.
#[export] Instance set_jworker : Settable jworker. Proof. derive_setter. Defined.
#[export] Instance set_control : Settable control. Proof. derive_setter. Defined.
#[export] Instance set_added : Settable added. Proof. derive_setter. Defined.
#[export] Instance set_ran : Settable ran. Proof. derive_setter. Defined.

(** A step of a thread that is blocked is [None]; a step that reads or writes a
    freed object is [Some (Err _)]. *)
Definition outcome := option (res thread_pool_t).

Definition goto (w : Z) (p : pc) (s : thread_pool_t) : thread_pool_t :=
  s <| wobj ::= alter (fun o => o <| at_ := p |>) w |>.

(** pthread_cond_wait has returned, up to the mutex. *)
Definition wake (o : worker_t) : worker_t :=
  match at_ o with W_wait => o <| at_ := W_wake |> | _ => o end.

Definition broadcast (s : thread_pool_t) : thread_pool_t := s <| wobj ::= fmap wake |>.

(** ** thread_pool_cycle *)

Definition take_job (w : Z) (s : thread_pool_t) : res thread_pool_t :=
  let job := jobs s in
  if job =? 0 then Ok (goto w W_while (s <| jobs_mtx := None |>))
  else
    '(l, j) ← LIST_REMOVE (jlinks s) job job;
    Ok (goto w (W_start job)
          (s <| jlinks := l |> <| jobs := j |> <| jworker ::= <[job := w]> |>
             <| waiting_jobs_num ::= fun n => n - 1 |> <| jobs_mtx := None |>)).

Definition leave (w : Z) (s : thread_pool_t) : res thread_pool_t :=
  '(l, ws) ← LIST_REMOVE (wlinks s) (workers s) w;
  Ok (goto w W_free
        (s <| wlinks := l |> <| workers := ws |>
           <| total_workers_num ::= fun n => n - 1 |>
           <| terminate_workers_num ::= fun n => n - 1 |>)).

(** The next step of worker [w].  The job function is the client's: it may free
    the job, so the pool no longer owns it. *)
Definition thread_pool_cycle (w : Z) (s : thread_pool_t) : outcome :=
  match wobj s !! w with
  | None => None
  | Some o =>
    match at_ o with
    | W_while => Some (Ok (goto w (if terminate o =? 0 then W_lock else W_exit) s))
    | W_lock =>
        if decide (jobs_mtx s = None)
        then Some (Ok (goto w W_test (s <| jobs_mtx := Some w |>))) else None
    | W_test =>
        if waiting_jobs_num s =? 0
        then Some (Ok (goto w W_wait (s <| jobs_mtx := None |>)))
        else Some (Ok (goto w W_take s))
    | W_wait => None
    | W_wake =>
        if decide (jobs_mtx s = None)
        then Some (Ok (goto w W_take (s <| jobs_mtx := Some w |>))) else None
    | W_take => Some (take_job w s)
    | W_start job =>
        Some (Ok (goto w (W_inc job) (s <| wobj ::= alter (fun o => o <| running := 1 |>) w |>)))
    | W_inc job =>
        if decide (workers_mtx s = None)
        then Some (Ok (goto w (W_run job) (s <| running_workers_num ::= fun n => n + 1 |>)))
        else None
    | W_run job =>
        Some (Ok (goto w W_done (s <| jlinks ::= delete job |> <| ran ::= cons (w, job) |>)))
    | W_done =>
        Some (Ok (goto w W_dec (s <| wobj ::= alter (fun o => o <| running := 0 |>) w |>)))
    | W_dec =>
        if decide (workers_mtx s = None)
        then Some (Ok (goto w W_while (s <| running_workers_num ::= fun n => n - 1 |>)))
        else None
    | W_exit => if decide (workers_mtx s = None) then Some (leave w s) else None
    | W_free => Some (Ok (s <| wobj ::= delete w |> <| wlinks ::= delete w |>))
    end
  end.

(** ** The control thread *)

Inductive call : Set :=
  | Add_worker (n : Z)
  | Remove_workers (n : Z)
  | Destroy
  | Add_job (job : Z).

(** What the environment decides in a step: the address malloc returns, a failing
    malloc or pthread_create, the sleeper a signal wakes up. *)
Inductive choice : Set :=
  | Plain
  | Fresh (w : Z)
  | NoMemory
  | NoThread
  | Wakes (w : Z).

Definition asleep (s : thread_pool_t) (w : Z) : bool :=
  match wobj s !! w with Some o => bool_decide (at_ o = W_wait) | None => false end.

(** The call of a function: [worker_num < 0] counts as 0 in add_worker.  A job
    that is handed over is an object of its own, with links of any value. *)
Definition begin (c : call) (s : thread_pool_t) : outcome :=
  match control s with
  | M_idle =>
    match c with
    | Add_worker n => Some (Ok (s <| control := M_add (if n <? 0 then 0 else n) |>))
    | Remove_workers n => Some (Ok (s <| control := M_remove n |>))
    | Destroy => Some (Ok (s <| control := M_destroy |>))
    | Add_job job =>
        if (job =? 0) || bool_decide (is_Some (jlinks s !! job)) then None
        else Some (Ok (s <| jlinks ::= <[job := mkHead job job]> |> <| control := M_job job |>))
    end
  | _ => None
  end.

(** One iteration of thread_pool_add_worker, up to pthread_create. *)
Definition new_worker (n : Z) (ch : choice) (s : thread_pool_t) : outcome :=
  if n <=? 0 then Some (Ok (s <| control := M_idle |>))
  else
    match ch with
    | Fresh w =>
        if (w =? 0) || bool_decide (is_Some (wobj s !! w)) then None
        else Some (Ok (s <| wobj ::= <[w := mkWorker 0 0 W_while]> |>
                         <| wlinks ::= <[w := mkHead 0 0]> |> <| control := M_link w n |>))
    | NoMemory | NoThread => Some (Ok (s <| control := M_idle |>))
    | _ => None
    end.

Definition link_worker (w n : Z) (s : thread_pool_t) : res thread_pool_t :=
  '(l, ws) ← LIST_ADD (wlinks s) (workers s) w;
  Ok (s <| wlinks := l |> <| workers := ws |> <| total_workers_num ::= fun n => n + 1 |>
        <| control := M_add (n - 1) |>).

(** How many workers remove_workers will look for; the printf after the clamp
    reads [tp->workers->next]. *)
Definition can_remove (n : Z) (s : thread_pool_t) : Z :=
  let can_terminate := total_workers_num s - terminate_workers_num s in
  if can_terminate <=? n then can_terminate - 1 else n.

Definition remove_begin (n : Z) (s : thread_pool_t) : res thread_pool_t :=
  _ ← get_next (wlinks s) (workers s);
  Ok (s <| workers_mtx := Some 0 |> <| control := M_idle_ones (workers s) (can_remove n s) |>).

Definition get_worker (s : thread_pool_t) (w : Z) : res worker_t :=
  match wobj s !! w with Some o => Ok o | None => Err OutOfBounds end.

Definition set_terminated (w : Z) (s : thread_pool_t) : thread_pool_t :=
  s <| wobj ::= alter (fun o => o <| terminate := 1 |>) w |>.

(** One iteration of a loop of remove_workers: a worker that is not yet asked to
    terminate and whose [running] is [flag] is asked to. *)
Definition remove_one (flag w n : Z) (again : Z -> Z -> mpc) (s : thread_pool_t) : res thread_pool_t :=
  o ← get_worker s w;
  nx ← get_next (wlinks s) w;
  Ok (if (terminate o =? 0) && (running o =? flag)
      then set_terminated w s <| terminate_workers_num ::= fun n => n + 1 |>
             <| control := again nx (n - 1) |>
      else s <| control := again nx n |>).

Definition mark_one (w : Z) (s : thread_pool_t) : res thread_pool_t :=
  _ ← get_worker s w;
  Ok (set_terminated w s <| control := M_mark_next w |>).

Definition push_job (job : Z) (s : thread_pool_t) : res thread_pool_t :=
  '(l, j) ← LIST_ADD (jlinks s) (jobs s) job;
  Ok (s <| waiting_jobs_num ::= fun n => n + 1 |> <| jlinks := l |> <| jobs := j |>
        <| added ::= cons job |> <| jobs_mtx := None |> <| control := M_idle |>).

(** pthread_cond_signal: somebody asleep wakes up, if anybody is asleep. *)
Definition signal (ch : choice) (s : thread_pool_t) : option thread_pool_t :=
  match ch with
  | Wakes w => if asleep s w then Some (s <| wobj ::= alter wake w |>) else None
  | Plain => if bool_decide (map_Forall (fun w _ => asleep s w = false) (wobj s))
             then Some s else None
  | _ => None
  end.

Definition control_step (ch : choice) (s : thread_pool_t) : outcome :=
  match control s with
  | M_idle => None
  | M_add n => new_worker n ch s
  | M_link w n => if decide (workers_mtx s = None) then Some (link_worker w n s) else None
  | M_remove n => if decide (workers_mtx s = None) then Some (remove_begin n s) else None
  | M_idle_ones w n =>
      if (w =? 0) || (n =? 0) then Some (Ok (s <| control := M_running_ones (workers s) n |>))
      else Some (remove_one 0 w n M_idle_ones s)
  | M_running_ones w n =>
      if (w =? 0) || (n =? 0)
      then Some (Ok (broadcast s <| workers_mtx := None |> <| control := M_idle |>))
      else Some (remove_one 1 w n M_running_ones s)
  | M_destroy =>
      if decide (jobs_mtx s = None)
      then Some (Ok (s <| jobs_mtx := Some 0 |> <| control := M_mark (workers s) |>)) else None
  | M_mark w =>
      if w =? 0 then Some (Ok (broadcast s <| jobs_mtx := None |> <| control := M_idle |>))
      else Some (mark_one w s)
  | M_mark_next w => Some (nx ← get_next (wlinks s) w; Ok (s <| control := M_mark nx |>))
  | M_job job =>
      if decide (jobs_mtx s = None)
      then Some (Ok (s <| jobs_mtx := Some 0 |> <| control := M_push job |>)) else None
  | M_push job => s' ← signal ch s; Some (push_job job s')
  end.

(** thread_pool_create on a zeroed pool: add_worker of at least one. *)
Definition thread_pool_create (worker_num : Z) : thread_pool_t :=
  mkPool 0 0 0 0 0 0 None None ∅ ∅ ∅ ∅ (M_add (if worker_num <=? 0 then 1 else worker_num)) [] [].

(** ** The system *)

Inductive label : Set :=
  | Call (c : call)
  | Control (ch : choice)
  | Worker (w : Z)
  | Spurious (w : Z).

Definition pool_step (l : label) (s : thread_pool_t) : outcome :=
  match l with
  | Call c => begin c s
  | Control ch => control_step ch s
  | Worker w => thread_pool_cycle w s
  | Spurious w => if asleep s w then Some (Ok (s <| wobj ::= alter wake w |>)) else None
  end.

(** Executions, newest state last, whose labels all satisfy [P]. *)
Inductive reaches (P : label -> Prop) (s : thread_pool_t) : thread_pool_t -> Prop :=
  | reaches_refl : reaches P s s
  | reaches_step s1 s2 l :
      reaches P s s1 -> P l -> pool_step l s1 = Some (Ok s2) -> reaches P s s2.

Definition reachable (s : thread_pool_t) : Prop :=
  exists n, reaches (fun _ => True) (thread_pool_create n) s.

(** Run a schedule; [None] when a label cannot move. *)
Fixpoint run (ls : list label) (s : thread_pool_t) : outcome :=
  match ls with
  | [] => Some (Ok s)
  | l :: ls =>
      match pool_step l s with
      | Some (Ok s') => run ls s'
      | o => o
      end
  end.

(** ** What holds in every reachable state *)

(** The job a worker has taken and not yet executed. *)
Definition hand (o : worker_t) : option Z :=
  match at_ o with W_start j | W_inc j | W_run j => Some j | _ => None end.

Definition in_hand (s : thread_pool_t) : list Z := vals (omap hand (wobj s)).

(** The job of an add_job that has not reached the list yet. *)
Definition pending (s : thread_pool_t) : list Z :=
  match control s with M_job j | M_push j => [j] | _ => [] end.

(** The list of waiting jobs is [q], its length is the counter, and every job that
    was added is waiting, in the hand of one worker, or executed. *)
Record jobs_inv (s : thread_pool_t) (q : list Z) : Prop := {
  ji_chain : chain (jlinks s) (jobs s) q;
  ji_prev : forall x, x ∈ q -> prv (jlinks s) x = Some 0;
  ji_zero : jlinks s !! 0 = None;
  ji_owned : NoDup (q ++ in_hand s ++ pending s);
  ji_alive : forall j, j ∈ q ++ in_hand s ++ pending s -> is_Some (jlinks s !! j);
  ji_waiting : waiting_jobs_num s = Z.of_nat (length q);
  ji_account : added s ≡ₚ q ++ in_hand s ++ (ran s).*2 }.

(** The flags of a worker, by its place in the loop. *)
Record worker_inv (o : worker_t) : Prop := {
  wi_running : running o = match at_ o with W_inc _ | W_run _ | W_done => 1 | _ => 0 end;
  wi_terminate : terminate o = 0 \/ terminate o = 1;
  wi_left : at_ o = W_exit \/ at_ o = W_free -> terminate o = 1 }.

Definition busy (o : worker_t) : option unit :=
  match at_ o with W_run _ | W_done | W_dec => Some tt | _ => None end.

(** A worker the pool counts. *)
Definition member (o : worker_t) : option unit :=
  match at_ o with W_free => None | _ => Some tt end.

Definition linking (s : thread_pool_t) : Z := match control s with M_link _ _ => 1 | _ => 0 end.

Definition holds_jobs (o : worker_t) : bool :=
  match at_ o with W_test | W_take => true | _ => false end.
Definition control_holds_jobs (s : thread_pool_t) : bool :=
  match control s with M_mark _ | M_mark_next _ | M_push _ => true | _ => false end.
Definition control_holds_workers (s : thread_pool_t) : bool :=
  match control s with M_idle_ones _ _ | M_running_ones _ _ => true | _ => false end.

Record pool_inv (s : thread_pool_t) : Prop := {
  pi_zero : wobj s !! 0 = None;
  pi_worker : map_Forall (fun _ => worker_inv) (wobj s);
  pi_dom : dom (wlinks s) = dom (wobj s);
  pi_prev : no_prev (wlinks s);
  pi_running : running_workers_num s = Z.of_nat (length (vals (omap busy (wobj s))));
  pi_total : total_workers_num s + linking s = Z.of_nat (length (vals (omap member (wobj s))));
  pi_link : forall w n, control s = M_link w n ->
      exists o, wobj s !! w = Some o /\ terminate o = 0;
  pi_holders : map_Forall (fun w o => holds_jobs o = bool_decide (jobs_mtx s = Some w)) (wobj s);
  pi_owner : forall w, jobs_mtx s = Some w -> w = 0 \/ is_Some (wobj s !! w);
  pi_control : control_holds_jobs s = bool_decide (jobs_mtx s = Some 0);
  pi_workers_mtx : workers_mtx s = if control_holds_workers s then Some 0 else None }.

(** ** The steps, one goal per branch *)

Ltac pool_cases H :=
  unfold pool_step, begin, control_step, thread_pool_cycle, new_worker, take_job, leave,
    link_worker, remove_begin, remove_one, mark_one, push_job, signal, get_worker in H;
  repeat (case_match; simplify_eq/=);
  repeat match goal with
    | H : (_ ≫= _) = Some _ |- _ => apply bind_Some in H as (? & ? & ?); simplify_eq/=
    | H : Some _ = Some _ |- _ => apply (inj Some) in H
    | H : Ok _ = Ok _ |- _ => injection H as H; subst
    | H : (_ ≫= _) = Ok _ |- _ => apply bind_Ok in H as (? & ? & ?); simplify_eq/=
    | H : match ?x with _ => _ end = Ok _ |- _ => destruct x eqn:?; simplify_eq/=
    | H : Ok _ = (if ?b then _ else _) |- _ => destruct b eqn:?; simplify_eq/=
    end.

(** A step of worker [w]: it moves from [o] to [o'], the counters follow, and it
    takes or releases jobs_mtx or leaves it. *)
Lemma pool_inv_worker s s' w o o' :
  pool_inv s -> wobj s !! w = Some o -> wobj s' = <[w := o']> (wobj s) -> worker_inv o' ->
  terminate o' = terminate o -> control s' = control s -> workers_mtx s' = workers_mtx s ->
  dom (wlinks s') = dom (wlinks s) -> no_prev (wlinks s') ->
  running_workers_num s' = running_workers_num s
    - weight (busy o) + weight (busy o') ->
  total_workers_num s' = total_workers_num s
    - weight (member o) + weight (member o') ->
  holds_jobs o' = bool_decide (jobs_mtx s' = Some w) ->
  jobs_mtx s' = jobs_mtx s \/ jobs_mtx s = None /\ jobs_mtx s' = Some w \/
    jobs_mtx s = Some w /\ jobs_mtx s' = None ->
  pool_inv s'.
Proof.
  intros [Hz Hw Hd Hp Hr Ht Hl Hh Hown Hc Hm] Ho E Hwi Ett Ec Em Ed Hp' Er Et Hj Ej.
  assert (Hw0 : w <> 0) by congruence.
  constructor.
  - rewrite E, lookup_insert_ne; auto.
  - rewrite E. by apply map_Forall_insert_2.
  - rewrite Ed, Hd, E, dom_insert_L. apply elem_of_dom_2 in Ho. set_solver.
  - done.
  - rewrite E, (count_insert busy (wobj s) w o o' Ho). lia.
  - rewrite E, (count_insert member (wobj s) w o o' Ho).
    replace (linking s') with (linking s) by (unfold linking; by rewrite Ec). lia.
  - intros v n Hv. rewrite Ec in Hv. destruct (Hl v n Hv) as (u & Hu & Hu0). rewrite E.
    destruct (decide (v = w)) as [->|].
    + exists o'. rewrite lookup_insert_eq. split; [done|]. simplify_eq. congruence.
    + exists u. rewrite lookup_insert_ne; auto.
  - rewrite E. intros v u Hv. destruct (decide (v = w)) as [->|Hne].
    + rewrite lookup_insert_eq in Hv. by simplify_eq.
    + rewrite lookup_insert_ne in Hv by done. rewrite (Hh v u Hv).
      apply bool_decide_ext. destruct Ej as [->|[[-> ->]|[-> ->]]]; naive_solver.
  - intros v Hv. rewrite E. destruct (decide (v = w)) as [->|Hne].
    + right. rewrite lookup_insert_eq. eauto.
    + rewrite lookup_insert_ne by done. apply Hown.
      destruct Ej as [<-|[[? ?]|[? ?]]]; [done|congruence..].
  - replace (control_holds_jobs s') with (control_holds_jobs s) by (unfold control_holds_jobs; by rewrite Ec).
    rewrite Hc. apply bool_decide_ext. destruct Ej as [->|[[-> ->]|[-> ->]]]; naive_solver.
  - rewrite Em, Hm. unfold control_holds_workers. by rewrite Ec.
Qed.

Lemma alter_alter_Some {A} (g f : A -> A) (i : Z) (m : gmap Z A) x :
  m !! i = Some x -> alter g i (alter f i m) = <[i := g (f x)]> m.
Proof.
  intros Hx. rewrite (alter_Some f i m x Hx), (alter_Some g i _ (f x)).
  - by rewrite insert_insert_eq.
  - by rewrite lookup_insert_eq.
Qed.

Lemma held (m : option Z) w : true = bool_decide (m = Some w) -> m = Some w.
Proof. intros H. symmetry in H. by apply bool_decide_eq_true in H. Qed.
Lemma holding (m : option Z) w : m = Some w -> true = bool_decide (m = Some w).
Proof. intros ->. symmetry. by apply bool_decide_eq_true. Qed.

(** Move the worker from a place whose flags are [Hwi]. *)
Ltac worker_flags Hwi :=
  constructor; cbn; destruct Hwi as [Hr Ht Hx]; cbn in Hr, Ht, Hx;
  solve [ lia | intuition congruence | naive_solver ].

Ltac worker_move Hp Ho Hwi :=
  eapply (pool_inv_worker _ _ _ _ _ Hp Ho);
  [ solve [ exact (alter_Some _ _ _ _ Ho) | exact (alter_alter_Some _ _ _ _ _ Ho) ] |..];
  cbn; try done; try (cbn; lia);
  try solve [ worker_flags Hwi | exact (pi_prev _ Hp) | by apply holding | auto
            | right; right; split; [by apply held|done] ].

Lemma take_job_inv w o s s' :
  pool_inv s -> wobj s !! w = Some o -> at_ o = W_take -> take_job w s = Ok s' -> pool_inv s'.
Proof.
  intros Hp Ho Ha H.
  pose proof (map_Forall_lookup_1 _ _ _ _ (pi_worker s Hp) Ho) as Hwi.
  pose proof (map_Forall_lookup_1 _ _ _ _ (pi_holders s Hp) Ho) as Hh.
  destruct o as [te ru p]. cbn in Ha, Hh, Hwi. subst p. cbn in Hh. unfold take_job in H.
  destruct (jobs s =? 0); simplify_eq.
  - worker_move Hp Ho Hwi.
  - apply bind_Ok in H as ([l j] & _ & H). simplify_eq. worker_move Hp Ho Hwi.
Qed.

Lemma leave_inv w o s s' :
  pool_inv s -> wobj s !! w = Some o -> at_ o = W_exit -> leave w s = Ok s' -> pool_inv s'.
Proof.
  intros Hp Ho Ha H.
  pose proof (map_Forall_lookup_1 _ _ _ _ (pi_worker s Hp) Ho) as Hwi.
  pose proof (map_Forall_lookup_1 _ _ _ _ (pi_holders s Hp) Ho) as Hh.
  destruct o as [te ru p]. cbn in Ha, Hh, Hwi. subst p. cbn in Hh. unfold leave in H.
  apply bind_Ok in H as ([l ws] & HR & H). simplify_eq.
  destruct (LIST_REMOVE_Ok _ _ _ _ _ (pi_prev s Hp) HR) as [Hd Hn]. worker_move Hp Ho Hwi.
Qed.

Lemma free_inv w o s :
  pool_inv s -> wobj s !! w = Some o -> at_ o = W_free ->
  pool_inv (s <| wobj ::= delete w |> <| wlinks ::= delete w |>).
Proof.
  intros Hp Ho Ha. pose proof Hp as [Hz Hw Hd Hpv Hr Ht Hl Hh Hown Hc Hm].
  constructor; cbn; auto.
  - rewrite lookup_delete_ne; [done|]. congruence.
  - by apply map_Forall_delete.
  - by rewrite !dom_delete_L, Hd.
  - intros x c. destruct (decide (x = w)) as [->|]; [by rewrite lookup_delete_eq|].
    rewrite lookup_delete_ne by done. apply Hpv.
  - rewrite (omap_delete_None _ w o) by (done || by unfold busy; rewrite Ha). done.
  - rewrite (omap_delete_None _ w o) by (done || by unfold member; rewrite Ha). done.
  - intros v n Hv. destruct (Hl v n Hv) as (u & Hu & Hu0). exists u. split; [|done].
    rewrite lookup_delete_ne; [done|]. intros ->. simplify_eq.
    destruct (map_Forall_lookup_1 _ _ _ _ Hw Ho) as [_ _ Hx]. rewrite Hx in Hu0; naive_solver.
  - by apply map_Forall_delete.
  - intros v Hv. destruct (decide (v = w)) as [->|]; [|rewrite lookup_delete_ne by done; auto].
    pose proof (map_Forall_lookup_1 _ _ _ _ Hh Ho) as H. cbn in H. unfold holds_jobs in H.
    rewrite Ha, (proj2 (bool_decide_eq_true _) Hv) in H. done.
Qed.

Lemma cycle_inv w s s' :
  pool_inv s -> thread_pool_cycle w s = Some (Ok s') -> pool_inv s'.
Proof.
  intros Hp H. unfold thread_pool_cycle in H. destruct (wobj s !! w) as [o|] eqn:Ho; [|done].
  pose proof (map_Forall_lookup_1 _ _ _ _ (pi_worker s Hp) Ho) as Hwi.
  pose proof (map_Forall_lookup_1 _ _ _ _ (pi_holders s Hp) Ho) as Hh.
  cbn beta in Hwi, Hh.
  destruct o as [te ru p]; destruct p; cbn in H, Hh; repeat case_match; simplify_eq.
  all: try solve [worker_move Hp Ho Hwi].
  - by eapply take_job_inv.
  - by eapply leave_inv.
  - by eapply free_inv.
Qed.

(** ** Steps of the control thread

    The control thread changes the workers only in two ways: it wakes them up, or
    asks them to terminate. *)

Inductive nudged (o : worker_t) : worker_t -> Prop :=
  | nudged_not : nudged o o
  | nudged_wake : nudged o (wake o)
  | nudged_terminate : nudged o (o <| terminate := 1 |>).

Definition all_nudged (m m' : gmap Z worker_t) : Prop :=
  forall w, option_Forall2 nudged (m !! w) (m' !! w).

Lemma all_nudged_refl m : all_nudged m m.
Proof. intros w. destruct (m !! w); repeat constructor. Qed.
Lemma all_nudged_broadcast m : all_nudged m (wake <$> m).
Proof. intros w. rewrite lookup_fmap. destruct (m !! w); repeat constructor. Qed.
Lemma all_nudged_alter f m w : (forall o, nudged o (f o)) -> all_nudged m (alter f w m).
Proof.
  intros Hf v. destruct (decide (v = w)) as [->|].
  - rewrite lookup_alter_eq. destruct (m !! w); constructor. auto.
  - rewrite lookup_alter_ne by done. destruct (m !! v); repeat constructor.
Qed.
Lemma all_nudged_wake m w : all_nudged m (alter wake w m).
Proof. apply all_nudged_alter. constructor. Qed.
Lemma all_nudged_set m w : all_nudged m (alter (fun o => o <| terminate := 1 |>) w m).
Proof. apply all_nudged_alter. constructor. Qed.

Create HintDb pool.
#[export] Hint Resolve all_nudged_refl all_nudged_broadcast all_nudged_wake all_nudged_set : pool.

Lemma nudged_omap {B} (f : worker_t -> option B) m m' :
  (forall o o', nudged o o' -> f o' = f o) -> all_nudged m m' -> omap f m' = omap f m.
Proof.
  intros Hf Hm. apply map_eq. intros w. rewrite !lookup_omap.
  destruct (Hm w) as [o o' H|]; cbn; [by apply Hf|done].
Qed.

Lemma nudged_dom m m' : all_nudged m m' -> dom m' = dom m.
Proof.
  intros Hm. apply set_eq. intros w. rewrite !elem_of_dom. destruct (Hm w).
  - split; eauto.
  - done.
Qed.

Lemma nudged_busy o o' : nudged o o' -> busy o' = busy o.
Proof. destruct o as [? ? []]; by intros []. Qed.
Lemma nudged_member o o' : nudged o o' -> member o' = member o.
Proof. destruct o as [? ? []]; by intros []. Qed.
Lemma nudged_hand o o' : nudged o o' -> hand o' = hand o.
Proof. destruct o as [? ? []]; by intros []. Qed.
Lemma nudged_holds o o' : nudged o o' -> holds_jobs o' = holds_jobs o.
Proof. destruct o as [? ? []]; by intros []. Qed.
Lemma nudged_worker_inv o o' : nudged o o' -> worker_inv o -> worker_inv o'.
Proof.
  intros Hn [Hr Ht Hx]. destruct o as [te ru p]. destruct Hn; [done|..].
  - destruct p; cbn in *; constructor; cbn; auto; naive_solver.
  - constructor; cbn in *; auto.
Qed.

Lemma pool_inv_control s s' :
  pool_inv s -> all_nudged (wobj s) (wobj s') ->
  dom (wlinks s') = dom (wlinks s) -> no_prev (wlinks s') ->
  running_workers_num s' = running_workers_num s ->
  total_workers_num s' + linking s' = total_workers_num s + linking s ->
  (forall w n, control s' = M_link w n -> exists o, wobj s' !! w = Some o /\ terminate o = 0) ->
  control_holds_jobs s' = bool_decide (jobs_mtx s' = Some 0) ->
  jobs_mtx s' = jobs_mtx s \/ jobs_mtx s = None /\ jobs_mtx s' = Some 0 \/
    jobs_mtx s = Some 0 /\ jobs_mtx s' = None ->
  workers_mtx s' = (if control_holds_workers s' then Some 0 else None) ->
  pool_inv s'.
Proof.
  intros [Hz Hw Hd Hp Hr Ht Hl Hh Hown Hc Hm] Hn Ed Hp' Er Et El Ec Ej Em.
  constructor; auto.
  - pose proof (Hn 0) as H0. rewrite Hz in H0. by inversion H0.
  - intros w o' Ho'. pose proof (Hn w) as H0. rewrite Ho' in H0. inversion H0 as [o ? Hoo E|]; subst.
    eapply nudged_worker_inv; [done|]. eapply (map_Forall_lookup_1 _ _ _ _ Hw). done.
  - rewrite Ed, Hd. symmetry. by apply nudged_dom.
  - rewrite (nudged_omap busy (wobj s)) by eauto using nudged_busy. lia.
  - rewrite (nudged_omap member (wobj s)) by eauto using nudged_member. lia.
  - intros w o' Ho'. pose proof (Hn w) as H0. rewrite Ho' in H0. inversion H0 as [o ? Hoo E|]; subst.
    symmetry in E. rewrite (nudged_holds _ _ Hoo), (map_Forall_lookup_1 _ _ _ _ Hh E).
    assert (w <> 0) by congruence. apply bool_decide_ext.
    destruct Ej as [->|[[-> ->]|[-> ->]]]; naive_solver.
  - intros w Hj. rewrite <- (elem_of_dom (wobj s')), (nudged_dom _ _ Hn), elem_of_dom.
    destruct Ej as [Ej|[[_ Ej]|[_ Ej]]]; [apply Hown; congruence|left; congruence|congruence].
Qed.

Lemma begin_inv c s s' : pool_inv s -> begin c s = Some (Ok s') -> pool_inv s'.
Proof.
  intros Hp H. pose proof Hp as [_ _ _ Hpv _ _ _ _ _ Hc Hm]. unfold begin in H.
  destruct (control s) eqn:E; try done.
  unfold control_holds_jobs in Hc. unfold control_holds_workers in Hm. rewrite E in Hc, Hm.
  destruct c; repeat case_match; simplify_eq;
    eapply (pool_inv_control s); cbn; unfold linking; rewrite ?E; try done; auto with pool.
Qed.

Lemma new_worker_inv n ch s s' :
  pool_inv s -> control s = M_add n -> new_worker n ch s = Some (Ok s') -> pool_inv s'.
Proof.
  intros Hp E H. pose proof Hp as [Hz Hw Hd Hpv Hr Ht Hl Hh Hown Hc Hm]. unfold new_worker in H.
  unfold linking in Ht. unfold control_holds_jobs in Hc. unfold control_holds_workers in Hm.
  rewrite E in Hc, Hm, Ht.
  repeat case_match; simplify_eq;
    try solve [eapply (pool_inv_control s); cbn; unfold linking; rewrite ?E; try done; auto with pool].
  rename w into w0. assert (w0 <> 0 /\ wobj s !! w0 = None) as [Hw0 Hn].
  { rewrite orb_false_iff, Z.eqb_neq, bool_decide_eq_false in *. rewrite eq_None_not_Some. tauto. }
  constructor; cbn; auto.
  - by rewrite lookup_insert_ne.
  - apply map_Forall_insert_2; [|done]. constructor; cbn; naive_solver.
  - by rewrite !dom_insert_L, Hd.
  - intros x c. destruct (decide (x = w0)) as [->|].
    + rewrite lookup_insert_eq. by intros [= <-].
    + rewrite lookup_insert_ne by done. apply Hpv.
  - rewrite count_new by done. cbn. lia.
  - unfold linking. cbn. rewrite count_new by done. cbn. lia.
  - intros v k [= <- <-]. exists (mkWorker 0 0 W_while). by rewrite lookup_insert_eq.
  - apply map_Forall_insert_2; [|done]. cbn.
    symmetry. apply bool_decide_eq_false. intros Hj. destruct (Hown w0 Hj) as [|[? ?]]; congruence.
  - intros v Hj. destruct (Hown v Hj) as [|[o Ho]]; [by left|right].
    destruct (decide (v = w0)) as [->|]; [rewrite lookup_insert_eq|rewrite lookup_insert_ne by done]; eauto.
Qed.

Lemma link_worker_inv w n s s' :
  pool_inv s -> control s = M_link w n -> link_worker w n s = Ok s' -> pool_inv s'.
Proof.
  intros Hp E H. pose proof Hp as [Hz Hw Hd Hpv Hr Ht Hl Hh Hown Hc Hm]. unfold link_worker in H.
  apply bind_Ok in H as ([l ws] & HA & H). simplify_eq.
  apply LIST_ADD_Ok in HA as (-> & D & N).
  unfold control_holds_jobs in Hc. unfold control_holds_workers in Hm. rewrite E in Hc, Hm.
  eapply (pool_inv_control s); cbn; unfold linking; rewrite ?E; try done; auto with pool. lia.
Qed.

(** The loops over the workers. *)
Ltac control_move Hp E :=
  let Hc := fresh "Hc" in let Hm := fresh "Hm" in
  pose proof (pi_control _ Hp) as Hc; pose proof (pi_workers_mtx _ Hp) as Hm;
  unfold control_holds_jobs in Hc; unfold control_holds_workers in Hm;
  rewrite E in Hc, Hm;
  eapply (pool_inv_control _ _ Hp); cbn; unfold linking; rewrite ?E; try done; auto with pool;
  try solve [ exact (pi_prev _ Hp) | right; right; split; [by apply held|done] ].

Lemma remove_one_inv flag w n again s s' :
  pool_inv s -> control_holds_workers s = true ->
  (forall w n, again w n = M_idle_ones w n) \/ (forall w n, again w n = M_running_ones w n) ->
  remove_one flag w n again s = Ok s' -> pool_inv s'.
Proof.
  intros Hp Hcw Ha H. unfold remove_one in H.
  apply bind_Ok in H as (o & Ho & H). apply bind_Ok in H as (nx & Hnx & H).
  unfold control_holds_workers in Hcw.
  destruct (control s) eqn:E; try done; destruct (_ && _); simplify_eq;
    destruct Ha as [Ha|Ha]; rewrite ?Ha; control_move Hp E.
Qed.

Lemma push_job_inv ch job s s1 s' :
  pool_inv s -> control s = M_push job -> signal ch s = Some s1 -> push_job job s1 = Ok s' ->
  pool_inv s'.
Proof.
  intros Hp E Hs H. unfold push_job in H. apply bind_Ok in H as ([l j] & HA & H). simplify_eq.
  unfold signal in Hs. repeat case_match; simplify_eq; control_move Hp E.
Qed.

Lemma control_inv ch s s' : pool_inv s -> control_step ch s = Some (Ok s') -> pool_inv s'.
Proof.
  intros Hp H. unfold control_step in H. destruct (control s) eqn:E; try done;
    repeat case_match; simplify_eq; try solve [control_move Hp E].

  - by eapply new_worker_inv.
  - by eapply link_worker_inv.
  - apply bind_Ok in H as (x & _ & H). simplify_eq. control_move Hp E.
  - eapply remove_one_inv; [done| |by left|done]. by unfold control_holds_workers; rewrite E.
  - eapply remove_one_inv; [done| |by right|done]. by unfold control_holds_workers; rewrite E.
  - unfold mark_one in H. apply bind_Ok in H as (x & _ & H). simplify_eq. control_move Hp E.
  - apply bind_Ok in H as (x & _ & H). simplify_eq. control_move Hp E.
  - apply bind_Some in H as (s1 & Hs & H). simplify_eq. by eapply push_job_inv.
Qed.

Lemma pool_step_inv l s s' : pool_inv s -> pool_step l s = Some (Ok s') -> pool_inv s'.
Proof.
  intros Hp. destruct l as [c|ch|w|w]; cbn [pool_step].
  - by apply begin_inv.
  - by apply control_inv.
  - by apply cycle_inv.
  - intros H. case_match; simplify_eq. pose proof (pi_control _ Hp). pose proof (pi_workers_mtx _ Hp).
    eapply (pool_inv_control s); cbn; auto with pool; [exact (pi_prev _ Hp)|].
    intros v n Hv. destruct (pi_link _ Hp v n Hv) as (o & Ho & Ht).
    rewrite lookup_alter, Ho. destruct (decide (w = v)) as [->|]; [|by exists o].
    rewrite Ho. exists (wake o). split; [done|]. rewrite <- Ht. destruct o as [? ? []]; reflexivity.
Qed.

Lemma create_inv n : pool_inv (thread_pool_create n).
Proof.
  constructor; cbn; done.
Qed.

Lemma reaches_inv P s s' : pool_inv s -> reaches P s s' -> pool_inv s'.
Proof. intros Hs. induction 1; [done|]. eauto using pool_step_inv. Qed.

Lemma pool_reachable_inv s : reachable s -> pool_inv s.
Proof. intros [n H]. eapply reaches_inv; [apply create_inv|done]. Qed.

(** ** The jobs *)

Lemma jobs_inv_ext s s' q :
  jobs_inv s q -> jlinks s' = jlinks s -> jobs s' = jobs s ->
  waiting_jobs_num s' = waiting_jobs_num s -> added s' = added s -> ran s' = ran s ->
  in_hand s' = in_hand s -> pending s' = pending s -> jobs_inv s' q.
Proof.
  intros [] E1 E2 E3 E4 E5 E6 E7. constructor; by rewrite ?E1, ?E2, ?E3, ?E4, ?E5, ?E6, ?E7.
Qed.

(** The worker at the head of the queue takes the newest job. *)
Lemma take_job_jobs w o s q :
  jobs_inv s q -> wobj s !! w = Some o -> at_ o = W_take ->
  exists s', take_job w s = Ok s' /\ workers_mtx s' = workers_mtx s /\ jobs_mtx s' = None /\
    match q with
    | [] => jobs_inv s' [] /\ wobj s' = <[w := o <| at_ := W_while |>]> (wobj s)
    | job :: q' => jobs_inv s' q' /\ wobj s' = <[w := o <| at_ := W_start job |>]> (wobj s) /\
        jworker s' !! job = Some w
    end.
Proof.
  intros [Hch Hpv Hz Hnd Hal Hwt Hac] Ho Ha. unfold take_job, goto.
  assert (Hh : hand o = None) by (unfold hand; by rewrite Ha).
  destruct q as [|job q]; cbn in Hch.
  - rewrite Hch. cbn. eexists. split; [done|]. split; [done|]. split; [done|]. cbn.
    split; [|by apply alter_Some].
    eapply (jobs_inv_ext s); cbn; try done.
    unfold in_hand; cbn. rewrite (alter_Some _ _ _ _ Ho). f_equal. by eapply omap_same.
  - destruct Hch as (E & Hj0 & c & Hc & Hch). rewrite E, (proj2 (Z.eqb_neq _ _) Hj0).
    assert (Hcp : prev c = 0).
    { pose proof (Hpv job ltac:(by left)) as Hp. unfold prv in Hp. rewrite Hc in Hp. by simplify_eq/=. }
    destruct (LIST_REMOVE_first (jlinks s) job q c) as [HR Hq]; auto.
    { cbn. split; [done|]. split; [done|]. by exists c. }
    rewrite HR. cbn. eexists. split; [done|]. split; [done|]. split; [done|]. cbn.
    split; [|split; [by apply alter_Some|by rewrite lookup_insert_eq]].
    assert (Hin : vals (omap hand (alter (fun o0 => o0 <| at_ := W_start job |>) w (wobj s)))
                    ≡ₚ job :: in_hand s).
    { rewrite (alter_Some _ _ _ _ Ho). apply vals_enter; [|done]. by rewrite lookup_omap, Ho. }
    assert (Hps : q ++ vals (omap hand (alter (fun o0 => o0 <| at_ := W_start job |>) w (wobj s)))
                    ++ pending s ≡ₚ (job :: q) ++ in_hand s ++ pending s).
    { rewrite Hin. cbn. by rewrite <- Permutation_middle. }
    constructor; cbn.
    + done.
    + intros x Hx. unfold prv. destruct (decide (x = job)) as [->|Hne].
      { cbn in Hnd. apply NoDup_cons in Hnd. set_solver. }
      pose proof (Hpv x ltac:(by right)) as Hp. unfold prv in Hp.
      destruct (jlinks s !! x) as [d|] eqn:Hd; [|done]. unfold unlinked.
      rewrite lookup_insert_ne by done. rewrite lookup_alter.
      destruct (decide (next c = x)) as [->|]; rewrite Hd; [done|]. done.
    + apply not_elem_of_dom. rewrite unlinked_dom by eauto. by apply not_elem_of_dom.
    + unfold in_hand, pending. cbn. rewrite Hps. done.
    + intros j. unfold in_hand, pending. cbn. rewrite Hps. intros Hj.
      apply elem_of_dom. rewrite unlinked_dom by eauto. by apply elem_of_dom, Hal.
    + rewrite Hwt. cbn. lia.
    + unfold in_hand. cbn. rewrite Hin, Hac. cbn. by rewrite Permutation_middle.
Qed.

Lemma run_job_jobs w o job s q :
  jobs_inv s q -> wobj s !! w = Some o -> at_ o = W_run job ->
  jobs_inv (goto w W_done (s <| jlinks ::= delete job |> <| ran ::= cons (w, job) |>)) q.
Proof.
  intros [Hch Hpv Hz Hnd Hal Hwt Hac] Ho Ha. unfold goto.
  assert (Hin : in_hand s ≡ₚ
            job :: vals (omap hand (alter (fun o0 => o0 <| at_ := W_done |>) w (wobj s)))).
  { rewrite (alter_Some _ _ _ _ Ho). apply (vals_leave hand w o); [done| |done].
    unfold hand. by rewrite Ha. }
  assert (Hps : q ++ in_hand s ++ pending s ≡ₚ
            job :: q ++ vals (omap hand (alter (fun o0 => o0 <| at_ := W_done |>) w (wobj s)))
              ++ pending s).
  { rewrite Hin. cbn. by rewrite <- Permutation_middle. }
  rewrite Hps in Hnd. apply NoDup_cons in Hnd as [Hnj Hnd].
  constructor; cbn; unfold in_hand, pending; cbn; auto.
  - eapply chain_frame; [|done]. intros x Hx. rewrite lookup_delete_ne; [done|]. set_solver.
  - intros x Hx. unfold prv. rewrite lookup_delete_ne by set_solver. by apply Hpv.
  - destruct (decide (job = 0)) as [->|]; [apply lookup_delete_eq|by rewrite lookup_delete_ne].
  - intros j Hj. rewrite lookup_delete_ne by (intros ->; set_solver). apply Hal. rewrite Hps. by right.
  - rewrite Hac, Hin. cbn. rewrite <- !Permutation_middle. done.
Qed.

Lemma cycle_jobs w s q :
  jobs_inv s q -> forall s', thread_pool_cycle w s = Some (Ok s') -> exists q', jobs_inv s' q'.
Proof.
  intros Hq s' H. unfold thread_pool_cycle in H. destruct (wobj s !! w) as [o|] eqn:Ho; [|done].
  destruct (at_ o) eqn:Ha; repeat case_match; simplify_eq;
    try solve [exists q; eapply (jobs_inv_ext s); try done; unfold in_hand, goto; cbn;
      rewrite ?(alter_alter_Some _ _ _ _ _ Ho), ?(alter_Some _ _ _ _ Ho); f_equal;
      eapply omap_same; [done|]; unfold hand; rewrite Ha; done].
  - destruct (take_job_jobs w o s q Hq Ho Ha) as (s1 & E & _ & _ & Hs).
    rewrite E in H. injection H as <-. destruct q as [|job q]; destruct Hs as [Hs _]; by eexists.
  - exists q. by eapply run_job_jobs.
  - unfold leave in H. apply bind_Ok in H as ([l ws] & _ & H). simplify_eq.
    exists q. eapply (jobs_inv_ext s); try done; unfold in_hand, goto; cbn.
    rewrite (alter_Some _ _ _ _ Ho). f_equal. eapply omap_same; [done|]. unfold hand. by rewrite Ha.
  - exists q. eapply (jobs_inv_ext s); try done. unfold in_hand; cbn. f_equal.
    eapply omap_delete_None; [done|]. unfold hand. by rewrite Ha.
Qed.

(** A step that only nudges workers and keeps the job data. *)
Lemma jobs_inv_nudged s s' q :
  jobs_inv s q -> all_nudged (wobj s) (wobj s') -> jlinks s' = jlinks s -> jobs s' = jobs s ->
  waiting_jobs_num s' = waiting_jobs_num s -> added s' = added s -> ran s' = ran s ->
  pending s' = pending s -> jobs_inv s' q.
Proof.
  intros Hq Hn ? ? ? ? ? ?. eapply (jobs_inv_ext s); try done.
  unfold in_hand. f_equal. apply nudged_omap; [|done]. apply nudged_hand.
Qed.

Ltac jobs_keep s :=
  eapply (jobs_inv_nudged s); cbn; unfold pending; cbn;
  repeat match goal with H : control s = _ |- _ => rewrite H; clear H end; auto with pool.

Lemma begin_jobs c s s' q :
  jobs_inv s q -> begin c s = Some (Ok s') -> jobs_inv s' q.
Proof.
  intros Hq H. unfold begin in H. destruct (control s) eqn:E; try done.
  destruct c; repeat case_match; simplify_eq; try solve [jobs_keep s].
  match goal with H : _ || _ = false |- _ => apply orb_false_iff in H as [Hj%Z.eqb_neq Hn] end.
  apply bool_decide_eq_false, eq_None_not_Some in Hn.
  destruct Hq as [Hch Hpv Hz Hnd Hal Hwt Hac]. unfold pending in Hnd, Hal. rewrite E in Hnd, Hal.
  rewrite app_nil_r in Hnd, Hal.
  assert (Hnew : job ∉ q ++ in_hand s).
  { intros Hin. apply Hal in Hin. rewrite Hn in Hin. by destruct Hin. }
  assert (Hps : q ++ in_hand s ++ [job] ≡ₚ job :: q ++ in_hand s).
  { rewrite (Permutation_app_comm (in_hand s)). cbn. by rewrite <- Permutation_middle. }
  constructor; cbn; auto.
  - eapply chain_frame; [|done]. intros x Hx. rewrite lookup_insert_ne; [done|]. set_solver.
  - intros x Hx. unfold prv. rewrite lookup_insert_ne by set_solver. by apply Hpv.
  - by rewrite lookup_insert_ne.
  - unfold pending, in_hand; cbn. fold (in_hand s). rewrite Hps. by apply NoDup_cons.
  - unfold pending, in_hand; cbn. fold (in_hand s). intros j. rewrite Hps. intros Hin.
    destruct (decide (job = j)) as [->|]; [rewrite lookup_insert_eq; eauto|].
    rewrite lookup_insert_ne by done. apply Hal. set_solver.
Qed.

Lemma push_job_jobs job s q :
  jobs_inv s q -> control s = M_push job ->
  exists s', push_job job s = Ok s' /\ jobs_inv s' (job :: q) /\ wobj s' = wobj s.
Proof.
  intros [Hch Hpv Hz Hnd Hal Hwt Hac] E. unfold push_job.
  unfold pending in Hnd, Hal. rewrite E in Hnd, Hal.
  assert (Hps : q ++ in_hand s ++ [job] ≡ₚ job :: q ++ in_hand s).
  { rewrite (Permutation_app_comm (in_hand s)). cbn. by rewrite <- Permutation_middle. }
  assert (is_Some (jlinks s !! job)) as Hj by (apply Hal; rewrite Hps; by left).
  rewrite Hps in Hnd. apply NoDup_cons in Hnd as [Hnew Hnd].
  assert (job <> 0) by (intros ->; rewrite Hz in Hj; by destruct Hj).
  destruct (LIST_ADD_spec (jlinks s) (jobs s) q job) as [HA Hq]; [done..|set_solver|done|].
  rewrite HA. cbn. eexists. split; [done|]. split; [|done].
  constructor; cbn [jlinks jobs waiting_jobs_num added ran upd set_jlinks set_jobs
    set_waiting_jobs_num set_added set_jobs_mtx set_control].
  - done.
  - intros x Hx. unfold prv. destruct (decide (x = job)) as [->|Hne].
    + by rewrite lookup_insert_eq.
    + rewrite lookup_insert_ne by done. apply Hpv. set_solver.
  - by rewrite lookup_insert_ne.
  - unfold pending, in_hand; cbn. rewrite app_nil_r. by apply NoDup_cons.
  - unfold pending, in_hand; cbn. rewrite app_nil_r. fold (in_hand s). intros j Hin.
    destruct (decide (job = j)) as [->|]; [rewrite lookup_insert_eq; eauto|].
    rewrite lookup_insert_ne by done. apply Hal. rewrite Hps. done.
  - rewrite Hwt. cbn. lia.
  - unfold in_hand; cbn. fold (in_hand s). by rewrite Hac.
Qed.

Lemma signal_nudged ch s s' :
  signal ch s = Some s' -> exists m, s' = s <| wobj := m |> /\ all_nudged (wobj s) m.
Proof.
  unfold signal. intros H. repeat case_match; simplify_eq.
  - exists (wobj s'). split; [by destruct s'|]. auto with pool.
  - eexists. split; [done|]. auto with pool.
Qed.

Lemma control_jobs ch s s' q :
  jobs_inv s q -> control_step ch s = Some (Ok s') -> exists q', jobs_inv s' q'.
Proof.
  intros Hq H. unfold control_step in H.
  destruct (control s) eqn:E; try done.
  9: { repeat case_match; simplify_eq. exists q. jobs_keep s. }
  9: { apply bind_Some in H as (s1 & Hs & H). simplify_eq.
        apply signal_nudged in Hs as (m & -> & Hm).
        assert (jobs_inv (s <| wobj := m |>) q) as Hq1 by (eapply (jobs_inv_nudged s); done).
        destruct (push_job_jobs job _ q Hq1 E) as (s2 & E2 & Hq2 & _).
        rewrite E2 in H. injection H as <-. by eexists. }
  all: exists q; unfold link_worker, remove_begin, remove_one, mark_one, get_worker in H;
    repeat case_match; simplify_eq; try solve [jobs_keep s].
  - unfold new_worker in H. repeat case_match; simplify_eq; try solve [jobs_keep s].
    match goal with H : _ || _ = false |- _ => apply orb_false_iff in H as [Hj%Z.eqb_neq Hn] end.
    apply bool_decide_eq_false, eq_None_not_Some in Hn.
    eapply (jobs_inv_ext s); try done; cbn.
    + unfold in_hand; cbn. f_equal. by apply omap_insert_none.
    + unfold pending. by rewrite E.
  - apply bind_Ok in H as ([l ws] & _ & H). simplify_eq. jobs_keep s.
  - apply bind_Ok in H as (x & _ & H). simplify_eq. jobs_keep s.
  - apply bind_Ok in H as (x & _ & H). apply bind_Ok in H as (y & _ & H).
    destruct (_ && _); simplify_eq; jobs_keep s.
  - apply bind_Ok in H as (x & _ & H). apply bind_Ok in H as (y & _ & H).
    destruct (_ && _); simplify_eq; jobs_keep s.
  - apply bind_Ok in H as (x & _ & H). simplify_eq. jobs_keep s.
  - apply bind_Ok in H as (x & _ & H). simplify_eq. jobs_keep s.
Qed.

Lemma step_jobs l s s' q :
  jobs_inv s q -> pool_step l s = Some (Ok s') -> exists q', jobs_inv s' q'.
Proof.
  intros Hq H. destruct l as [c|ch|w|w]; cbn [pool_step] in H.
  - exists q. by eapply begin_jobs.
  - by eapply control_jobs.
  - by eapply cycle_jobs.
  - case_match; simplify_eq. exists q. jobs_keep s.
Qed.

Lemma create_jobs n : jobs_inv (thread_pool_create n) [].
Proof. constructor; cbn; try done; [..|constructor|]; by intros x Hx%not_elem_of_nil. Qed.

Lemma reaches_jobs P s s' q : jobs_inv s q -> reaches P s s' -> exists q', jobs_inv s' q'.
Proof.
  intros Hs. induction 1 as [|s1 s2 l _ [q1 IH] _ H]; [by exists q|].
  by eapply step_jobs.
Qed.

Lemma reachable_jobs s : reachable s -> exists q, jobs_inv s q.
Proof. intros [n H]. eapply reaches_jobs; [apply create_jobs|done]. Qed.

(** ** No job waits while the workers sleep

    A worker that pthread_cond_wait has woken, or that has found jobs, will take
    one without looking at anything else. *)

Definition summoned (o : worker_t) : option unit :=
  match at_ o with W_wake | W_take => Some tt | _ => None end.

Definition summons (m : gmap Z worker_t) : Z := Z.of_nat (length (vals (omap summoned m))).

Definition nobody_sleeps (m : gmap Z worker_t) : Prop :=
  map_Forall (fun _ o => at_ o <> W_wait) m.

Definition awake_inv (s : thread_pool_t) : Prop :=
  nobody_sleeps (wobj s) \/ waiting_jobs_num s <= summons (wobj s).

Lemma awake_worker s s' w o o' :
  awake_inv s -> wobj s !! w = Some o -> wobj s' = <[w := o']> (wobj s) ->
  at_ o' <> W_wait ->
  (waiting_jobs_num s' - weight (summoned o') <= waiting_jobs_num s - weight (summoned o)
   \/ waiting_jobs_num s' <= 0) -> awake_inv s'.
Proof.
  intros Hs Ho E Hn Hw. unfold awake_inv. rewrite E. destruct Hs as [Hs|Hs].
  - left. by apply map_Forall_insert_2.
  - right. unfold summons in *. pose proof (count_insert summoned _ _ _ o' Ho). destruct Hw; lia.
Qed.

Lemma awake_cycle w s s' q :
  jobs_inv s q -> awake_inv s -> thread_pool_cycle w s = Some (Ok s') -> awake_inv s'.
Proof.
  intros Hq Hs H. unfold thread_pool_cycle in H. destruct (wobj s !! w) as [o|] eqn:Ho; [|done].
  destruct (at_ o) eqn:Ha; repeat case_match; simplify_eq;
    try solve [eapply (awake_worker s _ w o); [done|done
      | cbn; first [exact (alter_alter_Some _ _ _ _ _ Ho) | exact (alter_Some _ _ _ _ Ho)]
      | cbn; by try case_match | left; unfold summoned; cbn; rewrite Ha; cbn; repeat case_match; cbn; lia]].
  - right. cbn. apply Z.eqb_eq in H0. unfold summons. lia.
  - destruct (take_job_jobs w o s q Hq Ho Ha) as (s1 & E & _ & _ & Hx).
    rewrite E in H. injection H as <-. pose proof (ji_waiting _ _ Hq) as Hwq.
    destruct q as [|job q]; [destruct Hx as [Hq1 Hx]|destruct Hx as (Hq1 & Hx & _)];
      pose proof (ji_waiting _ _ Hq1) as Hwq1; eapply (awake_worker s _ w o); try done.
    + right. by rewrite Hwq1.
    + left. unfold summoned. cbn. rewrite Ha, Hwq, Hwq1. cbn. lia.
  - unfold leave in H. apply bind_Ok in H as ([l ws] & _ & H). simplify_eq.
    eapply (awake_worker s _ w o); [done|done|cbn; exact (alter_Some _ _ _ _ Ho)|done|].
    left. unfold summoned; cbn. rewrite Ha. cbn. lia.
  - destruct Hs as [Hs|Hs]; [left|right]; cbn.
    + by apply map_Forall_delete.
    + unfold summons in *. rewrite (omap_delete_None _ w o); [done|done|].
      unfold summoned. by rewrite Ha.
Qed.

Lemma awake_broadcast m : nobody_sleeps (wake <$> m).
Proof.
  intros w o. rewrite lookup_fmap. destruct (m !! w) as [[te ru p]|]; [|done].
  intros [= <-]. by destruct p.
Qed.

(** Waking one sleeper makes up for one more job. *)
Lemma awake_wake s w m :
  m = wobj s -> asleep s w = true -> nobody_sleeps (alter wake w m) \/
    forall k, k <= summons m -> k + 1 <= summons (alter wake w m).
Proof.
  intros -> H. unfold asleep in H. destruct (wobj s !! w) as [o|] eqn:Ho; [|done].
  apply bool_decide_eq_true in H. right. intros k Hk. rewrite (alter_Some _ _ _ _ Ho).
  unfold summons in *. rewrite (count_insert _ _ _ _ _ Ho).
  assert (summoned o = None) as -> by (unfold summoned; by rewrite H).
  assert (summoned (wake o) = Some tt) as -> by (unfold summoned, wake; by rewrite H). cbn. lia.
Qed.
