(* ===== verification/ThreadPoolSpec.v ===== *)
(** * What the thread pool of threadpool/thread_pool.c guarantees

    The theorems about the transition system of ThreadPool.v: the accounting of
    the jobs, the mutexes and the counters, the wake-ups, the worker that
    remove_workers leaves alone, where a thread can access freed memory, and the
    executions in which destroying or shrinking the pool goes wrong. *)

From S2P Require Import Prelude Iqueue Llist Counting ThreadPool.

(** ** Wake-ups *)

Lemma awake_same s s' :
  awake_inv s -> waiting_jobs_num s' = waiting_jobs_num s ->
  all_nudged (wobj s) (wobj s') -> (forall w o o', wobj s !! w = Some o -> wobj s' !! w = Some o' -> at_ o' = at_ o) ->
  awake_inv s'.
Proof.
  intros Hs Ew Hn Ha. destruct Hs as [Hs|Hs]; [left|right].
  - intros w o' Ho'. pose proof (Hn w) as H0. rewrite Ho' in H0. inversion H0 as [o ? Hoo E|]; subst.
    rewrite (Ha w o o') by done. by eapply (map_Forall_lookup_1 _ _ _ _ Hs).
  - rewrite Ew. unfold summons in *. replace (omap summoned (wobj s')) with (omap summoned (wobj s)); [done|].
    apply map_eq. intros w. rewrite !lookup_omap. pose proof (Hn w) as H0. destruct (wobj s !! w) as [o|] eqn:E.
    + inversion H0 as [? o' Hoo Ex|]; subst. cbn. unfold summoned. by rewrite (Ha w o o').
    + inversion H0; subst. done.
Qed.

Lemma awake_keep s s' :
  awake_inv s -> waiting_jobs_num s' = waiting_jobs_num s -> wobj s' = wobj s -> awake_inv s'.
Proof. intros Hs Ew E. unfold awake_inv. by rewrite Ew, E. Qed.

Lemma awake_terminated w s : awake_inv s -> awake_inv (set_terminated w s).
Proof.
  intros Hs. eapply awake_same; [done|done|cbn; auto with pool|]. cbn.
  intros v o o' Ho. rewrite lookup_alter, Ho. destruct (decide (w = v)) as [->|]; [|congruence].
  rewrite Ho. by intros [= <-].
Qed.

Lemma nobody_sleeps_wake w m : nobody_sleeps m -> nobody_sleeps (alter wake w m).
Proof.
  intros Hm v o'. rewrite lookup_alter. destruct (decide (w = v)) as [->|]; [|apply Hm].
  destruct (m !! v) as [o|] eqn:Ho; [|done]. intros [= <-].
  pose proof (map_Forall_lookup_1 _ _ _ _ Hm Ho). unfold wake.
  by destruct (at_ o) eqn:Ea; cbn; rewrite ?Ea.
Qed.

Lemma asleep_nobody s :
  bool_decide (map_Forall (fun w _ => asleep s w = false) (wobj s)) = true ->
  nobody_sleeps (wobj s).
Proof.
  intros H%bool_decide_eq_true w o Ho. specialize (H w o Ho). cbn in H.
  unfold asleep in H. rewrite Ho in H. by apply bool_decide_eq_false in H.
Qed.

Lemma awake_control ch s s' q :
  jobs_inv s q -> awake_inv s -> control_step ch s = Some (Ok s') -> awake_inv s'.
Proof.
  intros Hq Hs H. unfold control_step in H.
  destruct (control s) eqn:E; try done; repeat case_match; simplify_eq;
    try solve [eapply awake_keep; [done|done|done]];
    try solve [left; apply awake_broadcast].
  - unfold new_worker in H. repeat case_match; simplify_eq; try solve [by eapply awake_keep].
    match goal with H : _ || _ = false |- _ => apply orb_false_iff in H as [_ Hn] end.
    apply bool_decide_eq_false, eq_None_not_Some in Hn.
    destruct Hs as [Hs|Hs]; [left|right]; cbn.
    + by apply map_Forall_insert_2.
    + unfold summons in *. rewrite count_new by done. cbn. lia.
  - apply bind_Ok in H as ([l ws] & _ & H). simplify_eq. by eapply awake_keep.
  - apply bind_Ok in H as (x & _ & H). simplify_eq. by eapply awake_keep.
  - apply bind_Ok in H as (x & _ & H). apply bind_Ok in H as (y & _ & H).
    destruct (_ && _); simplify_eq; [|by eapply awake_keep].
    eapply (awake_keep (set_terminated w s)); [by apply awake_terminated|done..].
  - apply bind_Ok in H as (x & _ & H). apply bind_Ok in H as (y & _ & H).
    destruct (_ && _); simplify_eq; [|by eapply awake_keep].
    eapply (awake_keep (set_terminated w s)); [by apply awake_terminated|done..].
  - apply bind_Ok in H as (x & _ & H). simplify_eq.
    eapply (awake_keep (set_terminated w s)); [by apply awake_terminated|done..].
  - apply bind_Ok in H as (x & _ & H). simplify_eq. by eapply awake_keep.
  - apply bind_Some in H as (s1 & Hs1 & H). simplify_eq.
    unfold push_job in H. apply bind_Ok in H as ([l j] & _ & H). simplify_eq.
    unfold signal in Hs1. repeat case_match; simplify_eq.
    + left. by apply asleep_nobody.
    + destruct (awake_wake s w _ eq_refl ltac:(done)) as [Hw|Hw]; [by left|].
      destruct Hs as [Hs|Hs].
      * left. by apply nobody_sleeps_wake.
      * right. cbn. by apply Hw.
Qed.

Lemma step_awake l s s' q :
  jobs_inv s q -> awake_inv s -> pool_step l s = Some (Ok s') -> awake_inv s'.
Proof.
  intros Hq Hs H. destruct l as [c|ch|w|w]; cbn [pool_step] in H.
  - unfold begin in H. repeat case_match; simplify_eq; by eapply awake_keep.
  - by eapply awake_control.
  - by eapply awake_cycle.
  - case_match; simplify_eq.
    destruct (awake_wake s w _ eq_refl ltac:(done)) as [Hw|Hw]; [by left|].
    destruct Hs as [Hs|Hs].
    + left. by apply nobody_sleeps_wake.
    + right. cbn. specialize (Hw _ Hs). cbn in Hw. lia.
Qed.

Lemma reachable_awake s : reachable s -> awake_inv s.
Proof.
  intros [n H]. enough (awake_inv s /\ exists q, jobs_inv s q) by tauto.
  induction H as [|s1 s2 l _ [IH [q Hq]] _ H].
  - split; [by left|]. exists []. apply create_jobs.
  - split; [by eapply step_awake|by eapply step_jobs].
Qed.

(** ** The worker that stays

    Without thread_pool_destroy, and with counts that are not negative,
    terminate_workers_num counts the workers that were asked to leave. *)

Definition gentle (l : label) : Prop :=
  match l with
  | Call Destroy => False
  | Call (Remove_workers n) => 0 <= n
  | _ => True
  end.

(** A worker nobody has asked to terminate, and one that was asked to and has not
    been removed yet. *)
Definition staying (o : worker_t) : option unit := if terminate o =? 0 then Some tt else None.
Definition leaving (o : worker_t) : option unit :=
  match at_ o with W_free => None | _ => if terminate o =? 0 then None else Some tt end.

Definition count (f : worker_t -> option unit) (m : gmap Z worker_t) : Z :=
  Z.of_nat (length (vals (omap f m))).

Definition active (s : thread_pool_t) : Z := count staying (wobj s).

Lemma count_split (f g h : worker_t -> option unit) m :
  map_Forall (fun _ o => weight (f o) = weight (g o) + weight (h o)) m ->
  count f m = count g m + count h m.
Proof.
  induction m as [|w o m Hw IH] using map_ind; intros Hm; [done|].
  rewrite map_Forall_insert in Hm by done. destruct Hm as [Ho Hm].
  specialize (IH Hm). pose proof (count_new f m w o Hw). pose proof (count_new g m w o Hw).
  pose proof (count_new h m w o Hw). unfold count, weight in *. lia.
Qed.

Lemma count_nonneg f m : 0 <= count f m.
Proof. unfold count. lia. Qed.

Lemma members s : pool_inv s -> count member (wobj s) = active s + count leaving (wobj s).
Proof.
  intros Hp. apply count_split. intros w o Ho.
  pose proof (map_Forall_lookup_1 _ _ _ _ (pi_worker s Hp) Ho) as [_ Ht Hx].
  unfold member, staying, leaving. destruct (Z.eqb_spec (terminate o) 0), (at_ o) eqn:E; try done.
  exfalso. specialize (Hx ltac:(by right)). lia.
Qed.

Record keep_inv (s : thread_pool_t) : Prop := {
  ki_leaving : terminate_workers_num s = count leaving (wobj s);
  ki_control : match control s with
    | M_remove n => 0 <= n
    | M_idle_ones _ n | M_running_ones _ n => 0 <= n < active s \/ active s = 0
    | M_destroy | M_mark _ | M_mark_next _ => False
    | _ => True
    end }.

Lemma count_upd f m w o o' :
  m !! w = Some o -> count f (<[w := o']> m) = count f m - weight (f o) + weight (f o').
Proof. apply count_insert. Qed.

Lemma keep_worker s s' w o o' :
  keep_inv s -> wobj s !! w = Some o -> wobj s' = <[w := o']> (wobj s) ->
  terminate o' = terminate o -> control s' = control s ->
  terminate_workers_num s' = terminate_workers_num s - weight (leaving o) + weight (leaving o') ->
  keep_inv s' /\ active s' = active s.
Proof.
  intros [Hl Hc] Ho E Et Ec El.
  assert (active s' = active s) as Ea.
  { unfold active. rewrite E, (count_upd _ _ _ _ _ Ho).
    replace (staying o') with (staying o) by (unfold staying; by rewrite Et). lia. }
  split; [|done]. constructor.
  - by rewrite El, Hl, E, (count_upd _ _ _ _ _ Ho).
  - by rewrite Ec, Ea.
Qed.

Lemma keep_cycle w s s' :
  pool_inv s -> keep_inv s -> thread_pool_cycle w s = Some (Ok s') ->
  keep_inv s' /\ active s' = active s.
Proof.
  intros Hp Hk H. unfold thread_pool_cycle in H. destruct (wobj s !! w) as [o|] eqn:Ho; [|done].
  pose proof (map_Forall_lookup_1 _ _ _ _ (pi_worker s Hp) Ho) as [_ Ht Hx].
  destruct (at_ o) eqn:Ha; repeat case_match; simplify_eq;
    try solve [eapply (keep_worker s _ w o); [done|done
      | cbn; first [exact (alter_alter_Some _ _ _ _ _ Ho) | exact (alter_Some _ _ _ _ Ho)]
      | done | done
      | unfold leaving; cbn; rewrite Ha; repeat case_match; cbn; lia]].
  - unfold take_job in H. destruct (jobs s =? 0); simplify_eq;
      [|apply bind_Ok in H as ([l j] & _ & H); simplify_eq];
      (eapply (keep_worker s _ w o); [done|done|cbn; exact (alter_Some _ _ _ _ Ho)|done|done
      |unfold leaving; cbn; rewrite Ha; lia]).
  - unfold leave in H. apply bind_Ok in H as ([l ws] & _ & H). simplify_eq.
    eapply (keep_worker s _ w o); [done|done|cbn; exact (alter_Some _ _ _ _ Ho)|done|done|].
    unfold leaving; cbn. rewrite Ha, Hx by (by left). cbn. lia.
  - destruct Hk as [Hl Hc].
    assert (staying o = None) as Hs by (unfold staying; rewrite Hx by (by right); done).
    assert (leaving o = None) as Hv by (unfold leaving; by rewrite Ha).
    assert (active (s <| wobj ::= delete w |> <| wlinks ::= delete w |>) = active s) as Ea.
    { unfold active, count. cbn. by rewrite (omap_delete_None _ w o). }
    split; [|done]. constructor; [|by rewrite Ea].
    cbn. rewrite Hl. unfold count. by rewrite (omap_delete_None _ w o).
Qed.

(** Wake-ups do not change what a worker was asked. *)
Lemma keep_same s s' :
  keep_inv s -> (wobj s' = wobj s \/ wobj s' = wake <$> wobj s \/ exists w, wobj s' = alter wake w (wobj s)) ->
  terminate_workers_num s' = terminate_workers_num s ->
  (active s' = active s ->
   match control s' with
   | M_remove n => 0 <= n
   | M_idle_ones _ n | M_running_ones _ n => 0 <= n < active s' \/ active s' = 0
   | M_destroy | M_mark _ | M_mark_next _ => False
   | _ => True
   end) -> keep_inv s' /\ active s' = active s.
Proof.
  intros [Hl Hc] E Et Hm.
  assert (H1 : forall o, staying (wake o) = staying o) by (intros [? ? []]; done).
  assert (H2 : forall o, leaving (wake o) = leaving o) by (intros [? ? []]; done).
  assert (active s' = active s /\ count leaving (wobj s') = count leaving (wobj s)) as [Ea El].
  { unfold active, count. destruct E as [->|[->|[w ->]]]; [done|by rewrite !omap_fmap_same|].
    by rewrite !omap_alter_same. }
  split; [|done]. constructor; [by rewrite Et, El|by apply Hm].
Qed.

Lemma keep_remove_one flag w n again s s' :
  pool_inv s -> keep_inv s -> (again = M_idle_ones \/ again = M_running_ones) ->
  0 <= n < active s \/ active s = 0 -> n <> 0 -> remove_one flag w n again s = Ok s' ->
  keep_inv s' /\ (1 <= active s -> 1 <= active s').
Proof.
  intros Hp [Hl Hc] Ha Hn H0 H. unfold remove_one, get_worker in H.
  apply bind_Ok in H as (o & Ho & H). apply bind_Ok in H as (nx & _ & H).
  destruct (wobj s !! w) as [o'|] eqn:Hw; simplify_eq.
  pose proof (map_Forall_lookup_1 _ _ _ _ (pi_worker s Hp) Hw) as [_ _ Hx].
  destruct ((terminate o =? 0) && _) eqn:Hb; simplify_eq.
  - apply andb_true_iff in Hb as [Ht _].
    assert (Hs : staying o = Some tt) by (unfold staying; by rewrite Ht).
    assert (Hv : leaving o = None).
    { unfold leaving. rewrite Ht. by destruct (at_ o). }
    assert (Hv' : leaving (o <| terminate := 1 |>) = Some tt).
    { unfold leaving. cbn. apply Z.eqb_eq in Ht. destruct (at_ o) eqn:E; try done.
      rewrite Hx in Ht; [done|by right]. }
    pose proof (count_upd staying (wobj s) w o (o <| terminate := 1 |>) Hw) as Hcs.
    pose proof (count_upd leaving (wobj s) w o (o <| terminate := 1 |>) Hw) as Hcl.
    rewrite Hs in Hcs. cbn in Hcs. rewrite Hv, Hv' in Hcl. cbn in Hcl.
    pose proof (count_nonneg staying (<[w:=o <| terminate := 1 |>]> (wobj s))).
    assert (Hact : active (set_terminated w s <| terminate_workers_num ::= fun n => n + 1 |>
                      <| control := again nx (n - 1) |>) = active s - 1).
    { unfold active, set_terminated. cbn. rewrite (alter_Some _ _ _ _ Hw). lia. }
    split; [constructor|].
    + cbn. unfold set_terminated. cbn. rewrite (alter_Some _ _ _ _ Hw). lia.
    + rewrite Hact. cbn. unfold active in *. destruct Ha as [->| ->]; lia.
    + rewrite Hact. unfold active in *. lia.
  - split; [constructor|done]; [done|].
    change (active (s <| control := again nx n |>)) with (active s).
    cbn. destruct Ha as [->| ->]; done.
Qed.

Lemma keep_control ch s s' :
  pool_inv s -> keep_inv s -> control_step ch s = Some (Ok s') ->
  keep_inv s' /\ (1 <= active s -> 1 <= active s').
Proof.
  intros Hp Hk H. pose proof (ki_control _ Hk) as Hc. pose proof (pi_total _ Hp) as Ht.
  fold (count member (wobj s)) in Ht. rewrite (members s Hp) in Ht. unfold linking in Ht.
  unfold control_step in H.
  assert (Hweak : forall s2, keep_inv s2 /\ active s2 = active s ->
                    keep_inv s2 /\ (1 <= active s -> 1 <= active s2)) by (intros ? [? ->]; done).
  destruct (control s) eqn:E; try done; repeat case_match; simplify_eq;
    try solve [apply Hweak, keep_same; [done|first [by left|by right; left]|done|cbn; intros Ea; rewrite ?Ea; done]].
  - unfold new_worker in H. repeat case_match; simplify_eq;
      try solve [apply Hweak, keep_same; [done|by left|done|cbn; done]].
    match goal with H : _ || _ = false |- _ => apply orb_false_iff in H as [_ Hn] end.
    apply bool_decide_eq_false, eq_None_not_Some in Hn.
    split; [constructor; [|done]|]; cbn.
    + rewrite (ki_leaving _ Hk). unfold count. rewrite count_new by done. cbn. lia.
    + unfold active, count. cbn. rewrite count_new by done. cbn. lia.
  - apply bind_Ok in H as ([l ws] & _ & H). simplify_eq.
    apply Hweak, keep_same; [done|by left|done|done].
  - unfold remove_begin in H. apply bind_Ok in H as (x & _ & H). simplify_eq.
    apply Hweak, keep_same; [done|by left|done|]. cbn. intros Ea. rewrite Ea.
    pose proof (count_nonneg staying (wobj s)) as Hpos.
    unfold can_remove. rewrite (ki_leaving _ Hk).
    unfold active in *. destruct (Z.leb_spec (total_workers_num s - count leaving (wobj s)) n); lia.
  - apply orb_false_iff in H0 as [_ H0%Z.eqb_neq].
    eapply keep_remove_one; [done|done|by left|done|done|done].
  - apply orb_false_iff in H0 as [_ H0%Z.eqb_neq].
    eapply keep_remove_one; [done|done|by right|done|done|done].
  - apply bind_Some in H as (s1 & Hs1 & H). simplify_eq.
    unfold push_job in H. apply bind_Ok in H as ([l j] & _ & H). simplify_eq.
    unfold signal in Hs1. repeat case_match; simplify_eq;
      apply Hweak, keep_same; cbn; eauto.
Qed.

Lemma keep_step l s s' :
  pool_inv s -> keep_inv s -> gentle l -> pool_step l s = Some (Ok s') ->
  keep_inv s' /\ (1 <= active s -> 1 <= active s').
Proof.
  intros Hp Hk Hg H.
  assert (Hweak : forall s2, keep_inv s2 /\ active s2 = active s ->
                    keep_inv s2 /\ (1 <= active s -> 1 <= active s2)) by (intros ? [? ->]; done).
  destruct l as [c|ch|w|w]; cbn [pool_step] in H.
  - unfold begin in H. destruct (control s); try done.
    destruct c; cbn in Hg; try done; repeat case_match; simplify_eq;
      (apply Hweak, keep_same; [done|by left|done|done]).
  - by eapply keep_control.
  - apply Hweak. by eapply keep_cycle.
  - case_match; simplify_eq. apply Hweak, keep_same; [done|right; right; by exists w|done|].
    intros Ea. rewrite Ea. apply (ki_control _ Hk).
Qed.

Lemma create_keep n : keep_inv (thread_pool_create n).
Proof. constructor; cbn; done. Qed.

Lemma keep_reaches s s' :
  pool_inv s -> keep_inv s -> reaches gentle s s' ->
  keep_inv s' /\ (1 <= active s -> 1 <= active s').
Proof.
  intros Hp Hk. induction 1 as [|s1 s2 l Hr [IH IHa] Hg H]; [done|].
  destruct (keep_step l s1 s2) as [Hk2 Ha2]; [by eapply reaches_inv|done..|]. split; [done|]. auto.
Qed.

(** ** Freed workers *)

Lemma live_links s w : pool_inv s -> is_Some (wlinks s !! w) <-> is_Some (wobj s !! w).
Proof. intros Hp. by rewrite <- !elem_of_dom, (pi_dom s Hp). Qed.

Lemma leave_faults w s e :
  pool_inv s -> is_Some (wobj s !! w) -> leave w s = Err e ->
  exists c, wlinks s !! w = Some c /\ next c <> 0 /\ wobj s !! next c = None.
Proof.
  intros Hp Hw H. apply (live_links s w Hp) in Hw as [c Hc]. exists c. split; [done|].
  destruct (decide (next c = 0)) as [Hz|Hz], (wobj s !! next c) as [o|] eqn:Ho; try done; exfalso;
    (destruct (LIST_REMOVE_returns (wlinks s) (workers s) w c) as [[l ws] HR];
     [exact (pi_prev s Hp)|done|first [by left|right; apply (live_links s _ Hp); eauto]
     |unfold leave in H; by rewrite HR in H]).
Qed.

(** The steps that follow a pointer between workers. *)
Definition follows (l : label) (s : thread_pool_t) (p : Z) : Prop :=
  match l with
  | Worker w => exists o c, wobj s !! w = Some o /\ at_ o = W_exit /\ wlinks s !! w = Some c /\
      p = next c /\ p <> 0
  | Control _ =>
      match control s with
      | M_idle_ones w _ | M_running_ones w _ | M_mark w | M_mark_next w => p = w
      | M_remove _ => p = workers s
      | _ => False
      end
  | _ => False
  end.

Lemma get_next_live s w :
  pool_inv s -> is_Some (wobj s !! w) -> exists v, get_next (wlinks s) w = Ok v.
Proof. intros Hp [c Hc]%(live_links s w Hp). unfold get_next. rewrite Hc. by eexists. Qed.

Lemma cycle_faults w s q e :
  pool_inv s -> jobs_inv s q -> thread_pool_cycle w s = Some (Err e) ->
  exists o c, wobj s !! w = Some o /\ at_ o = W_exit /\ wlinks s !! w = Some c /\
    next c <> 0 /\ wobj s !! next c = None.
Proof.
  intros Hp Hq H. unfold thread_pool_cycle in H. destruct (wobj s !! w) as [o|] eqn:Ho; [|done].
  destruct (at_ o) eqn:Ha; repeat case_match; simplify_eq.
  - destruct (take_job_jobs w o s q Hq Ho Ha) as (s1 & E & _). by rewrite E in H.
  - destruct (leave_faults w s e Hp ltac:(eauto) H) as (c & ? & ? & ?). by exists o, c.
Qed.

Lemma control_faults ch s q e :
  pool_inv s -> jobs_inv s q -> control_step ch s = Some (Err e) ->
  match control s with
  | M_idle_ones w _ | M_running_ones w _ | M_mark w | M_mark_next w => wobj s !! w = None
  | M_remove _ => wobj s !! workers s = None
  | _ => False
  end.
Proof.
  intros Hp Hq H. unfold control_step in H.
  destruct (control s) eqn:E; try done; repeat case_match; simplify_eq.
  - unfold new_worker in H. repeat case_match; simplify_eq.
  - destruct (pi_link s Hp _ _ E) as (o & Ho & _).
    destruct (proj2 (live_links s w Hp) ltac:(eauto)) as [c Hc].
    unfold link_worker, LIST_ADD, set_prev, set_next in H. rewrite Hc in H. cbn in H.
    by rewrite lookup_insert_eq in H.
  - destruct (wobj s !! workers s) as [o|] eqn:Ho; [|done].
    destruct (get_next_live s (workers s) Hp ltac:(eauto)) as [v Hv].
    unfold remove_begin in H. by rewrite Hv in H.
  - unfold remove_one, get_worker in H. destruct (wobj s !! w) as [o|] eqn:Ho; [|done].
    destruct (get_next_live s w Hp ltac:(eauto)) as [v Hv]. cbn in H. by rewrite Hv in H.
  - unfold remove_one, get_worker in H. destruct (wobj s !! w) as [o|] eqn:Ho; [|done].
    destruct (get_next_live s w Hp ltac:(eauto)) as [v Hv]. cbn in H. by rewrite Hv in H.
  - unfold mark_one, get_worker in H. by destruct (wobj s !! w).
  - destruct (wobj s !! w) as [o|] eqn:Ho; [|done].
    destruct (get_next_live s w Hp ltac:(eauto)) as [v Hv]. by rewrite Hv in H.
  - apply bind_Some in H as (s1 & Hs & H). apply signal_nudged in Hs as (m & -> & Hm).
    assert (jobs_inv (s <| wobj := m |>) q) as Hq1 by (eapply (jobs_inv_nudged s); done).
    destruct (push_job_jobs job _ q Hq1 E) as (s2 & E2 & _ & _). by rewrite E2 in H.
Qed.

(** ** Theorems *)

(** C15: In every state the pool can reach, the list of waiting jobs is well formed
    and as long as waiting_jobs_num says, and every job that was added is in
    exactly one place: in the list, in the hands of one worker, or executed. *)
Theorem jobs_accounted s :
  reachable s ->
  exists q, chain (jlinks s) (jobs s) q /\ waiting_jobs_num s = Z.of_nat (length q) /\
    NoDup (q ++ in_hand s) /\ added s ≡ₚ q ++ in_hand s ++ (ran s).*2.
Proof.
  intros [q [Hch _ _ Hnd _ Hw Hac]]%reachable_jobs. exists q. split_and!; try done.
  rewrite app_assoc in Hnd. by apply NoDup_app in Hnd as [? _].
Qed.

(** C16: The mutexes exclude: a worker inside the section of jobs_mtx is its owner, so
    two workers are never inside together, nor a worker and the control thread;
    and running_workers_num is the number of workers between its two updates. *)
Theorem pool_mutual_exclusion s :
  reachable s ->
  (forall w1 w2 o1 o2, wobj s !! w1 = Some o1 -> wobj s !! w2 = Some o2 ->
     holds_jobs o1 = true -> holds_jobs o2 = true -> w1 = w2) /\
  (forall w o, wobj s !! w = Some o -> holds_jobs o = true -> control_holds_jobs s = false) /\
  running_workers_num s = count busy (wobj s) /\
  total_workers_num s = count member (wobj s) - linking s.
Proof.
  intros Hp%pool_reachable_inv. pose proof (pi_holders s Hp) as Hh. split_and!.
  - intros w1 w2 o1 o2 H1 H2 Ho1 Ho2.
    pose proof (map_Forall_lookup_1 _ _ _ _ Hh H1) as E1.
    pose proof (map_Forall_lookup_1 _ _ _ _ Hh H2) as E2. cbn in E1, E2.
    rewrite Ho1 in E1. rewrite Ho2 in E2. apply held in E1, E2. congruence.
  - intros w o Hw Ho. pose proof (map_Forall_lookup_1 _ _ _ _ Hh Hw) as E. cbn in E.
    rewrite Ho in E. apply held in E. rewrite (pi_control s Hp). apply bool_decide_eq_false.
    pose proof (pi_zero s Hp). congruence.
  - apply (pi_running s Hp).
  - pose proof (pi_total s Hp). unfold count. lia.
Qed.

(** C17: No job is left behind: when a worker sleeps in pthread_cond_wait, there are at
    least as many workers about to take a job as there are jobs waiting. *)
Theorem no_job_left_behind s w :
  reachable s -> asleep s w = true -> waiting_jobs_num s <= count summoned (wobj s).
Proof.
  intros [Hs|Hs]%reachable_awake Hw; [|done]. exfalso. unfold asleep in Hw.
  destruct (wobj s !! w) as [o|] eqn:Ho; [|done]. apply bool_decide_eq_true in Hw.
  by apply (map_Forall_lookup_1 _ _ _ _ Hs Ho).
Qed.

(** A worker that reaches the list takes the job added last, or goes back to its
    loop when there is none: the pool is a stack of jobs. *)
Theorem worker_takes_newest s w o q :
  reachable s -> wobj s !! w = Some o -> at_ o = W_take -> chain (jlinks s) (jobs s) q ->
  exists s', pool_step (Worker w) s = Some (Ok s') /\
    chain (jlinks s') (jobs s') (tail q) /\
    waiting_jobs_num s' = Z.of_nat (length (tail q)) /\
    at_ <$> wobj s' !! w = Some (if q is job :: _ then W_start job else W_while) /\
    (if q is job :: _ then jworker s' !! job = Some w else True).
Proof.
  intros [q' Hq]%reachable_jobs Ho Ha Hch. rewrite (chain_det _ _ _ _ Hch (ji_chain _ _ Hq)).
  destruct (take_job_jobs w o s q' Hq Ho Ha) as (s' & E & _ & _ & Hs). exists s'.
  split; [cbn; unfold thread_pool_cycle; rewrite Ho, Ha; by rewrite E|].
  destruct q' as [|job q']; [destruct Hs as [Hq1 Hs]|destruct Hs as (Hq1 & Hs & Hj)];
    rewrite Hs, lookup_insert_eq; destruct Hq1; cbn; split_and!; done.
Qed.

(** C28: remove_workers always leaves one worker: as long as the pool is not destroyed
    and the counts are not negative, a pool with a worker that nobody has asked to
    leave keeps one, and total_workers_num - terminate_workers_num counts them. *)
Theorem remove_workers_keeps_one n s s' :
  reaches gentle (thread_pool_create n) s -> reaches gentle s s' ->
  (1 <= active s -> 1 <= active s') /\
  total_workers_num s' - terminate_workers_num s' = active s' - linking s'.
Proof.
  intros H1 H2.
  assert (pool_inv s) as Hp by (eapply reaches_inv; [apply create_inv|done]).
  destruct (keep_reaches _ _ (create_inv n) (create_keep n) H1) as [Hk _].
  destruct (keep_reaches _ _ Hp Hk H2) as [Hk' Ha]. split; [done|].
  assert (pool_inv s') as Hp' by (by eapply reaches_inv).
  pose proof (pi_total s' Hp') as Ht. fold (count member (wobj s')) in Ht.
  rewrite (members s' Hp') in Ht. rewrite (ki_leaving s' Hk'). lia.
Qed.

(** C29: The only accesses to memory that is gone are through pointers between
    workers: a step that faults follows a pointer to a worker that was freed (or
    tp->workers of an empty pool); the job list never faults. *)
Theorem faults_only_on_freed_workers l s e :
  reachable s -> pool_step l s = Some (Err e) ->
  exists p, follows l s p /\ wobj s !! p = None.
Proof.
  intros Hr H. pose proof (pool_reachable_inv s Hr) as Hp. destruct (reachable_jobs s Hr) as [q Hq].
  destruct l as [c|ch|w|w]; cbn [pool_step] in H.
  - unfold begin in H. repeat case_match; simplify_eq.
  - pose proof (control_faults ch s q e Hp Hq H) as Hc. cbn.
    destruct (control s); try done; eauto.
  - destruct (cycle_faults w s q e Hp Hq H) as (o & c & ? & ? & ? & ? & ?).
    exists (next c). split; [|done]. cbn. by exists o, c.
  - by case_match.
Qed.

(** ** Executions that go wrong *)

Definition add_two : list label :=
  [Control (Fresh 1); Control Plain; Control (Fresh 2); Control Plain; Control Plain].

Definition destroy_two : list label :=
  [Call Destroy; Control Plain; Control Plain; Control Plain; Control Plain; Control Plain; Control Plain].

(** A worker that has tested [terminate] before thread_pool_destroy marks it goes
    to sleep after the broadcast: destroy has returned, the worker is asked to
    terminate, and nothing will wake it up. *)
Theorem destroy_can_miss_a_worker :
  exists s, run [Control (Fresh 1); Control Plain; Control Plain; Worker 1;
                 Call Destroy; Control Plain; Control Plain; Control Plain; Control Plain;
                 Worker 1; Worker 1] (thread_pool_create 1) = Some (Ok s) /\
    control s = M_idle /\ wobj s = {[1 := mkWorker 1 0 W_wait]} /\
    waiting_jobs_num s = 0 /\ pool_step (Worker 1) s = None.
Proof. eexists. split; [vm_compute; reflexivity|]. repeat split; vm_compute; reflexivity. Qed.

(** LIST_ADD does not set the [prev] of the old head, so a worker that is not the
    head stays linked after it is freed: when the worker before it leaves, it
    writes to the freed worker. *)
Theorem destroy_use_after_free :
  run (add_two ++ destroy_two ++ [Worker 1; Worker 1; Worker 1; Worker 2; Worker 2])
      (thread_pool_create 2) = Some (Err OutOfBounds).
Proof. vm_compute. reflexivity. Qed.

(** thread_pool_destroy does not count the workers it marks, each of which
    decrements terminate_workers_num when it leaves: a pool that is used again
    has a negative count, and remove_workers then removes its last worker. *)
Theorem destroy_breaks_the_count :
  exists s1 s2,
    run ([Control (Fresh 1); Control Plain; Control Plain; Call Destroy; Control Plain;
          Control Plain; Control Plain; Control Plain; Worker 1; Worker 1; Worker 1])
        (thread_pool_create 1) = Some (Ok s1) /\ terminate_workers_num s1 = -1 /\
    run ([Call (Add_worker 1); Control (Fresh 1); Control Plain; Control Plain;
          Call (Remove_workers 1); Control Plain; Control Plain; Control Plain; Control Plain]) s1
      = Some (Ok s2) /\ total_workers_num s2 = 1 /\ active s2 = 0.
Proof.
  eexists _, _. split; [vm_compute; reflexivity|]. split; [vm_compute; reflexivity|].
  split; [vm_compute; reflexivity|]. split; vm_compute; reflexivity.
Qed.

(** ** Reaching concrete states *)

Lemma reaches_trans P s1 s2 s3 : reaches P s1 s2 -> reaches P s2 s3 -> reaches P s1 s3.
Proof. intros H12. induction 1; [done|]. by eapply reaches_step. Qed.

Lemma run_reaches P ls s s' : Forall P ls -> run ls s = Some (Ok s') -> reaches P s s'.
Proof.
  revert s. induction ls as [|l ls IH]; intros s; cbn.
  - intros _ [= <-]. constructor.
  - intros [Hl Hls]%Forall_cons. destruct (pool_step l s) as [[s1|]|] eqn:E; [|done|done].
    intros H. eapply reaches_trans; [|by apply IH]. eapply reaches_step; [constructor|done|done].
Qed.

Lemma run_reachable n ls s : run ls (thread_pool_create n) = Some (Ok s) -> reachable s.
Proof. intros H. exists n. eapply run_reaches; [|done]. by apply Forall_true. Qed.

(** The state after a schedule that runs without a fault. *)
Definition after (ls : list label) (s : thread_pool_t) : thread_pool_t :=
  match run ls s with Some (Ok s') => s' | _ => s end.

(** Both workers fall asleep, a job arrives and wakes the first one. *)
Definition both_asleep : list label :=
  add_two ++ [Worker 1; Worker 1; Worker 1; Worker 2; Worker 2; Worker 2].
Definition one_woken : list label :=
  both_asleep ++ [Call (Add_job 50); Control Plain; Control (Wakes 1)].
Definition demo_pool : thread_pool_t := after one_woken (thread_pool_create 2).

Lemma demo_pool_reachable : reachable demo_pool.
Proof. apply (run_reachable 2 one_woken). vm_compute. reflexivity. Qed.

Lemma jobs_accounted_witness :
  added demo_pool = [50] /\
  exists q, chain (jlinks demo_pool) (jobs demo_pool) q /\
    waiting_jobs_num demo_pool = Z.of_nat (length q) /\
    NoDup (q ++ in_hand demo_pool) /\ added demo_pool ≡ₚ q ++ in_hand demo_pool ++ (ran demo_pool).*2.
Proof. split; [vm_compute; reflexivity|]. apply (jobs_accounted demo_pool demo_pool_reachable). Defined.

Lemma pool_mutual_exclusion_witness :
  let s := after [Worker 1] demo_pool in
  holds_jobs <$> wobj s !! 1 = Some true /\
  (forall w1 w2 o1 o2, wobj s !! w1 = Some o1 -> wobj s !! w2 = Some o2 ->
     holds_jobs o1 = true -> holds_jobs o2 = true -> w1 = w2) /\
  (forall w o, wobj s !! w = Some o -> holds_jobs o = true -> control_holds_jobs s = false) /\
  running_workers_num s = count busy (wobj s) /\
  total_workers_num s = count member (wobj s) - linking s.
Proof.
  intros s. split; [vm_compute; reflexivity|]. apply (pool_mutual_exclusion s).
  apply (run_reachable 2 (one_woken ++ [Worker 1])). vm_compute. reflexivity.
Defined.

Lemma no_job_left_behind_witness :
  asleep demo_pool 2 = true /\ waiting_jobs_num demo_pool = 1 /\
  waiting_jobs_num demo_pool <= count summoned (wobj demo_pool).
Proof.
  assert (asleep demo_pool 2 = true) as Ha by (vm_compute; reflexivity).
  split; [exact Ha|]. split; [vm_compute; reflexivity|].
  apply (no_job_left_behind demo_pool 2 demo_pool_reachable Ha).
Defined.

Lemma worker_takes_newest_witness :
  let s := after [Worker 1] demo_pool in
  chain (jlinks s) (jobs s) [50] /\
  exists s', pool_step (Worker 1) s = Some (Ok s') /\ jworker s' !! 50 = Some 1.
Proof.
  intros s.
  assert (chain (jlinks s) (jobs s) [50]) as Hc.
  { split; [by_decide|]. split; [done|]. eexists. split; vm_compute; reflexivity. }
  split; [exact Hc|].
  destruct (worker_takes_newest s 1 (mkWorker 0 0 W_take) [50]) as (s' & H1 & _ & _ & _ & H2);
    [|vm_compute; reflexivity|reflexivity|exact Hc|by exists s'].
  apply (run_reachable 2 (one_woken ++ [Worker 1])). vm_compute. reflexivity.
Defined.

(** Asked to remove both workers, remove_workers marks one. *)
Definition shrink : list label :=
  [Call (Remove_workers 2); Control Plain; Control Plain; Control Plain; Control Plain].

Lemma remove_workers_keeps_one_witness :
  let s := after both_asleep (thread_pool_create 2) in
  let s' := after shrink s in
  active s = 2 /\ terminate_workers_num s' = 1 /\
  (1 <= active s -> 1 <= active s') /\
  total_workers_num s' - terminate_workers_num s' = active s' - linking s'.
Proof.
  intros s s'. split; [vm_compute; reflexivity|]. split; [vm_compute; reflexivity|].
  apply (remove_workers_keeps_one 2 s s');
    [apply (run_reaches _ both_asleep)|apply (run_reaches _ shrink)];
    [repeat constructor| |repeat constructor; by_decide|]; vm_compute; reflexivity.
Defined.

(** The last step of [destroy_use_after_free]. *)
Lemma faults_only_on_freed_workers_witness :
  let s := after (add_two ++ destroy_two ++ [Worker 1; Worker 1; Worker 1; Worker 2]) (thread_pool_create 2) in
  pool_step (Worker 2) s = Some (Err OutOfBounds) /\
  exists p, follows (Worker 2) s p /\ wobj s !! p = None.
Proof.
  intros s. assert (pool_step (Worker 2) s = Some (Err OutOfBounds)) as H by (vm_compute; reflexivity).
  split; [exact H|]. apply (faults_only_on_freed_workers (Worker 2) s OutOfBounds); [|exact H].
  apply (run_reachable 2 (add_two ++ destroy_two ++ [Worker 1; Worker 1; Worker 1; Worker 2])).
  vm_compute. reflexivity.
Defined.
