(* ===== verification/Tp.v ===== *)
(** * The thread pool of threadpool/tp.c

    The second pool of the directory: LL_ADD and LL_REMOVE are the macros of
    Llist.v, and a worker looks at [terminate] while it holds the mutex.  The
    system is built as in ThreadPool.v: program counters, one step per unprotected
    access, mutex operation or section under the mutex.  ntyThreadPoolShutdown
    marks the workers without the mutex, and a worker frees itself, so reading
    [worker->next] after the mark can be a fault; nothing unlinks a worker. *)

From S2P Require Import Prelude Iqueue Llist.

Definition LL_ADD (h : links) (item list : Z) : res (links * Z) := LIST_ADD h list item.
Definition LL_REMOVE (h : links) (item list : Z) : res (links * Z) := LIST_REMOVE h list item.

(** Where a worker is in ntyWorkerThread. *)
Inductive npc : Set :=
  | N_lock              (* before pthread_mutex_lock *)
  | N_wait_loop         (* has the mutex; while (waiting_jobs == NULL) *)
  | N_asleep            (* in pthread_cond_wait *)
  | N_woken             (* woken up, locks the mutex again *)
  | N_check             (* has the mutex, behind the loop *)
  | N_run (job : Z)     (* job->job_function(job) *)
  | N_free.             (* left the loop, before free(worker) *)

Record nWorker := mkNWorker { nterminate : Z; nat_ : npc }.

Inductive nctl : Set :=
  | C_idle
  | C_create (n : Z)      (* ntyThreadPoolCreate: n workers to go *)
  | C_link (w n : Z)      (* thread of [w] created, before LL_ADD *)
  | C_mark (w : Z)        (* ntyThreadPoolShutdown: loop at [w] *)
  | C_next (w : Z)        (* worker = worker->next *)
  | C_clear               (* before the mutex *)
  | C_queue (job : Z).    (* ntyThreadPoolQueue, before the mutex *)

#[export] Instance npc_eq_dec : EqDecision npc.
Proof. solve_decision. Defined.
#[export] Instance nctl_eq_dec : EqDecision nctl.
Proof. solve_decision. Defined.

(** nWorkQueue, the heap, the control thread and the jobs executed so far. *)
Record nThreadPool := mkNPool {
  nworkers : Z;
  waiting_jobs : Z;
  mtx : option Z;
  nobj : gmap Z nWorker;
  nlinks : links;
  njobs : links;
  nctrl : nctl;
  shut : bool;
  executed : list (Z * Z) }.

#[export] Instance eta_nworker : Eta nWorker := fun r => mkNWorker (nterminate r) (nat_ r).
#[export] Instance set_nterminate : Settable nterminate. Proof. derive_setter. Defined.
#[export] Instance set_nat_ : Settable nat_. Proof. derive_setter. Defined.
#[export] Instance eta_npool : Eta nThreadPool := fun r =>
  mkNPool (nworkers r) (waiting_jobs r) (mtx r) (nobj r) (nlinks r) (njobs r) (nctrl r) (shut r)
    (executed r).
#[export] Instance set_nworkers : Settable nworkers. Proof. derive_setter. Defined.
#[export] Instance set_waiting_jobs : Settable waiting_jobs. Proof. derive_setter. Defined.
#[export] Instance set_mtx : Settable mtx. Proof. derive_setter. Defined.
#[export] Instance set_nobj : Settable nobj. Proof. derive_setter. Defined.
#[export] Instance set_nlinks : Settable nlinks. Proof. derive_setter. Defined.
#[export] Instance set_njobs : Settable njobs. Proof. derive_setter. Defined.
#[export] Instance set_nctrl : Settable nctrl. Proof. derive_setter. Defined.
#[export] Instance set_shut : Settable shut. Proof. derive_setter. Defined.
#[export] Instance set_executed : Settable executed. Proof. derive_setter. Defined.

Definition nstep := option (res nThreadPool).

Definition ngoto (w : Z) (p : npc) (s : nThreadPool) : nThreadPool :=
  s <| nobj ::= alter (fun o => o <| nat_ := p |>) w |>.

Definition nwake (o : nWorker) : nWorker :=
  match nat_ o with N_asleep => o <| nat_ := N_woken |> | _ => o end.

(** The part of the loop behind the wait, up to the unlock. *)
Definition take_waiting (w : Z) (o : nWorker) (s : nThreadPool) : res nThreadPool :=
  if negb (nterminate o =? 0) then Ok (ngoto w N_free (s <| mtx := None |>))
  else
    let job := waiting_jobs s in
    if job =? 0 then Ok (ngoto w N_lock (s <| mtx := None |>))
    else
      '(l, j) ← LL_REMOVE (njobs s) job (waiting_jobs s);
      Ok (ngoto w (N_run job) (s <| njobs := l |> <| waiting_jobs := j |> <| mtx := None |>)).

Definition ntyWorkerThread (w : Z) (s : nThreadPool) : nstep :=
  match nobj s !! w with
  | None => None
  | Some o =>
    match nat_ o with
    | N_lock =>
        if decide (mtx s = None) then Some (Ok (ngoto w N_wait_loop (s <| mtx := Some w |>))) else None
    | N_wait_loop =>
        if waiting_jobs s =? 0 then
          if negb (nterminate o =? 0) then Some (Ok (ngoto w N_check s))
          else Some (Ok (ngoto w N_asleep (s <| mtx := None |>)))
        else Some (Ok (ngoto w N_check s))
    | N_asleep => None
    | N_woken =>
        if decide (mtx s = None) then Some (Ok (ngoto w N_wait_loop (s <| mtx := Some w |>))) else None
    | N_check => Some (take_waiting w o s)
    | N_run job =>
        Some (Ok (ngoto w N_lock (s <| njobs ::= delete job |> <| executed ::= cons (w, job) |>)))
    | N_free => Some (Ok (s <| nobj ::= delete w |> <| nlinks ::= delete w |>))
    end
  end.

(** ** The control thread *)

Inductive ncall : Set := Shutdown | Queue (job : Z).

(** What the environment decides: the address malloc returns, a failing malloc or
    pthread_create, the sleeper a signal wakes. *)
Inductive nchoice : Set := NPlain | NFresh (w : Z) | NFails | NWakes (w : Z).

Definition nasleep (s : nThreadPool) (w : Z) : bool :=
  match nobj s !! w with Some o => bool_decide (nat_ o = N_asleep) | None => false end.

(** numWorkers < 1 counts as 1; the pool is zeroed first. *)
Definition ntyThreadPoolCreate (numWorkers : Z) : nThreadPool :=
  mkNPool 0 0 None ∅ ∅ ∅ (C_create (if numWorkers <? 1 then 1 else numWorkers)) false [].

Definition create_worker (n : Z) (ch : nchoice) (s : nThreadPool) : nstep :=
  if n <=? 0 then Some (Ok (s <| nctrl := C_idle |>))
  else
    match ch with
    | NFresh w =>
        if (w =? 0) || bool_decide (is_Some (nobj s !! w)) then None
        else Some (Ok (s <| nobj ::= <[w := mkNWorker 0 N_lock]> |>
                         <| nlinks ::= <[w := mkHead 0 0]> |> <| nctrl := C_link w n |>))
    | NFails => Some (Ok (s <| nctrl := C_idle |>))
    | _ => None
    end.

Definition ncall_step (c : ncall) (s : nThreadPool) : nstep :=
  match nctrl s with
  | C_idle =>
    match c with
    | Shutdown => Some (Ok (s <| nctrl := C_mark (nworkers s) |>))
    | Queue job =>
        if (job =? 0) || bool_decide (is_Some (njobs s !! job)) then None
        else Some (Ok (s <| njobs ::= <[job := mkHead job job]> |> <| nctrl := C_queue job |>))
    end
  | _ => None
  end.

(** The section of ntyThreadPoolQueue: LL_ADD, signal, unlock. *)
Definition ntyThreadPoolQueue (job : Z) (ch : nchoice) (s : nThreadPool) : nstep :=
  s ← match ch with
      | NWakes w => if nasleep s w then Some (s <| nobj ::= alter nwake w |>) else None
      | NPlain => if bool_decide (map_Forall (fun w _ => nasleep s w = false) (nobj s))
                  then Some s else None
      | _ => None
      end;
  Some ('(l, j) ← LL_ADD (njobs s) job (waiting_jobs s);
        Ok (s <| njobs := l |> <| waiting_jobs := j |> <| nctrl := C_idle |>)).

(** The loop of ntyThreadPoolShutdown and the section behind it. *)
Definition mark_worker (w : Z) (s : nThreadPool) : res nThreadPool :=
  match nobj s !! w with
  | None => Err OutOfBounds
  | Some _ => Ok (s <| nobj ::= alter (fun o => o <| nterminate := 1 |>) w |> <| nctrl := C_next w |>)
  end.

Definition shutdown_section (s : nThreadPool) : nThreadPool :=
  s <| nworkers := 0 |> <| waiting_jobs := 0 |> <| nobj ::= fmap nwake |> <| nctrl := C_idle |>
    <| shut := true |>.

Definition nctl_step (ch : nchoice) (s : nThreadPool) : nstep :=
  match nctrl s with
  | C_idle => None
  | C_create n => create_worker n ch s
  | C_link w n =>
      Some ('(l, ws) ← LL_ADD (nlinks s) w (nworkers s);
            Ok (s <| nlinks := l |> <| nworkers := ws |> <| nctrl := C_create (n - 1) |>))
  | C_mark w => if w =? 0 then Some (Ok (s <| nctrl := C_clear |>)) else Some (mark_worker w s)
  | C_next w => Some (nx ← get_next (nlinks s) w; Ok (s <| nctrl := C_mark nx |>))
  | C_clear => if decide (mtx s = None) then Some (Ok (shutdown_section s)) else None
  | C_queue job => if decide (mtx s = None) then ntyThreadPoolQueue job ch s else None
  end.

Inductive nlabel : Set :=
  | NCall (c : ncall)
  | NControl (ch : nchoice)
  | NWorker (w : Z)
  | NSpurious (w : Z).

Definition npool_step (l : nlabel) (s : nThreadPool) : nstep :=
  match l with
  | NCall c => ncall_step c s
  | NControl ch => nctl_step ch s
  | NWorker w => ntyWorkerThread w s
  | NSpurious w => if nasleep s w then Some (Ok (s <| nobj ::= alter nwake w |>)) else None
  end.

Inductive nreachable : nThreadPool -> Prop :=
  | nreach_create n : nreachable (ntyThreadPoolCreate n)
  | nreach_step s s' l : nreachable s -> npool_step l s = Some (Ok s') -> nreachable s'.

Fixpoint nrun (ls : list nlabel) (s : nThreadPool) : nstep :=
  match ls with
  | [] => Some (Ok s)
  | l :: ls => match npool_step l s with Some (Ok s') => nrun ls s' | o => o end
  end.

(** ** Shutting down *)

(** The list from [p] holds workers that run and are not marked, and every other
    worker is marked, except those in [ex]. *)
Definition unmarked (s : nThreadPool) (ex : gset Z) (p : Z) (l : list Z) : Prop :=
  chain (nlinks s) p l /\
  (forall w, w ∈ l -> (w ∉ ex) /\ exists o, nobj s !! w = Some o /\ nterminate o = 0) /\
  (forall w o, nobj s !! w = Some o -> nterminate o = 1 \/ w ∈ l \/ w ∈ ex).

Definition all_marked (s : nThreadPool) : Prop :=
  map_Forall (fun _ o => nterminate o = 1) (nobj s).

Definition shutdown_phase (s : nThreadPool) : Prop :=
  if shut s then
    all_marked s /\ map_Forall (fun _ o => nat_ o <> N_asleep) (nobj s) /\ nworkers s = 0 /\
    match nctrl s with
    | C_idle | C_queue _ | C_clear => True | C_mark w => w = 0 | _ => False end
  else
    match nctrl s with
    | C_idle | C_create _ | C_queue _ => exists l, unmarked s ∅ (nworkers s) l
    | C_link w _ => (exists o, nobj s !! w = Some o /\ nterminate o = 0) /\
                    exists l, unmarked s {[w]} (nworkers s) l
    | C_mark w => exists l, unmarked s ∅ w l
    | C_next w => exists l, (w ∉ l) /\
        (forall v, v ∈ l -> exists o, nobj s !! v = Some o /\ nterminate o = 0) /\
        (forall v o, nobj s !! v = Some o -> nterminate o = 1 \/ v ∈ l) /\
        (forall c, nlinks s !! w = Some c -> chain (nlinks s) (next c) l)
    | C_clear => all_marked s
    end.

Record npool_inv (s : nThreadPool) : Prop := {
  ni_zero : nobj s !! 0 = None;
  ni_dom : dom (nlinks s) = dom (nobj s);
  ni_left : map_Forall (fun _ o => nat_ o = N_free -> nterminate o = 1) (nobj s);
  ni_phase : shutdown_phase s }.

(** A step that keeps the marks of the workers, their links and the control. *)
Record quiet (s s' : nThreadPool) : Prop := {
  qu_marks : forall w, nterminate <$> nobj s' !! w = nterminate <$> nobj s !! w;
  qu_links : nlinks s' = nlinks s;
  qu_ctrl : nctrl s' = nctrl s;
  qu_shut : shut s' = shut s;
  qu_workers : nworkers s' = nworkers s;
  qu_asleep : shut s = true -> forall w o', nobj s' !! w = Some o' -> nat_ o' = N_asleep ->
      exists o, nobj s !! w = Some o /\ nat_ o = N_asleep }.

Lemma marks_fwd (m m' : gmap Z nWorker) w o :
  (forall w, nterminate <$> m' !! w = nterminate <$> m !! w) -> m !! w = Some o ->
  exists o', m' !! w = Some o' /\ nterminate o' = nterminate o.
Proof.
  intros H Ho. specialize (H w). rewrite Ho in H. destruct (m' !! w) as [o'|]; [|done].
  exists o'. cbn in H. by simplify_eq.
Qed.

Lemma marks_dom (m m' : gmap Z nWorker) :
  (forall w, nterminate <$> m' !! w = nterminate <$> m !! w) -> dom m' = dom m.
Proof.
  intros H. apply set_eq. intros w. rewrite !elem_of_dom. specialize (H w).
  destruct (m !! w), (m' !! w); split; intros [? ?]; eauto; done.
Qed.

Lemma quiet_phase s s' : quiet s s' -> shutdown_phase s -> shutdown_phase s'.
Proof.
  intros [Hm Hl Hc Hs Hw Ha]. unfold shutdown_phase. rewrite Hs, Hc, Hw.
  assert (forall w o', nobj s' !! w = Some o' -> exists o, nobj s !! w = Some o /\ nterminate o = nterminate o') as Hb.
  { intros. apply (marks_fwd (nobj s') (nobj s)); [|done]. intros v. symmetry. apply Hm. }
  assert (forall w o, nobj s !! w = Some o -> exists o', nobj s' !! w = Some o' /\ nterminate o' = nterminate o) as Hf.
  { intros. by apply (marks_fwd (nobj s) (nobj s')). }
  assert (all_marked s -> all_marked s') as Hall.
  { intros H w o' Ho'. destruct (Hb w o' Ho') as (o & Ho & <-). by apply (H w). }
  assert (forall ex p l, unmarked s ex p l -> unmarked s' ex p l) as Hun.
  { intros ex p l (H1 & H2 & H3). split_and!; [by rewrite Hl|..].
    - intros w Hin. destruct (H2 w Hin) as (? & o & Ho & Ht). destruct (Hf w o Ho) as (o' & ? & E).
      split; [done|]. exists o'. by rewrite E.
    - intros w o' Ho'. destruct (Hb w o' Ho') as (o & Ho & <-). by apply H3. }
  destruct (shut s) eqn:Es.
  - intros (H1 & H2 & H3 & H4). split_and!; auto.
    intros w o' Ho' E. destruct (Ha eq_refl w o' Ho' E) as (o & Ho & Hn). by apply (H2 w o).
  - destruct (nctrl s); try solve [intros [l Hu]; eauto | exact Hall].
    + intros [(o & Ho & Ht) [l Hu]]. split; [|eauto].
      destruct (Hf w o Ho) as (o' & Ho' & E). exists o'. by rewrite E.
    + intros (l & H0 & H1 & H2 & H3). exists l. split_and!; auto.
      * intros v Hv. destruct (H1 v Hv) as (o & Ho & Ht). destruct (Hf v o Ho) as (o' & ? & E).
        exists o'. by rewrite E.
      * intros v o' Ho'. destruct (Hb v o' Ho') as (o & Ho & <-). by apply H2.
      * intros c. rewrite Hl. apply H3.
Qed.

Lemma quiet_inv s s' :
  npool_inv s -> quiet s s' ->
  map_Forall (fun _ o => nat_ o = N_free -> nterminate o = 1) (nobj s') -> npool_inv s'.
Proof.
  intros [Hz Hd Hl Hp] Hq Hl'. constructor; [|..|done|by eapply quiet_phase].
  - pose proof (qu_marks _ _ Hq 0) as H. rewrite Hz in H. by destruct (nobj s' !! 0).
  - rewrite (qu_links _ _ Hq), Hd. symmetry. apply marks_dom, Hq.
Qed.

(** A worker moves: its mark stays, and it falls asleep only unmarked. *)
Lemma quiet_worker s s' w o o' :
  npool_inv s -> nobj s !! w = Some o -> nobj s' = <[w := o']> (nobj s) ->
  nterminate o' = nterminate o -> nlinks s' = nlinks s -> nctrl s' = nctrl s -> shut s' = shut s ->
  nworkers s' = nworkers s -> (nat_ o' = N_free -> nterminate o = 1) ->
  (nat_ o' = N_asleep -> nterminate o = 0) -> npool_inv s'.
Proof.
  intros Hi Ho E Et El Ec Es Ew Hf Ha. apply (quiet_inv s); [done|constructor; try done|].
  - intros v. rewrite E. destruct (decide (v = w)) as [->|].
    + rewrite lookup_insert_eq, Ho. cbn. by rewrite Et.
    + by rewrite lookup_insert_ne.
  - intros Hs v u. rewrite E. destruct (decide (v = w)) as [->|].
    + rewrite lookup_insert_eq. intros [= <-] Hu. pose proof (ni_phase s Hi) as Hp.
      unfold shutdown_phase in Hp. rewrite Hs in Hp. destruct Hp as (Hm & _).
      pose proof (map_Forall_lookup_1 _ _ _ _ Hm Ho) as Hx. cbn in Hx. rewrite Ha in Hx; done.
    + rewrite lookup_insert_ne by done. eauto.
  - rewrite E. apply map_Forall_insert_2; [|apply (ni_left s Hi)].
    cbn. rewrite Et. done.
Qed.

Lemma nalter_Some (g : nWorker -> nWorker) (m : gmap Z nWorker) w o :
  m !! w = Some o -> alter g w m = <[w := g o]> m.
Proof.
  intros Ho. apply map_eq. intros v. destruct (decide (v = w)) as [->|].
  - by rewrite lookup_alter_eq, lookup_insert_eq, Ho.
  - by rewrite lookup_alter_ne, lookup_insert_ne.
Qed.

Lemma nmarks s w o : npool_inv s -> shutdown_phase s -> nobj s !! w = Some o ->
  nterminate o = 0 \/ nterminate o = 1.
Proof.
  intros _ Hp Ho. unfold shutdown_phase in Hp. destruct (shut s).
  - right. by apply (map_Forall_lookup_1 _ _ _ _ (proj1 Hp) Ho).
  - assert (forall ex p l, unmarked s ex p l -> w ∉ ex -> nterminate o = 0 \/ nterminate o = 1) as Hu.
    { intros ex p l (_ & H2 & H3) Hex. destruct (H3 w o Ho) as [?|[Hin|?]]; [by right| |done].
      destruct (H2 w Hin) as (_ & o' & Ho' & ?). left. congruence. }
    destruct (nctrl s); try (destruct Hp as [l Hp]; eapply Hu; [exact Hp|set_solver]).
    + destruct Hp as [(o' & Ho' & Ht) [l Hp]]. destruct (decide (w = w0)) as [->|].
      * left. congruence.
      * eapply Hu; [exact Hp|set_solver].
    + destruct Hp as (l & _ & H1 & H2 & _). destruct (H2 w o Ho) as [|Hin]; [by right|].
      destruct (H1 w Hin) as (o' & Ho' & ?). left. congruence.
    + right. by apply (map_Forall_lookup_1 _ _ _ _ Hp Ho).
Qed.

(** A worker that has left and frees itself is marked, so nobody looks at it. *)
Lemma nfree_inv s w o :
  npool_inv s -> nobj s !! w = Some o -> nat_ o = N_free ->
  npool_inv (s <| nobj ::= delete w |> <| nlinks ::= delete w |>).
Proof.
  intros [Hz Hd Hl Hp] Ho Ha. pose proof (map_Forall_lookup_1 _ _ _ _ Hl Ho Ha) as Ht.
  constructor; cbn.
  - rewrite lookup_delete_ne; [done|congruence].
  - by rewrite !dom_delete_L, Hd.
  - by apply map_Forall_delete.
  - assert (forall l : list Z, (forall v, v ∈ l -> exists o, nobj s !! v = Some o /\ nterminate o = 0) -> w ∉ l) as Hnot.
    { intros l H Hin. destruct (H w Hin) as (o' & Ho' & ?). simplify_eq. congruence. }
    assert (forall p l, chain (nlinks s) p l -> w ∉ l -> chain (delete w (nlinks s)) p l) as Hch.
    { intros p l H Hin. eapply chain_frame; [|done]. intros x Hx. rewrite lookup_delete_ne; set_solver. }
    assert (forall l : list Z, w ∉ l -> (forall v, v ∈ l -> exists o, nobj s !! v = Some o /\ nterminate o = 0) ->
      forall v, v ∈ l -> exists o, delete w (nobj s) !! v = Some o /\ nterminate o = 0) as Hkeep.
    { intros l Hin H v Hv. rewrite lookup_delete_ne by set_solver. by apply H. }
    assert (forall (P : Z -> nWorker -> Prop), (forall v o, nobj s !! v = Some o -> P v o) ->
      forall v o, delete w (nobj s) !! v = Some o -> P v o) as Hsub.
    { intros P H v u Hv. apply lookup_delete_Some in Hv as [_ Hv]. by apply H. }
    assert (forall ex p l, unmarked s ex p l ->
      unmarked (s <| nobj ::= delete w |> <| nlinks ::= delete w |>) ex p l) as Hun.
    { intros ex p l (H1 & H2 & H3). unfold unmarked. cbn.
      assert (w ∉ l) as Hin by (apply Hnot; intros v Hv; by apply H2).
      split_and!; [by apply Hch| |by apply (Hsub (fun v o => _))].
      intros v Hv. split; [by apply H2|]. apply (Hkeep l); [done|intros; by apply H2|done]. }
    unfold shutdown_phase in *. cbn. destruct (shut s).
    + destruct Hp as (H1 & H2 & H3 & H4). split_and!; [by apply map_Forall_delete..|done|done].
    + destruct (nctrl s); try (destruct Hp as [l Hp]; exists l; by apply Hun).
      * destruct Hp as [(o' & Ho' & Ht') [l Hp]]. split; [|exists l; by apply Hun].
        exists o'. rewrite lookup_delete_ne; [done|]. intros ->. simplify_eq. congruence.
      * destruct Hp as (l & H0 & H1 & H2 & H3). exists l.
        assert (w ∉ l) as Hin by by apply Hnot.
        split_and!; [done|by apply Hkeep|by apply (Hsub (fun v o => _))|].
        intros c Hc. apply lookup_delete_Some in Hc as [_ Hc]. by apply Hch; [apply H3|].
      * by apply map_Forall_delete.
Qed.

Lemma nworker_inv w s s' : npool_inv s -> ntyWorkerThread w s = Some (Ok s') -> npool_inv s'.
Proof.
  intros Hi H. unfold ntyWorkerThread in H. destruct (nobj s !! w) as [o|] eqn:Ho; [|done].
  pose proof (nmarks s w o Hi (ni_phase s Hi) Ho) as Ht.
  destruct (nat_ o) eqn:Ha; repeat case_match; simplify_eq;
    try solve [eapply (quiet_worker s _ w o); [done|done|cbn; exact (nalter_Some _ _ _ _ Ho)|done..]].
  - eapply (quiet_worker s _ w o); [done|done|cbn; exact (nalter_Some _ _ _ _ Ho)|done..|].
    intros _. match goal with H : negb _ = false |- _ => apply negb_false_iff, Z.eqb_eq in H end. done.
  - unfold take_waiting in H. repeat case_match; simplify_eq.
    + eapply (quiet_worker s _ w o); [done|done|cbn; exact (nalter_Some _ _ _ _ Ho)|..]; try done.
      intros _. match goal with H : negb _ = true |- _ => apply negb_true_iff, Z.eqb_neq in H end. lia.
    + eapply (quiet_worker s _ w o); [done|done|cbn; exact (nalter_Some _ _ _ _ Ho)|done..].
    + apply bind_Ok in H as ([l j] & _ & H). simplify_eq.
      eapply (quiet_worker s _ w o); [done|done|cbn; exact (nalter_Some _ _ _ _ Ho)|done..].
  - by eapply nfree_inv.
Qed.

(** Steps of the control thread: waking up is quiet. *)
Definition only_woken (m m' : gmap Z nWorker) : Prop :=
  forall w, m' !! w = m !! w \/ m' !! w = nwake <$> m !! w.

Lemma nwake_mark o : nterminate (nwake o) = nterminate o.
Proof. by destruct o as [? []]. Qed.
Lemma nwake_place o : nat_ (nwake o) <> N_asleep.
Proof. by destruct o as [? []]. Qed.
Lemma nwake_free o : nat_ (nwake o) = N_free -> nat_ o = N_free.
Proof. by destruct o as [? []]. Qed.

Lemma only_woken_alter m w : only_woken m (alter nwake w m).
Proof.
  intros v. destruct (decide (v = w)) as [->|].
  - right. apply lookup_alter_eq.
  - left. by apply lookup_alter_ne.
Qed.

Lemma woken_marks m m' w : only_woken m m' -> nterminate <$> m' !! w = nterminate <$> m !! w.
Proof.
  intros H. destruct (H w) as [->| ->]; [done|]. destruct (m !! w); cbn; [|done].
  by rewrite nwake_mark.
Qed.

Lemma woken_asleep m m' w o' : only_woken m m' -> m' !! w = Some o' -> nat_ o' = N_asleep ->
  exists o, m !! w = Some o /\ nat_ o = N_asleep.
Proof.
  intros H Ho' Ha. destruct (H w) as [E|E]; rewrite E in Ho'; [by exists o'|].
  destruct (m !! w) as [o|]; [|done]. injection Ho' as <-. by destruct (nwake_place o).
Qed.

Lemma woken_left m m' :
  only_woken m m' -> map_Forall (fun _ o => nat_ o = N_free -> nterminate o = 1) m ->
  map_Forall (fun _ o => nat_ o = N_free -> nterminate o = 1) m'.
Proof.
  intros Hw Hm w o' Ho' Hf. destruct (Hw w) as [E|E]; rewrite E in Ho'; [by apply (Hm w)|].
  destruct (m !! w) as [o|] eqn:Ho; [|done]. injection Ho' as <-. rewrite nwake_mark.
  by apply (Hm w), nwake_free.
Qed.

Lemma woken_inv s s' :
  npool_inv s -> only_woken (nobj s) (nobj s') -> nlinks s' = nlinks s -> nctrl s' = nctrl s ->
  shut s' = shut s -> nworkers s' = nworkers s -> npool_inv s'.
Proof.
  intros Hi Hw El Ec Es Ew. apply (quiet_inv s); [done|constructor; try done|].
  - intros w. by apply woken_marks.
  - intros _ w o'. by apply woken_asleep.
  - eapply woken_left; [done|apply (ni_left s Hi)].
Qed.

(** The control moves and nothing the phase speaks of changes. *)
Lemma nctrl_inv s s' :
  npool_inv s -> nobj s' = nobj s -> nlinks s' = nlinks s -> shutdown_phase s' -> npool_inv s'.
Proof. intros [Hz Hd Hl Hp] E1 E2 Hp'. constructor; rewrite ?E1, ?E2; done. Qed.

Lemma create_worker_inv n ch s s' :
  npool_inv s -> nctrl s = C_create n -> create_worker n ch s = Some (Ok s') -> npool_inv s'.
Proof.
  intros Hi E H. pose proof (ni_phase s Hi) as Hp. unfold shutdown_phase in Hp. rewrite E in Hp.
  unfold create_worker in H. destruct (shut s) eqn:Es; [by destruct Hp as (_ & _ & _ & [])|].
  repeat case_match; simplify_eq;
    try (eapply (nctrl_inv s); [done..|]; unfold shutdown_phase; cbn; rewrite Es; exact Hp).
  match goal with H : _ || _ = false |- _ => apply orb_false_iff in H as [Hw%Z.eqb_neq Hn] end.
  apply bool_decide_eq_false, eq_None_not_Some in Hn.
  destruct Hi as [Hz Hd Hl _]. constructor; cbn.
  - by rewrite lookup_insert_ne.
  - by rewrite !dom_insert_L, Hd.
  - by apply map_Forall_insert_2.
  - unfold shutdown_phase. cbn. rewrite Es. destruct Hp as (l & H1 & H2 & H3).
    split; [eexists; by rewrite lookup_insert_eq|]. exists l. unfold unmarked. cbn.
    assert (w ∉ l) as Hin by (intros Hin; destruct (H2 w Hin) as (_ & ? & ? & _); congruence).
    split_and!.
    + eapply chain_frame; [|done]. intros x Hx. rewrite lookup_insert_ne; set_solver.
    + intros v Hv. split; [set_solver|]. destruct (H2 v Hv) as (_ & o & Ho & ?). exists o.
      rewrite lookup_insert_ne; [done|set_solver].
    + intros v o. destruct (decide (v = w)) as [->|].
      * intros _. right. right. set_solver.
      * rewrite lookup_insert_ne by done. intros Ho. destruct (H3 v o Ho) as [?|[?|?]]; [by left| |set_solver].
        right. by left.
Qed.

Lemma link_inv s w n l ws :
  npool_inv s -> nctrl s = C_link w n -> LL_ADD (nlinks s) w (nworkers s) = Ok (l, ws) ->
  npool_inv (s <| nlinks := l |> <| nworkers := ws |> <| nctrl := C_create (n - 1) |>).
Proof.
  intros Hi E H. pose proof (ni_phase s Hi) as Hp. unfold shutdown_phase in Hp. rewrite E in Hp.
  destruct (shut s) eqn:Es; [by destruct Hp as (_ & _ & _ & [])|].
  destruct Hp as ((o & Ho & Ht) & q & H1 & H2 & H3). destruct Hi as [Hz Hd Hl _].
  assert (w ∉ q) as Hin by (intros Hin; destruct (H2 w Hin) as [Hx _]; set_solver).
  assert (is_Some (nlinks s !! w)) as Hlw by (apply elem_of_dom; rewrite Hd; apply elem_of_dom; eauto).
  unfold LL_ADD in H. destruct (LIST_ADD_spec (nlinks s) (nworkers s) q w) as [HA Hq]; try done; [congruence|].
  rewrite HA in H. simplify_eq. constructor; cbn; try done.
  - rewrite dom_insert_L, Hd. apply elem_of_dom_2 in Ho. set_solver.
  - unfold shutdown_phase. cbn. rewrite Es. exists (ws :: q). split_and!; cbn [nlinks nobj upd set_nlinks set_nworkers set_nctrl]; [done|..].
    + intros v [->|Hv]%elem_of_cons; [split; [set_solver|eauto]|].
      destruct (H2 v Hv) as [_ Hx]. split; [set_solver|done].
    + intros v u Hu. destruct (H3 v u Hu) as [?|[?|?]]; [by left|right; left; by right|].
      right. left. set_solver.
Qed.

Lemma mark_inv w s s' :
  npool_inv s -> nctrl s = C_mark w -> w <> 0 -> mark_worker w s = Ok s' -> npool_inv s'.
Proof.
  intros Hi E H0 H. pose proof (ni_phase s Hi) as Hp. unfold shutdown_phase in Hp. rewrite E in Hp.
  unfold mark_worker in H. destruct (nobj s !! w) as [o|] eqn:Ho; simplify_eq.
  destruct (shut s) eqn:Es; [by destruct Hp as (_ & _ & _ & ?)|].
  destruct Hp as (q & H1 & H2 & H3). destruct Hi as [Hz Hd Hl _].
  destruct q as [|x q]; [done|]. pose proof (chain_NoDup _ _ _ H1) as Hnd.
  apply NoDup_cons in Hnd as [Hx _]. cbn in H1. destruct H1 as (<- & _ & c & Hc & H1).
  constructor; cbn; rewrite ?(nalter_Some _ _ _ _ Ho).
  - by rewrite lookup_insert_ne.
  - rewrite Hd, dom_insert_L. apply elem_of_dom_2 in Ho. set_solver.
  - by apply map_Forall_insert_2.
  - unfold shutdown_phase. cbn. rewrite Es. exists q. rewrite (nalter_Some _ _ _ _ Ho).
    split_and!; [done|..].
    + intros v Hv. destruct (H2 v ltac:(by right)) as (_ & u & Hu & ?). exists u.
      rewrite lookup_insert_ne; [done|set_solver].
    + intros v u. destruct (decide (v = w)) as [->|].
      * rewrite lookup_insert_eq. intros [= <-]. by left.
      * rewrite lookup_insert_ne by done. intros Hu.
        destruct (H3 v u Hu) as [?|[[?|?]%elem_of_cons|?]]; [by left|done|by right|set_solver].
    + intros c' Hc'. simplify_eq. done.
Qed.

Lemma nbroadcast_woken m : only_woken m (nwake <$> m).
Proof. intros w. right. apply lookup_fmap. Qed.

Lemma clear_inv s : npool_inv s -> nctrl s = C_clear -> npool_inv (shutdown_section s).
Proof.
  intros Hi E. pose proof (ni_phase s Hi) as Hp. unfold shutdown_phase in Hp. rewrite E in Hp.
  assert (all_marked s) as Hm by (by destruct (shut s); [destruct Hp|]). destruct Hi as [Hz Hd Hl _].
  constructor; cbn.
  - by rewrite lookup_fmap, Hz.
  - by rewrite dom_fmap_L.
  - eapply woken_left; [apply nbroadcast_woken|done].
  - unfold shutdown_phase. cbn. split_and!; [|..|done|done].
    + intros w o'. cbn. rewrite lookup_fmap. destruct (nobj s !! w) as [o|] eqn:Ho; [|done].
      intros [= <-]. rewrite nwake_mark. by apply (Hm w).
    + intros w o'. rewrite lookup_fmap. destruct (nobj s !! w) as [o|]; [|done].
      intros [= <-]. apply nwake_place.
Qed.

Lemma nstep_inv l s s' : npool_inv s -> npool_step l s = Some (Ok s') -> npool_inv s'.
Proof.
  intros Hi H. pose proof (ni_phase s Hi) as Hp. unfold shutdown_phase in Hp.
  destruct l as [c|ch|w|w]; cbn [npool_step] in H.
  - unfold ncall_step in H. destruct (nctrl s) eqn:E; try done.
    clear Hp. pose proof (ni_phase s Hi) as Hp.
    destruct c; [|destruct (_ || _)]; simplify_eq; (eapply (nctrl_inv s); [done..|]);
      unfold shutdown_phase in *; cbn; rewrite E in Hp; destruct (shut s); [|done| |done];
      destruct Hp as (? & ? & ? & ?); by split_and!.
  - clear Hp. pose proof (ni_phase s Hi) as Hp. unfold shutdown_phase in Hp.
    unfold nctl_step in H. destruct (nctrl s) as [|n|w n|w|w| |job] eqn:E; [done|..].
    + by eapply create_worker_inv.
    + apply (inj Some) in H. apply bind_Ok in H as ([l ws] & HA & H). simplify_eq. by eapply link_inv.
    + destruct (Z.eqb_spec w 0) as [->|]; apply (inj Some) in H; [|by eapply mark_inv].
      simplify_eq. eapply (nctrl_inv s); [done..|]. unfold shutdown_phase. cbn.
      destruct (shut s); [by destruct Hp as (? & ? & ? & ?)|]. destruct Hp as ([|x q] & H1 & H2 & H3).
      * intros w o Ho. destruct (H3 w o Ho) as [?|[?|?]]; [done|set_solver..].
      * cbn in H1. destruct H1 as (<- & ? & _). done.
    + apply (inj Some) in H. apply bind_Ok in H as (nx & Hnx & H). simplify_eq.
      eapply (nctrl_inv s); [done..|]. unfold shutdown_phase. cbn.
      destruct (shut s); [by destruct Hp as (_ & _ & _ & [])|].
      destruct Hp as (q & H0 & H1 & H2 & H3). exists q. unfold get_next in Hnx.
      destruct (nlinks s !! w) as [c|]; simplify_eq. split_and!; [by apply H3|..].
      * intros v Hv. split; [set_solver|auto].
      * intros v o Ho. destruct (H2 v o Ho); [by left|right; by left].
    + destruct (decide _); simplify_eq. by apply clear_inv.
    + destruct (decide _); simplify_eq. unfold ntyThreadPoolQueue in H.
      apply bind_Some in H as (s1 & Hs1 & H).
      apply (inj Some) in H. apply bind_Ok in H as ([l j] & _ & H). simplify_eq.
      assert (npool_inv s1 /\ nctrl s1 = nctrl s) as [Hi1 E1].
      { clear Hp. repeat case_match; simplify_eq; [done|].
        split; [eapply woken_inv; [exact Hi|cbn; apply only_woken_alter|done..]|done]. }
      pose proof (ni_phase s1 Hi1) as Hp1. unfold shutdown_phase in Hp1. rewrite E1, E in Hp1.
      eapply (nctrl_inv s1); [done..|]. unfold shutdown_phase. cbn. by destruct (shut s1).
  - by eapply nworker_inv.
  - clear Hp. case_match; simplify_eq. eapply woken_inv; [exact Hi|cbn; apply only_woken_alter|done..].
Qed.

Lemma nreachable_inv s : nreachable s -> npool_inv s.
Proof.
  induction 1; [|by eapply nstep_inv]. constructor; cbn; try done.
  unfold shutdown_phase. cbn. exists []. split_and!; [done|set_solver|done].
Qed.

(** How many steps a marked worker still takes. *)
Definition steps_left (o : nWorker) : nat :=
  match nat_ o with
  | N_free => 1 | N_check => 2 | N_wait_loop => 3 | N_lock => 4 | N_woken => 4 | N_asleep => 4
  | N_run _ => 5
  end.

(** Places from which a step needs the mutex. *)
Definition needs_mtx (o : nWorker) : bool :=
  match nat_ o with N_lock | N_woken => true | _ => false end.

(** C30: Once ntyThreadPoolShutdown has returned no worker sleeps in pthread_cond_wait:
    every worker that is left is marked, is blocked by nothing but the mutex, and
    each of its steps brings it nearer to its end, at most five steps away. *)
Theorem shutdown_ends_every_worker s w o :
  nreachable s -> shut s = true -> nobj s !! w = Some o ->
  nterminate o = 1 /\ (mtx s = None \/ needs_mtx o = false -> is_Some (npool_step (NWorker w) s)) /\
  (steps_left o <= 5)%nat /\
  forall s', npool_step (NWorker w) s = Some (Ok s') ->
    match nobj s' !! w with
    | None => True
    | Some o' => (steps_left o' < steps_left o)%nat
    end.
Proof.
  intros Hr Hs Ho. pose proof (ni_phase s (nreachable_inv s Hr)) as Hp.
  unfold shutdown_phase in Hp. rewrite Hs in Hp. destruct Hp as (Hm & Ha & _).
  pose proof (map_Forall_lookup_1 _ _ _ _ Hm Ho) as Ht.
  pose proof (map_Forall_lookup_1 _ _ _ _ Ha Ho) as Hn. cbn in Ht, Hn.
  assert (Hlt : forall p s0, nobj s0 = nobj s -> nobj (ngoto w p s0) !! w = Some (o <| nat_ := p |>)).
  { intros p s0 E. unfold ngoto. cbn. by rewrite E, lookup_alter_eq, Ho. }
  split_and!; [done|..].
  - intros Hx. cbn. unfold ntyWorkerThread, needs_mtx in *. rewrite Ho.
    destruct (nat_ o) eqn:E; try done; repeat case_match; try done; by destruct Hx.
  - unfold steps_left. destruct (nat_ o); lia.
  - intros s' H. cbn in H. unfold ntyWorkerThread, steps_left in *. rewrite Ho, Ht in H. cbn in H.
    unfold take_waiting in H. rewrite Ht in H. cbn in H.
    destruct (nat_ o) eqn:E;
      [destruct (decide _)|destruct (_ =? _)| |destruct (decide _)| | |]; simplify_eq;
      first [rewrite Hlt by done; cbn; lia|cbn; by rewrite lookup_delete_eq].
Qed.

(** A marked worker may free itself before the loop of ntyThreadPoolShutdown reads
    its [next]. *)
Theorem shutdown_use_after_free :
  nrun [NControl (NFresh 1); NControl NPlain; NControl NPlain; NCall Shutdown; NControl NPlain;
        NWorker 1; NWorker 1; NWorker 1; NWorker 1; NControl NPlain]
       (ntyThreadPoolCreate 1) = Some (Err OutOfBounds).
Proof. vm_compute. reflexivity. Qed.

(** A schedule reaches what it computes. *)
Lemma nrun_reachable ls s s' : nreachable s -> nrun ls s = Some (Ok s') -> nreachable s'.
Proof.
  revert s. induction ls as [|l ls IH]; intros s Hs; cbn; [by intros [= <-]|].
  destruct (npool_step l s) as [[s1|]|] eqn:E; [|done|done]. apply IH. by eapply nreach_step.
Qed.

(** One worker asleep when the pool is shut down. *)
Definition demo_shutdown : list nlabel :=
  [NControl (NFresh 1); NControl NPlain; NControl NPlain; NWorker 1; NWorker 1;
   NCall Shutdown; NControl NPlain; NControl NPlain; NControl NPlain; NControl NPlain].
Definition demo_shut : nThreadPool :=
  match nrun demo_shutdown (ntyThreadPoolCreate 1) with Some (Ok s) => s | _ => ntyThreadPoolCreate 1 end.

Lemma shutdown_ends_every_worker_witness :
  shut demo_shut = true /\ nobj demo_shut !! 1 = Some (mkNWorker 1 N_woken) /\
  is_Some (npool_step (NWorker 1) demo_shut) /\ (steps_left (mkNWorker 1 N_woken) <= 5)%nat.
Proof.
  assert (shut demo_shut = true) as Hs by (vm_compute; reflexivity).
  assert (nobj demo_shut !! 1 = Some (mkNWorker 1 N_woken)) as Ho by (vm_compute; reflexivity).
  assert (nreachable demo_shut) as Hr.
  { apply (nrun_reachable demo_shutdown (ntyThreadPoolCreate 1)); [constructor|vm_compute; reflexivity]. }
  destruct (shutdown_ends_every_worker demo_shut 1 (mkNWorker 1 N_woken) Hr Hs Ho) as (_ & Hmove & Hsteps & _).
  split; [exact Hs|]. split; [exact Ho|]. split; [|exact Hsteps]. apply Hmove. left. vm_compute. reflexivity.
Defined.
