(* ===== verification/CopyOnUpdate.v ===== *)
(** * The copy-on-update map of muduo/copy_on_update.cc

    Class UserData: readers take a shared pointer to the map under the mutex and read
    without it; a writer that finds the map in use puts a new map in its place.  Any number
    of threads call query, update and printStatistics; a step is one mutex operation, one
    access to a map, one change of a use_count, or one section under the mutex every access
    to whose data takes it.

    A map is its contents and the use_count of the shared pointers to it, and is removed
    when the count falls to 0, so that a later access is a fault.  A write of a map takes a
    step of its own during which the writer is at [Update_write], so that a race would be
    two threads at the same map.  main's endless loops and the printed text are left out. *)

From stdpp Require Import strings.
From S2P Require Import Prelude Counting.

Record cell := mkCell { content : gmap string Z; use_count : Z }.

(** Where a thread is. *)
Inductive place :=
  | Outside
  | Query_lock (key : string)                   (* getData, before the mutex *)
  | Query_copy (key : string)                   (* has it: readTimes_++, data_ is copied *)
  | Query_unlock (key : string) (m : Z)         (* the copy is made *)
  | Query_find (key : string) (m : Z)           (* data->find(key) *)
  | Query_end (key : string) (m : Z)            (* != data->end() *)
  | Query_drop (m : Z)                          (* the destructor of data *)
  | Update_lock (key : string) (entry : Z)
  | Update_test (key : string) (entry : Z)      (* has it: data_.unique() *)
  | Update_swap (key : string) (entry : Z)      (* in use: a new map, swap, swapTimes_++ *)
  | Update_drop (key : string) (entry : Z) (m : Z)  (* the destructor of newData *)
  | Update_assert (key : string) (entry : Z)
  | Update_write (key : string) (entry : Z)     (* in ( *data_)[key] = entry *)
  | Update_unlock
  | Print_lock
  | Print_unlock.

#[export] Instance place_eq_dec : EqDecision place.
Proof. solve_decision. Defined.

Record UserData := mkUserData {
  maps : gmap Z cell; next_map : Z;
  data_ : Z; mutex_ : option Z; readTimes_ : Z; swapTimes_ : Z;
  threads : gmap Z place }.

#[export] Instance eta_ud : Eta UserData := fun s =>
  mkUserData (maps s) (next_map s) (data_ s) (mutex_ s) (readTimes_ s) (swapTimes_ s) (threads s).
#[export] Instance set_maps : Settable maps := ltac:(derive_setter).
#[export] Instance set_next_map : Settable next_map := ltac:(derive_setter).
#[export] Instance set_data_ : Settable data_ := ltac:(derive_setter).
#[export] Instance set_mutex_ : Settable mutex_ := ltac:(derive_setter).
#[export] Instance set_readTimes_ : Settable readTimes_ := ltac:(derive_setter).
#[export] Instance set_swapTimes_ : Settable swapTimes_ := ltac:(derive_setter).
#[export] Instance set_threads : Settable threads := ltac:(derive_setter).

Inductive call := Query (key : string) | Update (key : string) (entry : Z) | Print_statistics.

(** ** The steps *)

Definition goto (t : Z) (p : place) (s : UserData) : UserData := s <| threads ::= <[t := p]> |>.

(** An access to a map that is gone is a fault. *)
Definition the_map (s : UserData) (m : Z) : res cell :=
  match maps s !! m with Some c => Ok c | None => Err OutOfBounds end.

Definition store_map (m : Z) (c : cell) (s : UserData) : UserData := s <| maps ::= <[m := c]> |>.

(** Copying and destroying a shared pointer. *)
Definition take_ref (m : Z) (s : UserData) : res UserData :=
  c ← the_map s m; Ok (store_map m (mkCell (content c) (use_count c + 1)) s).

Definition drop_ref (m : Z) (s : UserData) : res UserData :=
  c ← the_map s m;
  Ok (if use_count c =? 1 then s <| maps ::= delete m |>
      else store_map m (mkCell (content c) (use_count c - 1)) s).

(** lock_guard: blocked while another thread, or the same, has the mutex. *)
Definition lock (t : Z) (p : place) (s : UserData) : option (res UserData) :=
  if decide (mutex_ s = None) then Some (Ok (goto t p (s <| mutex_ := Some t |>))) else None.

Definition unlock (t : Z) (p : place) (s : UserData) : option (res UserData) :=
  Some (Ok (goto t p (s <| mutex_ := None |>))).

Definition getData (t : Z) (key : string) (s : UserData) : res UserData :=
  let s := s <| readTimes_ ::= fun n => u64 (n + 1) |> in
  s ← take_ref (data_ s) s;
  Ok (goto t (Query_unlock key (data_ s)) s).

Definition query_read (t m : Z) (p : place) (s : UserData) : res UserData :=
  _ ← the_map s m; Ok (goto t p s).

Definition unique (s : UserData) : res bool := c ← the_map s (data_ s); Ok (use_count c =? 1).

Definition swap_map (t : Z) (key : string) (entry : Z) (s : UserData) : UserData :=
  let old := data_ s in
  let s := store_map (next_map s) (mkCell ∅ 1) s in
  let s := s <| data_ := next_map s |> <| next_map ::= Z.succ |> in
  goto t (Update_drop key entry old) (s <| swapTimes_ ::= fun n => u64 (n + 1) |>).

Definition write_entry (t : Z) (key : string) (entry : Z) (s : UserData) : res UserData :=
  c ← the_map s (data_ s);
  Ok (goto t Update_unlock (store_map (data_ s) (mkCell (<[key := entry]> (content c)) (use_count c)) s)).

(** A step of thread [t]: [None] when it cannot move. *)
Definition thread_step (t : Z) (s : UserData) : option (res UserData) :=
  match threads s !! t with
  | None | Some Outside => None
  | Some (Query_lock key) => lock t (Query_copy key) s
  | Some (Query_copy key) => Some (getData t key s)
  | Some (Query_unlock key m) => unlock t (Query_find key m) s
  | Some (Query_find key m) => Some (query_read t m (Query_end key m) s)
  | Some (Query_end key m) => Some (query_read t m (Query_drop m) s)
  | Some (Query_drop m) => Some (s ← drop_ref m s; Ok (goto t Outside s))
  | Some (Update_lock key entry) => lock t (Update_test key entry) s
  | Some (Update_test key entry) =>
      Some (u ← unique s; Ok (goto t (if (u : bool) then Update_assert key entry else Update_swap key entry) s))
  | Some (Update_swap key entry) => Some (Ok (swap_map t key entry s))
  | Some (Update_drop key entry m) => Some (s ← drop_ref m s; Ok (goto t (Update_assert key entry) s))
  | Some (Update_assert key entry) =>
      Some (u ← unique s; if (u : bool) then Ok (goto t (Update_write key entry) s) else Err Aborted)
  | Some (Update_write key entry) => Some (write_entry t key entry s)
  | Some Update_unlock => unlock t Outside s
  | Some Print_lock => lock t Print_unlock s
  | Some Print_unlock => unlock t Outside s
  end.

Definition begin (t : Z) (c : call) (s : UserData) : option (res UserData) :=
  match threads s !! t with
  | Some Outside =>
      Some (Ok (goto t (match c with
                        | Query key => Query_lock key
                        | Update key entry => Update_lock key entry
                        | Print_statistics => Print_lock
                        end) s))
  | _ => None
  end.

Inductive label := Begin (t : Z) (c : call) | Run (t : Z).

Definition ud_step (l : label) (s : UserData) : option (res UserData) :=
  match l with Begin t c => begin t c s | Run t => thread_step t s end.

(** A new UserData, before any of the threads [ts] has called it. *)
Definition UserData_new (ts : list Z) : UserData :=
  mkUserData {[1 := mkCell ∅ 1]} 2 1 None 0 0 (list_to_map ((fun t => (t, Outside)) <$> ts)).

Inductive reachable : UserData -> Prop :=
  | reachable_new ts : reachable (UserData_new ts)
  | reachable_step s l s' : reachable s -> ud_step l s = Some (Ok s') -> reachable s'.

(** ** The invariant *)

(** The map that a thread has a shared pointer to. *)
Definition holds (p : place) : option Z :=
  match p with
  | Query_unlock _ m | Query_find _ m | Query_end _ m | Query_drop m | Update_drop _ _ m => Some m
  | _ => None
  end.

Definition holds_map (m : Z) (p : place) : option unit :=
  match holds p with Some m' => if decide (m' = m) then Some tt else None | None => None end.

Definition holders (m : Z) (s : UserData) : Z := Z.of_nat (length (vals (omap (holds_map m) (threads s)))).

(** In a section under the mutex. *)
Definition inside (p : place) : bool :=
  match p with
  | Query_copy _ | Query_unlock _ _ | Update_test _ _ | Update_swap _ _ | Update_drop _ _ _
  | Update_assert _ _ | Update_write _ _ | Update_unlock | Print_unlock => true
  | _ => false
  end.

(** data_ belongs to the writer alone. *)
Definition owned (p : place) : bool :=
  match p with Update_assert _ _ | Update_write _ _ => true | _ => false end.

Record ud_inv (s : UserData) : Prop := {
  ui_data : exists c, maps s !! data_ s = Some c;
  ui_count : forall m c, maps s !! m = Some c ->
    use_count c = (if decide (m = data_ s) then 1 else 0) + holders m s /\ 0 < use_count c;
  ui_held : forall t p m, threads s !! t = Some p -> holds p = Some m -> is_Some (maps s !! m);
  ui_fresh : forall m, is_Some (maps s !! m) -> m < next_map s;
  ui_mutex : forall t p, threads s !! t = Some p -> inside p = true -> mutex_ s = Some t;
  ui_owner : forall t, mutex_ s = Some t -> exists p, threads s !! t = Some p /\ inside p = true;
  ui_drop : forall t key entry m, threads s !! t = Some (Update_drop key entry m) ->
    holders (data_ s) s = 0 /\ m <> data_ s;
  ui_owned : forall t p, threads s !! t = Some p -> owned p = true -> holders (data_ s) s = 0 }.

Lemma holders_nonneg m s : 0 <= holders m s.
Proof. unfold holders. lia. Qed.

Lemma holders_upd m s s' t p p' :
  threads s !! t = Some p -> threads s' = <[t := p']> (threads s) ->
  holders m s' = holders m s - weight (holds_map m p) + weight (holds_map m p').
Proof. intros Ht Et. unfold holders. rewrite Et. by apply count_insert. Qed.

Lemma holds_map_Some m p : holds p = Some m -> holds_map m p = Some tt.
Proof. unfold holds_map. intros ->. by rewrite decide_True. Qed.

Lemma holds_map_None m p : holds p <> Some m -> holds_map m p = None.
Proof. unfold holds_map. destruct (holds p); [|done]. intros. rewrite decide_False; congruence. Qed.

Lemma holders_same m s s' t p p' :
  threads s !! t = Some p -> threads s' = <[t := p']> (threads s) ->
  (holds p = Some m <-> holds p' = Some m) -> holders m s' = holders m s.
Proof.
  intros Ht Et Hh. rewrite (holders_upd m s s' t p p' Ht Et).
  destruct (decide (holds p = Some m)) as [E|E].
  - rewrite (holds_map_Some m p E), (holds_map_Some m p') by (by apply Hh). lia.
  - rewrite (holds_map_None m p E), (holds_map_None m p') by (by rewrite <- Hh). lia.
Qed.

Lemma holders_pos m s t p : threads s !! t = Some p -> holds p = Some m -> 0 < holders m s.
Proof.
  intros Ht Hh. assert (threads (goto t Outside s) = <[t := Outside]> (threads s)) as Et by done.
  pose proof (holders_upd m s _ t p Outside Ht Et) as E. rewrite (holds_map_Some m p Hh) in E. cbn in E.
  pose proof (holders_nonneg m (goto t Outside s)). lia.
Qed.

Lemma other_outside s t p t' p' :
  ud_inv s -> threads s !! t = Some p -> inside p = true -> t' <> t -> threads s !! t' = Some p' -> inside p' = false.
Proof.
  intros Hi Ht Hin Hne Ht'. destruct (inside p') eqn:E; [|done].
  pose proof (ui_mutex _ Hi _ _ Ht Hin). pose proof (ui_mutex _ Hi _ _ Ht' E). congruence.
Qed.

(** A step of [t] from [p] to [p'] keeps the invariant. *)
Lemma inv_intro s s' t p p' :
  ud_inv s -> threads s !! t = Some p -> threads s' = <[t := p']> (threads s) ->
  (exists c, maps s' !! data_ s' = Some c) ->
  (forall m c, maps s' !! m = Some c ->
    use_count c = (if decide (m = data_ s') then 1 else 0) + holders m s' /\ 0 < use_count c) ->
  (forall t' q m, threads s' !! t' = Some q -> holds q = Some m -> is_Some (maps s' !! m)) ->
  (forall m, is_Some (maps s' !! m) -> m < next_map s') ->
  (mutex_ s' = mutex_ s /\ inside p' = inside p) \/
    (inside p = false /\ inside p' = true /\ mutex_ s = None /\ mutex_ s' = Some t) \/
    (inside p = true /\ inside p' = false /\ mutex_ s' = None) ->
  inside p = true \/ (data_ s' = data_ s /\ holders (data_ s) s' <= holders (data_ s) s) ->
  (owned p' = true -> holders (data_ s') s' = 0) ->
  (forall key entry m, p' = Update_drop key entry m -> holders (data_ s') s' = 0 /\ m <> data_ s') ->
  ud_inv s'.
Proof.
  intros Hi Ht Et Hd Hc Hh Hf Hmu Hoth Hown Hdrop.
  assert (forall t' q, t' <> t -> threads s !! t' = Some q -> inside q = true ->
    data_ s' = data_ s /\ holders (data_ s) s' <= holders (data_ s) s) as Hq.
  { intros t' q Hne Hq Hin. destruct Hoth as [Hp|?]; [|done].
    by rewrite (other_outside s t p t' q Hi Ht Hp Hne Hq) in Hin. }
  constructor; try done.
  - intros t' q. rewrite Et. destruct (decide (t' = t)) as [->|Hne].
    + rewrite lookup_insert_eq. intros [= <-] Hin. destruct Hmu as [[-> E]|[(_ & _ & _ & ?)|(_ & ? & _)]]; [|done|congruence].
      apply (ui_mutex _ Hi _ _ Ht). congruence.
    + rewrite lookup_insert_ne by done. intros Hq' Hin. pose proof (ui_mutex _ Hi _ _ Hq' Hin) as E.
      destruct Hmu as [[-> _]|[(_ & _ & ? & _)|(Hp & _)]]; [done|congruence|].
      pose proof (ui_mutex _ Hi _ _ Ht Hp). congruence.
  - intros t' Hm. rewrite Et. destruct Hmu as [[E1 E2]|[(_ & Hin & _ & E)|(_ & _ & E)]]; [| |congruence].
    + rewrite E1 in Hm. destruct (ui_owner _ Hi _ Hm) as (q & Hq' & Hin).
      destruct (decide (t' = t)) as [->|Hne].
      * rewrite lookup_insert_eq. exists p'. split; [done|]. congruence.
      * rewrite lookup_insert_ne by done. by exists q.
    + rewrite E in Hm. injection Hm as <-. rewrite lookup_insert_eq. by exists p'.
  - intros t' key entry m. rewrite Et. destruct (decide (t' = t)) as [->|Hne].
    + rewrite lookup_insert_eq. intros [= ->]. by eapply Hdrop.
    + rewrite lookup_insert_ne by done. intros Hq'. destruct (Hq _ _ Hne Hq' eq_refl) as [Ed Hle].
      destruct (ui_drop _ Hi _ _ _ _ Hq') as [H0 Hm]. pose proof (holders_nonneg (data_ s) s').
      rewrite Ed. split; [lia|done].
  - intros t' q. rewrite Et. destruct (decide (t' = t)) as [->|Hne].
    + rewrite lookup_insert_eq. intros [= ->]. apply Hown.
    + rewrite lookup_insert_ne by done. intros Hq' Ho.
      destruct (Hq _ _ Hne Hq' ltac:(by destruct q)) as [Ed Hle].
      pose proof (ui_owned _ Hi _ _ Hq' Ho). pose proof (holders_nonneg (data_ s) s'). rewrite Ed. lia.
Qed.

(** A step that changes no map and no shared pointer. *)
Lemma move_inv s s' t p p' :
  ud_inv s -> threads s !! t = Some p -> threads s' = <[t := p']> (threads s) ->
  maps s' = maps s -> data_ s' = data_ s -> next_map s' = next_map s -> holds p' = holds p ->
  (mutex_ s' = mutex_ s /\ inside p' = inside p) \/
    (inside p = false /\ inside p' = true /\ mutex_ s = None /\ mutex_ s' = Some t) \/
    (inside p = true /\ inside p' = false /\ mutex_ s' = None) ->
  (owned p' = true -> holders (data_ s) s = 0) ->
  (forall key entry m, p' <> Update_drop key entry m) -> ud_inv s'.
Proof.
  intros Hi Ht Et Em Ed En Eh Hmu Hown Hdrop.
  assert (forall m, holders m s' = holders m s) as Ehs by (intros m; eapply holders_same; [done..|by rewrite Eh]).
  apply (inv_intro s s' t p p'); rewrite ?Em, ?Ed, ?En; try done.
  - apply Hi.
  - intros m c Hc. rewrite Ehs. by apply Hi.
  - intros t' q m. rewrite Et. destruct (decide (t' = t)) as [->|Hne].
    + rewrite lookup_insert_eq. intros [= <-]. rewrite Eh. by apply (ui_held _ Hi t p).
    + rewrite lookup_insert_ne by done. by apply (ui_held _ Hi t' q).
  - apply Hi.
  - right. split; [done|]. rewrite Ehs. lia.
  - by rewrite Ehs.
  - intros key entry m E. by destruct (Hdrop key entry m).
Qed.

Lemma held_map s t p m : ud_inv s -> threads s !! t = Some p -> holds p = Some m -> exists c, maps s !! m = Some c.
Proof. intros Hi Ht Hh. by apply (ui_held _ Hi t p m). Qed.

(** The holders of a map that [t] takes or drops. *)
Lemma holders_take m s s' t p p' :
  threads s !! t = Some p -> threads s' = <[t := p']> (threads s) -> holds p = None -> holds p' = Some m ->
  forall m', holders m' s' = holders m' s + if decide (m' = m) then 1 else 0.
Proof.
  intros Ht Et Hn Hs m'. rewrite (holders_upd m' s s' t p p' Ht Et).
  rewrite (holds_map_None m' p) by (by rewrite Hn). cbn. destruct (decide (m' = m)) as [->|Hne].
  - rewrite (holds_map_Some m p' Hs). cbn. lia.
  - rewrite (holds_map_None m' p') by congruence. cbn. lia.
Qed.

Lemma holders_drop m s s' t p p' :
  threads s !! t = Some p -> threads s' = <[t := p']> (threads s) -> holds p = Some m -> holds p' = None ->
  forall m', holders m' s' = holders m' s - if decide (m' = m) then 1 else 0.
Proof.
  intros Ht Et Hs Hn m'. rewrite (holders_upd m' s s' t p p' Ht Et).
  rewrite (holds_map_None m' p') by (by rewrite Hn). cbn. destruct (decide (m' = m)) as [->|Hne].
  - rewrite (holds_map_Some m p Hs). cbn. lia.
  - rewrite (holds_map_None m' p) by congruence. cbn. lia.
Qed.

Lemma getData_inv t key s :
  ud_inv s -> threads s !! t = Some (Query_copy key) -> returns (getData t key s) ud_inv.
Proof.
  intros Hi Ht. destruct (ui_data _ Hi) as [c Hc]. unfold getData, take_ref, the_map. cbn. rewrite Hc.
  cbn [mbind res_bind]. apply returns_Ok. set (s' := goto _ _ _).
  assert (threads s' = <[t := Query_unlock key (data_ s)]> (threads s)) as Et by done.
  pose proof (holders_take (data_ s) s s' t _ _ Ht Et eq_refl eq_refl) as Hh.
  apply (inv_intro s s' t _ _ Hi Ht Et); cbn.
  - rewrite lookup_insert_eq. by eexists.
  - intros m c'. rewrite Hh. destruct (decide (m = data_ s)) as [->|Hne].
    + rewrite lookup_insert_eq. intros [= <-]. cbn. destruct (ui_count _ Hi _ _ Hc) as [E ?].
      rewrite decide_True in E by done. lia.
    + rewrite lookup_insert_ne by done. intros H'. destruct (ui_count _ Hi _ _ H') as [E ?].
      rewrite decide_False in E by done. lia.
  - intros t' q m. destruct (decide (m = data_ s)) as [->|Hm]; [rewrite lookup_insert_eq; by eexists|].
    rewrite (lookup_insert_ne (maps s)) by done. destruct (decide (t' = t)) as [->|Hne].
    + rewrite lookup_insert_eq. intros [= <-]. cbn. congruence.
    + rewrite lookup_insert_ne by done. by apply (ui_held _ Hi t' q).
  - intros m [c' H']. apply (ui_fresh _ Hi). destruct (decide (m = data_ s)) as [->|Hne]; [by eexists|].
    rewrite lookup_insert_ne in H' by done. by eexists.
  - by left.
  - by left.
  - done.
  - done.
Qed.

(** Destroying the shared pointer that [t] has. *)
Lemma drop_inv t m p p' s :
  ud_inv s -> threads s !! t = Some p -> holds p = Some m -> holds p' = None -> inside p' = inside p ->
  (owned p' = true -> holders (data_ s) s = 0 /\ m <> data_ s) ->
  returns (s ← drop_ref m s; Ok (goto t p' s)) ud_inv.
Proof.
  intros Hi Ht Hp Hp' Hin Hown. destruct (held_map s t p m Hi Ht Hp) as [c Hc].
  destruct (ui_count _ Hi _ _ Hc) as [Euc Hpos]. pose proof (holders_pos m s t p Ht Hp) as Hhp.
  unfold drop_ref, the_map. rewrite Hc. cbn [mbind res_bind]. apply returns_Ok. set (s' := goto _ _ _).
  assert (threads s' = <[t := p']> (threads s)) as Et by (subst s'; by destruct (use_count c =? 1)).
  assert (data_ s' = data_ s /\ next_map s' = next_map s /\ mutex_ s' = mutex_ s) as (Ed & En & Emu)
    by (subst s'; by destruct (use_count c =? 1)).
  pose proof (holders_drop m s s' t p p' Ht Et Hp Hp') as Hh.
  assert (forall m', m' <> m -> maps s' !! m' = maps s !! m') as Hother.
  { intros m' Hne. subst s'. destruct (use_count c =? 1); cbn; [by rewrite lookup_delete_ne|by rewrite lookup_insert_ne]. }
  assert (maps s' !! m = if use_count c =? 1 then None else Some (mkCell (content c) (use_count c - 1))) as Hm.
  { subst s'. destruct (use_count c =? 1); cbn; [by rewrite lookup_delete_eq|by rewrite lookup_insert_eq]. }
  (* the map lives on if somebody else has it *)
  assert (forall t' q, t' <> t -> threads s !! t' = Some q -> holds q = Some m -> 2 <= holders m s) as H2.
  { intros t' q Hne Hq Hqm. assert (threads s' !! t' = Some q) as Hq' by (by rewrite Et, lookup_insert_ne).
    pose proof (holders_pos m s' t' q Hq' Hqm) as H0. rewrite (Hh m), decide_True in H0 by done. lia. }
  apply (inv_intro s s' t p p' Hi Ht Et); rewrite ?Ed, ?En, ?Emu.
  - destruct (ui_data _ Hi) as [cd Hcd]. destruct (decide (data_ s = m)) as [E|Hne]; [|rewrite Hother by done; by exists cd].
    rewrite E, Hm. rewrite E, decide_True in Euc by done. destruct (Z.eqb_spec (use_count c) 1); [lia|by eexists].
  - intros m' c' Hc'. rewrite (Hh m'). destruct (decide (m' = m)) as [->|Hne].
    + rewrite Hm in Hc'. destruct (Z.eqb_spec (use_count c) 1); [done|]. injection Hc' as <-. cbn. lia.
    + rewrite Hother in Hc' by done. destruct (ui_count _ Hi _ _ Hc'). lia.
  - intros t' q m'. rewrite Et. destruct (decide (t' = t)) as [->|Hne]; [rewrite lookup_insert_eq; congruence|].
    rewrite lookup_insert_ne by done. intros Hq Hqm. destruct (decide (m' = m)) as [->|Hm'].
    + rewrite Hm. pose proof (H2 t' q Hne Hq Hqm). destruct (Z.eqb_spec (use_count c) 1); [|by eexists].
      destruct (decide (m = data_ s)); lia.
    + rewrite Hother by done. by apply (ui_held _ Hi t' q).
  - intros m' [c' Hc']. apply (ui_fresh _ Hi). destruct (decide (m' = m)) as [->|Hne]; [by exists c|].
    rewrite Hother in Hc' by done. by exists c'.
  - left. done.
  - right. split; [done|]. rewrite (Hh (data_ s)). destruct (decide (data_ s = m)); lia.
  - intros Ho. destruct (Hown Ho) as [H0 Hne]. rewrite (Hh (data_ s)), decide_False by congruence. lia.
  - intros key entry m' ->. by destruct p.
Qed.

Lemma swap_inv t key entry s :
  ud_inv s -> threads s !! t = Some (Update_swap key entry) -> ud_inv (swap_map t key entry s).
Proof.
  intros Hi Ht. set (s' := swap_map t key entry s). set (old := data_ s).
  assert (threads s' = <[t := Update_drop key entry old]> (threads s)) as Et by done.
  assert (maps s' = <[next_map s := mkCell ∅ 1]> (maps s)) as Em by done.
  destruct (ui_data _ Hi) as [c Hc]. assert (old < next_map s) as Hlt by (apply (ui_fresh _ Hi); by exists c).
  pose proof (holders_take old s s' t _ _ Ht Et eq_refl eq_refl) as Hh.
  assert (holders (next_map s) s = 0) as Hnew.
  { unfold holders. assert (omap (holds_map (next_map s)) (threads s) = ∅) as ->; [|done].
    apply map_eq. intros t'. rewrite lookup_omap, lookup_empty. destruct (threads s !! t') as [q|] eqn:Hq; [|done].
    cbn. apply holds_map_None. intros Hqm. pose proof (ui_fresh _ Hi _ (ui_held _ Hi _ _ _ Hq Hqm)). lia. }
  assert (data_ s' = next_map s) as Ed by done.
  apply (inv_intro s s' t _ _ Hi Ht Et); rewrite ?Ed, ?Em.
  - rewrite lookup_insert_eq. by eexists.
  - intros m c'. rewrite (Hh m). destruct (decide (m = next_map s)) as [->|Hne].
    + rewrite lookup_insert_eq. intros [= <-]. rewrite decide_False by lia. cbn. lia.
    + rewrite lookup_insert_ne by done. intros Hc'. destruct (ui_count _ Hi _ _ Hc') as [E ?].
      fold old in E. destruct (decide (m = old)); lia.
  - intros t' q m. rewrite Et. destruct (decide (m = next_map s)) as [->|Hm]; [rewrite lookup_insert_eq; by eexists|].
    rewrite (lookup_insert_ne (maps s)) by done. destruct (decide (t' = t)) as [->|Hne].
    + rewrite lookup_insert_eq. intros [= <-] [= <-]. by exists c.
    + rewrite lookup_insert_ne by done. by apply (ui_held _ Hi t' q).
  - intros m [c' Hc']. change (next_map s') with (Z.succ (next_map s)).
    destruct (decide (m = next_map s)) as [->|Hne]; [lia|]. rewrite lookup_insert_ne in Hc' by done.
    assert (m < next_map s) by (apply (ui_fresh _ Hi); by exists c'). lia.
  - by left.
  - by left.
  - done.
  - intros k e m [= <- <- <-]. rewrite (Hh (next_map s)), decide_False by lia. split; [lia|]. unfold old in *. lia.
Qed.

Lemma write_inv t key entry s :
  ud_inv s -> threads s !! t = Some (Update_write key entry) -> returns (write_entry t key entry s) ud_inv.
Proof.
  intros Hi Ht. destruct (ui_data _ Hi) as [c Hc]. unfold write_entry, the_map. rewrite Hc. cbn [mbind res_bind].
  apply returns_Ok. set (s' := goto _ _ _).
  assert (threads s' = <[t := Update_unlock]> (threads s)) as Et by done.
  assert (forall m, holders m s' = holders m s) as Hh by (intros m; by eapply holders_same).
  assert (maps s' = <[data_ s := mkCell (<[key:=entry]> (content c)) (use_count c)]> (maps s)) as Em by done.
  assert (forall m c', maps s' !! m = Some c' -> exists c0, maps s !! m = Some c0 /\ use_count c' = use_count c0) as Hback.
  { intros m c'. rewrite Em. destruct (decide (m = data_ s)) as [->|Hne].
    - rewrite lookup_insert_eq. intros [= <-]. by exists c.
    - rewrite lookup_insert_ne by done. intros ?. by exists c'. }
  apply (inv_intro s s' t _ _ Hi Ht Et).
  - rewrite Em. cbn. rewrite lookup_insert_eq. by eexists.
  - intros m c' Hc'. destruct (Hback m c' Hc') as (c0 & Hc0 & ->). rewrite Hh. by apply (ui_count _ Hi).
  - intros t' q m. rewrite Et, Em. intros Hq Hqm. assert (is_Some (maps s !! m)) as Hs.
    { destruct (decide (t' = t)) as [->|Hne]; [rewrite lookup_insert_eq in Hq; injection Hq as <-; done|].
      rewrite lookup_insert_ne in Hq by done. by apply (ui_held _ Hi t' q). }
    destruct (decide (m = data_ s)) as [->|Hne]; [rewrite lookup_insert_eq; by eexists|by rewrite lookup_insert_ne].
  - intros m [c' Hc']. destruct (Hback m c' Hc') as (c0 & Hc0 & _). apply (ui_fresh _ Hi). by exists c0.
  - by left.
  - by left.
  - done.
  - done.
Qed.

Lemma unique_spec s c :
  ud_inv s -> maps s !! data_ s = Some c -> unique s = Ok (bool_decide (holders (data_ s) s = 0)).
Proof.
  intros Hi Hc. unfold unique, the_map. rewrite Hc. cbn. f_equal.
  destruct (ui_count _ Hi _ _ Hc) as [E _]. rewrite decide_True in E by done.
  destruct (Z.eqb_spec (use_count c) 1), (bool_decide_reflect (holders (data_ s) s = 0)); done || lia.
Qed.

(** Every step returns, in particular no assertion fails and no map is used that is gone. *)
Lemma thread_step_inv t s r : ud_inv s -> thread_step t s = Some r -> returns r ud_inv.
Proof.
  intros Hi H. unfold thread_step in H. destruct (threads s !! t) as [p|] eqn:Ht; [|done].
  destruct (ui_data _ Hi) as [cd Hcd].
  assert (forall p' r', lock t p' s = Some r' -> holds p' = holds p -> inside p = false -> inside p' = true ->
    owned p' = false -> (forall k e m, p' <> Update_drop k e m) -> returns r' ud_inv) as Hlock.
  { unfold lock. intros p' r' Hl Hh Hp Hp' Ho Hd. destruct (decide (mutex_ s = None)); [|done]. injection Hl as <-.
    apply returns_Ok. eapply (move_inv s _ t p p'); try done; [right; left; done|congruence]. }
  assert (forall p' r', unlock t p' s = Some r' -> holds p' = holds p -> inside p = true -> inside p' = false ->
    (forall k e m, p' <> Update_drop k e m) -> returns r' ud_inv) as Hunlock.
  { unfold unlock. intros p' r' Hl Hh Hp Hp' Hd. injection Hl as <-.
    apply returns_Ok. eapply (move_inv s _ t p p'); try done; [right; right; done|by destruct p']. }
  assert (forall m p', holds p = Some m -> holds p' = Some m -> inside p' = inside p -> owned p' = false ->
    (forall k e m, p' <> Update_drop k e m) -> returns (query_read t m p' s) ud_inv) as Hread.
  { intros m p' Hp Hp' Hin Ho Hd. destruct (held_map s t p m Hi Ht Hp) as [c Hc]. unfold query_read, the_map.
    rewrite Hc. apply returns_Ok. eapply (move_inv s _ t p p'); try done; [congruence|by left|congruence]. }
  destruct p; try done; try (by eapply Hlock); try (by eapply Hunlock); injection H as <-.
  - by apply getData_inv.
  - by apply Hread.
  - by apply Hread.
  - by eapply drop_inv.
  - rewrite (unique_spec s cd Hi Hcd). apply returns_Ok.
    destruct (bool_decide_reflect (holders (data_ s) s = 0)); cbn;
      (eapply move_inv; [done|exact Ht|done..| | |]; [by left|done|done]).
  - apply returns_Ok. by apply swap_inv.
  - eapply drop_inv; try done. intros _. by eapply ui_drop.
  - pose proof (ui_owned _ Hi _ _ Ht eq_refl) as H0. rewrite (unique_spec s cd Hi Hcd), bool_decide_true by done.
    apply returns_Ok. eapply move_inv; [done|exact Ht|done..| | |]; [by left|done|done].
  - by apply write_inv.
Qed.

Lemma ud_begin_inv t c s s' : ud_inv s -> begin t c s = Some (Ok s') -> ud_inv s'.
Proof.
  intros Hi H. unfold begin in H. destruct (threads s !! t) as [[]|] eqn:Ht; try done. injection H as <-.
  eapply move_inv; [done|exact Ht|done..| | | |]; destruct c; try done; by left.
Qed.

Lemma new_inv ts : ud_inv (UserData_new ts).
Proof.
  assert (forall t p, threads (UserData_new ts) !! t = Some p -> p = Outside) as Hout.
  { intros t p H. cbn in H. apply elem_of_list_to_map_2 in H. apply list_elem_of_fmap in H as (t' & [= _ ->] & _). done. }
  assert (forall m, holders m (UserData_new ts) = 0) as Hh.
  { intros m. unfold holders. assert (omap (holds_map m) (threads (UserData_new ts)) = ∅) as ->; [|done].
    apply map_eq. intros t. rewrite lookup_omap, lookup_empty. destruct (threads (UserData_new ts) !! t) as [p|] eqn:E; [|done].
    by rewrite (Hout t p E). }
  constructor; cbn [maps data_ next_map mutex_ UserData_new]; try done.
  - rewrite lookup_singleton_eq. by eexists.
  - intros m c Hc. rewrite Hh. apply lookup_singleton_Some in Hc as [<- <-]. cbn. rewrite decide_True by done. lia.
  - intros t p m Ht. by rewrite (Hout t p Ht).
  - intros m [c Hc]. apply lookup_singleton_Some in Hc as [<- _]. lia.
  - intros t p Ht. by rewrite (Hout t p Ht).
  - intros t k e m Ht. by apply Hout in Ht.
Qed.

Lemma ud_reachable_inv s : reachable s -> ud_inv s.
Proof.
  induction 1 as [ts|s l s' _ IH Hs]; [apply new_inv|]. destruct l as [t c|t]; cbn in Hs.
  - by eapply ud_begin_inv.
  - destruct (thread_step_inv t s _ IH Hs) as (x & [= <-] & Hx). done.
Qed.

(** ** What it means for the callers *)

Definition content_of (s : UserData) (m : Z) : option (gmap string Z) := content <$> maps s !! m.

Definition reading (p : place) (m : Z) : Prop := exists key, p = Query_find key m \/ p = Query_end key m.

Lemma reading_holds p m : reading p m -> holds p = Some m.
Proof. by intros (key & [-> | ->]). Qed.

Lemma drop_ref_content m m' s s' :
  drop_ref m s = Ok s' -> is_Some (maps s' !! m') -> content_of s' m' = content_of s m'.
Proof.
  unfold drop_ref, the_map, content_of. destruct (maps s !! m) as [c|] eqn:Hc; [|done].
  cbn. intros [= <-]. destruct (use_count c =? 1); cbn; destruct (decide (m' = m)) as [->|Hne].
  - rewrite lookup_delete_eq. by intros [].
  - by rewrite lookup_delete_ne.
  - by rewrite lookup_insert_eq, Hc.
  - by rewrite lookup_insert_ne.
Qed.

(** A step changes no map that somebody has. *)
Lemma step_content t s s' m :
  ud_inv s -> thread_step t s = Some (Ok s') -> 0 < holders m s -> is_Some (maps s !! m) ->
  is_Some (maps s' !! m) -> content_of s' m = content_of s m.
Proof.
  intros Hi H Hh Hm Hm'. unfold thread_step in H. destruct (threads s !! t) as [p|] eqn:Ht; [|done].
  destruct p; try done; unfold lock, unlock in H; try case_decide; try done;
    injection H as H; try (subst s'; done).
  - unfold getData, take_ref, the_map in H. cbn in H. destruct (maps s !! data_ s) as [c|] eqn:Hc; [|done].
    injection H as <-. unfold content_of. cbn. destruct (decide (m = data_ s)) as [->|Hne].
    + by rewrite lookup_insert_eq, Hc.
    + by rewrite lookup_insert_ne.
  - unfold query_read in H. apply bind_Ok in H as (c & _ & H). by injection H as <-.
  - unfold query_read in H. apply bind_Ok in H as (c & _ & H). by injection H as <-.
  - apply bind_Ok in H as (s1 & H1 & H). injection H as <-.
    exact (drop_ref_content _ _ _ _ H1 Hm').
  - apply bind_Ok in H as (u & _ & H). by injection H as <-.
  - subst s'. unfold content_of, swap_map. cbn. rewrite lookup_insert_ne; [done|].
    pose proof (ui_fresh _ Hi _ Hm). lia.
  - apply bind_Ok in H as (s1 & H1 & H). injection H as <-.
    exact (drop_ref_content _ _ _ _ H1 Hm').
  - apply bind_Ok in H as (u & _ & H). destruct u; [by injection H as <-|done].
  - pose proof (ui_owned _ Hi _ _ Ht eq_refl) as H0. unfold write_entry, the_map in H.
    apply bind_Ok in H as (c & _ & H). injection H as <-. unfold content_of. cbn.
    rewrite lookup_insert_ne; [done|]. intros <-. lia.
Qed.

(** C40: Readers need no lock.  In every reachable state: every step of every thread returns,
    so that no map is used after it is gone and the assertion of update holds; no thread
    reads the map that another one writes; and while a thread has a map, no step of
    anybody changes what is in it. *)
Theorem readers_see_snapshots s :
  reachable s ->
  (forall t r, thread_step t s = Some r -> exists s', r = Ok s') /\
  (forall t1 t2 p m key entry, threads s !! t1 = Some p -> reading p m ->
    threads s !! t2 = Some (Update_write key entry) -> m <> data_ s) /\
  forall l s' t p p' m, ud_step l s = Some (Ok s') -> threads s !! t = Some p -> holds p = Some m ->
    threads s' !! t = Some p' -> holds p' = Some m ->
    is_Some (content_of s m) /\ content_of s' m = content_of s m.
Proof.
  intros Hr. pose proof (ud_reachable_inv s Hr) as Hi. split_and!.
  - intros t r H. destruct (thread_step_inv t s r Hi H) as (s' & -> & _). by exists s'.
  - intros t1 t2 p m key entry H1 Hp H2 ->.
    pose proof (holders_pos _ _ _ _ H1 (reading_holds _ _ Hp)). pose proof (ui_owned _ Hi _ _ H2 eq_refl). lia.
  - intros l s' t p p' m Hs Hp Hh Hp' Hh'. pose proof (ui_held _ Hi _ _ _ Hp Hh) as Hm.
    split; [by apply fmap_is_Some|]. assert (reachable s') as Hr' by by eapply reachable_step.
    pose proof (ui_held _ (ud_reachable_inv s' Hr') _ _ _ Hp' Hh') as Hm'. destruct l as [t0 c|t0]; cbn in Hs.
    + unfold begin in Hs. destruct (threads s !! t0) as [[]|]; try done. by injection Hs as <-.
    + eapply step_content; try done. by eapply holders_pos.
Qed.

(** No map is kept that nobody uses, and use_count is exact. *)
Theorem maps_are_released s m c :
  reachable s -> maps s !! m = Some c ->
  use_count c = (if decide (m = data_ s) then 1 else 0) + holders m s /\
  (m = data_ s \/ exists t p, threads s !! t = Some p /\ holds p = Some m).
Proof.
  intros Hr Hm. pose proof (ud_reachable_inv s Hr) as Hi. destruct (ui_count _ Hi _ _ Hm) as [E Hpos].
  split; [done|]. destruct (decide (m = data_ s)) as [?|Hne]; [by left|]. right.
  destruct (decide (omap (holds_map m) (threads s) = ∅)) as [E0|E0].
  - unfold holders in E. rewrite E0 in E. unfold vals in E. rewrite map_to_list_empty in E. cbn in E. lia.
  - apply map_choose in E0 as (t & u & Ht). rewrite lookup_omap in Ht.
    destruct (threads s !! t) as [p|] eqn:Hp; [|done]. exists t, p. split; [done|].
    cbn in Ht. unfold holds_map in Ht. destruct (holds p) as [m'|]; [|done]. by destruct (decide (m' = m)) as [->|].
Qed.

(** As long as a call has not returned, some thread can run: the mutex is no deadlock. *)
Theorem some_thread_runs s t p :
  reachable s -> threads s !! t = Some p -> p <> Outside -> exists t', is_Some (thread_step t' s).
Proof.
  intros Hr Hp Hne. pose proof (ud_reachable_inv s Hr) as Hi. destruct (mutex_ s) as [o|] eqn:Hm.
  - destruct (ui_owner _ Hi o Hm) as (q & Hq & Hin). exists o. unfold thread_step, unlock. rewrite Hq.
    destruct q; try done; by eexists.
  - exists t. unfold thread_step, lock, unlock. rewrite Hp, Hm. destruct p; try done; by eexists.
Qed.

(** ** Runs *)

Fixpoint run (ls : list label) (s : UserData) : option (res UserData) :=
  match ls with
  | [] => Some (Ok s)
  | l :: ls => match ud_step l s with Some (Ok s') => run ls s' | r => r end
  end.

Lemma ud_run_reachable ls s s' : reachable s -> run ls s = Some (Ok s') -> reachable s'.
Proof.
  revert s. induction ls as [|l ls IH]; intros s Hr; cbn; [by intros [= <-]|].
  destruct (ud_step l s) as [[s1|e]|] eqn:E; try done. apply IH. by eapply reachable_step.
Qed.

Definition whole_update (t : Z) (key : string) (entry : Z) : list label :=
  Begin t (Update key entry) :: replicate 5 (Run t).

(** A reader has the map while another key is updated: the new map has only that key. *)
Definition forgetful : list label :=
  whole_update 1 "a" 1 ++ [Begin 2 (Query "a"); Run 2; Run 2; Run 2] ++
  Begin 1 (Update "b" 2) :: replicate 7 (Run 1).

Definition run_or_new (ls : list label) : UserData :=
  match run ls (UserData_new [1; 2]) with Some (Ok s) => s | _ => UserData_new [1; 2] end.

(** When a reader has the map, update starts an empty one and every other entry is lost. *)
Theorem update_forgets_other_keys :
  let s := run_or_new forgetful in
  reachable s /\ content_of s (data_ s) = Some {["b" := 2]} /\ content_of s 1 = Some {["a" := 1]} /\
  swapTimes_ s = 1.
Proof.
  cbn zeta. split; [|by vm_compute].
  assert (run forgetful (UserData_new [1; 2]) = Some (Ok (run_or_new forgetful))) as H by (by vm_compute).
  eapply ud_run_reachable; [apply reachable_new|exact H].
Qed.

Lemma readers_see_snapshots_witness :
  let s := run_or_new forgetful in
  reachable s /\
  (forall t r, thread_step t s = Some r -> exists s', r = Ok s') /\
  (forall t1 t2 p m key entry, threads s !! t1 = Some p -> reading p m ->
    threads s !! t2 = Some (Update_write key entry) -> m <> data_ s) /\
  forall l s' t p p' m, ud_step l s = Some (Ok s') -> threads s !! t = Some p -> holds p = Some m ->
    threads s' !! t = Some p' -> holds p' = Some m ->
    is_Some (content_of s m) /\ content_of s' m = content_of s m.
Proof.
  assert (reachable (run_or_new forgetful)) as Hr.
  { assert (run forgetful (UserData_new [1; 2]) = Some (Ok (run_or_new forgetful))) as H by (by vm_compute).
    eapply ud_run_reachable; [apply reachable_new|exact H]. }
  split; [exact Hr|]. apply (readers_see_snapshots _ Hr).
Defined.
