(* ===== verification/SmartPtr.v ===== *)
(** * The smart pointers of unique_ptr/unique_ptr.cc and stupid_ptr/stupid_ptr.h

    Two classes that own an object.  The state is the pointers that exist, by number, the
    objects that are allocated, and those that release has handed to the program.  An
    operation that deletes or reads an object that is not allocated is a fault. *)

From S2P Require Import Prelude.

Record store := mkStore {
  ptrs : gmap nat (option Z);    (** m_ptr of each, [None] for nullptr *)
  allocated : gset Z;
  raw : gset Z }.

#[export] Instance eta_store : Eta store := fun s => mkStore (ptrs s) (allocated s) (raw s).
#[export] Instance set_ptrs : Settable ptrs := ltac:(derive_setter).
#[export] Instance set_allocated : Settable allocated := ltac:(derive_setter).
#[export] Instance set_raw : Settable raw := ltac:(derive_setter).

Definition m_ptr (s : store) (x : nat) : res (option Z) :=
  match ptrs s !! x with Some p => Ok p | None => Err Uninitialised end.

(** delete *)
Definition delete_object (p : option Z) (s : store) : res store :=
  match p with
  | None => Ok s
  | Some a => if decide (a ∈ allocated s) then Ok (s <| allocated ::= fun l => l ∖ {[a]} |>) else Err OutOfBounds
  end.

(** explicit unique_ptr(T *ptr), of a new object. *)
Definition construct (x : nat) (a : Z) (s : store) : store :=
  s <| ptrs ::= <[x := Some a]> |> <| allocated ::= union {[a]} |>.
Definition construct_null (x : nat) (s : store) : store := s <| ptrs ::= <[x := None]> |>.

Definition release (x : nat) (s : store) : res (option Z * store) :=
  p ← m_ptr s x; Ok (p, s <| ptrs ::= <[x := None]> |>).

(** unique_ptr(unique_ptr<U> &&other); stupid_ptr(stupid_ptr &other) does the same. *)
Definition construct_from (x y : nat) (s : store) : res store :=
  '(p, s) ← release y s; Ok (s <| ptrs ::= <[x := p]> |>).

(** The copy constructor that the compiler adds to unique_ptr. *)
Definition construct_copy (x y : nat) (s : store) : res store :=
  p ← m_ptr s y; Ok (s <| ptrs ::= <[x := p]> |>).

Definition swap (x y : nat) (s : store) : res store :=
  p ← m_ptr s x; q ← m_ptr s y; Ok (s <| ptrs ::= fun m => <[y := p]> (<[x := q]> m) |>).

Definition destroy (x : nat) (s : store) : res store :=
  p ← m_ptr s x; s ← delete_object p s; Ok (s <| ptrs ::= delete x |>).

(** operator=(unique_ptr rhs); rhs is made from [y], moved or copied, and destroyed. *)
Definition assign (move : bool) (x y : nat) (s : store) : res store :=
  let rhs := fresh (dom (ptrs s)) in
  s ← (if move then construct_from rhs y s else construct_copy rhs y s);
  s ← swap rhs x s;
  destroy rhs s.

Definition operator_bool (x : nat) (s : store) : res bool :=
  p ← m_ptr s x; Ok (if p is Some _ then true else false).

(** operator* and operator->, followed by a use of the object. *)
Definition deref (x : nat) (s : store) : res Z :=
  p ← m_ptr s x;
  match p with
  | None => Err NullDeref
  | Some a => if decide (a ∈ allocated s) then Ok a else Err OutOfBounds
  end.

(** ** Programs *)

Inductive op :=
  | New (x : nat) (a : Z) | Null (x : nat) | Move (x y : nat) | Copy (x y : nat) | Swap (x y : nat)
  | Assign (move : bool) (x y : nat) | Release (x : nat) | Destroy (x : nat).

(** A declaration gives a new pointer its number, new gives an object that is not
    allocated, and the operands exist. *)
Definition allowed (o : op) (s : store) : Prop :=
  match o with
  | New x a => ptrs s !! x = None /\ a ∉ allocated s
  | Null x => ptrs s !! x = None
  | Move x y | Copy x y => ptrs s !! x = None /\ is_Some (ptrs s !! y)
  | Swap x y | Assign _ x y => is_Some (ptrs s !! x) /\ is_Some (ptrs s !! y)
  | Release x | Destroy x => is_Some (ptrs s !! x)
  end.

(** What release returns is the program's. *)
Definition run_op (o : op) (s : store) : res store :=
  match o with
  | New x a => Ok (construct x a s)
  | Null x => Ok (construct_null x s)
  | Move x y => construct_from x y s
  | Copy x y => construct_copy x y s
  | Swap x y => swap x y s
  | Assign move x y => assign move x y s
  | Release x => '(p, s) ← release x s;
                 Ok (if p is Some a then s <| raw ::= union {[a]} |> else s)
  | Destroy x => destroy x s
  end.

(** No operation makes a second pointer to an object. *)
Definition moves (o : op) : bool := match o with Copy _ _ | Assign false _ _ => false | _ => true end.

Inductive program : store -> Prop :=
  | program_start : program (mkStore ∅ ∅ ∅)
  | program_step s o s' : program s -> moves o = true -> allowed o s -> run_op o s = Ok s' -> program s'.

(** ** Ownership *)

Record owned (s : store) : Prop := {
  ow_alive : forall x a, ptrs s !! x = Some (Some a) -> a ∈ allocated s /\ a ∉ raw s;
  ow_once : forall x y a, ptrs s !! x = Some (Some a) -> ptrs s !! y = Some (Some a) -> x = y;
  ow_all : forall a, a ∈ allocated s -> a ∈ raw s \/ exists x, ptrs s !! x = Some (Some a);
  ow_raw : raw s ⊆ allocated s }.

Lemma m_ptr_some s x p : ptrs s !! x = Some p -> m_ptr s x = Ok p.
Proof. intros E. unfold m_ptr. by rewrite E. Qed.

(** The objects keep one owner each when the pointers are exchanged. *)
Lemma owned_exchange s m :
  owned s -> (forall x a, m !! x = Some (Some a) -> exists y, ptrs s !! y = Some (Some a)) ->
  (forall y a, ptrs s !! y = Some (Some a) -> exists x, m !! x = Some (Some a)) ->
  (forall x y a, m !! x = Some (Some a) -> m !! y = Some (Some a) -> x = y) ->
  owned (s <| ptrs := m |>).
Proof.
  intros [Ha Ho Hall Hr] Hfrom Hto Honce. constructor; cbn; try done.
  - intros x a (y & Hy)%Hfrom. by apply (Ha y).
  - intros a [?|[y (x & Hx)%Hto]]%Hall; [by left|right; by exists x].
Qed.

Ltac exchanged := intros *; rewrite ?lookup_insert_Some; naive_solver.

Lemma construct_from_ok x y s :
  owned s -> ptrs s !! x = None -> is_Some (ptrs s !! y) ->
  returns (construct_from x y s) (fun s' => owned s' /\ allocated s' = allocated s /\ raw s' = raw s /\
    exists p, ptrs s !! y = Some p /\ ptrs s' = <[x := p]> (<[y := None]> (ptrs s))).
Proof.
  intros Hs Hx [p Hy]. unfold construct_from, release. rewrite (m_ptr_some s y p Hy). cbn. apply returns_Ok.
  assert (x <> y) as Hne by congruence. pose proof (ow_once _ Hs) as Honce.
  split; [|split; [done|split; [done|by exists p]]].
  apply (owned_exchange s (<[x := p]> (<[y := None]> (ptrs s)))); [done|..].
  - exchanged.
  - intros z a Hz. destruct (decide (z = y)) as [->|Hzy]; [exists x; rewrite lookup_insert_eq; congruence|].
    exists z. rewrite !lookup_insert_ne by congruence. done.
  - exchanged.
Qed.

Lemma swap_ok x y s :
  owned s -> is_Some (ptrs s !! x) -> is_Some (ptrs s !! y) ->
  returns (swap x y s) (fun s' => owned s' /\ is_Some (ptrs s' !! x)).
Proof.
  intros Hs [p Hx] [q Hy]. unfold swap. rewrite (m_ptr_some s x p Hx), (m_ptr_some s y q Hy). cbn. apply returns_Ok.
  pose proof (ow_once _ Hs) as Honce. split.
  - apply (owned_exchange s (<[y := p]> (<[x := q]> (ptrs s)))); [done|..].
    + exchanged.
    + intros z a Hz. destruct (decide (z = y)) as [->|Hzy]; [|destruct (decide (z = x)) as [->|Hzx]].
      * destruct (decide (x = y)) as [->|]; [exists y; rewrite lookup_insert_eq; congruence|].
        exists x. rewrite lookup_insert_ne, lookup_insert_eq by congruence. congruence.
      * exists y. rewrite lookup_insert_eq. congruence.
      * exists z. rewrite !lookup_insert_ne by congruence. done.
    + exchanged.
  - cbn. destruct (decide (x = y)) as [->|]; [rewrite lookup_insert_eq; done|].
    rewrite lookup_insert_ne, lookup_insert_eq by congruence. done.
Qed.

Lemma destroy_ok x s :
  owned s -> is_Some (ptrs s !! x) -> returns (destroy x s) owned.
Proof.
  intros Hs [p Hx]. unfold destroy. rewrite (m_ptr_some s x p Hx). cbn. pose proof (ow_once _ Hs) as Honce.
  destruct p as [a|]; cbn.
  - destruct (ow_alive _ Hs x a Hx) as [Ha Hraw]. rewrite decide_True by done. cbn. apply returns_Ok.
    constructor; cbn.
    + intros z b [Hzx Hz]%lookup_delete_Some. destruct (ow_alive _ Hs z b Hz). split; [|done].
      apply elem_of_difference. split; [done|]. intros ->%elem_of_singleton. by apply Hzx, (Honce x z a).
    + intros z z' b [_ Hz]%lookup_delete_Some [_ Hz']%lookup_delete_Some. by apply (Honce z z' b).
    + intros b [Hb Hne]%elem_of_difference. destruct (ow_all _ Hs b Hb) as [?|[z Hz]]; [by left|]. right. exists z.
      apply lookup_delete_Some. split; [|done]. intros <-. rewrite Hx in Hz. injection Hz as ->. set_solver.
    + pose proof (ow_raw _ Hs). set_solver.
  - apply returns_Ok. apply (owned_exchange s (delete x (ptrs s))); [done|..].
    + intros z b [_ Hz]%lookup_delete_Some. by exists z.
    + intros z b Hz. exists z. apply lookup_delete_Some. split; [congruence|done].
    + intros z z' b [_ Hz]%lookup_delete_Some [_ Hz']%lookup_delete_Some. by apply (Honce z z' b).
Qed.

Lemma assign_ok x y s :
  owned s -> is_Some (ptrs s !! x) -> is_Some (ptrs s !! y) -> returns (assign true x y s) owned.
Proof.
  intros Hs Hx Hy. unfold assign. set (rhs := fresh (dom (ptrs s))).
  assert (ptrs s !! rhs = None) as Hnew by apply not_elem_of_dom, is_fresh.
  eapply returns_bind; [by apply construct_from_ok|]. intros s1 (Hs1 & _ & _ & p & Ep & E1).
  assert (is_Some (ptrs s1 !! x)) as Hx1.
  { rewrite E1. destruct Hx as [q Hx]. rewrite lookup_insert_ne by congruence.
    destruct (decide (x = y)) as [->|]; [by rewrite lookup_insert_eq|by rewrite lookup_insert_ne]. }
  assert (is_Some (ptrs s1 !! rhs)) as Hr1 by (rewrite E1, lookup_insert_eq; done).
  eapply returns_bind; [by apply swap_ok|]. intros s2 [Hs2 Hr2]. by apply destroy_ok.
Qed.

Lemma release_ok x s :
  owned s -> is_Some (ptrs s !! x) -> returns (run_op (Release x) s) owned.
Proof.
  intros Hs [p Hx]. cbn. unfold release. rewrite (m_ptr_some s x p Hx). cbn. apply returns_Ok.
  pose proof (ow_once _ Hs) as Honce. destruct p as [a|].
  - destruct (ow_alive _ Hs x a Hx) as [Ha Hraw]. constructor; cbn.
    + intros z b [[_ [=]]|[Hzx Hz]]%lookup_insert_Some. destruct (ow_alive _ Hs z b Hz). split; [done|].
      intros [->%elem_of_singleton|?]%elem_of_union; [|done]. by apply Hzx, (Honce x z a).
    + exchanged.
    + intros b Hb. destruct (decide (b = a)) as [->|Hne]; [left; set_solver|].
      destruct (ow_all _ Hs b Hb) as [?|[z Hz]]; [left; set_solver|]. right. exists z.
      rewrite lookup_insert_ne by congruence. done.
    + pose proof (ow_raw _ Hs). set_solver.
  - apply (owned_exchange s (<[x := None]> (ptrs s))); [done|exchanged| |exchanged].
    intros z b Hz. exists z. rewrite lookup_insert_ne by congruence. done.
Qed.

Lemma run_op_ok o s : owned s -> moves o = true -> allowed o s -> returns (run_op o s) owned.
Proof.
  intros Hs Hm Ha. pose proof (ow_once _ Hs) as Honce. destruct o as [x a|x|x y|x y|x y|[] x y|x|x]; try done; cbn [run_op allowed] in *.
  - destruct Ha as [Hx Ha]. apply returns_Ok. constructor; cbn.
    + intros z b [[<- [= <-]]|[Hzx Hz]]%lookup_insert_Some.
      * split; [set_solver|]. intros Hr. by apply Ha, (ow_raw _ Hs).
      * destruct (ow_alive _ Hs z b Hz). split; [set_solver|done].
    + pose proof (ow_alive _ Hs). intros z z' b. rewrite !lookup_insert_Some. naive_solver.
    + intros b [->%elem_of_singleton|Hb]%elem_of_union; [right; exists x; by rewrite lookup_insert_eq|].
      destruct (ow_all _ Hs b Hb) as [?|[z Hz]]; [by left|]. right. exists z. rewrite lookup_insert_ne by congruence. done.
    + pose proof (ow_raw _ Hs). set_solver.
  - apply returns_Ok. apply (owned_exchange s (<[x := None]> (ptrs s))); [done|exchanged| |exchanged].
    intros z b Hz. exists z. rewrite lookup_insert_ne by congruence. done.
  - destruct Ha. eapply returns_mono; [by apply construct_from_ok|]. by intros s' [? _].
  - destruct Ha. eapply returns_mono; [by apply swap_ok|]. by intros s' [? _].
  - destruct Ha. by apply assign_ok.
  - by apply (release_ok x s).
  - by apply destroy_ok.
Qed.

Lemma start_owned : owned (mkStore ∅ ∅ ∅).
Proof. constructor; cbn; [done|done|set_solver|set_solver]. Qed.

(** ** Theorems *)

(** A program that never copies a unique_ptr (and every program with stupid_ptr, whose copy
    constructor moves): no operation deletes or reads an object that is not allocated, a
    pointer that is not null points to an object that no other owns, and when the pointers
    are gone, the objects left are those that release has handed out. *)
Theorem one_owner s :
  program s ->
  (forall o, moves o = true -> allowed o s -> exists s', run_op o s = Ok s') /\
  (forall x a, ptrs s !! x = Some (Some a) -> deref x s = Ok a /\ forall y, ptrs s !! y = Some (Some a) -> y = x) /\
  (ptrs s = ∅ -> allocated s = raw s).
Proof.
  intros Hp. assert (owned s) as Hs.
  { induction Hp as [|s o s' _ IH Hm Ha E]; [apply start_owned|].
    destruct (run_op_ok o s IH Hm Ha) as (s1 & E1 & H1). congruence. }
  split_and!.
  - intros o Hm Ha. destruct (run_op_ok o s Hs Hm Ha) as (s' & E & _). by exists s'.
  - intros x a Hx. split; [|intros y Hy; by apply (ow_once _ Hs y x a)].
    unfold deref. rewrite (m_ptr_some s x _ Hx). cbn. by rewrite decide_True by apply (ow_alive _ Hs x a Hx).
  - intros E. apply set_eq. intros a. split; [|apply (ow_raw _ Hs)].
    intros [?|[x Hx]]%(ow_all _ Hs); [done|]. by rewrite E in Hx.
Qed.

(** ** Runs *)

Definition run_ops (os : list op) (s : store) : res store := foldl (fun r o => s ← r; run_op o s) (Ok s) os.

(** test_smart_ptr: obj, obj2 made from it, triangle and obj3 made from that. *)
Example test_smart_ptr :
  match run_ops [New 0 8; Move 1 0; New 2 16; Move 3 2] (mkStore ∅ ∅ ∅) with
  | Ok s => (operator_bool 0 s, deref 1 s, deref 3 s,
             match run_ops [Destroy 3; Destroy 2; Destroy 1; Destroy 0] s with
             | Ok s => bool_decide (allocated s = ∅ /\ ptrs s = ∅) | Err _ => false end) = (Ok false, Ok 8, Ok 16, true)
  | Err _ => False
  end.
Proof. evaluated. Qed.

(** The template constructor is not a move constructor, so the compiler adds a copy
    constructor: obj2{obj} compiles, and the object is deleted twice. *)
Example copy_deletes_twice :
  run_ops [New 0 8; Copy 1 0; Destroy 1; Destroy 0] (mkStore ∅ ∅ ∅) = Err OutOfBounds /\
  run_ops [New 0 8; Null 1; Assign false 1 0; Destroy 1; Destroy 0] (mkStore ∅ ∅ ∅) = Err OutOfBounds.
Proof. split; evaluated. Qed.

Lemma one_owner_witness :
  exists s, program s /\ ptrs s !! 1%nat = Some (Some 8) /\ deref 1 s = Ok 8.
Proof.
  destruct (run_op (New 0 8) (mkStore ∅ ∅ ∅)) as [s1|] eqn:E1; [|discriminate E1].
  destruct (run_op (Move 1 0) s1) as [s2|] eqn:E2; [|injection E1 as <-; vm_compute in E2; discriminate E2].
  assert (program s2) as Hp.
  { eapply (program_step s1 (Move 1 0)); [eapply (program_step _ (New 0 8)); [apply program_start|done| |exact E1]|done| |exact E2].
    - by_decide.
    - injection E1 as <-. split; [done|]. by eexists. }
  assert (ptrs s2 !! 1%nat = Some (Some 8)) as Hx by (injection E1 as <-; injection E2 as <-; evaluated).
  exists s2. split; [exact Hp|]. split; [exact Hx|]. by apply (one_owner s2 Hp).
Defined.
