(* ===== verification/CText.v ===== *)
(** * Text in C buffers

    What the programs use of the C library for text: strings that end in NUL, and
    snprintf with a decimal number. *)

From Stdlib Require Import Ascii String.
From S2P Require Import Prelude.

Definition bytes_of_string (s : string) : list Z :=
  (fun a => Z.of_nat (nat_of_ascii a)) <$> list_ascii_of_string s.

(** The bytes before the NUL of a string that starts at the front of [buf]. *)
Fixpoint c_string (buf : list Z) : res (list Z) :=
  match buf with
  | [] => Err OutOfBounds
  | b :: buf => if b =? 0 then Ok [] else s ← c_string buf; Ok (b :: s)
  end.

(** %d: the digits of a number below 10^[fuel], and the sign. *)
Fixpoint digits (fuel : nat) (n : Z) : list Z :=
  match fuel with
  | O => []
  | S fuel => if n <? 10 then [48 + n] else digits fuel (n / 10) ++ [48 + n mod 10]
  end.

Definition percent_d (n : Z) : list Z := if n <? 0 then 45 :: digits 10 (- n) else digits 10 n.

(** snprintf: what fits of the text, and a NUL. *)
Definition snprintf (buf : list Z) (size : nat) (text : list Z) : res (list Z) :=
  store_at buf 0 (take (size - 1) text ++ [0]).

Definition no_zero (l : list Z) : Prop := Forall (fun b => b <> 0) l.

Lemma c_string_zeros p n : (0 < n)%nat -> exists s, c_string (p ++ replicate n 0) = Ok s.
Proof.
  intros Hn. induction p as [|b p [s IH]]; cbn.
  - destruct n; [lia|]. cbn. by eexists.
  - destruct (b =? 0); [by eexists|]. cbn. rewrite IH. by eexists.
Qed.

(** Reading a string faults exactly when there is no NUL. *)
Lemma c_string_safe buf : safely (fun e => e = OutOfBounds /\ no_zero buf) (c_string buf) (fun _ => True).
Proof.
  induction buf as [|b buf IH]; cbn [c_string]; [by split; [|constructor]|].
  destruct (Z.eqb_spec b 0); [done|]. destruct (c_string buf); [done|]. destruct IH as [-> ?].
  split; [done|]. by constructor.
Qed.

Lemma c_string_exact s rest : no_zero s -> c_string (s ++ 0 :: rest) = Ok s.
Proof.
  induction 1 as [|b s Hb _ IH]; cbn; [done|]. rewrite (proj2 (Z.eqb_neq _ _) Hb), IH. done.
Qed.


(** ** Numbers *)

(** What a reader makes of a row of digits. *)
Definition digits_val (l : list Z) : Z := foldl (fun v b => 10 * v + (b - 48)) 0 l.

Lemma digits_read fuel n : 0 <= n < 10 ^ Z.of_nat fuel -> digits_val (digits fuel n) = n.
Proof.
  revert n. induction fuel as [|fuel IH]; intros n Hn; [cbn in *; lia|]. cbn [digits].
  destruct (Z.ltb_spec n 10); [cbn; lia|]. rewrite Nat2Z.inj_succ, Z.pow_succ_r in Hn by lia.
  unfold digits_val. rewrite foldl_snoc. fold (digits_val (digits fuel (n / 10))).
  rewrite IH; [|split; [by apply Z.div_pos; lia|apply Z.div_lt_upper_bound; lia]].
  pose proof (Z.div_mod n 10). lia.
Qed.

Lemma digits_ok fuel n : 0 <= n -> Forall (fun b => 48 <= b <= 57) (digits fuel n) /\ (length (digits fuel n) <= fuel)%nat.
Proof.
  revert n. induction fuel as [|fuel IH]; intros n Hn; [by split|]. cbn [digits].
  destruct (Z.ltb_spec n 10); [split; [constructor; [lia|done]|cbn; lia]|].
  destruct (IH (n / 10) ltac:(apply Z.div_pos; lia)) as [Hf Hl]. pose proof (Z.mod_pos_bound n 10).
  rewrite length_app. cbn [length]. split; [apply Forall_app; split; [done|]; constructor; [lia|done]|lia].
Qed.

(** A number takes at most eleven characters, none of them NUL. *)
Lemma percent_d_ok n : is_i32 n -> no_zero (percent_d n) /\ (length (percent_d n) <= 11)%nat.
Proof.
  intros Hn. unfold percent_d, is_i32 in *.
  assert (forall m, 0 <= m -> no_zero (digits 10 m) /\ (length (digits 10 m) <= 10)%nat) as Hd.
  { intros m Hm. destruct (digits_ok 10 m Hm) as [Hf Hl]. split; [|done]. eapply Forall_impl; [exact Hf|]. cbn. lia. }
  destruct (Z.ltb_spec n 0); [destruct (Hd (- n))|destruct (Hd n)]; try lia; split; try done; [by constructor|cbn [length]; lia|lia].
Qed.

(** snprintf of a text that fits, read back as a string. *)
Lemma snprintf_fits buf text :
  no_zero text -> (length text < length buf)%nat ->
  returns (snprintf buf (length buf) text) (fun b => length b = length buf /\ c_string b = Ok text).
Proof.
  intros Hz Hl. unfold snprintf. rewrite take_ge by lia. rewrite store_at_Ok by (rewrite length_app; cbn; lia).
  apply returns_Ok. rewrite take_0, Nat.add_0_l, app_nil_l. split.
  - rewrite !length_app, length_drop. cbn. lia.
  - rewrite <- app_assoc. by apply c_string_exact.
Qed.
