(* ===== verification/Epoll.v ===== *)
(** * The epoll loop the single-threaded servers share

    epoll/epoll_v1.c, epoll/epoll_v2.c, c10M/server.c, websocket/websocket.c and
    websocket/epoll_websocket.c are the same reactor around different
    applications: a sockitem per socket with the callback that handles its next
    event, accept_callback, recv_callback and send_callback, and the loop of main
    over the events epoll_wait returns.  [App] is what differs: what a connection
    keeps, what it does with received bytes, and what it hands to send.

    The kernel's part is its documented behaviour: the interest list of the epoll
    object, epoll_ctl on it, and the answers of accept, recv and send, which each step
    takes as an argument; malloc may answer NULL. *)

From S2P Require Import Prelude.

Definition EPOLLIN : Z := 1.
Definition EPOLLOUT : Z := 4.
Definition EPOLLET : Z := 2147483648.
Definition BUFFER_SIZE : Z := 1024.

Inductive ctl_op : Set := EPOLL_CTL_ADD | EPOLL_CTL_MOD | EPOLL_CTL_DEL.

(** The interest list: the events and the [data.ptr] of each registered socket. *)
Abbreviation interests := (gmap Z (Z * Z)).

(** epoll_ctl: EEXIST, ENOENT, or the change. *)
Definition epoll_ctl (op : ctl_op) (fd events ptr : Z) (m : interests) : Z * interests :=
  match op, m !! fd with
  | EPOLL_CTL_ADD, Some _ => (-1, m)
  | EPOLL_CTL_ADD, None => (0, <[fd := (events, ptr)]> m)
  | EPOLL_CTL_MOD, Some _ => (0, <[fd := (events, ptr)]> m)
  | EPOLL_CTL_DEL, Some _ => (0, delete fd m)
  | _, None => (-1, m)
  end.

(** Closing the last descriptor of a socket removes it. *)
Definition sys_close (fd : Z) (m : interests) : interests := delete fd m.

(** What recv answers: an error (EAGAIN or EWOULDBLOCK when [again]), the end of
    the stream, or between one and 1024 bytes. *)
Inductive received : Set :=
  | RecvError (again : bool)
  | RecvEnd
  | RecvData (data : list Z).

Definition recv_ok (r : received) : Prop :=
  match r with
  | RecvData d => d <> [] /\ Z.of_nat (length d) <= BUFFER_SIZE /\ Forall is_byte d
  | _ => True
  end.

(** memcpy of the bytes recv stores at the front of a buffer. *)
Definition overwrite (buf d : list Z) : list Z := d ++ drop (length d) buf.

Lemma overwrite_length buf d : (length d <= length buf)%nat -> length (overwrite buf d) = length buf.
Proof. intros. unfold overwrite. rewrite length_app, length_drop. lia. Qed.

(** ** The application of a server *)

Class App := {
  conn : Type;
  (** memory of the size of a sockitem *)
  sized : conn -> Prop;
  (** the memory malloc returns, with the fields accept_callback assigns *)
  on_accept : conn -> conn;
  (** what recv_callback does with the bytes, and whether it then waits for EPOLLOUT *)
  on_data : conn -> list Z -> res (conn * bool);
  (** the bytes given to send, and what send_callback leaves *)
  to_send : conn -> res (list Z);
  on_sent : conn -> conn }.

Inductive cb : Set := accept_cb | recv_cb | send_cb.

#[export] Instance cb_eq_dec : EqDecision cb.
Proof. solve_decision. Defined.

Section Loop.
Context `{A : App}.

Record sockitem := mkItem { sock_fd : Z; callback : cb; data : conn }.

(** The interest list, the sockitems that are allocated, what was given to send, and what of
    it the kernel took. *)
Record world := mkWorld {
  interest : interests;
  items : gmap Z sockitem;
  sent : list (Z * list Z);
  took : list (Z * list Z) }.

Definition get_item (w : world) (p : Z) : res sockitem :=
  match items w !! p with Some si => Ok si | None => Err OutOfBounds end.

(** accept answers a descriptor or fails; malloc answers an address, 0 for NULL, and
    memory with any contents.  The result of malloc is not checked. *)
Definition accept_callback (fd : Z) (client : option Z) (p : Z) (junk : conn) (w : world) : res (Z * world) :=
  match client with
  | None => Ok (-1, w)
  | Some c =>
      if p =? 0 then Err NullDeref
      else
        let si := mkItem c recv_cb (on_accept junk) in
        Ok (c, mkWorld (epoll_ctl EPOLL_CTL_ADD c (Z.lor EPOLLIN EPOLLET) p (interest w)).2
                 (<[p := si]> (items w)) (sent w) (took w))
  end.

(** Unregister, close and free. *)
Definition drop_client (fd p : Z) (w : world) : world :=
  mkWorld (sys_close fd (epoll_ctl EPOLL_CTL_DEL fd EPOLLIN 0 (interest w)).2)
    (delete p (items w)) (sent w) (took w).

Definition recv_callback (fd p : Z) (r : received) (w : world) : res (Z * world) :=
  si ← get_item w p;
  match r with
  | RecvError true => Ok (-1, w)
  | RecvError false | RecvEnd => Ok (0, drop_client fd p w)
  | RecvData d =>
      '(c, out) ← on_data (data si) d;
      if (out : bool) then
        Ok (0, mkWorld (epoll_ctl EPOLL_CTL_MOD fd (Z.lor EPOLLOUT EPOLLET) p (interest w)).2
                 (<[p := mkItem fd send_cb c]> (items w)) (sent w) (took w))
      else Ok (0, mkWorld (interest w) (<[p := mkItem (sock_fd si) (callback si) c]> (items w)) (sent w) (took w))
  end.

(** send answers [ret], the number of bytes taken or -1; nothing looks at it. *)
Definition send_callback (fd p ret : Z) (w : world) : res (Z * world) :=
  si ← get_item w p;
  b ← to_send (data si);
  Ok (0, mkWorld (epoll_ctl EPOLL_CTL_MOD fd (Z.lor EPOLLIN EPOLLET) p (interest w)).2
           (<[p := mkItem fd recv_cb (on_sent (data si))]> (items w))
           (sent w ++ [(fd, b)]) (took w ++ [(fd, take (Z.to_nat ret) b)])).

(** What the system answers to the calls a callback makes. *)
Record answers := mkAnswers {
  client : option Z; block : Z; garbage : conn; bytes : received; send_ret : Z }.

(** si->callback(si->sock_fd, events, si) *)
Definition call (p : Z) (a : answers) (w : world) : res world :=
  si ← get_item w p;
  '(_, w) ← match callback si with
            | accept_cb => accept_callback (sock_fd si) (client a) (block a) (garbage a) w
            | recv_cb => recv_callback (sock_fd si) p (bytes a) w
            | send_cb => send_callback (sock_fd si) p (send_ret a) w
            end;
  Ok w.

(** The body of the loop of main over one entry of the event array. *)
Definition handle_event (events p : Z) (a a' : answers) (w : world) : res world :=
  w ← (if Z.land events EPOLLIN =? 0 then Ok w else call p a w);
  if Z.land events EPOLLOUT =? 0 then Ok w else call p a' w.

(** main up to its loop: one registered listener with its sockitem at [p]. *)
Definition listening (fd p : Z) (junk : conn) : world :=
  mkWorld (epoll_ctl EPOLL_CTL_ADD fd EPOLLIN p ∅).2 {[p := mkItem fd accept_cb junk]} [] [].

(** ** The invariant of the loop *)

Definition mask_of (c : cb) : Z :=
  match c with
  | accept_cb => EPOLLIN
  | recv_cb => Z.lor EPOLLIN EPOLLET
  | send_cb => Z.lor EPOLLOUT EPOLLET
  end.

(** The sockitems and the registrations match one to one, and each socket waits
    for the event its callback handles. *)
Record loop_inv (P : cb -> conn -> Prop) (w : world) : Prop := {
  li_items : forall p si, items w !! p = Some si ->
      p <> 0 /\ interest w !! sock_fd si = Some (mask_of (callback si), p);
  li_interest : forall fd ev p, interest w !! fd = Some (ev, p) ->
      exists si, items w !! p = Some si /\ sock_fd si = fd;
  li_conn : forall p si, items w !! p = Some si -> callback si <> accept_cb -> P (callback si) (data si) }.

(** An application: [P] says what a connection satisfies while its socket waits in
    recv_callback, and what in send_callback; [bad] is how recv_callback may fault on a
    connection and the bytes it gets. *)
Record app_ok (P : cb -> conn -> Prop) (bad : conn -> list Z -> fault -> Prop) : Prop := {
  ok_accept : forall junk, sized junk -> P recv_cb (on_accept junk);
  ok_data : forall c d, P recv_cb c -> recv_ok (RecvData d) ->
      safely (bad c d) (on_data c d) (fun '(c', out) => P (if (out : bool) then send_cb else recv_cb) c');
  ok_send : forall c, P send_cb c -> returns (to_send c) (fun _ => P recv_cb (on_sent c)) }.

(** What the kernel may report and answer: bits of the mask (others, such as
    EPOLLHUP, do not matter to the loop), a fresh descriptor, a fresh block or NULL. *)
Record event_ok (w : world) (events p : Z) (a : answers) : Prop := {
  ev_reg : exists fd ev, interest w !! fd = Some (ev, p) /\
      Z.land events (Z.lor EPOLLIN EPOLLOUT) = Z.land (Z.land events ev) (Z.lor EPOLLIN EPOLLOUT);
  ev_recv : recv_ok (bytes a);
  ev_sized : sized (garbage a);
  ev_client : forall c, client a = Some c -> interest w !! c = None;
  ev_block : block a = 0 \/ items w !! block a = None }.

(** The faults an event may end in: a client was accepted and malloc answered NULL, or the
    application faults on what it is given. *)
Definition event_fault (bad : conn -> list Z -> fault -> Prop) (w : world) (p : Z) (a : answers) (e : fault) : Prop :=
  (e = NullDeref /\ block a = 0 /\ client a <> None) \/
  exists si d, items w !! p = Some si /\ callback si = recv_cb /\ bytes a = RecvData d /\ bad (data si) d e.

Lemma fds_differ P w p p' si si' :
  loop_inv P w -> items w !! p = Some si -> items w !! p' = Some si' -> p <> p' -> sock_fd si <> sock_fd si'.
Proof.
  intros Hi H H' Hne E. destruct (li_items P w Hi _ _ H) as [_ H1], (li_items P w Hi _ _ H') as [_ H2].
  rewrite E, H2 in H1. congruence.
Qed.

(** A sockitem gets another callback, its socket the mask of it. *)
Lemma loop_inv_switch P w p si si' out out' :
  loop_inv P w -> items w !! p = Some si -> sock_fd si' = sock_fd si ->
  callback si' <> accept_cb -> P (callback si') (data si') ->
  loop_inv P (mkWorld (<[sock_fd si := (mask_of (callback si'), p)]> (interest w)) (<[p := si']> (items w)) out out').
Proof.
  intros Hi Hsi Ef Hcb HP. constructor; cbn.
  - intros q t Hq. destruct (decide (q = p)) as [->|Hne].
    + rewrite lookup_insert_eq in Hq. injection Hq as <-. rewrite Ef, lookup_insert_eq.
      split; [by apply (li_items P w Hi _ _ Hsi)|done].
    + rewrite lookup_insert_ne in Hq by done. rewrite lookup_insert_ne.
      * by apply (li_items P w Hi).
      * by eapply fds_differ.
  - intros fd ev q Hq. destruct (decide (fd = sock_fd si)) as [->|Hne].
    + rewrite lookup_insert_eq in Hq. injection Hq as <- <-. exists si'. by rewrite lookup_insert_eq.
    + rewrite lookup_insert_ne in Hq by done. destruct (li_interest P w Hi _ _ _ Hq) as (t & Ht & E).
      exists t. rewrite lookup_insert_ne; [done|]. intros <-. simplify_eq.
  - intros q t Hq Hc. destruct (decide (q = p)) as [->|Hne].
    + rewrite lookup_insert_eq in Hq. by injection Hq as <-.
    + rewrite lookup_insert_ne in Hq by done. by eapply (li_conn P w Hi).
Qed.

Lemma loop_inv_drop P w p si :
  loop_inv P w -> items w !! p = Some si -> loop_inv P (drop_client (sock_fd si) p w).
Proof.
  intros Hi Hsi. destruct (li_items P w Hi _ _ Hsi) as [_ Hfd].
  assert (sys_close (sock_fd si) (epoll_ctl EPOLL_CTL_DEL (sock_fd si) EPOLLIN 0 (interest w)).2
          = delete (sock_fd si) (interest w)) as E.
  { unfold sys_close, epoll_ctl. rewrite Hfd. cbn. apply delete_delete_eq. }
  unfold drop_client. rewrite E. constructor; cbn.
  - intros q t [Hne Hq]%lookup_delete_Some. rewrite lookup_delete_ne; [by apply (li_items P w Hi)|].
    eapply fds_differ; done.
  - intros fd ev q [Hne Hq]%lookup_delete_Some. destruct (li_interest P w Hi _ _ _ Hq) as (t & Ht & E').
    exists t. rewrite lookup_delete_ne; [done|]. intros <-. simplify_eq.
  - intros q t [_ Hq]%lookup_delete_Some. by eapply (li_conn P w Hi).
Qed.

Lemma loop_inv_add P w c p junk :
  loop_inv P w -> interest w !! c = None -> items w !! p = None -> p <> 0 -> P recv_cb (on_accept junk) ->
  loop_inv P (mkWorld (<[c := (Z.lor EPOLLIN EPOLLET, p)]> (interest w))
                (<[p := mkItem c recv_cb (on_accept junk)]> (items w)) (sent w) (took w)).
Proof.
  intros Hi Hc Hp H0 HP. constructor; cbn.
  - intros q t Hq. destruct (decide (q = p)) as [->|Hne].
    + rewrite lookup_insert_eq in Hq. injection Hq as <-. cbn. by rewrite lookup_insert_eq.
    + rewrite lookup_insert_ne in Hq by done. destruct (li_items P w Hi _ _ Hq) as [? Ht].
      split; [done|]. rewrite lookup_insert_ne; [done|]. intros ->. congruence.
  - intros fd ev q Hq. destruct (decide (fd = c)) as [->|Hne].
    + rewrite lookup_insert_eq in Hq. injection Hq as <- <-. eexists. by rewrite lookup_insert_eq.
    + rewrite lookup_insert_ne in Hq by done. destruct (li_interest P w Hi _ _ _ Hq) as (t & Ht & E).
      exists t. rewrite lookup_insert_ne; [done|]. intros <-. congruence.
  - intros q t Hq Hcb. destruct (decide (q = p)) as [->|Hne].
    + rewrite lookup_insert_eq in Hq. by injection Hq as <-.
    + rewrite lookup_insert_ne in Hq by done. by eapply (li_conn P w Hi).
Qed.

Lemma loop_inv_keep P w p si c :
  loop_inv P w -> items w !! p = Some si -> P (callback si) c ->
  loop_inv P (mkWorld (interest w) (<[p := mkItem (sock_fd si) (callback si) c]> (items w)) (sent w) (took w)).
Proof.
  intros Hi Hsi HP. constructor; cbn.
  - intros q t Hq. destruct (decide (q = p)) as [->|Hne].
    + rewrite lookup_insert_eq in Hq. injection Hq as <-. cbn. by apply (li_items P w Hi).
    + rewrite lookup_insert_ne in Hq by done. by apply (li_items P w Hi).
  - intros fd ev q Hq. destruct (li_interest P w Hi _ _ _ Hq) as (t & Ht & E).
    destruct (decide (q = p)) as [->|Hne].
    + eexists. rewrite lookup_insert_eq. split; [done|]. cbn. congruence.
    + exists t. by rewrite lookup_insert_ne.
  - intros q t Hq Hcb. destruct (decide (q = p)) as [->|Hne].
    + rewrite lookup_insert_eq in Hq. by injection Hq as <-.
    + rewrite lookup_insert_ne in Hq by done. by eapply (li_conn P w Hi).
Qed.

(** One callback, called for an event of its socket. *)
Lemma call_inv P bad w p si a :
  app_ok P bad -> loop_inv P w -> items w !! p = Some si -> recv_ok (bytes a) -> sized (garbage a) ->
  (forall c, client a = Some c -> interest w !! c = None) ->
  block a = 0 \/ items w !! block a = None ->
  safely (event_fault bad w p a) (call p a w) (fun w' => loop_inv P w').
Proof.
  intros HA Hi Hsi Hr Hz Hcl Hb. unfold call, get_item. rewrite Hsi. cbn [mbind res_bind].
  pose proof (li_items P w Hi _ _ Hsi) as [_ Hfd]. destruct (callback si) eqn:Ecb.
  - unfold accept_callback. destruct (client a) as [c|] eqn:Ec; [|done].
    destruct (Z.eqb_spec (block a) 0) as [E0|Hb0]; [left; by rewrite Ec|].
    destruct Hb as [?|Hb]; [done|]. cbn. unfold epoll_ctl.
    rewrite (Hcl c eq_refl). cbn. apply loop_inv_add; auto. by apply (ok_accept P bad HA).
  - unfold recv_callback, get_item. rewrite Hsi. cbn [mbind res_bind].
    assert (HP : P recv_cb (data si)) by (rewrite <- Ecb; eapply (li_conn P w Hi); [done|congruence]).
    destruct (bytes a) as [[]| |d] eqn:Ed.
    + done.
    + by eapply loop_inv_drop.
    + by eapply loop_inv_drop.
    + pose proof (ok_data P bad HA _ _ HP Hr) as Hd.
      destruct (on_data (data si) d) as [[c out]|e]; [|right; by exists si, d].
      cbn [mbind res_bind safely] in *. destruct out.
      * unfold epoll_ctl. rewrite Hfd.
        by apply (loop_inv_switch P w p si (mkItem (sock_fd si) send_cb c)).
      * apply loop_inv_keep; [done..|]. by rewrite Ecb.
  - unfold send_callback, get_item. rewrite Hsi. cbn [mbind res_bind].
    assert (HP : P send_cb (data si)) by (rewrite <- Ecb; eapply (li_conn P w Hi); [done|congruence]).
    destruct (ok_send P bad HA _ HP) as (b & -> & Hc). cbn [mbind res_bind safely].
    unfold epoll_ctl. rewrite Hfd.
    by apply (loop_inv_switch P w p si (mkItem (sock_fd si) recv_cb (on_sent (data si)))).
Qed.

(** The event of a callback, and the one call an entry of the event array leads to. *)
Definition bit_of (c : cb) : Z := match c with send_cb => EPOLLOUT | _ => EPOLLIN end.

Definition answered (a a' : answers) : answers :=
  mkAnswers (client a) (block a) (garbage a) (bytes a) (send_ret a').

Lemma handle_event_call P w events p a a' :
  loop_inv P w -> event_ok w events p a ->
  exists si, items w !! p = Some si /\ interest w !! sock_fd si = Some (mask_of (callback si), p) /\
    handle_event events p a a' w =
      if Z.land events (bit_of (callback si)) =? 0 then Ok w else call p (answered a a') w.
Proof.
  intros Hi [(fd & ev & Hfd & Hev) _ _ _ _].
  destruct (li_interest P w Hi _ _ _ Hfd) as (si & Hsi & <-).
  destruct (li_items P w Hi _ _ Hsi) as [_ Hm]. rewrite Hm in Hfd. simplify_eq.
  exists si. split; [done|]. split; [done|].
  assert (forall bit, (bit = EPOLLIN \/ bit = EPOLLOUT) -> Z.land (mask_of (callback si)) bit = 0 ->
    Z.land events bit = 0) as Hbit.
  { intros bit Hb' H0. apply (f_equal (fun z => Z.land z bit)) in Hev.
    rewrite <- !Z.land_assoc in Hev.
    assert (Z.land (Z.lor EPOLLIN EPOLLOUT) bit = bit) as Eb by (destruct Hb' as [->| ->]; reflexivity).
    rewrite Eb, H0, Z.land_0_r in Hev. done. }
  assert (callback si <> send_cb -> Z.land events EPOLLOUT = 0) as Hout.
  { intros H. apply Hbit; [by right|]. by destruct (callback si). }
  assert (callback si = send_cb -> Z.land events EPOLLIN = 0) as Hin.
  { intros H. apply Hbit; [by left|]. by rewrite H. }
  unfold handle_event. destruct (callback si) eqn:Ecb; cbn [bit_of].
  - rewrite Hout by done. change (0 =? 0) with true.
    destruct (Z.land events EPOLLIN =? 0); [done|].
    assert (call p a w = call p (answered a a') w) as -> by (unfold call, get_item; rewrite Hsi; cbn; by rewrite Ecb).
    by destruct (call p (answered a a') w).
  - rewrite Hout by done. change (0 =? 0) with true.
    destruct (Z.land events EPOLLIN =? 0); [done|].
    assert (call p a w = call p (answered a a') w) as -> by (unfold call, get_item; rewrite Hsi; cbn; by rewrite Ecb).
    by destruct (call p (answered a a') w).
  - rewrite Hin by done. cbn [Z.eqb mbind res_bind]. destruct (_ =? 0); [done|].
    unfold call, get_item. rewrite Hsi. cbn [mbind res_bind]. by rewrite Ecb.
Qed.

(** A socket waits for one kind of event, so an entry of the event array calls at
    most one callback, whose sockitem is alive. *)
Lemma handle_event_inv P bad w events p a a' :
  app_ok P bad -> loop_inv P w -> event_ok w events p a ->
  safely (event_fault bad w p a) (handle_event events p a a' w) (fun w' => loop_inv P w').
Proof.
  intros HA Hi He. destruct (handle_event_call P w events p a a' Hi He) as (si & Hsi & _ & ->).
  destruct He as [_ ? ? ? ?]. destruct (_ =? 0); [done|]. by apply (call_inv P bad w p si (answered a a')).
Qed.

Lemma listening_inv P fd p junk : p <> 0 -> loop_inv P (listening fd p junk).
Proof.
  intros Hp. unfold listening, epoll_ctl. rewrite lookup_empty. constructor; cbn.
  - intros q t [<- <-]%lookup_singleton_Some. cbn. by rewrite lookup_insert_eq.
  - intros fd' ev q. rewrite lookup_insert_Some, lookup_empty. intros [(<- & [= <- <-])|[_ ?]]; [|done].
    eexists. rewrite lookup_singleton_eq. done.
  - intros q t [<- <-]%lookup_singleton_Some. done.
Qed.

(** The events of any number of epoll_wait calls, with the answers each gets. *)
Inductive served (w : world) : world -> Prop :=
  | served_none : served w w
  | served_event w1 w2 events p a a' :
      served w w1 -> event_ok w1 events p a -> handle_event events p a a' w1 = Ok w2 -> served w w2.

Lemma served_inv P bad w w' : app_ok P bad -> loop_inv P w -> served w w' -> loop_inv P w'.
Proof.
  intros HA Hw. induction 1 as [|w1 w2 events p a a' _ IH He H]; [done|].
  pose proof (handle_event_inv P bad w1 events p a a' HA IH He) as Hi. by rewrite H in Hi.
Qed.

(** The kernel takes a prefix of what it is given. *)
Definition takes_prefixes (w : world) : Prop :=
  Forall2 (fun g t => fst t = fst g /\ snd t `prefix_of` snd g) (sent w) (took w).

Lemma handle_event_takes events p a a' w w' :
  handle_event events p a a' w = Ok w' -> takes_prefixes w -> takes_prefixes w'.
Proof.
  assert (forall p a w w', call p a w = Ok w' -> takes_prefixes w -> takes_prefixes w') as Hcall.
  { clear. intros p a w w' H Ht. unfold call in H. apply bind_Ok in H as (si & Hsi & H).
    apply bind_Ok in H as ([r w1] & H & [= <-]). destruct (callback si).
    - unfold accept_callback in H. destruct (client a); [|by injection H as _ <-].
      destruct (_ =? 0); [done|]. by injection H as _ <-.
    - unfold recv_callback in H. rewrite Hsi in H. cbn [mbind res_bind] in H.
      destruct (bytes a) as [[]| |d]; [by injection H as _ <-..|].
      apply bind_Ok in H as ([c []] & _ & H); by injection H as _ <-.
    - unfold send_callback in H. rewrite Hsi in H. cbn [mbind res_bind] in H.
      apply bind_Ok in H as (b & _ & H). injection H as _ <-. unfold takes_prefixes. cbn.
      apply Forall2_app; [done|]. constructor; [|done]. split; [done|]. apply prefix_take. }
  unfold handle_event. intros H Ht. apply bind_Ok in H as (w1 & H1 & H).
  assert (takes_prefixes w1) as Ht1 by (destruct (_ =? 0); [by injection H1 as <-|by eapply Hcall]).
  destruct (Z.land events EPOLLOUT =? 0); [by injection H as <-|by eapply Hcall].
Qed.
End Loop.

Arguments sockitem _ : clear implicits.
Arguments world _ : clear implicits.
Arguments answers _ : clear implicits.
