(* ===== verification/LoadGen.v ===== *)
(** * c10M/client.c: the load generator

    main opens one connection per round and, when their number is a multiple of a
    thousand, handles the events of all of them.  What the kernel answers in a round is an
    argument of the round: the socket, whether it could be connected and watched, the
    events of epoll_wait and what each recv gives.  [outgoing] is the bytes that are passed
    to send, with the socket.

    main does not test what epoll_create, epoll_ctl and send return.  The options of the
    sockets, the time and the printed text are left out. *)

From Stdlib Require Import Ascii String.
From S2P Require Import Prelude CText Epoll.

Definition MAX_BUFFER : nat := 256.
Definition MAX_EPOLLSIZE : Z := 384 * 1024.
Definition MAX_PORT : Z := 100.

Record gen := mkGen {
  connections : Z; index : Z; buffer : list Z;
  (** the sockets that are open, those that epoll watches, and what was sent *)
  opened : gset Z; watched : interests; outgoing : list (Z * list Z) }.

#[export] Instance eta_gen : Eta gen := fun s =>
  mkGen (connections s) (index s) (buffer s) (opened s) (watched s) (outgoing s).
#[export] Instance set_connections : Settable connections := ltac:(derive_setter).
#[export] Instance set_index : Settable index := ltac:(derive_setter).
#[export] Instance set_buffer : Settable buffer := ltac:(derive_setter).
#[export] Instance set_opened : Settable opened := ltac:(derive_setter).
#[export] Instance set_watched : Settable watched := ltac:(derive_setter).
#[export] Instance set_outgoing : Settable outgoing := ltac:(derive_setter).

(** The answers of a round. *)
Record answers := mkAnswers {
  a_socket : Z; a_connect : bool; a_watch : bool;
  (** descriptor, events, and what recv answers if it is called *)
  a_events : list (Z * Z * received) }.

Definition start : gen :=
  mkGen 0 0 (overwrite (replicate MAX_BUFFER 0) (bytes_of_string "Data From MulClient" ++ [10])) ∅ ∅ [].

(** ++index, which wraps at MAX_PORT. *)
Definition next_port (s : gen) : gen :=
  let s := s <| index ::= fun i => i + 1 |> in
  if index s >=? MAX_PORT then s <| index := 0 |> else s.

(** snprintf into buffer, and send of the string in it. *)
Definition send_text (fd : Z) (text : list Z) (s : gen) : res gen :=
  b ← snprintf (buffer s) MAX_BUFFER text;
  t ← c_string b;
  Ok (s <| buffer := b |> <| outgoing ::= fun l => l ++ [(fd, t)] |>).

Definition hello (n : Z) : list Z := bytes_of_string "Hello Server: client --> " ++ percent_d n ++ [10].
Definition data_from (fd : Z) : list Z := bytes_of_string "data from " ++ percent_d fd ++ [10].

(** One connection more; or the value that main returns. *)
Definition connect_one (a : answers) (s : gen) : res (gen + Z) :=
  let s := next_port s in
  let sockfd := a_socket a in
  if sockfd =? -1 then Ok (inr (-1)) else
  let s := s <| opened ::= union {[sockfd]} |> in
  if negb (a_connect a) then Ok (inr (-2)) else
  s ← send_text sockfd (hello (connections s)) s;
  let s := if a_watch a
           then s <| watched ::= fun m => (epoll_ctl EPOLL_CTL_ADD sockfd (Z.lor EPOLLIN EPOLLOUT) sockfd m).2 |> else s in
  Ok (inl (s <| connections ::= fun c => i32 (c + 1) |>)).

Definition close_client (fd : Z) (s : gen) : gen :=
  s <| connections ::= fun c => i32 (c - 1) |> <| opened ::= fun o => o ∖ {[fd]} |> <| watched ::= sys_close fd |>.

(** The body of the loop over the events.  EINTR counts as [again]. *)
Definition handle_event (sockfd : Z) (e : Z * Z * received) (s : gen) : res gen :=
  let '(clientfd, events, r) := e in
  if negb (Z.land events EPOLLOUT =? 0) then send_text sockfd (data_from clientfd) s
  else if negb (Z.land events EPOLLIN =? 0) then
    match r with
    | RecvData d => _ ← store_at (replicate MAX_BUFFER 0) 0 d; Ok s
    | RecvEnd => Ok (close_client clientfd s)
    | RecvError again => Ok (if again then s else close_client clientfd s)
    end
  else Ok (close_client clientfd s).

Fixpoint handle_events (sockfd : Z) (es : list (Z * Z * received)) (s : gen) : res gen :=
  match es with
  | [] => Ok s
  | e :: es => s ← handle_event sockfd e s; handle_events sockfd es s
  end.

(** epoll_wait stores as many events as there are connections. *)
Definition poll (a : answers) (s : gen) : res gen :=
  if Z.rem (connections s) 1000 =? 0 then
    if Z.of_nat (length (a_events a)) <=? MAX_EPOLLSIZE
    then handle_events (a_socket a) (a_events a) s else Err OutOfBounds
  else Ok s.

Definition round (a : answers) (s : gen) : res (gen + Z) :=
  r ← connect_one a s;
  match r with inl s => s ← poll a s; Ok (inl s) | inr z => Ok (inr z) end.

(** ** What the kernel may answer *)

Section Kernel.
(** What epoll_create has answered: a descriptor, or -1. *)
Context (epoll_fd : Z).

(** A descriptor that is not in use.  The number of descriptors is an int, so the largest
    int is none of them. *)
Definition new_fd (s : gen) (fd : Z) : Prop :=
  0 <= fd < 2147483647 /\ (fd ∉ opened s) /\ fd <> epoll_fd.

(** At most one event per watched socket, not more than were asked for. *)
Definition events_ok (es : list (Z * Z * received)) (s : gen) : Prop :=
  NoDup ((fun e => e.1.1) <$> es) /\ Z.of_nat (length es) <= connections s /\
  Forall (fun '(fd, _, r) => fd ∈ dom (watched s) /\
    match r with RecvData d => (length d <= MAX_BUFFER)%nat | _ => True end) es.

Definition answers_ok (a : answers) (s : gen) : Prop :=
  (a_socket a = -1 \/ new_fd s (a_socket a)) /\
  (epoll_fd = -1 -> a_watch a = false /\ a_events a = []) /\
  (forall s', connect_one a s = Ok (inl s') -> events_ok (a_events a) s').

Inductive rounds : nat -> gen -> Prop :=
  | rounds_start : rounds 0 start
  | rounds_step n s a s' : rounds n s -> answers_ok a s -> round a s = Ok (inl s') -> rounds (S n) s'.

(** ** The invariant *)

Record gen_inv (s : gen) : Prop := {
  gi_count : connections s = Z.of_nat (size (opened s));
  gi_open : forall fd, fd ∈ opened s -> 0 <= fd < 2147483647;
  gi_watched : dom (watched s) ⊆ opened s;
  gi_buffer : length (buffer s) = MAX_BUFFER;
  gi_index : 0 <= index s < MAX_PORT }.

Lemma fds_bound (X : gset Z) n : 0 <= n -> (forall x, x ∈ X -> 0 <= x < n) -> Z.of_nat (size X) <= n.
Proof.
  intros Hn HX. assert (X ⊆ list_to_set (seqZ 0 n)) as Hs.
  { intros x Hx. apply elem_of_list_to_set, elem_of_seqZ. specialize (HX x Hx). lia. }
  apply subseteq_size in Hs. rewrite size_list_to_set in Hs by apply NoDup_seqZ. rewrite length_seqZ in Hs. lia.
Qed.

(** An int can count the sockets. *)
Lemma count_small s : gen_inv s -> 0 <= connections s < 2147483648.
Proof.
  intros Hi. rewrite (gi_count _ Hi). split; [lia|].
  pose proof (fds_bound (opened s) 2147483647 ltac:(lia) (gi_open _ Hi)). lia.
Qed.

Lemma hello_fits n : is_i32 n -> no_zero (hello n) /\ (length (hello n) < MAX_BUFFER)%nat.
Proof.
  intros Hn. destruct (percent_d_ok n Hn) as [Hz Hl]. split.
  - apply Forall_app. split; [by_decide|]. apply Forall_app. split; [done|by_decide].
  - unfold hello. rewrite !length_app. change (length (bytes_of_string _)) with 25%nat. cbn [length]. unfold MAX_BUFFER. lia.
Qed.

Lemma data_from_fits n : is_i32 n -> no_zero (data_from n) /\ (length (data_from n) < MAX_BUFFER)%nat.
Proof.
  intros Hn. destruct (percent_d_ok n Hn) as [Hz Hl]. split.
  - apply Forall_app. split; [by_decide|]. apply Forall_app. split; [done|by_decide].
  - unfold data_from. rewrite !length_app. change (length (bytes_of_string _)) with 10%nat. cbn [length]. unfold MAX_BUFFER. lia.
Qed.

Lemma send_text_ok fd text s :
  length (buffer s) = MAX_BUFFER -> no_zero text -> (length text < MAX_BUFFER)%nat ->
  returns (send_text fd text s) (fun s' => exists b, length b = MAX_BUFFER /\
    s' = s <| buffer := b |> <| outgoing ::= fun l => l ++ [(fd, text)] |>).
Proof.
  intros Hb Hz Hl. unfold send_text. rewrite <- Hb in Hl |- * at 1.
  eapply returns_bind; [by apply snprintf_fits|]. intros b [Elen Et]. rewrite Et. apply returns_Ok.
  exists b. by rewrite <- Hb.
Qed.

Lemma next_port_spec s :
  0 <= index s < MAX_PORT -> next_port s = s <| index := (index s + 1) mod MAX_PORT |>.
Proof.
  intros Hi. unfold next_port, MAX_PORT in *. destruct s as [c i b o w l]. cbn in *.
  destruct (Z.geb_spec (i + 1) 100).
  - replace (i + 1) with 100 by lia. done.
  - by rewrite Z.mod_small by lia.
Qed.

Lemma connect_one_inv a s :
  gen_inv s -> a_socket a = -1 \/ new_fd s (a_socket a) ->
  returns (connect_one a s) (fun r =>
    match r with
    | inl s' => gen_inv s' /\ a_socket a <> -1 /\ a_connect a = true /\ index s' = (index s + 1) mod MAX_PORT /\
        outgoing s' = outgoing s ++ [(a_socket a, hello (connections s))]
    | inr z => (z = -1 /\ a_socket a = -1) \/ (z = -2 /\ a_connect a = false)
    end).
Proof.
  intros Hi Hsock. pose proof (count_small s Hi) as Hc. unfold connect_one.
  rewrite next_port_spec by apply Hi. destruct (Z.eqb_spec (a_socket a) (-1)) as [E|Hne]; [apply returns_Ok; by left|].
  destruct Hsock as [?|(Hr & Hnew & _)]; [done|]. destruct (a_connect a); cbn [negb]; [|apply returns_Ok; by right].
  destruct (hello_fits (connections s)) as [Hz Hl]; [unfold is_i32; lia|].
  eapply returns_bind; [apply send_text_ok; [apply Hi|exact Hz|exact Hl]|].
  intros s1 (b & Hb & ->). apply returns_Ok. destruct Hi as [Hn Ho Hw _ Hx].
  assert (forall w, dom w ⊆ {[a_socket a]} ∪ opened s -> gen_inv (mkGen (i32 (connections s + 1)) ((index s + 1) mod MAX_PORT) b
    ({[a_socket a]} ∪ opened s) w (outgoing s ++ [(a_socket a, hello (connections s))]))) as Hinv.
  { intros w Hdom. assert (size ({[a_socket a]} ∪ opened s) = S (size (opened s))) as Esz.
    { rewrite size_union, size_singleton; [done|set_solver]. }
    assert (forall fd, fd ∈ {[a_socket a]} ∪ opened s -> 0 <= fd < 2147483647) as Hopen.
    { intros fd [->%elem_of_singleton|Hfd]%elem_of_union; [done|by apply Ho]. }
    pose proof (fds_bound _ 2147483647 ltac:(lia) Hopen) as Hlt. rewrite Esz in Hlt.
    constructor; cbn; [|done..|unfold MAX_PORT; by apply Z.mod_pos_bound]. rewrite i32_small, Esz by lia. lia. }
  destruct (a_watch a); (split; [apply Hinv|by split_and!]); cbn.
  - unfold epoll_ctl. destruct (watched s !! a_socket a); cbn; [set_solver|]. rewrite dom_insert_L. set_solver.
  - set_solver.
Qed.

(** Sockets are closed and others are not touched; all that is sent goes to [sockfd]. *)
Definition handled (sockfd : Z) (closing : gset Z) (s s' : gen) : Prop :=
  gen_inv s' /\ index s' = index s /\ opened s ∖ closing ⊆ opened s' ⊆ opened s /\
  exists new, outgoing s' = outgoing s ++ new /\ Forall (fun m => m.1 = sockfd) new.

Lemma close_client_inv fd s : gen_inv s -> fd ∈ opened s -> gen_inv (close_client fd s).
Proof.
  intros Hi Hfd. pose proof (count_small s Hi) as Hc. destruct Hi as [Hn Ho Hw Hb Hx].
  assert (size (opened s) <> 0)%nat as Hne by (intros E%size_empty_inv; set_solver).
  constructor; cbn; [| | |done..].
  - rewrite size_difference by set_solver. rewrite size_singleton, i32_small by lia. lia.
  - intros x Hin. apply Ho. set_solver.
  - unfold sys_close. rewrite dom_delete_L. set_solver.
Qed.

Lemma load_event_inv sockfd fd events r s :
  gen_inv s -> fd ∈ opened s -> match r with RecvData d => (length d <= MAX_BUFFER)%nat | _ => True end ->
  returns (handle_event sockfd (fd, events, r) s) (handled sockfd {[fd]} s).
Proof.
  intros Hi Hfd Hr. pose proof (gi_open _ Hi _ Hfd) as Hrange.
  assert (handled sockfd {[fd]} s s) as Hsame.
  { split_and!; [done..|set_solver|set_solver|]. exists []. by rewrite app_nil_r. }
  assert (handled sockfd {[fd]} s (close_client fd s)) as Hclose.
  { split; [by apply close_client_inv|]. cbn. split_and!; [done|set_solver|set_solver|]. exists []. by rewrite app_nil_r. }
  unfold handle_event. destruct (negb _).
  - destruct (data_from_fits fd) as [Hz Hl]; [unfold is_i32; lia|].
    eapply returns_mono; [apply send_text_ok; [apply Hi|exact Hz|exact Hl]|].
    intros s' (b & Hb & ->). split; [by destruct Hi|]. cbn. split_and!; [done|set_solver|set_solver|].
    exists [(sockfd, data_from fd)]. split; [done|by constructor].
  - destruct (negb _); [|by apply returns_Ok]. destruct r as [[]| |d]; try by apply returns_Ok.
    rewrite store_at_Ok by (rewrite length_replicate; lia). by apply returns_Ok.
Qed.

Lemma handled_trans sockfd c c' s s1 s' :
  handled sockfd c s s1 -> handled sockfd c' s1 s' -> handled sockfd (c ∪ c') s s'.
Proof.
  intros (_ & E1 & [L1 U1] & new1 & O1 & F1) (Hi & E2 & [L2 U2] & new2 & O2 & F2).
  split; [done|]. split; [congruence|]. split; [split; set_solver|].
  exists (new1 ++ new2). rewrite O2, O1, <- app_assoc. split; [done|by apply Forall_app].
Qed.

Lemma handle_events_inv sockfd es s :
  gen_inv s -> NoDup ((fun e => e.1.1) <$> es) ->
  Forall (fun '(fd, _, r) => fd ∈ opened s /\
    match r with RecvData d => (length d <= MAX_BUFFER)%nat | _ => True end) es ->
  returns (handle_events sockfd es s) (handled sockfd (list_to_set ((fun e => e.1.1) <$> es)) s).
Proof.
  revert s. induction es as [|[[fd events] r] es IH]; intros s Hi Hnd Hes; cbn [handle_events].
  - apply returns_Ok. split_and!; [done..|set_solver|set_solver|]. exists []. by rewrite app_nil_r.
  - apply Forall_cons in Hes as [[Hfd Hr] Hes]. cbn in Hnd. apply NoDup_cons in Hnd as [Hnew Hnd].
    eapply returns_bind; [by apply load_event_inv|]. intros s1 H1. pose proof H1 as (Hi1 & _ & [Hkeep _] & _).
    eapply returns_mono; [apply (IH s1 Hi1 Hnd)|].
    + apply Forall_forall. intros [[fd' ev'] r'] Hin. pose proof (proj1 (Forall_forall _ _) Hes _ Hin) as [Hfd' Hr'].
      split; [|done]. apply Hkeep. apply elem_of_difference. split; [done|].
      intros ->%elem_of_singleton. apply Hnew. apply list_elem_of_fmap. by exists (fd, ev', r').
    + intros s' H2. cbn. by eapply handled_trans.
Qed.

(** Every round, whatever the kernel answers. *)
Lemma round_inv a s :
  gen_inv s -> answers_ok a s ->
  safely (fun e => e = OutOfBounds /\ MAX_EPOLLSIZE < Z.of_nat (length (a_events a))) (round a s) (fun r =>
    match r with
    | inl s' => gen_inv s' /\ a_socket a <> -1 /\ a_connect a = true /\ index s' = (index s + 1) mod MAX_PORT /\
        exists new, outgoing s' = outgoing s ++ (a_socket a, hello (connections s)) :: new /\
                    Forall (fun m => m.1 = a_socket a) new
    | inr z => (z = -1 /\ a_socket a = -1) \/ (z = -2 /\ a_connect a = false)
    end).
Proof.
  intros Hi (Hsock & _ & Hev). unfold round. destruct (connect_one_inv a s Hi Hsock) as ([s1|z] & E & H1); rewrite E; cbn [mbind res_bind]; [|exact H1].
  destruct H1 as (Hi1 & Hs1 & Hc1 & Ex & Eo). unfold poll. destruct (Z.rem (connections s1) 1000 =? 0).
  - destruct (Z.leb_spec (Z.of_nat (length (a_events a))) MAX_EPOLLSIZE); [|cbn; split; [done|lia]].
    destruct (Hev s1 E) as (Hnd & _ & Hes).
    destruct (handle_events_inv (a_socket a) (a_events a) s1 Hi1 Hnd) as (s' & E' & (Hi' & Ex' & _ & new & Eo' & Hf)).
    { eapply Forall_impl; [exact Hes|]. intros [[fd ev] r] [Hd Hr]. split; [by apply (gi_watched _ Hi1)|done]. }
    rewrite E'. cbn. split_and!; [done..|congruence|]. exists new. rewrite Eo', Eo, <- app_assoc. by split.
  - cbn. split_and!; [done..|]. exists []. by rewrite Eo.
Qed.

Lemma start_inv : gen_inv start.
Proof. constructor; cbn; [done|set_solver|set_solver|by_decide|unfold MAX_PORT; lia]. Qed.

Lemma rounds_inv n s : rounds n s -> gen_inv s /\ index s = Z.of_nat n mod MAX_PORT.
Proof.
  induction 1 as [|n s a s' Hr [Hi Hx] Ha E]; [by split; [apply start_inv|]|].
  pose proof (round_inv a s Hi Ha) as Hs. rewrite E in Hs. cbn in Hs. destruct Hs as (Hi' & _ & _ & Hx' & _).
  split; [done|]. rewrite Hx', Hx. unfold MAX_PORT. rewrite Zplus_mod_idemp_l. f_equal. lia.
Qed.

(** C37: Whatever the kernel answers, also when there is no epoll: connections is the number of
    open sockets, which an int can hold since the largest int is never a descriptor, the
    ports are taken in turn, and only open sockets are watched.  The loop goes on exactly
    when there is a socket and it could be connected, otherwise main returns -1 or -2.  A
    round greets the new socket with the number of those before it and sends to no other,
    also when it answers the events of others; and the only access outside an array is that
    of epoll_wait when there are more events than the array has room for. *)
Theorem load_generator_counts n s :
  rounds n s ->
  connections s = Z.of_nat (size (opened s)) /\ connections s < 2147483648 /\
  index s = Z.of_nat n mod MAX_PORT /\ dom (watched s) ⊆ opened s /\
  forall a, answers_ok a s ->
    match round a s with
    | Ok (inl s') => a_socket a <> -1 /\ a_connect a = true /\
        exists new, outgoing s' = outgoing s ++ (a_socket a, hello (connections s)) :: new /\
                    Forall (fun m => m.1 = a_socket a) new
    | Ok (inr z) => (z = -1 /\ a_socket a = -1) \/ (z = -2 /\ a_connect a = false)
    | Err e => e = OutOfBounds /\ MAX_EPOLLSIZE < Z.of_nat (length (a_events a))
    end.
Proof.
  intros [Hi Hx]%rounds_inv. pose proof (count_small s Hi) as [_ Hc]. split_and!; try done; try apply Hi.
  intros a Ha. pose proof (round_inv a s Hi Ha) as Hs. destruct (round a s) as [[s'|z]|e]; [|exact Hs..].
  by destruct Hs as (_ & ? & ? & _ & ?).
Qed.
End Kernel.

(** ** Runs *)

Definition first : answers := mkAnswers 4 true true [].

Example first_round : match round first start with
  Ok (inl s) => (connections s, index s, outgoing s) = (1, 1, [(4, bytes_of_string "Hello Server: client --> 0" ++ [10])])
  | _ => False end.
Proof. evaluated. Qed.

(** The event of socket 5 is answered on socket 9. *)
Example newest_socket_gets_it :
  match handle_event 9 (5, EPOLLOUT, RecvEnd) start with
  | Ok s => outgoing s = [(9, bytes_of_string "data from 5" ++ [10])] | Err _ => False end.
Proof. evaluated. Qed.

(** The end of socket 9 is taken for that of socket 5. *)
Example end_of_another :
  match handle_event 9 (5, EPOLLIN, RecvEnd) (mkGen 2 0 (replicate MAX_BUFFER 0) {[5; 9]} ∅ []) with
  | Ok s => (connections s, bool_decide (5 ∈ opened s), bool_decide (9 ∈ opened s)) = (1, false, true) | Err _ => False end.
Proof. evaluated. Qed.

Lemma load_generator_counts_witness :
  exists s, rounds 3 1 s /\ connections s = Z.of_nat (size (opened s)) /\ index s = 1.
Proof.
  destruct (round first start) as [[s|]|] eqn:E; [|vm_compute in E; discriminate E..].
  assert (rounds 3 1 s) as Hr.
  { eapply (rounds_step 3 0 start first s); [apply rounds_start| |exact E]. split_and!.
    - right. split; [by_decide|]. split; [by_decide|done].
    - done.
    - intros s' E'. split; [by_decide|]. split; [|by constructor]. vm_compute in E'. injection E' as <-. by_decide. }
  exists s. split; [exact Hr|].
  destruct (load_generator_counts 3 1 s Hr) as (Hc & _ & Hx & _). split; [exact Hc|exact Hx].
Defined.
