(* ===== verification/TcpDelay.v ===== *)
(** * kcp_learn/tcp/: the delay test over TCP

    client.c sends time-stamped objects to server.c, which sends back what it reads.  The
    state is the client's, the server's, and the bytes that the two kernels hold in each
    direction, at most [cap]; a step is one call that returns, or one portion of a blocking
    send.  How many bytes a step moves, and whose turn it is, is any choice.

    A send of the server that fails, or is cut short, loses the bytes that are left of it,
    and the server goes on.  The client does not test its malloc: an array without objects
    stands for NULL.

    Connecting, the thread of the client, usleep and the printed text are left out. *)

From S2P Require Import Prelude IkcpBase Simulator Delay Epoll.

(** ** client.c *)

Definition DELAY_TEST1_N : nat := 100.
Definition DELAY_TEST2_N : nat := 5.

Inductive test := Test1 | Test2.

(** Where the client is: before it stamps objs[i], in send with the rest of objs[i], in
    recv for objs[i], or returned with the rows it has printed, if any. *)
Inductive place :=
  | At_send (i : nat)
  | In_send (i : nat) (rest : list Z)
  | At_recv (i : nat)
  | Returned (rows : option (list (nat * Z * Z))).

Record demo := mkDemo {
  which : test; at_ : place; array : list (list Z); ccalls : calls;
  (** bytes on the way to the server, in its buffer, and on the way back *)
  up : list Z; held : list Z; down : list Z;
  (** whether the server has lost bytes *)
  lost : bool;
  (** the objects handed to send, and the bytes recv gave *)
  handed_in : list (list Z); got_back : list Z }.

#[export] Instance eta_demo : Eta demo := fun s =>
  mkDemo (which s) (at_ s) (array s) (ccalls s) (up s) (held s) (down s) (lost s) (handed_in s) (got_back s).
#[export] Instance set_at_ : Settable at_ := ltac:(derive_setter).
#[export] Instance set_array : Settable array := ltac:(derive_setter).
#[export] Instance set_ccalls : Settable ccalls := ltac:(derive_setter).
#[export] Instance set_up : Settable up := ltac:(derive_setter).
#[export] Instance set_held : Settable held := ltac:(derive_setter).
#[export] Instance set_down : Settable down := ltac:(derive_setter).
#[export] Instance set_lost : Settable lost := ltac:(derive_setter).
#[export] Instance set_handed_in : Settable handed_in := ltac:(derive_setter).
#[export] Instance set_got_back : Settable got_back := ltac:(derive_setter).

Section Tcp.
Context `{host : Host} `{machine : Machine}.

(** What the two socket buffers of a direction hold together. *)
Context (cap : nat).

Definition array_length (t : test) : nat := match t with Test1 => DELAY_TEST1_N | Test2 => DELAY_TEST2_N end.

(** &objs[i], for the first call that uses it. *)
Definition objs_at (s : demo) (i : nat) : res (list Z) :=
  match array s with [] => Err NullDeref | objs => obj_at objs i end.

(** The head of the loop body: delay_set_seqno_send_time, and the call of send. *)
Definition stamp (i : nat) (s : demo) : res demo :=
  o ← objs_at s i;
  '(o, c) ← delay_set_seqno_send_time o (u16 (Z.of_nat i)) (ccalls s);
  Ok (s <| array ::= <[i := o]> |> <| ccalls := c |> <| at_ := In_send i o |>
        <| handed_in ::= fun l => l ++ [o] |>).

(** Where the client goes when send has returned obj_size. *)
Definition sent_all (i : nat) (s : demo) : place :=
  match which s with
  | Test1 => if (S i <? DELAY_TEST1_N)%nat then At_send (S i) else At_recv 0
  | Test2 => At_recv i
  end.

(** The kernel takes the next [n] bytes of a send, which returns when it has them all. *)
Definition push (n i : nat) (rest : list Z) (s : demo) : demo :=
  let s := s <| up ::= fun u => u ++ take n rest |> in
  s <| at_ := match drop n rest with [] => sent_all i s | r => In_send i r end |>.

(** recv answers with [n] bytes, or with 0 or -1 ([n] is 0). *)
Definition receive (n i : nat) (s : demo) : res demo :=
  o ← obj_at (array s) i;
  o ← store_at o 0 (take n (down s));
  let s := s <| got_back ::= fun g => g ++ take n (down s) |> <| down ::= drop n |>
             <| array ::= <[i := o]> |> in
  if negb (Z.of_nat n =? Z.of_nat obj_size) then
    rows ← delay_print_rtt_time (array s) i; Ok (s <| at_ := Returned (Some rows) |>)
  else
    '(o, c) ← delay_set_recv_time o (ccalls s);
    let s := s <| array ::= <[i := o]> |> <| ccalls := c |> in
    if (S i <? DELAY_TEST1_N)%nat
    then Ok (s <| at_ := match which s with Test1 => At_recv (S i) | Test2 => At_send (S i) end |>)
    else rows ← delay_print_rtt_time (array s) DELAY_TEST1_N; Ok (s <| at_ := Returned (Some rows) |>).

(** ** server.c, while it serves one client *)

(** The body of the loop for a socket that is readable: the answer of recv is passed to
    send, or the client is closed. *)
Definition serve_data (fd : Z) (r : received) (m : interests) : interests * list Z :=
  match r with
  | RecvError _ | RecvEnd => ((epoll_ctl EPOLL_CTL_DEL fd EPOLLIN 0 (sys_close fd m)).2, [])
  | RecvData d => (m, take obj_size d)
  end.

(** And for the listening socket: [None] when main returns. *)
Definition serve_accept (client : option Z) (m : interests) : option interests :=
  match client with
  | None => None
  | Some fd => let '(ret, m) := epoll_ctl EPOLL_CTL_ADD fd EPOLLIN fd m in
               if ret =? -1 then None else Some m
  end.

(** The body of the loop over the events. *)
Definition serve_event (server_fd fd : Z) (client : option Z) (r : received) (m : interests) : option (interests * list Z) :=
  if fd =? server_fd then m ← serve_accept client m; Some (m, []) else Some (serve_data fd r m).

Inductive action :=
  | Stamp | Push (n : nat) | Give_up | Receive (n : nat)
  | Server_recv (n : nat) | Server_push (n : nat) | Server_lose.

Definition between (a n b : nat) : bool := ((a <=? n) && (n <=? b))%nat.

Definition demo_step (a : action) (s : demo) : option (res demo) :=
  match a, at_ s with
  | Stamp, At_send i => Some (stamp i s)
  | Push n, In_send i rest =>
      if between 1 n (length rest) && (length (up s) + n <=? cap)%nat then Some (Ok (push n i rest s)) else None
  | Give_up, In_send _ _ => Some (Ok (s <| at_ := Returned None |>))
  | Receive n, At_recv i =>
      if between 0 n (length (down s)) && (n <=? obj_size)%nat then Some (receive n i s) else None
  | Server_recv n, _ =>
      if decide (held s = []) then
        if between 1 n (length (up s)) && (n <=? obj_size)%nat then
          Some (Ok (s <| held := (serve_data 0 (RecvData (take n (up s))) ∅).2 |> <| up ::= drop n |>))
        else None
      else None
  | Server_push n, _ =>
      if between 1 n (length (held s)) && (length (down s) + n <=? cap)%nat
      then Some (Ok (s <| down ::= fun d => d ++ take n (held s) |> <| held ::= drop n |>)) else None
  | Server_lose, _ =>
      if decide (held s = []) then None else Some (Ok (s <| held := [] |> <| lost := true |>))
  | _, _ => None
  end.

(** The client after its malloc: memory with any contents, or NULL. *)
Definition demo_start (t : test) (junk : list (list Z)) (c : calls) : demo :=
  mkDemo t (At_send 0) junk c [] [] [] false [] [].

Inductive reachable (t : test) : demo -> Prop :=
  | reachable_start junk c :
      junk = [] \/ length junk = array_length t -> Forall obj_ok junk -> reachable t (demo_start t junk c)
  | reachable_step s a s' : reachable t s -> demo_step a s = Some (Ok s') -> reachable t s'.

(** ** The invariant *)

Definition left_of (p : place) : list Z := match p with In_send _ l => l | _ => [] end.

(** Row [j] shows the place [j], and the number of the object there, which is [j]. *)
Definition in_turn (rows : list (nat * Z * Z)) : Prop := forall j r, rows !! j = Some r -> r.1.1 = j.

Definition rows_ok (rows : list (nat * Z * Z)) : Prop :=
  forall j r, rows !! j = Some r -> r.1.1 = j /\ r.1.2 = Z.of_nat j.

(** As much as [n] objects has come back; they are 0 to [n] - 1 if nothing was lost. *)
Definition back (s : demo) (n : nat) : Prop :=
  length (got_back s) = (n * obj_size)%nat /\
  (lost s = false -> forall j o, (j < n)%nat -> array s !! j = Some o -> obj_seqno o = Z.of_nat j).

Definition place_ok (s : demo) : Prop :=
  match at_ s with
  | At_send i => length (handed_in s) = i /\
      match which s with
      | Test1 => (i < DELAY_TEST1_N)%nat /\ got_back s = []
      | Test2 => (i <= DELAY_TEST2_N)%nat /\ back s i
      end
  | In_send i rest => length (handed_in s) = S i /\ rest <> [] /\ (i < array_length (which s))%nat /\
      match which s with Test1 => got_back s = [] | Test2 => back s i end
  | At_recv i => (i < array_length (which s))%nat /\ back s i /\
      length (handed_in s) = match which s with Test1 => DELAY_TEST1_N | Test2 => S i end
  | Returned (Some rows) => in_turn rows /\ (lost s = false -> rows_ok rows) /\
      (length rows <= match which s with Test1 => DELAY_TEST1_N | Test2 => DELAY_TEST2_N - 1 end)%nat
  | Returned None => True
  end.

Record demo_inv (t : test) (s : demo) : Prop := {
  di_which : which s = t;
  di_array : length (array s) = array_length t /\ Forall obj_ok (array s);
  di_handed : forall j o, handed_in s !! j = Some o -> obj_ok o /\ obj_seqno o = Z.of_nat j;
  di_bytes : Forall is_byte (left_of (at_ s)) /\ Forall is_byte (up s) /\ Forall is_byte (held s) /\ Forall is_byte (down s);
  di_flow : lost s = false -> at_ s <> Returned None ->
    mjoin (handed_in s) = got_back s ++ down s ++ held s ++ up s ++ left_of (at_ s);
  di_caps : (length (up s) <= cap)%nat /\ (length (down s) <= cap)%nat /\ (length (held s) <= obj_size)%nat;
  di_place : place_ok s }.

Lemma mjoin_snoc (l : list (list Z)) o : mjoin (l ++ [o]) = mjoin l ++ o.
Proof. rewrite join_app. cbn. by rewrite app_nil_r. Qed.

(** Objects of one size can be cut out of the stream. *)
Lemma mjoin_nth (l : list (list Z)) k i o :
  Forall (fun o => length o = k) l -> l !! i = Some o -> take k (drop (i * k) (mjoin l)) = o.
Proof.
  intros Hl. revert i. induction Hl as [|x l Hx Hl IH]; intros i Hi; [done|].
  change (mjoin (x :: l)) with (x ++ mjoin l). destruct i as [|i]; cbn in Hi.
  - injection Hi as ->. rewrite Nat.mul_0_l, drop_0. by apply take_app_length'.
  - rewrite Nat.mul_succ_l, Nat.add_comm, <- drop_drop, drop_app_length' by done. by apply IH.
Qed.

Lemma length_mjoin (l : list (list Z)) k :
  Forall (fun o => length o = k) l -> length (mjoin l) = (length l * k)%nat.
Proof.
  induction 1 as [|x l Hx Hl IH]; [done|]. change (mjoin (x :: l)) with (x ++ mjoin l).
  rewrite length_app, IH, Hx. cbn. lia.
Qed.

Lemma handed_sizes t s : demo_inv t s -> Forall (fun o => length o = obj_size) (handed_in s).
Proof.
  intros Hi. apply Forall_forall. intros o Ho. apply list_elem_of_lookup in Ho as [j Hj].
  destruct (di_handed _ _ Hi j o Hj) as [[? _] _]. done.
Qed.

Lemma objs_at_ok s i :
  Forall obj_ok (array s) -> (i < length (array s))%nat -> returns (objs_at s i) obj_ok.
Proof. unfold objs_at. destruct (array s); [cbn; lia|]. apply obj_at_ok. Qed.

Lemma stamp_inv t s i :
  demo_inv t s -> at_ s = At_send i -> (i < array_length t)%nat -> returns (stamp i s) (demo_inv t).
Proof.
  intros [Hw [Hl Ho] Hh Hb Hf Hc Hp] Ha Hi. unfold stamp, place_ok in *. rewrite Ha in Hp, Hf.
  eapply returns_bind; [apply objs_at_ok; [done|lia]|]. intros o Hob.
  assert (0 <= Z.of_nat i < 65536) as Hsmall by (clear -Hi; destruct t; cbn in Hi; unfold DELAY_TEST1_N, DELAY_TEST2_N in Hi; lia).
  eapply returns_bind; [apply (seqno_send_time_ok o); [done|rewrite u16_small by lia; lia]|]. intros [o' c] [Ho' Es].
  apply returns_Ok. destruct Hp as [En Hp].
  assert (u16 (Z.of_nat i) = Z.of_nat i) as Eu by (apply u16_small; lia). rewrite Eu in Es.
  constructor; cbn; try done.
  - rewrite length_insert. split; [done|by apply Forall_insert].
  - intros j x [Hj|[Hj E]]%lookup_app_Some; [by apply Hh|]. rewrite En in Hj, E.
    destruct (j - i)%nat as [|?] eqn:Ej; cbn in E; [|done]. injection E as <-. by replace j with i by lia.
  - split; [by destruct Ho'|]. by destruct Hb as [_ ?].
  - intros Hlost _. rewrite mjoin_snoc, Hf by done. cbn. by rewrite app_nil_r, <- !app_assoc.
  - unfold place_ok. cbn. rewrite length_app, En, Hw. cbn. split; [lia|]. split.
    { intros ->. by destruct Ho' as [? _]. }
    split; [done|]. rewrite Hw in Hp. destruct t; [by destruct Hp|]. destruct Hp as [_ [Hg Hn]]. split; [done|].
    intros Hlost j x Hj. cbn. rewrite list_lookup_insert_ne by lia. by apply Hn.
Qed.

(** The array of delay_test2 has five objects, its loop runs a hundred times. *)
Lemma stamp_overrun s : demo_inv Test2 s -> at_ s = At_send DELAY_TEST2_N -> stamp DELAY_TEST2_N s = Err OutOfBounds.
Proof.
  intros [Hw [Hl _] _ _ _ _ _] _. unfold stamp, objs_at, obj_at. destruct (array s) as [|o l] eqn:E; [done|].
  by rewrite lookup_ge_None_2 by (rewrite Hl; done).
Qed.

Lemma push_inv t s n i rest :
  demo_inv t s -> at_ s = In_send i rest -> (1 <= n <= length rest)%nat -> (length (up s) + n <= cap)%nat ->
  demo_inv t (push n i rest s).
Proof.
  intros [Hw Ho Hh Hb Hf (Hc1 & Hc2 & Hc3) Hp] Ha Hn Hcap. unfold place_ok in Hp. rewrite Ha in Hb, Hp, Hf.
  cbn [left_of] in Hf. destruct Hp as (En & _ & Hi & Hp).
  assert (left_of (at_ (push n i rest s)) = drop n rest /\ at_ (push n i rest s) <> Returned None) as [El Hne].
  { unfold push, sent_all. cbn. destruct (drop n rest); [|done]. destruct (which s); [|done].
    by case_match. }
  destruct Hb as (Hb1 & Hb2 & Hb3). constructor; try done.
  - rewrite El. split; [by apply Forall_drop|]. split; [|done]. apply Forall_app. split; [done|by apply Forall_take].
  - intros Hlost _. rewrite El. cbn. rewrite (Hf Hlost ltac:(done)), <- (take_drop n rest) at 1. by rewrite <- !app_assoc.
  - cbn. rewrite length_app, length_take. split_and!; [lia|done|done].
  - unfold place_ok, push. cbn [at_ upd set_at_]. destruct (drop n rest) as [|x r] eqn:Ed; [|by split_and!].
    unfold sent_all. cbn [which upd set_at_ set_up handed_in got_back]. rewrite Hw in *. destruct t; cbn [array_length] in Hi.
    + destruct (Nat.ltb_spec (S i) DELAY_TEST1_N); [done|]. cbn [array_length].
      split; [unfold DELAY_TEST1_N; lia|]. split; [split; [by cbn; rewrite Hp|lia]|lia].
    + done.
Qed.

Lemma print_rows (lossless : Prop) (arr : list (list Z)) n :
  (lossless -> forall j o, (j < n)%nat -> arr !! j = Some o -> obj_seqno o = Z.of_nat j) -> (n <= length arr)%nat ->
  returns (delay_print_rtt_time arr n) (fun rows => in_turn rows /\ (lossless -> rows_ok rows) /\ length rows = n).
Proof.
  intros Hb Hn. unfold delay_print_rtt_time. rewrite (proj2 (Nat.leb_le _ _) Hn). apply returns_Ok. split_and!.
  - intros j r. rewrite list_lookup_imap. by destruct (take n arr !! j) as [o|]; [intros [= <-]|].
  - intros Hk j r. rewrite list_lookup_imap. destruct (take n arr !! j) as [o|] eqn:E; [|done].
    intros [= <-]. apply lookup_take_Some in E as [E Hj]. cbn. split; [done|by apply Hb].
  - rewrite length_imap, length_take. lia.
Qed.

Lemma print_length (arr : list (list Z)) n rows : delay_print_rtt_time arr n = Ok rows -> length rows = n.
Proof.
  unfold delay_print_rtt_time. destruct (Nat.leb_spec n (length arr)); [|done].
  intros [= <-]. rewrite length_imap, length_take. lia.
Qed.

(** The next whole object out of the stream is the one with the next number. *)
Lemma next_object t s i :
  demo_inv t s -> at_ s = At_recv i -> (obj_size <= length (down s))%nat ->
  obj_ok (take obj_size (down s)) /\ (lost s = false -> obj_seqno (take obj_size (down s)) = Z.of_nat i).
Proof.
  intros Hinv Ha Hd. split.
  { split; [by apply length_take_le|]. apply Forall_take, (di_bytes _ _ Hinv). }
  intros Hlost. pose proof (handed_sizes _ _ Hinv) as Hz. destruct Hinv as [Hw _ Hh _ Hf _ Hp].
  specialize (Hf Hlost). unfold place_ok in Hp. rewrite Ha in Hp, Hf. destruct Hp as (Hi & [Hg _] & En).
  assert (i < length (handed_in s))%nat as Hlt by (rewrite En, Hw in *; destruct t; [done|lia]).
  destruct (lookup_lt_is_Some_2 _ _ Hlt) as [o Ho].
  assert (take obj_size (down s) = o) as ->; [|by apply Hh].
  rewrite <- (mjoin_nth _ obj_size i o Hz Ho), (Hf ltac:(done)), drop_app_length' by done. by rewrite take_app_le.
Qed.

(** After a recv of [n] bytes. *)
Definition received (n : nat) (p : place) (arr : list (list Z)) (c : calls) (s : demo) : demo :=
  mkDemo (which s) p arr c (up s) (held s) (drop n (down s)) (lost s) (handed_in s) (got_back s ++ take n (down s)).

Lemma received_inv t s n i p arr c :
  demo_inv t s -> at_ s = At_recv i -> left_of p = [] -> length arr = length (array s) -> Forall obj_ok arr ->
  place_ok (received n p arr c s) -> demo_inv t (received n p arr c s).
Proof.
  intros [Hw [Hl _] Hh (_ & Hb2 & Hb3 & Hb4) Hf (Hc1 & Hc2 & Hc3) _] Ha El Hal Harr Hp. rewrite Ha in Hf.
  constructor; try done.
  - split; [by rewrite <- Hl|done].
  - cbn [received left_of at_ up held down]. rewrite El. split_and!; [done..|by apply Forall_drop].
  - intros Hlost _. cbn [received handed_in got_back down held up at_]. rewrite El, (Hf Hlost ltac:(done)), <- app_assoc. f_equal.
    by rewrite (app_assoc (take n _)), take_drop.
  - cbn. rewrite length_drop. split_and!; [done|lia|done].
Qed.

Lemma receive_inv t s n i :
  demo_inv t s -> at_ s = At_recv i -> (n <= length (down s))%nat -> (n <= obj_size)%nat ->
  returns (receive n i s) (demo_inv t).
Proof.
  intros Hinv Ha Hn Hz. pose proof (next_object t s i Hinv Ha) as Hnext.
  destruct (di_bytes _ _ Hinv) as (_ & _ & _ & Hbytes).
  pose proof (fun p arr c => received_inv t s n i p arr c Hinv Ha) as Hrec.
  destruct Hinv as [Hw [Hl Ho] _ _ _ _ Hp]. unfold place_ok in Hp. rewrite Ha in Hp.
  destruct Hp as (Hi & [Hg Hb] & En). rewrite Hw in Hi, En. unfold receive.
  eapply returns_bind; [apply obj_at_ok; [done|by rewrite Hl]|]. intros o Hob.
  eapply returns_bind; [apply store_obj; [done|by apply Forall_take|rewrite length_take; lia]|].
  intros o1 [Ho1 E1]. rewrite length_take_le, take_0, Nat.add_0_l, app_nil_l in E1 by done.
  assert (forall o2, lost s = false ->
    forall j x, (j < i)%nat -> <[i := o2]> (array s) !! j = Some x -> obj_seqno x = Z.of_nat j) as Hold.
  { intros o2 Hlost j x Hj. rewrite list_lookup_insert_ne by lia. by apply Hb. }
  assert (forall o2, obj_ok o2 -> Forall obj_ok (<[i := o2]> (array s))) as Harr by (intros; by apply Forall_insert).
  cbn zeta. destruct (Z.eqb_spec (Z.of_nat n) (Z.of_nat obj_size)) as [En'|Hne]; cbn [negb].
  - assert (n = obj_size) as -> by lia. destruct (Hnext Hn) as [Hok Hseq].
    assert (o1 = take obj_size (down s)) as ->.
    { rewrite E1, drop_ge by (by destruct Hob as [-> _]). apply app_nil_r. }
    eapply returns_bind; [by apply recv_time_seqno|]. intros [o2 c] [Ho2 Hs2].
    assert (lost s = false ->
      forall j x, (j < S i)%nat -> <[i := o2]> (array s) !! j = Some x -> obj_seqno x = Z.of_nat j) as Hnew.
    { intros Hlost j x Hj. destruct (decide (j = i)) as [->|]; [|intros E; apply (Hold o2); [done|lia|done]].
      rewrite list_lookup_insert_eq by (by rewrite Hl). intros [= <-]. rewrite Hs2. by apply Hseq. }
    assert (length (got_back s ++ take obj_size (down s)) = (S i * obj_size)%nat) as Hlen.
    { rewrite length_app, length_take_le, Hg by done. lia. }
    assert (forall x, <[i := o2]> (<[i := x]> (array s)) = <[i := o2]> (array s)) as Hins
      by (intros; apply list_insert_insert_eq).
    assert (forall p x, received obj_size p (<[i := o2]> (<[i := x]> (array s))) c s =
      received obj_size p (<[i := o2]> (array s)) c s) as Hsame by (intros; by rewrite Hins).
    destruct (Nat.ltb_spec (S i) DELAY_TEST1_N) as [Hmore|Hmore].
    + apply returns_Ok. eapply (eq_ind_r (demo_inv t)); [|apply (Hsame _ (take obj_size (down s)))].
      apply Hrec; [cbn; by destruct (which s)|apply length_insert|by apply Harr|].
      unfold place_ok, back. cbn. rewrite Hw. destruct t; cbn in Hi |- *; [by split_and!|].
      rewrite En. split_and!; [done|unfold DELAY_TEST2_N in *; lia|done..].
    + assert (t = Test1) as -> by (destruct t; [done|]; clear -Hi Hmore; cbn in Hi; unfold DELAY_TEST1_N, DELAY_TEST2_N in *; lia).
      eapply returns_bind; [apply (print_rows (lost s = false) _ DELAY_TEST1_N); cbn; rewrite Hins|].
      { intros Hlost j x Hj. apply Hnew; [done|lia]. }
      { rewrite length_insert, Hl. done. }
      intros rows (Hturn & Hrows & Hrl). apply returns_Ok. eapply (eq_ind_r (demo_inv Test1)); [|apply (Hsame _ (take obj_size (down s)))].
      apply Hrec; [done|apply length_insert|by apply Harr|].
      unfold place_ok. cbn. rewrite Hw, Hrl. done.
  - eapply returns_bind; [apply (print_rows (lost s = false) _ i); cbn|].
    { apply Hold. }
    { rewrite length_insert. lia. }
    intros rows (Hturn & Hrows & Hrl). apply returns_Ok, Hrec; [done|apply length_insert|by apply Harr|].
    unfold place_ok. cbn. rewrite Hw, Hrl. split; [done|]. split; [done|]. clear -Hi.
    destruct t; cbn in Hi; unfold DELAY_TEST1_N, DELAY_TEST2_N in *; lia.
Qed.

Lemma between_spec a n b : between a n b = true -> (a <= n <= b)%nat.
Proof. unfold between. intros [H1 H2]%andb_true_iff. apply Nat.leb_le in H1, H2. lia. Qed.

Lemma between_intro a n b : (a <= n <= b)%nat -> between a n b = true.
Proof. intros H. apply andb_true_iff. split; apply Nat.leb_le; lia. Qed.

(** What the invariant does not say about the sockets is kept by the server's steps. *)
Lemma sockets_inv t s u h d :
  demo_inv t s -> d ++ h ++ u = down s ++ held s ++ up s ->
  (length u <= cap)%nat -> (length d <= cap)%nat -> (length h <= obj_size)%nat ->
  demo_inv t (mkDemo (which s) (at_ s) (array s) (ccalls s) u h d (lost s) (handed_in s) (got_back s)).
Proof.
  intros [Hw Ho Hh (Hb1 & Hb2 & Hb3 & Hb4) Hf _ Hp] E Hu Hd Hz. constructor; try done.
  { assert (Forall is_byte (d ++ h ++ u)) as Hb by (rewrite E; by repeat (apply Forall_app; split)).
    apply Forall_app in Hb as [? [? ?]%Forall_app]. done. }
  intros Hlost Ha. cbn. rewrite (Hf Hlost Ha). f_equal. by rewrite !app_assoc, <- (app_assoc d), E, <- (app_assoc (down s)).
Qed.

(** The loss of what the server has not sent. *)
Lemma lose_inv t s : demo_inv t s -> demo_inv t (s <| held := [] |> <| lost := true |>).
Proof.
  intros [Hw Ho Hh (Hb1 & Hb2 & Hb3 & Hb4) Hf (Hc1 & Hc2 & Hc3) Hp]. constructor; try done.
  - cbn. split_and!; [done..|lia].
  - unfold place_ok, back in *. cbn. destruct (at_ s) as [i|i rest|i|[rows|]]; [| | | |done].
    + split; [apply Hp|]. destruct (which s); [apply Hp|]. split; [apply Hp|]. split; [apply Hp|done].
    + split_and!; [apply Hp..|]. destruct (which s); [apply Hp|]. split; [apply Hp|done].
    + split; [apply Hp|]. split; [|apply Hp]. split; [apply Hp|done].
    + split; [apply Hp|]. split; [done|apply Hp].
Qed.

Lemma demo_start_inv t junk c :
  length junk = array_length t -> Forall obj_ok junk -> demo_inv t (demo_start t junk c).
Proof.
  intros Hl Hj. constructor; try done.
  - cbn. split_and!; lia.
  - unfold place_ok. cbn. split; [done|]. destruct t; [split; [unfold DELAY_TEST1_N; lia|done]|].
    split; [lia|]. split; [done|]. intros j o Hlt. lia.
Qed.

(** What the server has received fits its buffer, and is echoed whole. *)
Lemma echoed_whole fd d m : (length d <= obj_size)%nat -> (serve_data fd (RecvData d) m).2 = d.
Proof. apply take_ge. Qed.

(** A step from a good state gives a good state, unless it is the stamp of a sixth object. *)
Lemma demo_step_inv t s a r :
  demo_inv t s -> demo_step a s = Some r ->
  returns r (demo_inv t) \/ (t = Test2 /\ a = Stamp /\ at_ s = At_send DELAY_TEST2_N /\ r = Err OutOfBounds).
Proof.
  intros Hi E. destruct a as [|n| |n|n|n|]; cbn [demo_step] in E.
  - destruct (at_ s) as [i|i rest|i|rows] eqn:Ha; try done. injection E as <-.
    destruct (decide (i < array_length t)%nat) as [Hlt|Hge]; [left; by apply stamp_inv|].
    pose proof (di_place _ _ Hi) as Hp. unfold place_ok in Hp. rewrite Ha, (di_which _ _ Hi) in Hp.
    destruct t; cbn in Hge; [lia|]. assert (i = DELAY_TEST2_N) as -> by (unfold DELAY_TEST2_N in *; lia).
    right. split_and!; [done..|by apply stamp_overrun].
  - destruct (at_ s) as [i|i rest|i|rows] eqn:Ha; try done.
    destruct (between _ _ _ && _) eqn:Eb; [|done]. injection E as <-. left. apply returns_Ok.
    apply andb_true_iff in Eb as [Hb Hc]. apply between_spec in Hb. apply Nat.leb_le in Hc. by apply push_inv.
  - destruct (at_ s) as [i|i rest|i|rows] eqn:Ha; try done. injection E as <-. left. apply returns_Ok.
    destruct Hi as [? ? ? [_ ?] ? ? ?]. by constructor.
  - destruct (at_ s) as [i|i rest|i|rows] eqn:Ha; try done.
    destruct (between _ _ _ && _) eqn:Eb; [|done]. injection E as <-. left.
    apply andb_true_iff in Eb as [Hb Hc]. apply between_spec in Hb. apply Nat.leb_le in Hc. apply receive_inv; [done..|lia|done].
  - destruct (decide (held s = [])) as [Eh|]; [|done]. destruct (between _ _ _ && _) eqn:Eb; [|done].
    apply andb_true_iff in Eb as [Hb%between_spec Hc%Nat.leb_le].
    rewrite echoed_whole in E by (rewrite length_take; lia). injection E as <-. left. apply returns_Ok.
    destruct (di_caps _ _ Hi) as (H1 & H2 & H3).
    eapply (sockets_inv t s); [done|..]; cbn [up held down upd set_up set_held].
    + by rewrite take_drop, Eh.
    + rewrite length_drop. lia.
    + done.
    + rewrite length_take. lia.
  - destruct (between _ _ _ && _) eqn:Eb; [|done]. injection E as <-. left. apply returns_Ok.
    apply andb_true_iff in Eb as [Hb Hc]. apply between_spec in Hb. apply Nat.leb_le in Hc.
    destruct (di_caps _ _ Hi) as (H1 & H2 & H3). eapply (sockets_inv t s); [done|..].
    + cbn. by rewrite <- app_assoc, (app_assoc (take n _)), take_drop.
    + done.
    + cbn. rewrite length_app, length_take. lia.
    + cbn. rewrite length_drop. lia.
  - case_decide; [done|]. injection E as <-. left. by apply returns_Ok, lose_inv.
Qed.

(** Without memory the client faults at its first step, and nothing else can happen. *)
Definition no_memory (t : test) (s : demo) : Prop := exists c, s = demo_start t [] c.

Lemma no_memory_step t s a r : no_memory t s -> demo_step a s = Some r -> a = Stamp /\ r = Err NullDeref.
Proof.
  intros [c ->] E. destruct a as [|n| |n|n|n|]; cbn in E; [by injection E as <-|done..| | |done].
  - by destruct n.
  - by destruct n.
Qed.

Lemma demo_reachable_inv t s : reachable t s -> no_memory t s \/ demo_inv t s.
Proof.
  induction 1 as [junk c [->|Hl] Hj|s a s' _ [IH|IH] E]; [left; by exists c|right; by apply demo_start_inv| |].
  - by destruct (no_memory_step t s a _ IH E).
  - destruct (demo_step_inv t s a _ IH E) as [(? & [= <-] & ?)|(_ & _ & _ & ?)]; [by right|done].
Qed.

(** ** Every run ends *)

Inductive runs : demo -> list action -> demo -> Prop :=
  | runs_nil s : runs s [] s
  | runs_cons s a s1 acts s2 : demo_step a s = Some (Ok s1) -> runs s1 acts s2 -> runs s (a :: acts) s2.

Definition ongoing (p : place) : nat := match p with Returned _ => 0 | _ => 1 end.

Lemma ongoing_le p : (ongoing p <= 1)%nat.
Proof. destruct p; cbn; lia. Qed.

(** Bytes still to be moved, weighted by how far they have to go. *)
Definition work_left (s : demo) : nat :=
  (array_length (which s) - length (handed_in s)) * (4 * obj_size + 2) + 4 * length (left_of (at_ s))
  + 3 * length (up s) + 2 * length (held s) + length (down s)
  + ongoing (at_ s).

Lemma receive_result n i s s' :
  receive n i s = Ok s' ->
  exists p arr c, s' = received n p arr c s /\ left_of p = [] /\ (n = obj_size \/ exists rows, p = Returned rows).
Proof.
  unfold receive. intros (o & _ & H)%bind_Ok. apply bind_Ok in H as (o1 & _ & H).
  destruct (Z.eqb_spec (Z.of_nat n) (Z.of_nat obj_size)) as [En|En]; cbn [negb] in H.
  - apply Nat2Z.inj in En. apply bind_Ok in H as ([o2 c] & _ & H).
    destruct (S i <? DELAY_TEST1_N)%nat.
    + injection H as <-. do 3 eexists. split; [reflexivity|]. cbn. split; [by destruct (which s)|by left].
    + apply bind_Ok in H as (rows & _ & [= <-]). do 3 eexists. split; [reflexivity|]. split; [done|by left].
  - apply bind_Ok in H as (rows & _ & [= <-]). do 3 eexists. split; [reflexivity|]. split; [done|]. right. by eexists.
Qed.

Lemma stamp_result t i s s' :
  demo_inv t s -> at_ s = At_send i -> (i < array_length t)%nat -> stamp i s = Ok s' ->
  exists o, at_ s' = In_send i o /\ length o = obj_size /\ handed_in s' = handed_in s ++ [o] /\
    which s' = which s /\ up s' = up s /\ held s' = held s /\ down s' = down s.
Proof.
  intros Hi Ha Hlt E. destruct (stamp_inv t s i Hi Ha Hlt) as (s1 & E1 & Hi1). rewrite E in E1. injection E1 as <-.
  revert E. unfold stamp. intros (o & _ & H)%bind_Ok. apply bind_Ok in H as ([o2 c] & _ & [= <-]).
  exists o2. split_and!; try done. assert (length (handed_in s) = i) as En.
  { pose proof (di_place _ _ Hi) as Hp. unfold place_ok in Hp. rewrite Ha in Hp. by destruct Hp. }
  apply (di_handed _ _ Hi1 i). cbn. by rewrite lookup_app_r, En, Nat.sub_diag by lia.
Qed.

Lemma work_decreases t s a s' :
  demo_inv t s -> demo_step a s = Some (Ok s') -> (work_left s' < work_left s)%nat.
Proof.
  intros Hi E. pose proof (di_which _ _ Hi) as Hw. pose proof (di_place _ _ Hi) as Hp. unfold place_ok in Hp.
  unfold work_left.
  destruct a as [|n| |n|n|n|]; cbn [demo_step] in E.
  - destruct (at_ s) as [i|i rest|i|rows] eqn:Ha; try done. injection E as E. rewrite Hw in Hp.
    assert (i < array_length t)%nat as Hlt.
    { destruct t; [apply Hp|]. cbn. destruct (decide (i = DELAY_TEST2_N)) as [->|]; [|lia].
      by rewrite (stamp_overrun _ Hi Ha) in E. }
    destruct (stamp_result t i s s' Hi Ha Hlt E) as (o & -> & Hl & -> & -> & -> & -> & ->).
    destruct Hp as [En _]. rewrite length_app, Hw, En. cbn [length left_of ongoing]. rewrite Hl.
    replace (array_length t - i)%nat with (S (array_length t - (i + 1)))%nat by lia. rewrite Nat.mul_succ_l. lia.
  - destruct (at_ s) as [i|i rest|i|rows] eqn:Ha; try done.
    destruct (between _ _ _ && _) eqn:Eb; [|done]. injection E as <-.
    apply andb_true_iff in Eb as [Hb%between_spec _]. cbn [which handed_in held down up push upd set_at_ set_up].
    assert (left_of (at_ (push n i rest s)) = drop n rest) as ->.
    { unfold push, sent_all. cbn. destruct (drop n rest); [|done]. destruct (which s); [|done]. by case_match. }
    rewrite length_drop, length_app, length_take. cbn [left_of].
    pose proof (ongoing_le (at_ (push n i rest s))). cbn [ongoing]. lia.
  - destruct (at_ s) as [i|i rest|i|rows] eqn:Ha; try done. injection E as <-. cbn [which handed_in held down up at_ upd set_at_ left_of length ongoing]. lia.
  - destruct (at_ s) as [i|i rest|i|rows] eqn:Ha; try done.
    destruct (between _ _ _ && _) eqn:Eb; [|done]. injection E as E.
    apply andb_true_iff in Eb as [Hb%between_spec _].
    destruct (receive_result n i s s' E) as (p & arr & c & -> & Hl & Hn).
    cbn [which handed_in held down up at_ received]. rewrite Hl, length_drop. cbn [left_of length ongoing].
    destruct Hn as [-> | [rows ->]]; [|cbn [ongoing]; lia]. assert (0 < obj_size)%nat by by_decide.
    pose proof (ongoing_le p). lia.
  - destruct (decide (held s = [])) as [Eh|]; [|done]. destruct (between _ _ _ && _) eqn:Eb; [|done].
    injection E as <-. apply andb_true_iff in Eb as [Hb%between_spec Hc%Nat.leb_le].
    cbn [which handed_in held down up at_ upd set_up set_held]. rewrite take_take, length_drop, length_take, Eh. cbn [length]. lia.
  - destruct (between _ _ _ && _) eqn:Eb; [|done]. injection E as <-.
    apply andb_true_iff in Eb as [Hb%between_spec _].
    cbn [which handed_in held down up at_ upd set_down set_held]. rewrite length_app, length_drop, length_take. lia.
  - case_decide as Hh; [done|]. injection E as <-. cbn [which handed_in held down up at_ upd set_held set_lost length].
    destruct (held s); [done|]. cbn [length]. lia.
Qed.

(** The same, executed. *)
Fixpoint exec (acts : list action) (s : demo) : option demo :=
  match acts with
  | [] => Some s
  | a :: acts => match demo_step a s with Some (Ok s) => exec acts s | _ => None end
  end.

Lemma exec_runs acts s s' : exec acts s = Some s' -> runs s acts s'.
Proof.
  revert s. induction acts as [|a acts IH]; cbn; intros s; [intros [= ->]; constructor|].
  destruct (demo_step a s) as [[s1|]|] eqn:E; [|done..]. intros Hx. by apply (runs_cons _ _ s1); [|apply IH].
Qed.

Lemma runs_reachable t s acts s' : reachable t s -> runs s acts s' -> reachable t s'.
Proof. intros Hs Hr. revert Hs. induction Hr; [done|]. intros Hs. apply IHHr. by eapply reachable_step. Qed.

Lemma runs_inv t s acts s' :
  demo_inv t s -> runs s acts s' -> demo_inv t s' /\ (length acts + work_left s' <= work_left s)%nat.
Proof.
  intros Hi Hr. induction Hr as [s|s a s1 acts s2 E Hr IH]; [done|].
  pose proof (work_decreases t s a s1 Hi E). destruct (demo_step_inv t s a _ Hi E) as [(? & [= <-] & Hi1)|(_ & _ & _ & ?)]; [|done].
  destruct (IH Hi1) as [? ?]. split; [done|]. cbn [length]. lia.
Qed.

(** The bytes that can be on the way at once. *)
Definition in_flight (t : test) : nat := match t with Test1 => DELAY_TEST1_N | Test2 => 1 end * obj_size.

(** How much of the stream is somewhere between send and recv. *)
Lemma flight_bound t s i rest :
  demo_inv t s -> lost s = false -> at_ s = In_send i rest ->
  rest <> [] /\ (length (down s) + length (held s) + length (up s) + length rest <= in_flight t)%nat.
Proof.
  intros Hi Hlost Ha. pose proof (length_mjoin _ _ (handed_sizes _ _ Hi)) as Hl.
  rewrite (di_flow _ _ Hi Hlost), !length_app, Ha in Hl by (by rewrite Ha). cbn [left_of] in Hl.
  pose proof (di_place _ _ Hi) as Hp. unfold place_ok in Hp. rewrite Ha, (di_which _ _ Hi) in Hp.
  destruct Hp as (En & Hne & Hlt & Hp). split; [done|]. unfold in_flight. rewrite En in Hl. destruct t; cbn [array_length] in Hlt.
  - rewrite Hp in Hl. cbn [length] in Hl.
    assert (S i * obj_size <= DELAY_TEST1_N * obj_size)%nat by (apply Nat.mul_le_mono_r; lia). lia.
  - destruct Hp as [Hg _]. rewrite Hg, Nat.mul_succ_l in Hl. lia.
Qed.

(** A client in recv has bytes to wait for. *)
Lemma recv_bound t s i :
  demo_inv t s -> lost s = false -> at_ s = At_recv i -> (obj_size <= length (down s) + length (held s) + length (up s))%nat.
Proof.
  intros Hi Hlost Ha. pose proof (length_mjoin _ _ (handed_sizes _ _ Hi)) as Hl.
  rewrite (di_flow _ _ Hi Hlost), !length_app, Ha in Hl by (by rewrite Ha). cbn [left_of length] in Hl.
  pose proof (di_place _ _ Hi) as Hp. unfold place_ok in Hp. rewrite Ha, (di_which _ _ Hi) in Hp.
  destruct Hp as (Hlt & [Hg _] & En). rewrite En, Hg in Hl.
  assert (S i * obj_size <= match t with Test1 => DELAY_TEST1_N | Test2 => S i end * obj_size)%nat as Hle.
  { apply Nat.mul_le_mono_r. destruct t; cbn [array_length] in Hlt; lia. }
  rewrite Nat.mul_succ_l in Hle. lia.
Qed.

Lemma server_can_move s :
  (1 <= cap)%nat -> (length (down s) < cap)%nat \/ held s = [] -> (1 <= length (held s) + length (up s))%nat ->
  exists a, a <> Give_up /\ a <> Server_lose /\ (forall n, a <> Receive n) /\ demo_step a s <> None.
Proof.
  intros Hc Hd Hb. destruct (held s) as [|b h] eqn:Eh.
  - exists (Server_recv 1). split_and!; [done..|]. cbn [demo_step]. rewrite decide_True by done. cbn [length] in Hb.
    rewrite between_intro by lia. by change (1 <=? obj_size)%nat with true.
  - destruct Hd as [Hd|]; [|done]. exists (Server_push 1). split_and!; [done..|]. cbn [demo_step].
    rewrite between_intro by (rewrite Eh; cbn; lia). by rewrite (proj2 (Nat.leb_le _ _)) by lia.
Qed.

(** Steps of a run in which every send succeeds and recv waits for the whole object. *)
Definition whole (a : action) : bool :=
  match a with Give_up | Server_lose => false | Receive n => (n =? obj_size)%nat | _ => true end.

(** As long as the client runs, and the sockets can hold what is on the way, something moves. *)
Lemma never_stuck t s :
  demo_inv t s -> lost s = false -> (in_flight t <= 2 * cap + 1)%nat -> (obj_size <= cap)%nat -> ongoing (at_ s) = 1%nat ->
  exists a, whole a = true /\ demo_step a s <> None.
Proof.
  intros Hi Hlost Hcap Hc Ho. destruct (di_caps _ _ Hi) as (Hu & Hd & Hh). assert (0 < obj_size)%nat as Hpos by by_decide.
  assert (forall a, a <> Give_up -> a <> Server_lose -> (forall n, a <> Receive n) -> whole a = true) as Hwhole.
  { intros [] Hg Hs Hr; try done. by destruct (Hr n). }
  destruct (at_ s) as [i|i rest|i|rows] eqn:Ha; [| | |done].
  - exists Stamp. split; [done|]. cbn [demo_step]. by rewrite Ha.
  - destruct (flight_bound t s i rest Hi Hlost Ha) as [Hne Hb].
    assert (1 <= length rest)%nat by (destruct rest; [done|cbn; lia]).
    destruct (decide (length (up s) < cap)%nat) as [Hlt|].
    + exists (Push 1). split; [done|]. cbn [demo_step]. rewrite Ha, between_intro by lia.
      by rewrite (proj2 (Nat.leb_le _ _)) by lia.
    + destruct (server_can_move s) as (a & ? & ? & ? & E); [lia| |lia|exists a; auto].
      destruct (held s); [by right|left; cbn [length] in *; lia].
  - pose proof (recv_bound t s i Hi Hlost Ha).
    destruct (decide (length (down s) < obj_size)%nat) as [E|].
    + destruct (server_can_move s) as (a & ? & ? & ? & E'); [lia|left; lia|lia|exists a; auto].
    + exists (Receive obj_size). split; [apply Nat.eqb_refl|]. cbn [demo_step]. rewrite Ha, between_intro by lia.
      by rewrite Nat.leb_refl.
Qed.

(** In such a run nothing is lost, and all the rows are printed. *)
Definition no_row_missing (s : demo) : Prop :=
  lost s = false /\ match at_ s with
  | Returned None => False
  | Returned (Some rows) => length rows = DELAY_TEST1_N
  | _ => True
  end.

Lemma whole_step t s a s' :
  demo_step a s = Some (Ok s') -> demo_inv t s -> whole a = true -> no_row_missing s -> no_row_missing s'.
Proof.
  intros E Hi Hw [Hlost Hn]. unfold no_row_missing. destruct a as [|n| |n|n|n|]; cbn [demo_step] in E; [| |done|.. |done].
  - destruct (at_ s) as [i| | |]; try done. injection E as E. revert E. unfold stamp.
    intros (o & _ & H)%bind_Ok. by apply bind_Ok in H as ([o2 c] & _ & [= <-]).
  - destruct (at_ s) as [|i rest| |]; try done. case_match; [|done]. injection E as <-.
    unfold push, sent_all. cbn. split; [done|]. destruct (drop n rest); [|done]. destruct (which s); [|done]. by destruct (i <=? 98)%nat.
  - destruct (at_ s) as [| |i|]; try done. case_match; [|done]. injection E as E.
    apply Nat.eqb_eq in Hw. unfold receive in E. apply bind_Ok in E as (o & _ & E). apply bind_Ok in E as (o1 & _ & E).
    rewrite (proj2 (Z.eqb_eq _ _)) in E by (by f_equal). cbn [negb] in E. apply bind_Ok in E as ([o2 c] & _ & E).
    destruct (S i <? DELAY_TEST1_N)%nat; [injection E as <-; cbn; by destruct (which s)|].
    apply bind_Ok in E as (rows & Hp & [= <-]). cbn. split; [done|]. by apply print_length in Hp.
  - case_decide; [|done]. destruct (between _ _ _ && _); [|done]. by injection E as <-.
  - destruct (between _ _ _ && _); [|done]. by injection E as <-.
Qed.

Lemma whole_runs t s acts s' :
  demo_inv t s -> runs s acts s' -> forallb whole acts = true -> no_row_missing s -> no_row_missing s'.
Proof.
  intros Hi Hr. induction Hr as [s|s a s1 acts s2 E Hr IH]; [done|]. cbn. intros [Ha Hw]%andb_true_iff Hn.
  destruct (demo_step_inv t s a _ Hi E) as [(? & [= <-] & Hi1)|(_ & _ & _ & ?)]; [|done].
  apply IH; [done..|]. by apply (whole_step t s a).
Qed.

(** The client has not come to recv. *)
Definition before_recv (s : demo) : Prop :=
  match at_ s with At_recv _ | Returned (Some _) => False | _ => True end.

Lemma first_recv s a s' :
  which s = Test1 -> before_recv s -> demo_step a s = Some (Ok s') -> before_recv s' \/ at_ s' = At_recv 0.
Proof.
  intros Hw Hb E. unfold before_recv in *. destruct a as [|n| |n|n|n|]; cbn [demo_step] in E.
  - destruct (at_ s) as [i| | |]; try done. injection E as E. revert E. unfold stamp.
    intros (o & _ & H)%bind_Ok. apply bind_Ok in H as ([o2 c] & _ & [= <-]). by left.
  - destruct (at_ s) as [|i rest| |]; try done. case_match; [|done]. injection E as <-.
    unfold push, sent_all. cbn. destruct (drop n rest); [|by left]. rewrite Hw.
    destruct (i <=? 98)%nat; [by left|by right].
  - destruct (at_ s) as [|i rest| |]; try done. injection E as <-. by left.
  - by destruct (at_ s).
  - case_decide; [|done]. destruct (between _ _ _ && _); [|done]. injection E as <-. by left.
  - destruct (between _ _ _ && _); [|done]. injection E as <-. by left.
  - case_decide; [done|]. injection E as <-. by left.
Qed.

Lemma lost_stays s a s' : demo_step a s = Some (Ok s') -> lost s' = false -> lost s = false.
Proof.
  intros E. destruct a as [|n| |n|n|n|]; cbn [demo_step] in E.
  - destruct (at_ s) as [i| | |]; try done. injection E as E. revert E. unfold stamp.
    intros (o & _ & H)%bind_Ok. by apply bind_Ok in H as ([o2 c] & _ & [= <-]).
  - destruct (at_ s); try done. case_match; [|done]. by injection E as <-.
  - destruct (at_ s); try done. by injection E as <-.
  - destruct (at_ s) as [| |i|]; try done. case_match; [|done]. injection E as E.
    by destruct (receive_result n i s s' E) as (p & arr & c & -> & _).
  - case_decide; [|done]. case_match; [|done]. by injection E as <-.
  - case_match; [|done]. by injection E as <-.
  - case_decide; [done|]. by injection E as <-.
Qed.

(** The server goes on after any answer of recv, and no longer watches a client that has
    gone; accept adds a client, and ends the server when it fails. *)
Lemma serve_event_watches server_fd fd client r m :
  match client with Some c => m !! c = None | None => True end ->
  match serve_event server_fd fd client r m with
  | None => fd = server_fd /\ client = None
  | Some (m', back) =>
      if fd =? server_fd then back = [] /\ exists c, client = Some c /\ m' = <[c := (EPOLLIN, c)]> m
      else match r with RecvData d => m' = m /\ back = take obj_size d | _ => m' = delete fd m /\ back = [] end
  end.
Proof.
  intros Hc. unfold serve_event, serve_accept, serve_data, epoll_ctl. destruct (Z.eqb_spec fd server_fd) as [->|Hne].
  - destruct client as [c|]; [|done]. rewrite Hc. cbn. split; [done|]. by exists c.
  - unfold sys_close. destruct r; cbn; rewrite ?lookup_delete_eq; done.
Qed.

(** ** Theorems *)

(** C39: delay_test1 against the server: when the two directions can hold the hundred objects,
    a run in which malloc and every send, of the client and of the server, succeed and every recv waits for its whole object has a
    bounded number of steps, at each of which something can move without a fault, until the
    client has printed all hundred rows, numbered in order. *)
Theorem delay_test1_finishes junk c acts s :
  (DELAY_TEST1_N * obj_size <= 2 * cap + 1)%nat ->
  length junk = DELAY_TEST1_N -> Forall obj_ok junk ->
  runs (demo_start Test1 junk c) acts s -> forallb whole acts = true ->
  (length acts + work_left s <= work_left (demo_start Test1 junk c))%nat /\
  ((exists a s', whole a = true /\ demo_step a s = Some (Ok s')) \/
   (exists rows, at_ s = Returned (Some rows) /\ length rows = DELAY_TEST1_N /\ rows_ok rows)).
Proof.
  intros Hcap Hl Hj Hr Hw. pose proof (demo_start_inv Test1 junk c Hl Hj) as Hi.
  destruct (whole_runs Test1 _ _ _ Hi Hr Hw (conj eq_refl I)) as [Hlost Hn]. destruct (runs_inv Test1 _ _ _ Hi Hr) as [Hi' Hlen].
  split; [done|]. destruct (decide (ongoing (at_ s) = 1%nat)) as [Ho|Ho].
  - left. assert (obj_size <= cap)%nat as Hoc by (unfold DELAY_TEST1_N in Hcap; assert (2 <= obj_size)%nat by by_decide; lia).
    destruct (never_stuck Test1 s Hi' Hlost Hcap Hoc Ho) as (a & Ha & E).
    destruct (demo_step a s) as [r|] eqn:Er; [|done].
    destruct (demo_step_inv Test1 s a r Hi' Er) as [(s' & -> & _)|(? & _)]; [|done]. by exists a, s'.
  - right. pose proof (di_place _ _ Hi') as Hp. unfold place_ok in Hp.
    destruct (at_ s) as [| | |[rows|]]; try done. destruct Hp as (_ & Hrows & _). exists rows. split_and!; [done..|by apply Hrows].
Qed.

(** When they cannot hold them, delay_test1 never gets to its first recv, whatever the
    kernels do, as long as the server loses nothing: it prints nothing, and ends only when
    a send fails. *)
Theorem delay_test1_deadlocks s :
  (2 * cap + obj_size < DELAY_TEST1_N * obj_size)%nat -> reachable Test1 s -> lost s = false -> before_recv s.
Proof.
  intros Hcap. induction 1 as [junk c _ Hj|s a s' Hs IH E]; [done|]. intros Hlost. specialize (IH (lost_stays s a s' E Hlost)).
  destruct (demo_reachable_inv Test1 s Hs) as [Hno|Hi]; [by destruct (no_memory_step _ _ _ _ Hno E)|].
  destruct (demo_step_inv Test1 s a _ Hi E) as [(? & [= <-] & Hi')|(? & _)]; [|done].
  destruct (first_recv s a s' (di_which _ _ Hi) IH E) as [?|Ha]; [done|].
  pose proof (length_mjoin _ _ (handed_sizes _ _ Hi')) as Hl. destruct (di_caps _ _ Hi') as (Hu & Hd & Hh).
  rewrite (di_flow _ _ Hi' Hlost), !length_app, Ha in Hl by (by rewrite Ha). cbn [left_of length] in Hl.
  pose proof (di_place _ _ Hi') as Hp. unfold place_ok in Hp. rewrite Ha, (di_which _ _ Hi') in Hp.
  destruct Hp as (_ & [Hg _] & En). rewrite En, Hg in Hl. lia.
Qed.

(** C38: Whatever the kernels do, sends of the server that fail or are cut short and a failing
    malloc included.  A step faults in two cases only: the first stamp, exactly when the
    client has got no memory, and in delay_test2, which has five objects, the stamp of a
    sixth, always, after the fifth has come back.  What is printed are rows 0, 1, 2 and so
    on, at most a hundred of delay_test1 and four of delay_test2; and they show the numbers
    of the objects that were sent in their places as long as the server has lost no bytes
    of a send. *)
Theorem delay_rows_numbered t s :
  reachable t s ->
  (forall a r, demo_step a s = Some r ->
     (exists s', r = Ok s') \/
     (a = Stamp /\ array s = [] /\ r = Err NullDeref) \/
     (t = Test2 /\ a = Stamp /\ at_ s = At_send DELAY_TEST2_N /\ r = Err OutOfBounds)) /\
  (array s = [] -> demo_step Stamp s = Some (Err NullDeref)) /\
  (at_ s = At_send DELAY_TEST2_N -> t = Test2 -> demo_step Stamp s = Some (Err OutOfBounds)) /\
  (forall rows, at_ s = Returned (Some rows) ->
     in_turn rows /\ (lost s = false -> rows_ok rows) /\
     (length rows <= match t with Test1 => DELAY_TEST1_N | Test2 => DELAY_TEST2_N - 1 end)%nat).
Proof.
  intros [[c ->]|Hs]%demo_reachable_inv.
  { split_and!; [|done..]. intros a r E. right; left. by destruct (no_memory_step t _ a r ltac:(by exists c) E) as [-> ->]. }
  split_and!.
  - intros a r E. destruct (demo_step_inv t s a r Hs E) as [(s' & -> & _)|?]; [left; by exists s'|by do 2 right].
  - intros Ha. destruct (di_array _ _ Hs) as [Hl _]. rewrite Ha in Hl. by destruct t.
  - intros Ha ->. cbn [demo_step]. by rewrite Ha, stamp_overrun.
  - intros rows Ha. pose proof (di_place _ _ Hs) as Hp. unfold place_ok in Hp. by rewrite Ha, (di_which _ _ Hs) in Hp.
Qed.
End Tcp.

(** ** Runs *)

(** One object through the server and back. *)
Definition echo_once : list action :=
  [Stamp; Push obj_size; Server_recv obj_size; Server_push obj_size; Receive obj_size].

#[local] Instance desk : Machine := {| clock := fun n => (Z.of_nat n, 0); draw := fun _ => 0 |}.

Definition fresh (t : test) : demo := demo_start t (replicate (array_length t) (replicate obj_size 255)) (mkCalls 0 0).

Lemma fresh_ok t : Forall obj_ok (array (fresh t)).
Proof. apply (Forall_replicate obj_ok). split; [by_decide|]. apply Forall_replicate. by_decide. Qed.

Lemma exec_reaches {A} cap t acts (f : demo -> A) p :
  option_map f (exec cap acts (fresh t)) = Some p -> exists s, runs cap (fresh t) acts s /\ f s = p.
Proof.
  destruct (exec cap acts (fresh t)) as [s|] eqn:E; [|done]. intros [= <-]. exists s. split; [|done]. by apply exec_runs.
Qed.

(** The server loses object 0: what comes back first is object 1, which is printed in row 0. *)
Example rows_out_of_phase :
  option_map (fun s => match at_ s with Returned (Some rows) => map fst rows | _ => [] end)
    (exec (Z.to_nat 132800)
       ([Stamp; Push obj_size; Server_recv obj_size; Server_lose] ++
        mjoin (replicate 99 [Stamp; Push obj_size; Server_recv obj_size; Server_push obj_size]) ++
        [Receive obj_size; Receive 0]) (fresh Test1)) = Some [(0%nat, 1)].
Proof. evaluated. Qed.

Lemma delay_test1_finishes_witness :
  exists s, at_ s = At_send 1 /\
  (length [Stamp; Push 1000; Server_recv 700; Push 328; Server_push 700] + work_left s <= work_left (fresh Test1))%nat /\
  ((exists a s', whole a = true /\ demo_step (Z.to_nat 66400) a s = Some (Ok s')) \/
   (exists rows, at_ s = Returned (Some rows) /\ length rows = DELAY_TEST1_N /\ rows_ok rows)).
Proof.
  destruct (exec_reaches (Z.to_nat 66400) Test1 [Stamp; Push 1000; Server_recv 700; Push 328; Server_push 700] at_ (At_send 1))
    as (s & Hr & Ha); [evaluated|].
  exists s. split; [exact Ha|].
  apply (delay_test1_finishes (Z.to_nat 66400) (array (fresh Test1)) (mkCalls 0 0)); [| |apply fresh_ok|exact Hr|].
  - by_decide.
  - evaluated.
  - evaluated.
Defined.

Lemma delay_test1_deadlocks_witness :
  exists s, reachable (Z.to_nat 65536) Test1 s /\ at_ s = At_send 1 /\ before_recv s.
Proof.
  destruct (exec_reaches (Z.to_nat 65536) Test1 [Stamp; Push obj_size] (fun s => (at_ s, lost s)) (At_send 1, false))
    as (s & Hr & [= Ha Hl]); [evaluated|].
  assert (reachable (Z.to_nat 65536) Test1 s) as Hs.
  { eapply runs_reachable; [|exact Hr]. apply reachable_start; [right; evaluated|apply (fresh_ok Test1)]. }
  exists s. split; [exact Hs|]. split; [exact Ha|].
  apply (delay_test1_deadlocks (Z.to_nat 65536)); [by_decide|exact Hs|exact Hl].
Defined.

(** The sixth object of delay_test2, after five have come back. *)
Lemma delay_rows_numbered_witness :
  exists s, reachable 2000 Test2 s /\ demo_step 2000 Stamp s = Some (Err OutOfBounds).
Proof.
  destruct (exec_reaches 2000 Test2 (mjoin (replicate 5 echo_once)) at_ (At_send 5)) as (s & Hr & Ha); [evaluated|].
  assert (reachable 2000 Test2 s) as Hs.
  { eapply runs_reachable; [|exact Hr]. apply reachable_start; [right; evaluated|apply (fresh_ok Test2)]. }
  exists s. split; [exact Hs|]. by apply (delay_rows_numbered 2000 Test2 s Hs).
Defined.
