(* ===== verification/EchoServers.v ===== *)
(** * The echo servers: epoll/epoll_v1.c, epoll/epoll_v2.c, c10M/server.c and
      websocket/websocket.c

    Each is an application of the loop of Epoll.v, whose definitions are the
    callbacks and the main loop of the file.  epoll_v2.c and c10M/server.c send
    back what they receive, epoll_v1.c answers with a constant, and websocket.c
    is a skeleton that never fills its send buffer.  All of them print what they
    received with %s, which reads up to a NUL byte, past the buffer if it has none. *)

From S2P Require Import Prelude CText Epoll.

(** ** An echo, byte for byte *)

Section EchoLaw.
Context `{A : App} (P : cb -> conn -> Prop) (bad : conn -> list Z -> fault -> Prop).

(** The application sends back what it gets. *)
Record echo_law : Prop := {
  el_ok : app_ok P bad;
  el_echo : forall c d c' out, P recv_cb c -> recv_ok (RecvData d) ->
      on_data c d = Ok (c', out) -> out = true /\ to_send c' = Ok d }.

(** What an event delivers: the bytes recv_callback reads, if it is called. *)
Definition heard (events p : Z) (a : answers _) (w : world _) : list (Z * list Z) :=
  match items w !! p with
  | Some si =>
      match callback si, bytes a with
      | recv_cb, RecvData d => if Z.land events EPOLLIN =? 0 then [] else [(sock_fd si, d)]
      | _, _ => []
      end
  | None => []
  end.

(** Events served since [w0], with the bytes received, oldest first. *)
Inductive heard_by (w0 : world _) : list (Z * list Z) -> world _ -> Prop :=
  | heard_none : heard_by w0 [] w0
  | heard_event l w1 w2 events p a a' :
      heard_by w0 l w1 -> event_ok w1 events p a -> handle_event events p a a' w1 = Ok w2 ->
      heard_by w0 (l ++ heard events p a w1) w2.

(** The bytes a socket waits to send. *)
Definition pending (w : world _) (fd : Z) : list (list Z) :=
  match interest w !! fd with
  | Some (_, p) =>
      match items w !! p with
      | Some si =>
          match callback si, to_send (data si) with
          | send_cb, Ok b => [b]
          | _, _ => []
          end
      | None => []
      end
  | None => []
  end.

(** The chunks of one socket in a log. *)
Definition of_fd (fd : Z) (l : list (Z * list Z)) : list (list Z) :=
  (filter (fun x => x.1 = fd) l).*2.

Lemma of_fd_app fd l l' : of_fd fd (l ++ l') = of_fd fd l ++ of_fd fd l'.
Proof. unfold of_fd. by rewrite filter_app, fmap_app. Qed.
Lemma of_fd_one fd b : of_fd fd [(fd, b)] = [b].
Proof. unfold of_fd. by rewrite filter_cons_True. Qed.
Lemma of_fd_other fd fd' b : fd' <> fd -> of_fd fd [(fd', b)] = [].
Proof. intros. unfold of_fd. by rewrite filter_cons_False. Qed.

Lemma pending_of w p si :
  interest w !! sock_fd si = Some (mask_of (callback si), p) -> items w !! p = Some si ->
  pending w (sock_fd si) =
    match callback si, to_send (data si) with send_cb, Ok b => [b] | _, _ => [] end.
Proof. intros E1 E2. unfold pending. by rewrite E1, E2. Qed.

Lemma pending_listening fd p junk fd' : pending (listening fd p junk) fd' = [].
Proof.
  unfold pending, listening, epoll_ctl. rewrite lookup_empty. cbn [interest items snd].
  destruct (decide (fd' = fd)) as [->|Hne].
  - by rewrite lookup_insert_eq, lookup_singleton_eq.
  - by rewrite lookup_insert_ne, lookup_empty.
Qed.

(** Another socket does not see what happens to the sockitem [p] of [fd]. *)
Lemma pending_other w w' p fd fd' :
  loop_inv P w -> fd' <> fd -> (forall ev, interest w !! fd' <> Some (ev, p)) ->
  interest w' !! fd' = interest w !! fd' -> (forall q, q <> p -> items w' !! q = items w !! q) ->
  pending w' fd' = pending w fd'.
Proof.
  intros Hi Hne Hp E1 E2. unfold pending. rewrite E1. destruct (interest w !! fd') as [[ev q]|] eqn:E; [|done].
  rewrite E2; [done|]. intros ->. by apply (Hp ev).
Qed.

Lemma not_its_ptr w p si fd' ev :
  loop_inv P w -> items w !! p = Some si -> fd' <> sock_fd si -> interest w !! fd' <> Some (ev, p).
Proof.
  intros Hi Hsi Hne E. destruct (li_interest P w Hi _ _ _ E) as (t & Ht & Ef). congruence.
Qed.

(** The three callbacks, as another socket or their own [fd] sees them. *)
Lemma accept_pending w w' fd0 a fd r :
  loop_inv P w -> (forall c, client a = Some c -> interest w !! c = None) -> block a = 0 \/ items w !! block a = None ->
  accept_callback fd0 (client a) (block a) (garbage a) w = Ok (r, w') ->
  sent w' = sent w /\ pending w' fd = pending w fd.
Proof.
  intros Hi Hcl Hb H. unfold accept_callback in H. destruct (client a) as [c|] eqn:Ec; [|by injection H as <- <-].
  destruct (Z.eqb_spec (block a) 0) as [E0|Hb0]; [done|]. destruct Hb as [?|Hb]; [done|].
  injection H as <- <-. split; [done|].
  unfold epoll_ctl. rewrite (Hcl c eq_refl). cbn [snd]. destruct (decide (fd = c)) as [->|Hne].
  - unfold pending. cbn. by rewrite (Hcl c eq_refl), lookup_insert_eq, lookup_insert_eq.
  - apply (pending_other w _ (block a) c); [done|done| | |].
    + intros ev Hx. destruct (li_interest P w Hi _ _ _ Hx) as (t & Ht & _). congruence.
    + cbn. by rewrite lookup_insert_ne.
    + intros q Hq. cbn. by rewrite lookup_insert_ne.
Qed.

Section Own.
Context (w : world _) (p : Z) (si : sockitem _).
Context (Hi : loop_inv P w) (Hsi : items w !! p = Some si).
Context (Hfd : interest w !! sock_fd si = Some (mask_of (callback si), p)).

(** Another socket sees nothing of a change at [p]. *)
Lemma pending_apart w' fd :
  fd <> sock_fd si -> interest w' !! fd = interest w !! fd -> (forall q, q <> p -> items w' !! q = items w !! q) ->
  pending w' fd = pending w fd.
Proof. intros Hne E1 E2. apply (pending_other w _ p (sock_fd si)); try done. intros ev. by apply (not_its_ptr w p si). Qed.

Lemma drop_pending fd : callback si = recv_cb -> pending (drop_client (sock_fd si) p w) fd = pending w fd.
Proof.
  intros Ecb. destruct (decide (fd = sock_fd si)) as [->|Hne].
  - rewrite (pending_of w p si Hfd Hsi), Ecb. unfold pending, drop_client, sys_close. cbn. by rewrite lookup_delete_eq.
  - apply pending_apart; [done|..]; cbn.
    + unfold sys_close, epoll_ctl. rewrite Hfd. cbn. by rewrite !lookup_delete_ne.
    + intros q Hq. by rewrite lookup_delete_ne.
Qed.

Lemma recv_pending w' a fd r :
  echo_law -> callback si = recv_cb -> recv_ok a -> recv_callback (sock_fd si) p a w = Ok (r, w') ->
  sent w' = sent w /\
  pending w' fd = pending w fd ++ of_fd fd (match a with RecvData d => [(sock_fd si, d)] | _ => [] end).
Proof.
  intros HL Ecb Hr H. unfold recv_callback, get_item in H. rewrite Hsi in H. cbn [mbind res_bind] in H.
  destruct a as [[]| |d]; try (injection H as <- <-; rewrite app_nil_r; split; [done|by rewrite ?drop_pending]).
  assert (P recv_cb (data si)) as HP by (rewrite <- Ecb; eapply (li_conn P w Hi); [done|congruence]).
  apply bind_Ok in H as ([c out] & Ed & H). destruct (el_echo HL (data si) d c out HP Hr Ed) as [-> Es].
  injection H as <- <-. split; [done|]. unfold epoll_ctl. rewrite Hfd. cbn [snd].
  destruct (decide (fd = sock_fd si)) as [->|Hne].
  - rewrite (pending_of w p si Hfd Hsi), Ecb, of_fd_one. unfold pending. cbn. rewrite !lookup_insert_eq. cbn. by rewrite Es.
  - rewrite of_fd_other, app_nil_r by done. apply pending_apart; [done|..]; cbn.
    + by rewrite lookup_insert_ne.
    + intros q Hq. by rewrite lookup_insert_ne.
Qed.

Lemma send_pending w' fd ret r :
  callback si = send_cb -> send_callback (sock_fd si) p ret w = Ok (r, w') ->
  exists b, sent w' = sent w ++ [(sock_fd si, b)] /\ pending w fd = of_fd fd [(sock_fd si, b)] ++ pending w' fd.
Proof.
  intros Ecb H. unfold send_callback, get_item in H. rewrite Hsi in H. cbn [mbind res_bind] in H.
  apply bind_Ok in H as (b & Hb' & H). injection H as <- <-. exists b. split; [done|].
  unfold epoll_ctl. rewrite Hfd. cbn [snd]. destruct (decide (fd = sock_fd si)) as [->|Hne].
  - rewrite (pending_of w p si Hfd Hsi), Ecb, Hb', of_fd_one. unfold pending. cbn. by rewrite !lookup_insert_eq.
  - rewrite of_fd_other by done. symmetry. apply pending_apart; [done|..]; cbn.
    + by rewrite lookup_insert_ne.
    + intros q Hq. by rewrite lookup_insert_ne.
Qed.
End Own.

(** One event: what a socket has heard and not sent is what it waits to send. *)
Lemma echo_event w w' events p a a' fd :
  echo_law -> loop_inv P w -> event_ok w events p a -> handle_event events p a a' w = Ok w' ->
  exists out, sent w' = sent w ++ out /\
    pending w fd ++ of_fd fd (heard events p a w) = of_fd fd out ++ pending w' fd.
Proof.
  intros HL Hi He H. destruct (handle_event_call P w events p a a' Hi He) as (si & Hsi & Hfd & E).
  rewrite E in H. unfold heard. rewrite Hsi. destruct He as [_ Hr Hz Hcl Hb].
  destruct (Z.eqb_spec (Z.land events (bit_of (callback si))) 0) as [E0|E0].
  { injection H as <-. exists []. rewrite app_nil_r. split; [done|].
    destruct (callback si); try (by rewrite app_nil_r). cbn [bit_of] in E0.
    destruct (bytes a); rewrite ?E0; by rewrite app_nil_r. }
  unfold call, get_item in H. rewrite Hsi in H. cbn [mbind res_bind] in H.
  destruct (callback si) eqn:Ecb; cbn [bit_of] in E0; apply bind_Ok in H as ([r w2] & H & [= <-]).
  - exists []. rewrite !app_nil_r.
    destruct (accept_pending w w2 (sock_fd si) (answered a a') fd r Hi Hcl Hb H) as [-> ->]. done.
  - exists []. rewrite app_nil_r. rewrite <- Ecb in Hfd.
    destruct (recv_pending w p si Hi Hsi Hfd w2 (bytes a) fd r HL Ecb Hr H) as [-> ->].
    split; [done|]. rewrite (proj2 (Z.eqb_neq _ _) E0). done.
  - rewrite <- Ecb in Hfd. destruct (send_pending w p si Hi Hsi Hfd w2 fd _ r Ecb H) as (b & -> & ->).
    exists [(sock_fd si, b)]. split; [done|]. rewrite <- app_assoc. f_equal.
    destruct (bytes a); apply app_nil_r.
Qed.

Lemma heard_by_inv w0 l w : app_ok P bad -> loop_inv P w0 -> heard_by w0 l w -> loop_inv P w.
Proof.
  intros HA H0. induction 1 as [|l w1 w2 events p a a' _ IH He H]; [done|].
  pose proof (handle_event_inv P bad w1 events p a a' HA IH He) as Hi. by rewrite H in Hi.
Qed.

Lemma heard_by_takes w0 l w : takes_prefixes w0 -> heard_by w0 l w -> takes_prefixes w.
Proof. intros H0. induction 1 as [|l w1 w2 events p a a' _ IH _ H]; [done|]. by eapply handle_event_takes. Qed.

Lemma heard_by_echo w0 l w fd :
  echo_law -> loop_inv P w0 -> sent w0 = [] -> pending w0 fd = [] -> heard_by w0 l w ->
  of_fd fd l = of_fd fd (sent w) ++ pending w fd.
Proof.
  intros HL H0 Es Ep. induction 1 as [|l w1 w2 events p a a' Hh IH He H].
  - by rewrite Es, Ep.
  - assert (loop_inv P w1) as Hi by (eapply heard_by_inv; [apply HL|done..]).
    destruct (echo_event w1 w2 events p a a' fd HL Hi He H) as (out & -> & E).
    rewrite !of_fd_app, IH, <- !app_assoc. by f_equal.
Qed.
End EchoLaw.

(** The two buffers of a sockitem and their lengths. *)
Record buffers := mkBuffers {
  recv_buffer : list Z; send_buffer : list Z; rlength : Z; slength : Z }.

Definition buffers_sized (b : buffers) : Prop :=
  Z.of_nat (length (recv_buffer b)) = BUFFER_SIZE /\ Z.of_nat (length (send_buffer b)) = BUFFER_SIZE.

(** send(fd, buf, n, 0): reading outside the buffer is a fault; a negative length is a
    huge size_t. *)
Definition send_prefix (buf : list Z) (n : Z) : res (list Z) :=
  if (0 <=? n) && (n <=? Z.of_nat (length buf)) then Ok (take (Z.to_nat n) buf) else Err OutOfBounds.

(** memcpy between buffers of the same sockitem *)
Definition copy_prefix (dst src : list Z) (n : Z) : res (list Z) :=
  b ← send_prefix src n;
  if n <=? Z.of_nat (length dst) then Ok (overwrite dst b) else Err OutOfBounds.

Lemma send_prefix_app b rest : send_prefix (b ++ rest) (Z.of_nat (length b)) = Ok b.
Proof.
  unfold send_prefix. rewrite length_app, Nat2Z.id, take_app_length.
  by rewrite (proj2 (Z.leb_le 0 _)), (proj2 (Z.leb_le _ _)) by lia.
Qed.

(** The echo of epoll_v2.c and c10M/server.c: what recv_callback does with [ret] bytes. *)
Definition echo_data (b : buffers) (d : list Z) : res (buffers * bool) :=
  let rb := overwrite (recv_buffer b) d in
  let ret := Z.of_nat (length d) in
  _ ← c_string rb;
  sb ← copy_prefix (send_buffer b) rb ret;
  Ok (mkBuffers rb sb ret ret, true).

Definition echo_app : App := {|
  conn := buffers;
  sized := buffers_sized;
  on_accept := fun b => b;
  on_data := echo_data;
  to_send := fun b => send_prefix (send_buffer b) (slength b);
  on_sent := fun b => b |}.

Definition echo_inv (c : cb) (b : buffers) : Prop :=
  buffers_sized b /\ (c = send_cb -> 0 <= slength b <= BUFFER_SIZE).

(** printf finds no NUL in the receive buffer. *)
Definition print_overruns (b : buffers) (d : list Z) (e : fault) : Prop :=
  e = OutOfBounds /\ no_zero (overwrite (recv_buffer b) d).

Lemma echo_data_exact b d :
  buffers_sized b -> recv_ok (RecvData d) ->
  safely (print_overruns b d) (echo_data b d) (fun '(b', out) =>
    out = true /\ buffers_sized b' /\ slength b' = Z.of_nat (length d) /\
    send_prefix (send_buffer b') (slength b') = Ok d).
Proof.
  intros [Hr Hs] (_ & Hd & _). unfold echo_data. cbn zeta.
  pose proof (c_string_safe (overwrite (recv_buffer b) d)) as Hp.
  destruct (c_string _) as [s|e]; [clear Hp|exact Hp]. cbn [mbind res_bind].
  assert (copy_prefix (send_buffer b) (overwrite (recv_buffer b) d) (Z.of_nat (length d))
          = Ok (overwrite (send_buffer b) d)) as ->.
  { unfold copy_prefix. change (overwrite (recv_buffer b) d) with (d ++ drop (length d) (recv_buffer b)). rewrite (send_prefix_app d). cbn [mbind res_bind].
    by rewrite (proj2 (Z.leb_le _ _)) by lia. }
  cbn [safely mbind res_bind]. split; [done|].
  split; [split; cbn; rewrite overwrite_length; lia|]. cbn. split; [done|].
  unfold overwrite. apply send_prefix_app.
Qed.

Lemma echo_app_law : @echo_law echo_app echo_inv print_overruns.
Proof.
  constructor; [constructor|]; cbn.
  - intros b Hb. by split.
  - intros b d [Hb _] Hd. eapply safely_mono; [by apply echo_data_exact|done|].
    intros [b' out] (-> & Hb' & El & _). split; [done|]. destruct Hd as (_ & ? & _). lia.
  - intros b [Hb Hl]. unfold send_prefix. destruct Hb as [Hr Hs]. specialize (Hl eq_refl).
    rewrite (proj2 (Z.leb_le 0 _)), (proj2 (Z.leb_le _ _)) by lia. by apply returns_Ok.
  - intros b d b' out [Hb _] Hd H. pose proof (echo_data_exact b d Hb Hd) as Hx. rewrite H in Hx.
    by destruct Hx as (-> & _ & _ & ?).
Qed.

(** ** epoll/epoll_v2.c *)

Module EpollV2.
#[local] Existing Instance echo_app.
Definition sockitem := sockitem echo_app.
Definition accept_callback := accept_callback (A := echo_app).
Definition recv_callback := recv_callback (A := echo_app).
Definition send_callback := send_callback (A := echo_app).
Definition main_loop := handle_event (A := echo_app).
Definition main_setup := listening (A := echo_app).
End EpollV2.

(** ** c10M/server.c: the same echo, with a hundred listening ports *)

Module C10mServer.
#[local] Existing Instance echo_app.
Definition LISTEN_PORT : nat := 100.
Definition sockitem := Epoll.sockitem echo_app.
Definition accept_callback := accept_callback (A := echo_app).
Definition recv_callback := recv_callback (A := echo_app).
Definition send_callback := send_callback (A := echo_app).
Definition main_loop := handle_event (A := echo_app).

(** The loop of main over the ports: [socks] are the descriptors listen_port
    returned, negative when it failed (the result is not checked, and epoll_ctl
    refuses it), each with the sockitem malloc gave for it. *)
Definition main_setup (socks : list (Z * Z)) (junk : buffers) : world echo_app :=
  foldl (fun w '(fd, p) =>
    mkWorld (if fd <? 0 then interest w else (epoll_ctl EPOLL_CTL_ADD fd EPOLLIN p (interest w)).2)
      (<[p := mkItem fd accept_cb junk]> (items w)) (sent w) (took w))
    (mkWorld ∅ ∅ [] []) (take LISTEN_PORT socks).
End C10mServer.

(** C18: Whatever events the kernel reports, in any order, over any number of connections:
    what each socket received is, chunk by chunk, exactly what has been given to send for it,
    followed by what it is still waiting to send; of each chunk the kernel takes a prefix (the
    code ignores the answer of send and does not send the rest).  Every further event is
    handled without a fault, except that the program stops when malloc answers NULL for a
    client that was accepted, and that printing what was received reads past the receive
    buffer when its 1024 bytes hold no NUL. *)
Theorem echo_server_echoes fd0 p0 junk l w :
  p0 <> 0 -> heard_by (EpollV2.main_setup fd0 p0 junk) l w ->
  (forall fd, of_fd fd l = of_fd fd (sent w) ++ pending w fd) /\
  Forall2 (fun g t => fst t = fst g /\ snd t `prefix_of` snd g) (sent w) (took w) /\
  (forall events p a a', event_ok w events p a ->
     safely (fun e =>
         (e = NullDeref /\ block a = 0 /\ client a <> None) \/
         (e = OutOfBounds /\ exists si d, items w !! p = Some si /\ callback si = recv_cb /\
            bytes a = RecvData d /\ no_zero (overwrite (recv_buffer (data si)) d)))
       (EpollV2.main_loop events p a a' w) (fun _ => True)).
Proof.
  intros Hp H. pose proof (listening_inv (A := echo_app) echo_inv fd0 p0 junk Hp) as Hi. split_and!.
  - intros fd. eapply (heard_by_echo (A := echo_app) echo_inv); [apply echo_app_law|exact Hi|done| |exact H].
    apply pending_listening.
  - apply (heard_by_takes (A := echo_app) (EpollV2.main_setup fd0 p0 junk) l w); [constructor|done].
  - intros events p a a' He.
    pose proof (heard_by_inv (A := echo_app) echo_inv print_overruns _ _ _ (el_ok _ _ echo_app_law) Hi H) as Hi'.
    eapply safely_mono; [by apply (handle_event_inv (A := echo_app) echo_inv print_overruns w events p a a' (el_ok _ _ echo_app_law) Hi')| |done].
    intros e [?|(si & d & Hsi & Hcb & Hd & -> & Hz)]; [by left|]. right. split; [done|]. by exists si, d.
Qed.

(** ** epoll/epoll_v1.c: the answer is the five bytes of ok!! *)

Module EpollV1.
Definition ok_bytes : list Z := [111; 107; 33; 33; 0].

(** A sockitem keeps nothing: recv_callback reads into a cleared buffer of its own. *)
Definition ok_app : App := {|
  conn := unit;
  sized := fun _ => True;
  on_accept := fun u => u;
  on_data := fun u d => _ ← c_string (overwrite (replicate 1024 0) d); Ok (u, true);
  to_send := fun _ => Ok ok_bytes;
  on_sent := fun u => u |}.

#[local] Existing Instance ok_app.
Definition sockitem := Epoll.sockitem ok_app.
Definition accept_callback := accept_callback (A := ok_app).
Definition recv_callback := recv_callback (A := ok_app).
Definition send_callback := send_callback (A := ok_app).
Definition main_loop := handle_event (A := ok_app).
Definition main_setup := listening (A := ok_app).
End EpollV1.

(** ** websocket/websocket.c: the handshake is empty *)

Module WsSkeleton.
Inductive WS_STATUS : Set := WS_INIT | WS_HANDSHAKE | WS_DATATTRANSFROM | WS_DATAEND.

Record ws_conn := mkWs { bufs : buffers; status : WS_STATUS }.

Definition ws_handshake (c : ws_conn) : ws_conn := c.

Definition ws_data (c : ws_conn) (d : list Z) : res (ws_conn * bool) :=
  let b := bufs c in
  let c := mkWs (mkBuffers (overwrite (recv_buffer b) d) (send_buffer b) (rlength b) (slength b)) (status c) in
  _ ← c_string (recv_buffer (bufs c));
  Ok (match status c with WS_HANDSHAKE => ws_handshake c | _ => c end, true).

Definition ws_app : App := {|
  conn := ws_conn;
  sized := fun c => buffers_sized (bufs c);
  on_accept := fun c => mkWs (bufs c) WS_HANDSHAKE;
  on_data := ws_data;
  to_send := fun c => send_prefix (send_buffer (bufs c)) (slength (bufs c));
  on_sent := fun c => c |}.

#[local] Existing Instance ws_app.
Definition sockitem := Epoll.sockitem ws_app.
Definition accept_callback := accept_callback (A := ws_app).
Definition recv_callback := recv_callback (A := ws_app).
Definition send_callback := send_callback (A := ws_app).
Definition main_loop := handle_event (A := ws_app).
Definition main_setup := listening (A := ws_app).

(** slength is never assigned: what send reads depends on the memory malloc
    returned, and may lie outside the buffer. *)
Theorem ws_sends_garbage :
  exists junk w, sized junk /\
    (w1 ← main_loop EPOLLIN 8 (mkAnswers (A := ws_app) (Some 5) 16 junk RecvEnd 0)
            (mkAnswers (A := ws_app) None 0 junk RecvEnd 0) (main_setup 3 8 junk);
     w2 ← main_loop EPOLLIN 16 (mkAnswers (A := ws_app) None 24 junk (RecvData [71]) 0)
            (mkAnswers (A := ws_app) None 0 junk RecvEnd 0) w1;
     Ok w2) = Ok w /\
    main_loop EPOLLOUT 16 (mkAnswers (A := ws_app) None 24 junk RecvEnd 0)
      (mkAnswers (A := ws_app) None 0 junk RecvEnd 0) w = Err OutOfBounds.
Proof.
  exists (mkWs (mkBuffers (replicate 1024 0) (replicate 1024 0) 0 2000) WS_INIT).
  eexists. split; [by split|]. split; [vm_compute; reflexivity|]. vm_compute. reflexivity.
Qed.
End WsSkeleton.

(** ** A client of the echo server *)

Section Demo.
#[local] Existing Instance echo_app.

(** What malloc returned, with a NUL at the end; nothing of it reaches a client. *)
Definition demo_junk : buffers := mkBuffers (replicate 1023 66 ++ [0]) (replicate 1024 67) 5 7.

Definition demo_answers (client : option Z) (d : received) : answers echo_app :=
  mkAnswers client 16 demo_junk d 2.
Definition demo_world : world echo_app := EpollV2.main_setup 3 8 demo_junk.

Definition or_stay (w : world echo_app) (r : res (world echo_app)) : world echo_app :=
  match r with Ok w' => w' | Err _ => w end.
Definition demo_connected : world echo_app :=
  or_stay demo_world (EpollV2.main_loop EPOLLIN 8 (demo_answers (Some 5) RecvEnd) (demo_answers None RecvEnd) demo_world).
Definition demo_hello : answers echo_app := mkAnswers (A := echo_app) None 24 demo_junk (RecvData [104; 105]) 2.
Definition demo_heard : world echo_app :=
  or_stay demo_connected (EpollV2.main_loop EPOLLIN 16 demo_hello demo_hello demo_connected).

Lemma demo_heard_by : heard_by demo_world [(5, [104; 105])] demo_heard.
Proof.
  apply (heard_event demo_world [] demo_connected demo_heard EPOLLIN 16 demo_hello demo_hello).
  - apply (heard_event demo_world [] demo_world demo_connected EPOLLIN 8
             (demo_answers (Some 5) RecvEnd) (demo_answers None RecvEnd)); [constructor| |vm_compute; reflexivity].
    constructor; [exists 3, EPOLLIN; split; vm_compute; reflexivity|done|by split| |].
    + intros c [= <-]. vm_compute. reflexivity.
    + right. vm_compute. reflexivity.
  - constructor; [exists 5, (Z.lor EPOLLIN EPOLLET); split; vm_compute; reflexivity| |by split|done|].
    + split; [done|]. split; by_decide.
    + right. vm_compute. reflexivity.
  - vm_compute. reflexivity.
Qed.

(** The same without the NUL: the print of the two bytes runs off the buffer. *)
Definition demo_unterminated : buffers := mkBuffers (replicate 1024 66) (replicate 1024 67) 5 7.
Example demo_print_overruns :
  echo_data demo_unterminated [104; 105] = Err OutOfBounds.
Proof. vm_compute. reflexivity. Qed.

Lemma echo_server_echoes_witness :
  8 <> 0 /\
  (forall fd, of_fd fd [(5, [104; 105])] = of_fd fd (sent demo_heard) ++ pending demo_heard fd) /\
  Forall2 (fun g t => fst t = fst g /\ snd t `prefix_of` snd g) (sent demo_heard) (took demo_heard) /\
  (forall events p a a', event_ok demo_heard events p a ->
     safely (fun e =>
         (e = NullDeref /\ block a = 0 /\ client a <> None) \/
         (e = OutOfBounds /\ exists si d, items demo_heard !! p = Some si /\ callback si = recv_cb /\
            bytes a = RecvData d /\ no_zero (overwrite (recv_buffer (data si)) d)))
       (EpollV2.main_loop events p a a' demo_heard) (fun _ => True)).
Proof.
  split; [done|]. apply (echo_server_echoes 3 8 demo_junk [(5, [104; 105])] demo_heard); [done|].
  apply demo_heard_by.
Defined.
End Demo.
