(* ===== verification/Websocket.v ===== *)
(** * The WebSocket server of websocket/epoll_websocket.c

    The handshake and the frames, as an application of the loop of Epoll.v.  A
    buffer is the list of its bytes; reading a C string needs its NUL inside the
    buffer, and a write past the end of an array is a fault.  SHA1 and the base64
    filter are OpenSSL's: [sha1] is the digest and [bio_base64] what the memory
    BIO holds after the flush. *)

From Stdlib Require Import Ascii String.
From S2P Require Import Prelude CText Epoll EchoServers.

Definition GUID : list Z := bytes_of_string "258EAFA5-E914-47DA-95CA-C5AB0DC85B11".
Definition KEY_HEADER : list Z := bytes_of_string "Sec-WebSocket-Key".
Definition CR : Z := 13.
Definition LF : Z := 10.

(** ** C strings *)

Definition byte_at (buf : list Z) (i : Z) : res Z :=
  if i <? 0 then Err OutOfBounds
  else match buf !! Z.to_nat i with Some b => Ok b | None => Err OutOfBounds end.

Fixpoint prefixb (pat l : list Z) : bool :=
  match pat, l with
  | [], _ => true
  | p :: pat, x :: l => (p =? x) && prefixb pat l
  | _, [] => false
  end.

(** strstr(l, pat) != NULL *)
Fixpoint contains (pat l : list Z) : bool :=
  prefixb pat l || match l with [] => false | _ :: l => contains pat l end.

(** ** readline: copies up to the next CR LF, into a buffer of [room] bytes *)

Fixpoint readline_loop (allbuf : list Z) (len : Z) (fuel : nat) (level : Z) (room : nat) : res (Z * list Z) :=
  if len <=? level then Ok (-1, [])
  else
    match fuel with
    | O => Err Diverges
    | S fuel =>
        b ← byte_at allbuf level;
        b' ← (if b =? CR then byte_at allbuf (level + 1) else Ok 0);
        if (b =? CR) && (b' =? LF) then Ok (level + 2, [])
        else
          match room with
          | O => Err OutOfBounds
          | S room =>
              '(r, line) ← readline_loop allbuf len fuel (level + 1) room;
              Ok (r, b :: line)
          end
    end.

Definition readline (allbuf : list Z) (level : Z) (room : nat) : res (Z * list Z) :=
  s ← c_string allbuf;
  readline_loop allbuf (Z.of_nat (length s)) (length s) level room.

(** ** Frames *)

(** The two bytes of nty_ophdr; the bit fields are allocated from the low bits. *)
Definition hdr_mask (b1 : Z) : Z := Z.shiftr b1 7.
Definition hdr_payload_length (b1 : Z) : Z := Z.land b1 127.

Definition umask (data mask : list Z) : list Z :=
  imap (fun i b => Z.lxor b (nth (i mod 4) mask 0)) data.

Fixpoint le_value (l : list Z) : Z :=
  match l with [] => 0 | b :: l => b + 256 * le_value l end.

Fixpoint le_bytes (n : nat) (z : Z) : list Z :=
  match n with O => [] | S n => z mod 256 :: le_bytes n (z / 256) end.

Definition slice (buf : list Z) (i n : nat) : list Z := take n (drop i buf).

(** Where the payload starts, its length, the mask, and the buffer with the payload
    unmasked in place.  The tests look at the mask bit instead of the length. *)
Definition decode_packet (stream : list Z) : res (list Z * nat * Z * list Z) :=
  b1 ← byte_at stream 1;
  let '(size, mask, start) :=
    if Z.land (hdr_mask b1) 127 =? 126 then (le_value (slice stream 2 2), slice stream 4 4, 8%nat)
    else if Z.land (hdr_mask b1) 127 =? 127 then (i32 (le_value (slice stream 2 8)), slice stream 10 4, 14%nat)
    else (hdr_payload_length b1, slice stream 2 4, 6%nat) in
  if Z.of_nat (length stream) <? Z.of_nat start + size then Err OutOfBounds
  else
    let n := Z.to_nat size in
    Ok (take start stream ++ umask (slice stream start n) mask ++ drop (start + n) stream,
        start, size, mask).

(** memcpy(buffer + off, b, |b|) *)
Definition store (buffer : list Z) (off : nat) (b : list Z) : res (list Z) :=
  if (length buffer <? off + length b)%nat then Err OutOfBounds
  else Ok (take off buffer ++ b ++ drop (off + length b) buffer).

(** memcpy out of [stream], [length] bytes *)
Definition load (stream : list Z) (n : Z) : res (list Z) :=
  if (n <? 0) || (Z.of_nat (length stream) <? n) then Err OutOfBounds else Ok (take (Z.to_nat n) stream).

(** fin = 1, opcode = 1 *)
Definition head_byte : Z := 129.

Definition encode_packet (buffer mask stream : list Z) (len : Z) : res (list Z * Z) :=
  buffer ←
    (if len <? 126 then store buffer 0 [head_byte; Z.land len 127]
     else if len <? 65535 then
       b ← store buffer 0 [head_byte; 0];
       store b 2 (le_bytes 2 len ++ mask ++ replicate 8 0)
     else
       b ← store buffer 0 [head_byte; 0];
       store b 2 (le_bytes 8 (u64 len) ++ mask ++ replicate 8 0));
  b ← load stream len;
  buffer ← store buffer 2 b;
  Ok (buffer, i32 (len + 2)).

(** ** The connection *)

Inductive WEBSOCKET_STATUS : Set := WS_HANDSHARK | WS_DATATRANSFORM | WS_DATAEND.

Record ws_item := mkWsItem {
  recvbuffer : list Z; sendbuffer : list Z; rlength : Z; slength : Z; status : WEBSOCKET_STATUS }.

Section Server.
Variable sha1 : list Z -> list Z.
Variable bio_base64 : list Z -> list Z.

(** The string left in [out_str], an array of 32 bytes: the last byte of what the
    BIO holds is overwritten by the NUL. *)
Definition base64_encode (in_str : list Z) : res (list Z) :=
  let b := bio_base64 in_str in
  if (length b =? 0)%nat || (32 <? length b)%nat then Err OutOfBounds
  else c_string (take (length b - 1) b ++ [0]).

Definition response (accept : list Z) : list Z :=
  bytes_of_string "HTTP/1.1 101 Switching Protocols" ++ [CR; LF] ++
  bytes_of_string "Upgrade: websocket" ++ [CR; LF] ++
  bytes_of_string "Connection: Upgrade" ++ [CR; LF] ++
  bytes_of_string "Sec-WebSocket-Accept: " ++ accept ++ [CR; LF] ++ [CR; LF].

(** The answer to the line with the key: strcat into the 256 bytes of [linebuf], the
    digest of what follows the header, of which strlen bytes are encoded. *)
Definition answer_key (line : list Z) : res (list Z) :=
  if (256 <=? length line + length GUID)%nat then Err OutOfBounds
  else
    digest ← c_string (take 20 (sha1 (drop 19 (line ++ GUID))) ++ [0]);
    accept ← base64_encode digest;
    Ok (response accept).

(** The do-while loop of handshark; [None] when no line has the key.  The condition
    reads [recvbuffer[level]] before it tests [level != -1]. *)
Fixpoint handshark_loop (fuel : nat) (buf : list Z) (level : Z) : res (option (list Z)) :=
  match fuel with
  | O => Err Diverges
  | S fuel =>
      '(level, line) ← readline buf level 256;
      if (256 <=? length line)%nat then Err OutOfBounds
      else if contains KEY_HEADER line then head ← answer_key line; Ok (Some head)
      else
        b ← byte_at buf level;
        b' ← (if b =? CR then byte_at buf (level + 1) else Ok 0);
        if (negb (b =? CR) || negb (b' =? LF)) && negb (level =? -1)
        then handshark_loop fuel buf level
        else Ok None
  end.

Definition handshark (si : ws_item) : res (ws_item * bool) :=
  head ← handshark_loop (length (recvbuffer si)) (recvbuffer si) 0;
  match head with
  | None => Ok (si, false)
  | Some head =>
      sb ← store (sendbuffer si) 0 head;
      Ok (mkWsItem (replicate 1024 0) sb (rlength si) (Z.of_nat (length head)) WS_DATATRANSFORM, true)
  end.

(** printf shows the payload as a C string. *)
Definition transform (si : ws_item) : res (ws_item * bool) :=
  '(rb, start, size, mask) ← decode_packet (recvbuffer si);
  _ ← c_string (drop start rb);
  '(sb, n) ← encode_packet (sendbuffer si) mask (drop start rb) size;
  Ok (mkWsItem (replicate 1024 0) sb (rlength si) n WS_DATATRANSFORM, true).

Definition recv_cb_data (si : ws_item) (d : list Z) : res (ws_item * bool) :=
  let si := mkWsItem (overwrite (recvbuffer si) d) (sendbuffer si) 0 (slength si) (status si) in
  match status si with
  | WS_HANDSHARK => _ ← c_string (recvbuffer si); handshark si
  | WS_DATATRANSFORM => transform si
  | WS_DATAEND => Ok (si, false)
  end.

Definition websocket_app : App := {|
  conn := ws_item;
  sized := fun si => length (recvbuffer si) = 1024%nat /\ length (sendbuffer si) = 1024%nat;
  on_accept := fun si => mkWsItem (recvbuffer si) (sendbuffer si) (rlength si) (slength si) WS_HANDSHARK;
  on_data := recv_cb_data;
  to_send := fun si => send_prefix (sendbuffer si) (slength si);
  on_sent := fun si => mkWsItem (recvbuffer si) (replicate 1024 0) (rlength si) (slength si) (status si) |}.

#[local] Existing Instance websocket_app.
Definition accept_cb := accept_callback (A := websocket_app).
Definition recv_cb := recv_callback (A := websocket_app).
Definition send_cb := send_callback (A := websocket_app).
Definition main_loop := handle_event (A := websocket_app).
Definition main_setup := listening (A := websocket_app).
End Server.

(** ** The frames *)

(** RFC 6455, 5.3: octet [i] is combined with octet [i mod 4] of the key. *)
Definition masked (d key : list Z) : list Z :=
  imap (fun i octet => Z.lxor octet (default 0 (key !! (i mod 4)%nat))) d.

Lemma masked_length d m : length (masked d m) = length d.
Proof. apply length_imap. Qed.

Lemma umask_masked d m : umask (masked d m) m = d.
Proof.
  apply list_eq. intros i. unfold umask, masked. rewrite !list_lookup_imap, nth_lookup.
  destruct (d !! i) as [x|]; cbn; [|done]. by rewrite Z.lxor_assoc, Z.lxor_nilpotent, Z.lxor_0_r.
Qed.

(** The frame RFC 6455 gives a client for a payload of at most 125 bytes, and the
    unmasked text frame of a server. *)
Definition client_frame (b0 : Z) (mask p : list Z) : list Z :=
  [b0; 128 + Z.of_nat (length p)] ++ mask ++ masked p mask.
Definition server_frame (p : list Z) : list Z := [129; Z.of_nat (length p)] ++ p.

Lemma hdr_small n : 0 <= n < 128 -> hdr_mask (128 + n) = 1 /\ hdr_payload_length (128 + n) = n.
Proof.
  intros H. unfold hdr_mask, hdr_payload_length. change 127 with (Z.ones 7).
  rewrite Z.shiftr_div_pow2, Z.land_ones by lia. change (2 ^ 7) with 128.
  split; Z.to_euclidean_division_equations; lia.
Qed.

Lemma decode_client_frame b0 mask p rest :
  length mask = 4%nat -> (length p <= 125)%nat ->
  decode_packet (client_frame b0 mask p ++ rest) =
    Ok ([b0; 128 + Z.of_nat (length p)] ++ mask ++ p ++ rest, 6%nat, Z.of_nat (length p), mask).
Proof.
  intros Hm Hp. unfold decode_packet, client_frame.
  destruct (hdr_small (Z.of_nat (length p)) ltac:(lia)) as [E1 E2].
  destruct mask as [|m0 [|m1 [|m2 [|m3 [|]]]]]; try done.
  change (byte_at _ 1) with (Ok (128 + Z.of_nat (length p))). cbn [mbind res_bind].
  rewrite E1, E2. change (Z.land 1 127 =? 126) with false. change (Z.land 1 127 =? 127) with false.
  cbv beta iota zeta.
  match goal with |- context [Z.of_nat (length ?l) <? _] =>
    assert (Z.of_nat (length l) = 6 + Z.of_nat (length p) + Z.of_nat (length rest)) as ->
      by (cbn; rewrite length_app, masked_length; lia) end.
  destruct (Z.ltb_spec (6 + Z.of_nat (length p) + Z.of_nat (length rest)) (Z.of_nat 6 + Z.of_nat (length p))); [lia|].
  cbn zeta. rewrite Nat2Z.id.
  set (m := [m0; m1; m2; m3]). set (X := ([b0; 128 + Z.of_nat (length p)] ++ m ++ masked p m) ++ rest).
  assert (drop 6 X = masked p m ++ rest) as E6 by done.
  assert (slice X 6 (length p) = masked p m) as ->.
  { unfold slice. rewrite E6, <- (masked_length p m). apply take_app_length. }
  assert (drop (6 + length p) X = rest) as ->.
  { rewrite <- drop_drop, E6, <- (masked_length p m). apply drop_app_length. }
  by rewrite umask_masked.
Qed.

Lemma store_front buf b : (length b <= length buf)%nat -> store buf 0 b = Ok (b ++ drop (length b) buf).
Proof. intros H. unfold store. change (0 + length b)%nat with (length b). destruct (Nat.ltb_spec (length buf) (length b)); [lia|done]. Qed.

Lemma encode_small buf mask p rest :
  (length p <= 125)%nat -> length buf = 1024%nat ->
  exists sb, encode_packet buf mask (p ++ rest) (Z.of_nat (length p)) = Ok (sb, Z.of_nat (length p) + 2) /\
    length sb = 1024%nat /\ take (length p + 2) sb = server_frame p.
Proof.
  intros Hp Hb. unfold encode_packet. destruct (Z.ltb_spec (Z.of_nat (length p)) 126); [|lia].
  rewrite store_front by (cbn; lia). cbn [mbind res_bind].
  unfold load. rewrite length_app. destruct (Z.ltb_spec (Z.of_nat (length p)) 0); [lia|].
  destruct (Z.ltb_spec (Z.of_nat (length p + length rest)) (Z.of_nat (length p))); [lia|].
  cbn [orb mbind res_bind]. rewrite Nat2Z.id, take_app_length. unfold store.
  assert (Z.land (Z.of_nat (length p)) 127 = Z.of_nat (length p)) as ->.
  { change 127 with (Z.ones 7). rewrite Z.land_ones by lia. apply Z.mod_small. lia. }
  set (X := [head_byte; Z.of_nat (length p)] ++ drop (length [head_byte; Z.of_nat (length p)]) buf).
  assert (length X = 1024%nat) as HX by (unfold X; rewrite length_app, length_drop, Hb; done).
  rewrite HX. destruct (Nat.ltb_spec 1024 (2 + length p)); [lia|]. cbn [mbind res_bind].
  eexists. split; [rewrite i32_small by lia; done|]. split.
  - rewrite !length_app, length_take, length_drop, HX. lia.
  - change (take 2 X) with [head_byte; Z.of_nat (length p)].
    unfold server_frame. rewrite Nat.add_comm. cbn [take app plus]. by rewrite take_app_length.
Qed.

(** What the handshake and every frame leave: a zeroed receive buffer. *)
Definition idle (si : ws_item) : Prop :=
  recvbuffer si = replicate 1024 0 /\ length (sendbuffer si) = 1024%nat /\ status si = WS_DATATRANSFORM.

(** C19: A masked frame of at most 125 bytes from the client is answered by the unmasked
    text frame of RFC 6455 with the same payload, and the connection is ready for
    the next one. *)
Theorem websocket_echoes sha1 b64 si b0 mask p :
  idle si -> length mask = 4%nat -> (length p <= 125)%nat ->
  returns (recv_cb_data sha1 b64 si (client_frame b0 mask p)) (fun '(si', out) =>
    out = true /\ send_prefix (sendbuffer si') (slength si') = Ok (server_frame p) /\ idle si').
Proof.
  intros (Er & Hs & Est) Hm Hp. unfold recv_cb_data. cbn [status]. rewrite Est.
  unfold transform. cbn [recvbuffer sendbuffer]. rewrite Er. unfold overwrite.
  assert (length (client_frame b0 mask p) = (6 + length p)%nat) as El.
  { unfold client_frame. rewrite !length_app, masked_length, Hm. cbn. lia. }
  rewrite El, drop_replicate, decode_client_frame by done. cbn [mbind res_bind].
  assert (drop 6 ([b0; 128 + Z.of_nat (length p)] ++ mask ++ p ++ replicate (1024 - (6 + length p)) 0)
          = p ++ replicate (1024 - (6 + length p)) 0) as ->.
  { destruct mask as [|m0 [|m1 [|m2 [|m3 [|]]]]]; try done. }
  destruct (c_string_zeros p (1024 - (6 + length p)) ltac:(lia)) as [s ->]. cbn [mbind res_bind].
  destruct (encode_small (sendbuffer si) mask p (replicate (1024 - (6 + length p)) 0) Hp Hs)
    as (sb & -> & Hl & Ht).
  cbn [mbind res_bind]. apply returns_Ok. cbn. split; [done|]. split; [|by split_and!].
  unfold send_prefix. rewrite Hl. destruct (Z.leb_spec 0 (Z.of_nat (length p) + 2)); [|lia].
  destruct (Z.leb_spec (Z.of_nat (length p) + 2) (Z.of_nat 1024)); [|lia]. cbn [andb].
  assert (Z.to_nat (Z.of_nat (length p) + 2) = (length p + 2)%nat) as -> by lia. by rewrite Ht.
Qed.

(** Longer frames: the marker 126 or 127 of the extended length is taken for the
    length itself, because the mask bit is compared with it, and the extended
    length for the mask. *)
Theorem extended_length_ignored stream b1 :
  stream !! 1%nat = Some b1 -> 128 <= b1 < 256 -> (133 <= length stream)%nat ->
  exists s', decode_packet stream = Ok (s', 6%nat, b1 - 128, slice stream 2 4).
Proof.
  intros H1 Hb Hl. unfold decode_packet, byte_at. cbn [Z.ltb Z.compare]. change (Z.to_nat 1) with 1%nat.
  rewrite H1. cbn [mbind res_bind]. replace b1 with (128 + (b1 - 128)) by lia.
  destruct (hdr_small (b1 - 128) ltac:(lia)) as [-> ->]. change (Z.land 1 127 =? 126) with false.
  change (Z.land 1 127 =? 127) with false. cbv beta iota zeta.
  destruct (Z.ltb_spec (Z.of_nat (length stream)) (Z.of_nat 6 + (b1 - 128))); [lia|].
  eexists. repeat f_equal; lia.
Qed.

(** ** The handshake *)

Definition crlf (l : list Z) : list Z := l ++ [CR; LF].

(** A header line: no NUL, no CR, not empty, shorter than linebuf. *)
Definition header_line (l : list Z) : Prop :=
  no_zero l /\ (CR ∉ l) /\ l <> [] /\ (length l < 256)%nat.

Lemma byte_at_app pre b post : byte_at (pre ++ b :: post) (Z.of_nat (length pre)) = Ok b.
Proof.
  unfold byte_at. destruct (Z.ltb_spec (Z.of_nat (length pre)) 0); [lia|].
  by rewrite Nat2Z.id, list_lookup_middle.
Qed.

Lemma byte_at_next pre b b' post : byte_at (pre ++ b :: b' :: post) (Z.of_nat (length pre) + 1) = Ok b'.
Proof.
  pose proof (byte_at_app (pre ++ [b]) b' post) as H. rewrite <- app_assoc in H. cbn in H.
  rewrite length_app in H. cbn in H. by replace (Z.of_nat (length pre) + 1) with (Z.of_nat (length pre + 1)) by lia.
Qed.

Lemma readline_loop_exact line : forall pre post len fuel room,
  CR ∉ line -> (length line <= room)%nat -> (length line < fuel)%nat ->
  Z.of_nat (length pre + length line) < len ->
  readline_loop (pre ++ line ++ CR :: LF :: post) len fuel (Z.of_nat (length pre)) room =
    Ok (Z.of_nat (length pre + length line) + 2, line).
Proof.
  induction line as [|b line IH]; intros pre post len [|fuel] room Hcr Hroom Hfuel Hlen; cbn [length] in *;
    try lia; cbn [readline_loop app].
  - destruct (Z.leb_spec len (Z.of_nat (length pre))); [lia|].
    rewrite byte_at_app. cbn [mbind res_bind]. rewrite Z.eqb_refl, byte_at_next. cbn [mbind res_bind].
    rewrite Z.eqb_refl. cbn [andb]. do 2 f_equal. lia.
  - destruct (Z.leb_spec len (Z.of_nat (length pre))); [lia|].
    rewrite byte_at_app. cbn [mbind res_bind].
    assert ((b =? CR) = false) as -> by (apply Z.eqb_neq; set_solver). cbn [andb mbind res_bind].
    destruct room as [|room]; [lia|].
    pose proof (IH (pre ++ [b]) post len fuel room) as IH'.
    rewrite <- app_assoc, length_app in IH'. cbn [length app] in IH'.
    replace (Z.of_nat (length pre) + 1) with (Z.of_nat (length pre + 1)) by lia.
    rewrite IH' by (set_solver || lia). cbn [mbind res_bind]. do 2 f_equal. lia.
Qed.

Lemma readline_exact pre line post rest :
  no_zero (pre ++ crlf line ++ post) -> CR ∉ line -> (length line < 256)%nat ->
  readline (pre ++ crlf line ++ post ++ 0 :: rest) (Z.of_nat (length pre)) 256 =
    Ok (Z.of_nat (length (pre ++ crlf line)), line).
Proof.
  intros Hz Hcr Hl. unfold readline.
  replace (pre ++ crlf line ++ post ++ 0 :: rest) with ((pre ++ crlf line ++ post) ++ 0 :: rest)
    by (by rewrite <- !app_assoc).
  rewrite c_string_exact by done. cbn [mbind res_bind].
  unfold crlf. rewrite <- !app_assoc. cbn [app].
  rewrite readline_loop_exact; [|done|lia|rewrite !length_app; cbn; lia|rewrite !length_app; cbn; lia].
  do 2 f_equal. rewrite !length_app. cbn. lia.
Qed.

Definition headers (ls : list (list Z)) : list Z := mjoin (crlf <$> ls).

Section Handshake.
Context (sha1 : list Z -> list Z) (bio_base64 : list Z -> list Z).

Lemma handshark_loop_exact ls : forall fuel pre kline post rest,
  Forall (fun l => header_line l /\ contains KEY_HEADER l = false) ls ->
  header_line kline -> contains KEY_HEADER kline = true ->
  no_zero (pre ++ headers ls ++ crlf kline ++ post) -> (length ls < fuel)%nat ->
  handshark_loop sha1 bio_base64 fuel (pre ++ headers ls ++ crlf kline ++ post ++ 0 :: rest)
    (Z.of_nat (length pre)) = (head ← answer_key sha1 bio_base64 kline; Ok (Some head)).
Proof.
  induction ls as [|l ls IH]; intros [|fuel] pre kline post rest Hls Hk Hkey Hz Hf; cbn [length] in *; try lia;
    cbn [handshark_loop].
  - destruct Hk as (_ & Hcr & _ & Hlen).
    change (headers [] ++ crlf kline ++ post) with (crlf kline ++ post) in Hz.
    change (headers [] ++ crlf kline ++ post ++ 0 :: rest) with (crlf kline ++ post ++ 0 :: rest).
    rewrite readline_exact by done. cbn [mbind res_bind].
    destruct (Nat.leb_spec 256 (length kline)); [lia|]. by rewrite Hkey.
  - apply Forall_cons in Hls as [[(_ & Hcr & _ & Hlen) Hno] Hls].
    change (headers (l :: ls)) with (crlf l ++ headers ls) in *. rewrite <- app_assoc in Hz |- *.
    replace (headers ls ++ crlf kline ++ post ++ 0 :: rest)
      with ((headers ls ++ crlf kline ++ post) ++ 0 :: rest) by (by rewrite <- !app_assoc).
    rewrite readline_exact by done. cbn [mbind res_bind].
    destruct (Nat.leb_spec 256 (length l)); [lia|]. rewrite Hno.
    (* the next line does not start with CR *)
    assert (exists b tl, b <> CR /\ headers ls ++ crlf kline ++ post = b :: tl) as (b & tl & Hb & E).
    { assert (forall k, header_line k -> exists b tl, b <> CR /\ k = b :: tl) as Hhd.
      { intros [|b tl] (_ & Hc & ? & _); [done|]. exists b, tl. split; [set_solver|done]. }
      destruct ls as [|l' ls].
      - destruct (Hhd kline Hk) as (b & tl & ? & ->). cbn. eauto.
      - apply Forall_cons in Hls as [[Hl' _] _]. destruct (Hhd l' Hl') as (b & tl & ? & ->). cbn. eauto. }
    pose proof (IH fuel (pre ++ crlf l) kline post rest Hls Hk Hkey) as IH'.
    rewrite <- !app_assoc in IH'.
    replace (headers ls ++ crlf kline ++ post ++ 0 :: rest)
      with ((headers ls ++ crlf kline ++ post) ++ 0 :: rest) in IH' by (by rewrite <- !app_assoc).
    assert (byte_at (pre ++ crlf l ++ (headers ls ++ crlf kline ++ post) ++ 0 :: rest)
              (Z.of_nat (length (pre ++ crlf l))) = Ok b) as ->.
    { rewrite E, app_assoc. cbn [app]. apply byte_at_app. }
    cbn [mbind res_bind]. rewrite (proj2 (Z.eqb_neq _ _) Hb). cbn [mbind res_bind negb orb].
    destruct (Z.eqb_spec (Z.of_nat (length (pre ++ crlf l))) (-1)); [lia|]. cbn [negb andb].
    apply IH'; [|lia]. exact Hz.
Qed.

(** The digest as RFC 6455 wants it, and what the server sends for it. *)
Definition accept_of (key : list Z) : list Z := bio_base64 (sha1 (key ++ GUID)).

Lemma key_header_contains key : contains KEY_HEADER (bytes_of_string "Sec-WebSocket-Key: " ++ key) = true.
Proof. done. Qed.

(** C31: A request whose header lines each fit linebuf, one of which is the key, is answered
    with the accept value of RFC 6455: the base64 of the SHA1 of the key and the GUID.  The
    connection then expects frames.  Four things are taken for granted that the code does not
    see to: that behind the request there is a NUL in recvbuffer (no code stores one: it must
    be in the memory malloc returned, or left of the clearing after an earlier message); that
    the key line with the GUID of 36 bytes still fits the 256 bytes of linebuf; that the
    digest, of 20 bytes, has no zero byte, since it is measured with strlen; and that its
    base64 text, with the line feed that is cut off, fits the 32 bytes kept for it. *)
Theorem handshark_accepts si ls key post rest :
  Forall (fun l => header_line l /\ contains KEY_HEADER l = false) ls ->
  header_line (bytes_of_string "Sec-WebSocket-Key: " ++ key) ->
  (length key + 55 < 256)%nat ->
  recvbuffer si = headers ls ++ crlf (bytes_of_string "Sec-WebSocket-Key: " ++ key) ++ post ++ 0 :: rest ->
  no_zero (headers ls ++ crlf (bytes_of_string "Sec-WebSocket-Key: " ++ key) ++ post) ->
  length (sha1 (key ++ GUID)) = 20%nat -> no_zero (sha1 (key ++ GUID)) ->
  (exists a, accept_of key = a ++ [LF] /\ no_zero a /\ (length a < 32)%nat) ->
  length (sendbuffer si) = 1024%nat -> length (recvbuffer si) = 1024%nat ->
  returns (handshark sha1 bio_base64 si) (fun '(si', out) =>
    out = true /\ idle si' /\
    exists a, accept_of key = a ++ [LF] /\ send_prefix (sendbuffer si') (slength si') = Ok (response a)).
Proof.
  intros Hls Hk Hkl Er Hz Hd Hdz (a & Ha & Haz & Hal) Hs Hr. unfold handshark. rewrite Hr.
  assert (length ls < 1024)%nat as Hfuel.
  { rewrite Er in Hr. rewrite !length_app in Hr. enough (length ls <= length (headers ls))%nat by (cbn in Hr; lia).
    clear. induction ls as [|l ls IH]; [done|]. change (headers (l :: ls)) with (crlf l ++ headers ls).
    rewrite length_app. unfold crlf. rewrite length_app. cbn. lia. }
  rewrite Er. pose proof (handshark_loop_exact ls 1024 [] _ post rest Hls Hk (key_header_contains key) Hz Hfuel) as E.
  cbn [app length] in E. change (Z.of_nat 0) with 0 in E. rewrite E.
  assert (answer_key sha1 bio_base64 (bytes_of_string "Sec-WebSocket-Key: " ++ key) = Ok (response a)) as ->.
  { unfold answer_key. rewrite length_app. change (length (bytes_of_string "Sec-WebSocket-Key: ")) with 19%nat.
    change (length GUID) with 36%nat. destruct (Nat.leb_spec 256 (19 + length key + 36)); [lia|].
    rewrite <- app_assoc. change (drop 19 (bytes_of_string "Sec-WebSocket-Key: " ++ key ++ GUID)) with (key ++ GUID).
    rewrite take_ge by lia. rewrite c_string_exact by done. cbn [mbind res_bind].
    unfold base64_encode. unfold accept_of in Ha. rewrite Ha, length_app. cbn [length].
    destruct (Nat.eqb_spec (length a + 1) 0); [lia|]. destruct (Nat.ltb_spec 32 (length a + 1)); [lia|].
    cbn [orb]. replace (length a + 1 - 1)%nat with (length a) by lia.
    rewrite take_app_length, c_string_exact by done. done. }
  cbn [mbind res_bind].
  assert (length (response a) <= 1024)%nat as Hlen.
  { unfold response. rewrite !length_app. cbn. lia. }
  rewrite store_front by lia. cbn [mbind res_bind]. apply returns_Ok. split; [done|].
  split; [split_and!; [done| |done]|].
  - cbn [sendbuffer]. rewrite length_app, length_drop. lia.
  - exists a. split; [done|]. cbn [sendbuffer slength]. apply send_prefix_app.
Qed.
End Handshake.

(** ** A connection to evaluate on *)

(** A digest without a zero byte, and 28 characters and a newline for it. *)
Definition demo_sha1 (_ : list Z) : list Z := replicate 20 7.
Definition demo_base64 (_ : list Z) : list Z := replicate 28 65 ++ [LF].

Definition demo_idle : ws_item := mkWsItem (replicate 1024 0) (replicate 1024 0) 0 0 WS_DATATRANSFORM.

Lemma demo_idle_idle : idle demo_idle.
Proof. by split. Qed.

(** The frame of RFC 6455, section 5.7: a masked Hello. *)
Lemma websocket_echoes_witness :
  client_frame 129 [55; 250; 33; 61] (bytes_of_string "Hello") =
    [129; 133; 55; 250; 33; 61; 127; 159; 77; 81; 88] /\
  returns (recv_cb_data demo_sha1 demo_base64 demo_idle
      (client_frame 129 [55; 250; 33; 61] (bytes_of_string "Hello"))) (fun '(si', out) =>
    out = true /\
    send_prefix (sendbuffer si') (slength si') = Ok (server_frame (bytes_of_string "Hello")) /\ idle si').
Proof.
  split; [vm_compute; reflexivity|].
  apply (websocket_echoes demo_sha1 demo_base64 demo_idle 129 [55; 250; 33; 61] (bytes_of_string "Hello")
           demo_idle_idle); [reflexivity|by_decide].
Defined.

(** 254 is the mask bit and 126: two bytes of length should follow. *)
Lemma extended_length_ignored_witness :
  let stream := [129; 254; 1; 0] ++ replicate 1020 65 in
  stream !! 1%nat = Some 254 /\
  exists s', decode_packet stream = Ok (s', 6%nat, 126, [1; 0; 65; 65]).
Proof.
  intros stream. split; [reflexivity|].
  apply (extended_length_ignored stream 254); [reflexivity|by_decide|by_decide].
Defined.

Definition demo_lines : list (list Z) := [bytes_of_string "GET / HTTP/1.1"; bytes_of_string "Upgrade: websocket"].
Definition demo_key : list Z := bytes_of_string "dGhlIHNhbXBsZSBub25jZQ==".
Definition key_line : list Z := bytes_of_string "Sec-WebSocket-Key: " ++ demo_key.
Definition request : list Z := headers demo_lines ++ crlf key_line ++ [CR; LF].
Definition demo_request : ws_item :=
  mkWsItem (request ++ replicate (1024 - length request) 0) (replicate 1024 0) 0 0 WS_HANDSHARK.

#[local] Instance no_zero_dec l : Decision (no_zero l).
Proof. unfold no_zero. apply _. Defined.
#[local] Instance header_line_dec l : Decision (header_line l).
Proof. unfold header_line. apply _. Defined.

Lemma handshark_accepts_witness :
  Forall (fun l => header_line l /\ contains KEY_HEADER l = false) demo_lines /\
  returns (handshark demo_sha1 demo_base64 demo_request) (fun '(si', out) =>
    out = true /\ idle si' /\
    exists a, accept_of demo_sha1 demo_base64 demo_key = a ++ [LF] /\
      send_prefix (sendbuffer si') (slength si') = Ok (response a)).
Proof.
  assert (Forall (fun l => header_line l /\ contains KEY_HEADER l = false) demo_lines) as Hl by by_decide.
  split; [exact Hl|].
  apply (handshark_accepts demo_sha1 demo_base64 demo_request demo_lines demo_key [CR; LF]
           (replicate (1024 - length request - 1) 0) Hl); try by_decide.
  exists (replicate 28 65). split; [reflexivity|]. split; by_decide.
Defined.
