(* ===== verification/Reactor.v ===== *)
(** * The reactor of c10M/reactor.c

    An array of ntyevents indexed by descriptor, one callback per registered
    event.  The array comes from malloc, so an entry that was never set holds
    junk, [junk fd].  The kernel is the one of Epoll.v; a registration's
    [data.ptr] is the address of an entry, modelled by its index. *)

From S2P Require Import Prelude Epoll.

Definition BUFFER_LENGTH : Z := 1024.
Definition MAX_EPOLL_EVENTS : Z := 1024 * 1024.

Inductive ncallback : Set := Accept_cb | Recv_cb | Send_cb | Junk_cb.

Record ntyevent := mkEvent {
  fd : Z; events : Z; callback : ncallback; status : Z; buffer : list Z; length_ : Z; last_active : Z }.

#[export] Instance eta_event : Eta ntyevent := fun e =>
  mkEvent (fd e) (events e) (callback e) (status e) (buffer e) (length_ e) (last_active e).
#[export] Instance set_fd : Settable fd. Proof. derive_setter. Defined.
#[export] Instance set_events : Settable events. Proof. derive_setter. Defined.
#[export] Instance set_callback : Settable callback. Proof. derive_setter. Defined.
#[export] Instance set_status : Settable status. Proof. derive_setter. Defined.
#[export] Instance set_buffer : Settable buffer. Proof. derive_setter. Defined.
#[export] Instance set_length_ : Settable length_. Proof. derive_setter. Defined.
#[export] Instance set_last_active : Settable last_active. Proof. derive_setter. Defined.

(** The reactor, the kernel's interest list, and what was sent. *)
Record ntyreactor := mkReactor {
  array : gmap Z ntyevent; kernel : interests; output : list (Z * list Z) }.

Section Reactor.
Variable junk : Z -> ntyevent.

Definition in_array (i : Z) : bool := (0 <=? i) && (i <? MAX_EPOLL_EVENTS).

(** reactor->events + i: what was stored there, or junk. *)
Definition entry (r : ntyreactor) (i : Z) : res ntyevent :=
  if in_array i then Ok (default (junk i) (array r !! i)) else Err OutOfBounds.

Definition put (i : Z) (ev : ntyevent) (r : ntyreactor) : ntyreactor :=
  mkReactor (<[i := ev]> (array r)) (kernel r) (output r).

Definition nty_event_set (ev : ntyevent) (fd : Z) (cb : ncallback) (now : Z) : ntyevent :=
  ev <| Reactor.fd := fd |> <| callback := cb |> <| events := 0 |> <| last_active := now |>.

(** [i] is the address of the entry. *)
Definition nty_event_add (evs i : Z) (r : ntyreactor) : res (Z * ntyreactor) :=
  ev ← entry r i;
  let ev := ev <| events := evs |> in
  let op := if status ev =? 1 then EPOLL_CTL_MOD else EPOLL_CTL_ADD in
  let ev := if status ev =? 1 then ev else ev <| status := 1 |> in
  let '(ret, k) := epoll_ctl op (fd ev) evs i (kernel r) in
  Ok (if ret <? 0 then -1 else 0, mkReactor (<[i := ev]> (array r)) k (output r)).

Definition nty_event_del (i : Z) (r : ntyreactor) : res (Z * ntyreactor) :=
  ev ← entry r i;
  if negb (status ev =? 1) then Ok (-1, r)
  else
    Ok (0, mkReactor (<[i := ev <| status := 0 |>]> (array r))
             (epoll_ctl EPOLL_CTL_DEL (fd ev) 0 i (kernel r)).2 (output r)).

Definition close_fd (f : Z) (r : ntyreactor) : ntyreactor :=
  mkReactor (array r) (sys_close f (kernel r)) (output r).

(** [data] are the bytes recv returned, [] at the end of the stream, [None] on an
    error.  The NUL is stored behind them. *)
Definition recv_cb (f : Z) (data : option (list Z)) (now : Z) (r : ntyreactor) : res (Z * ntyreactor) :=
  ev ← entry r f;
  let ev := match data with Some d => ev <| buffer ::= fun b => overwrite b d |> | None => ev end in
  '(_, r) ← nty_event_del f (put f ev r);
  match data with
  | Some (b :: d) =>
      let len := Z.of_nat (length (b :: d)) in
      ev ← entry r f;
      if BUFFER_LENGTH <=? len then Err OutOfBounds
      else
        let ev := ev <| length_ := len |> <| buffer ::= fun buf => <[length (b :: d) := 0]> buf |> in
        '(_, r) ← nty_event_add EPOLLOUT f (put f (nty_event_set ev f Send_cb now) r);
        Ok (len, r)
  | Some [] => ev ← entry r f; Ok (0, close_fd (fd ev) r)
  | None => ev ← entry r f; Ok (-1, close_fd (fd ev) r)
  end.

(** [n] is what send returned for the first [length] bytes of the buffer. *)
Definition send_cb (f n now : Z) (r : ntyreactor) : res (Z * ntyreactor) :=
  ev ← entry r f;
  if (length_ ev <? 0) || (BUFFER_LENGTH <? length_ ev) then Err OutOfBounds
  else if 0 <? n then
    let r := mkReactor (array r) (kernel r) (output r ++ [(f, take (Z.to_nat n) (take (Z.to_nat (length_ ev)) (buffer ev)))]) in
    '(_, r) ← nty_event_del f r;
    ev ← entry r f;
    '(_, r) ← nty_event_add EPOLLIN f (put f (nty_event_set ev f Recv_cb now) r);
    Ok (n, r)
  else
    '(_, r) ← nty_event_del f (close_fd (fd ev) r);
    Ok (n, r).

(** [client] is what accept returned, [nonblock] whether fcntl succeeded. *)
Definition accept_cb (client : option Z) (nonblock : bool) (now : Z) (r : ntyreactor) : res (Z * ntyreactor) :=
  match client with
  | None => Ok (-1, r)
  | Some c =>
      if nonblock then
        ev ← entry r c;
        '(_, r) ← nty_event_add EPOLLIN c (put c (nty_event_set ev c Recv_cb now) r);
        Ok (0, r)
      else Ok (0, r)
  end.

Definition ntyreactor_init : ntyreactor := mkReactor ∅ ∅ [].

Definition ntyreactor_addlistener (sockfd now : Z) (r : ntyreactor) : res ntyreactor :=
  ev ← entry r sockfd;
  '(_, r) ← nty_event_add EPOLLIN sockfd (put sockfd (nty_event_set ev sockfd Accept_cb now) r);
  Ok r.

(** What the kernel answers to a callback. *)
Record reply := mkReply { accepted : option Z; nonblocking : bool; data : option (list Z); sent_n : Z; clock : Z }.

Definition run_callback (i : Z) (a : reply) (r : ntyreactor) : res ntyreactor :=
  ev ← entry r i;
  '(_, r) ← match callback ev with
            | Accept_cb => accept_cb (accepted a) (nonblocking a) (clock a) r
            | Recv_cb => recv_cb (fd ev) (data a) (clock a) r
            | Send_cb => send_cb (fd ev) (sent_n a) (clock a) r
            | Junk_cb => Err Uninitialised
            end;
  Ok r.

(** The body of ntyreactor_run for one reported event. *)
Definition run_event (evs i : Z) (a a' : reply) (r : ntyreactor) : res ntyreactor :=
  ev ← entry r i;
  r ← (if negb (Z.land evs EPOLLIN =? 0) && negb (Z.land (events ev) EPOLLIN =? 0)
       then run_callback i a r else Ok r);
  ev ← entry r i;
  if negb (Z.land evs EPOLLOUT =? 0) && negb (Z.land (events ev) EPOLLOUT =? 0)
  then run_callback i a' r else Ok r.

(** ** The array and the kernel

    A registered entry has status 1 and waits for the event its callback handles.  The
    converse fails for one kind of entry only: one whose junk status happened to be 1, which
    nty_event_add modifies instead of adding, so that it is never registered. *)

Definition wanted (c : ncallback) : Z := match c with Send_cb => EPOLLOUT | _ => EPOLLIN end.

Record entry_ok (i : Z) (ev : ntyevent) (reg : option (Z * Z)) : Prop := {
  eo_buffer : Z.of_nat (length (buffer ev)) = BUFFER_LENGTH;
  eo_reg : forall x, reg = Some x -> status ev = 1 /\ x = (wanted (callback ev), i) /\ fd ev = i /\
      events ev = wanted (callback ev) /\ callback ev <> Junk_cb /\
      (callback ev = Send_cb -> 0 <= length_ ev < BUFFER_LENGTH);
  eo_unreg : reg = None -> status ev = 1 -> status (junk i) = 1 }.

Definition reactor_inv (r : ntyreactor) : Prop :=
  (forall i, in_array i = true -> entry_ok i (default (junk i) (array r !! i)) (kernel r !! i)) /\
  (forall i, in_array i = false -> kernel r !! i = None).

(** An entry holds a buffer of its size, with any contents. *)
Definition sized : Prop := forall i, Z.of_nat (length (buffer (junk i))) = BUFFER_LENGTH.

Lemma init_inv : sized -> reactor_inv ntyreactor_init.
Proof.
  intros Hz. split; [|done]. intros i _.
  unfold ntyreactor_init. cbn [array kernel]. rewrite !lookup_empty. cbn [default from_option].
  constructor; [apply Hz|done|done].
Qed.

Lemma entry_in r i : in_array i = true -> entry r i = Ok (default (junk i) (array r !! i)).
Proof. unfold entry. by intros ->. Qed.

(** Replace one entry and its registration. *)
Lemma reactor_inv_put r i ev k out :
  reactor_inv r -> in_array i = true -> entry_ok i ev (k !! i) ->
  (forall j, j <> i -> k !! j = kernel r !! j) ->
  reactor_inv (mkReactor (<[i := ev]> (array r)) k out).
Proof.
  intros [H1 H2] Hi He Hk. split; cbn; intros j Hj.
  - destruct (decide (j = i)) as [->|Hne].
    + by rewrite lookup_insert_eq.
    + rewrite lookup_insert_ne, Hk by done. by apply H1.
  - rewrite Hk; [by apply H2|]. congruence.
Qed.

(** Registering the entry [i], whose status and registration agree. *)
Lemma add_inv evs i ev r :
  reactor_inv r -> in_array i = true -> Z.of_nat (length (buffer ev)) = BUFFER_LENGTH ->
  (status ev = 1 <-> is_Some (kernel r !! i)) -> fd ev = i ->
  evs = wanted (callback ev) -> callback ev <> Junk_cb ->
  (callback ev = Send_cb -> 0 <= length_ ev < BUFFER_LENGTH) ->
  exists r', nty_event_add evs i (put i ev r) = Ok (0, r') /\ reactor_inv r' /\ output r' = output r /\
    kernel r' !! i = Some (evs, i) /\
    array r' !! i = Some (ev <| events := evs |> <| status := 1 |>).
Proof.
  intros Hi Hin Hb Hs Hf Hw Hj Hl. unfold nty_event_add, put. rewrite entry_in by done. cbn [array].
  rewrite lookup_insert_eq. cbn [default from_option id mbind res_bind kernel output].
  assert (Hok : forall e, e = ev <| events := evs |> <| status := 1 |> ->
    exists r', Ok (0, mkReactor (<[i := e]> (<[i := ev]> (array r))) (<[i := (evs, i)]> (kernel r)) (output r)) = Ok (0, r') /\
      reactor_inv r' /\ output r' = output r /\ kernel r' !! i = Some (evs, i) /\
      array r' !! i = Some (ev <| events := evs |> <| status := 1 |>)).
  { intros e ->. eexists. split; [done|]. split_and!; [|done|cbn; by rewrite lookup_insert_eq|].
    - rewrite insert_insert_eq. apply reactor_inv_put; [done..| |].
      + rewrite lookup_insert_eq. constructor; cbn; [done| |done]. intros x [= <-]. subst evs. done.
      + intros j Hne. by rewrite lookup_insert_ne.
    - cbn. by rewrite lookup_insert_eq. }
  destruct (Z.eqb_spec (status ev) 1) as [E|E]; cbn [status events fd upd set_events set_status callback].
  - cbn. rewrite E. cbn. destruct (proj1 Hs E) as [x Hx]. rewrite Hf, Hx. cbn.
    apply Hok. by destruct ev; cbn in *; subst.
  - cbn. rewrite (proj2 (Z.eqb_neq _ _) E). cbn. rewrite Hf.
    destruct (kernel r !! i) eqn:Hk; [by destruct E; apply Hs; eauto|]. cbn. by apply Hok.
Qed.

(** An entry whose junk status was 1 stays unregistered: there is nothing to modify. *)
Lemma add_stuck evs i ev r :
  reactor_inv r -> in_array i = true -> Z.of_nat (length (buffer ev)) = BUFFER_LENGTH ->
  status ev = 1 -> kernel r !! i = None -> fd ev = i -> status (junk i) = 1 ->
  exists r', nty_event_add evs i (put i ev r) = Ok (-1, r') /\ reactor_inv r' /\ output r' = output r /\
    kernel r' !! i = None.
Proof.
  intros Hi Hin Hb Hs Hk Hf Hj. unfold nty_event_add, put. rewrite entry_in by done. cbn [array].
  rewrite lookup_insert_eq. cbn [default from_option id mbind res_bind kernel output].
  cbn [status upd set_events]. rewrite Hs, Z.eqb_refl. cbn. rewrite Hf, Hk. cbn.
  eexists. split; [done|]. split_and!; [|done|done].
  rewrite insert_insert_eq. apply reactor_inv_put; [done..| |done].
  rewrite Hk. constructor; cbn; done.
Qed.

(** Setting up an entry that is not registered. *)
Lemma enter_inv evs i cb now r :
  reactor_inv r -> in_array i = true -> kernel r !! i = None -> evs = wanted cb -> cb = Accept_cb \/ cb = Recv_cb ->
  exists n r', nty_event_add evs i (put i (nty_event_set (default (junk i) (array r !! i)) i cb now) r) = Ok (n, r') /\
    reactor_inv r' /\ output r' = output r.
Proof.
  intros Hi Hin Hk Hw Hcb. destruct (proj1 Hi i Hin) as [Hb _ Hu].
  set (e := default (junk i) (array r !! i)) in *. set (ev := nty_event_set e i cb now).
  destruct (decide (status e = 1)) as [Hs|Hs].
  - destruct (add_stuck evs i ev r Hi Hin) as (r' & -> & ? & ? & _); try done; [by apply Hu|]. by eexists _, _.
  - destruct (add_inv evs i ev r Hi Hin) as (r' & -> & ? & ? & _); try done.
    + subst ev. cbn. rewrite Hk. split; [done|by intros [? ?]].
    + subst ev. cbn. by destruct Hcb as [->| ->].
    + subst ev. cbn. by destruct Hcb as [->| ->].
    + by eexists _, _.
Qed.

(** Unregistering it. *)
Lemma del_inv i ev r :
  reactor_inv r -> in_array i = true -> Z.of_nat (length (buffer ev)) = BUFFER_LENGTH ->
  status ev = 1 -> fd ev = i -> (forall k, k = kernel r !! i -> k = None \/ is_Some k) ->
  exists r', nty_event_del i (put i ev r) = Ok (0, r') /\ reactor_inv r' /\ output r' = output r /\
    array r' !! i = Some (ev <| status := 0 |>) /\ kernel r' !! i = None.
Proof.
  intros Hi Hin Hb Hs Hf _. unfold nty_event_del, put. rewrite entry_in by done. cbn [array].
  rewrite lookup_insert_eq. cbn [default from_option id mbind res_bind kernel output].
  rewrite Hs, Z.eqb_refl, Hf. cbn [negb]. eexists. split; [done|].
  assert ((epoll_ctl EPOLL_CTL_DEL i 0 i (kernel r)).2 = delete i (kernel r)) as ->.
  { unfold epoll_ctl. destruct (kernel r !! i) eqn:E; cbn; [done|]. by rewrite delete_id. }
  rewrite insert_insert_eq. split_and!; [|done|cbn; by rewrite lookup_insert_eq|cbn; by rewrite lookup_delete_eq].
  apply reactor_inv_put; [done..| |].
  - rewrite lookup_delete_eq. by constructor; cbn.
  - intros j Hne. by rewrite lookup_delete_ne.
Qed.

Lemma put_same r i ev : array r !! i = Some ev -> put i ev r = r.
Proof. intros H. unfold put. rewrite insert_id by done. by destruct r. Qed.

Lemma close_inv f r : reactor_inv r -> kernel r !! f = None -> close_fd f r = r.
Proof. intros _ H. unfold close_fd, sys_close. rewrite delete_id by done. by destruct r. Qed.

(** An entry the kernel can report. *)
Lemma registered r i x : reactor_inv r -> kernel r !! i = Some x ->
  in_array i = true /\ exists ev, entry r i = Ok ev /\ status ev = 1 /\ fd ev = i /\
    Z.of_nat (length (buffer ev)) = BUFFER_LENGTH /\ x = (wanted (callback ev), i) /\
    events ev = wanted (callback ev) /\ callback ev <> Junk_cb /\
    (callback ev = Send_cb -> 0 <= length_ ev < BUFFER_LENGTH).
Proof.
  intros [H1 H2] Hk. destruct (in_array i) eqn:Hin; [|rewrite H2 in Hk; done].
  split; [done|]. eexists. split; [by apply entry_in|]. destruct (H1 i Hin) as [Hb Hr Hu].
  destruct (Hr _ Hk) as (? & ? & ? & ? & ? & ?). by split_and!.
Qed.

Definition reply_ok (r : ntyreactor) (a : reply) : Prop :=
  (forall d, data a = Some d -> Z.of_nat (length d) < BUFFER_LENGTH) /\
  (forall c, accepted a = Some c -> in_array c = true /\ kernel r !! c = None).

Lemma recv_cb_inv r i ev d now :
  reactor_inv r -> in_array i = true -> entry r i = Ok ev -> status ev = 1 -> fd ev = i ->
  Z.of_nat (length (buffer ev)) = BUFFER_LENGTH ->
  match d with Some l => Z.of_nat (length l) < BUFFER_LENGTH | None => True end ->
  exists n r', recv_cb i d now r = Ok (n, r') /\ reactor_inv r' /\ output r' = output r /\
    match d with
    | Some (b :: l) => kernel r' !! i = Some (EPOLLOUT, i) /\ n = Z.of_nat (length (b :: l)) /\
        exists e, entry r' i = Ok e /\ callback e = Send_cb /\ length_ e = n /\ fd e = i /\
          take (Z.to_nat n) (buffer e) = b :: l
    | _ => kernel r' !! i = None
    end.
Proof.
  intros Hi Hin He Hs Hf Hb Hd. unfold recv_cb. rewrite He. cbn [mbind res_bind].
  set (ev1 := match d with Some d => _ | None => ev end).
  assert (status ev1 = 1 /\ fd ev1 = i /\ Z.of_nat (length (buffer ev1)) = BUFFER_LENGTH /\
    match d with Some l => take (length l) (buffer ev1) = l | None => True end) as (Hs1 & Hf1 & Hb1 & Ht1).
  { subst ev1. destruct d as [l|]; [|done]. cbn. split_and!; [done..| |].
    - rewrite overwrite_length; [done|]. lia.
    - unfold overwrite. apply take_app_length. }
  clearbody ev1.
  destruct (del_inv i ev1 r Hi Hin Hb1 Hs1 Hf1) as (r1 & -> & Hi1 & Ho1 & Ha1 & Hk1).
  { intros k ->. destruct (kernel r !! i); [right; eauto|by left]. }
  cbn [mbind res_bind]. rewrite entry_in, Ha1 by done. cbn [default from_option id mbind res_bind].
  destruct d as [[|b l]|].
  - cbn [fd upd set_status]. rewrite Hf1, (close_inv i r1 Hi1 Hk1). by eexists _, _.
  - destruct (Z.leb_spec BUFFER_LENGTH (Z.of_nat (length (b :: l)))) as [Hge|Hlt]; [lia|].
    match goal with |- context [put i ?e r1] => set (ev2 := e) end.
    assert (status ev2 = 0 /\ fd ev2 = i /\ callback ev2 = Send_cb /\
      Z.of_nat (length (buffer ev2)) = BUFFER_LENGTH /\ length_ ev2 = Z.of_nat (length (b :: l)) /\
      take (length (b :: l)) (buffer ev2) = b :: l) as (Hs2 & Hf2 & Hc2 & Hb2 & Hl2 & Ht2).
    { subst ev2. cbn. split_and!; try done.
      - by rewrite length_insert.
      - change (take (length (b :: l)) (<[length (b :: l) := 0]> (buffer ev1)) = b :: l).
        rewrite take_insert_ge by lia. done. }
    clearbody ev2.
    destruct (add_inv EPOLLOUT i ev2 r1 Hi1 Hin Hb2) as (r2 & -> & Hi2 & Ho2 & Hk2 & Ha2).
    { rewrite Hs2, Hk1. split; [done|by intros [? ?]]. }
    { done. } { by rewrite Hc2. } { by rewrite Hc2. } { intros _. rewrite Hl2. lia. }
    cbn [mbind res_bind]. eexists _, _. split; [done|]. split_and!; [done|congruence|done|done|].
    eexists. rewrite entry_in, Ha2 by done. split; [done|]. cbn [id callback length_ fd buffer upd set_events set_status].
    rewrite Nat2Z.id. by split_and!.
  - cbn [fd upd set_status]. rewrite Hf1, (close_inv i r1 Hi1 Hk1). by eexists _, _.
Qed.

Lemma output_inv r out : reactor_inv r -> reactor_inv (mkReactor (array r) (kernel r) out).
Proof. by intros [? ?]. Qed.

Lemma send_cb_inv r i ev n now :
  reactor_inv r -> in_array i = true -> entry r i = Ok ev -> status ev = 1 -> fd ev = i ->
  Z.of_nat (length (buffer ev)) = BUFFER_LENGTH -> 0 <= length_ ev < BUFFER_LENGTH ->
  exists r', send_cb i n now r = Ok (n, r') /\ reactor_inv r' /\
    if 0 <? n
    then output r' = output r ++ [(i, take (Z.to_nat n) (take (Z.to_nat (length_ ev)) (buffer ev)))] /\
         kernel r' !! i = Some (EPOLLIN, i)
    else output r' = output r /\ kernel r' !! i = None.
Proof.
  intros Hi Hin He Hs Hf Hb Hl. unfold send_cb. rewrite He. cbn [mbind res_bind].
  destruct (Z.ltb_spec (length_ ev) 0); [lia|]. destruct (Z.ltb_spec BUFFER_LENGTH (length_ ev)); [lia|].
  cbn [orb]. assert (array r !! i = Some ev \/ array r !! i = None /\ junk i = ev) as Hev.
  { rewrite entry_in in He by done. destruct (array r !! i); [left|right]; by simplify_eq/=. }
  destruct (0 <? n).
  - set (r0 := mkReactor (array r) (kernel r) _). assert (reactor_inv r0) as Hi0 by by apply output_inv.
    assert (nty_event_del i r0 = nty_event_del i (put i ev r0)) as ->.
    { unfold nty_event_del, put. rewrite !entry_in by done. cbn [array]. rewrite lookup_insert_eq.
      cbn [default from_option id mbind res_bind kernel output]. rewrite insert_insert_eq.
      destruct Hev as [E|[E <-]]; cbn; rewrite E; cbn; rewrite Hs; done. }
    destruct (del_inv i ev r0 Hi0 Hin Hb Hs Hf) as (r1 & -> & Hi1 & Ho1 & Ha1 & Hk1).
    { intros k ->. destruct (kernel r0 !! i); [right; eauto|by left]. }
    cbn [mbind res_bind]. rewrite entry_in, Ha1 by done. cbn [default from_option id mbind res_bind].
    set (ev2 := nty_event_set _ i Recv_cb now).
    destruct (add_inv EPOLLIN i ev2 r1 Hi1 Hin) as (r2 & -> & Hi2 & Ho2 & Hk2 & _); try done.
    { cbn. rewrite Hk1. split; [done|by intros [? ?]]. }
    cbn [mbind res_bind]. eexists. split; [done|]. split_and!; [done|by rewrite Ho2, Ho1|done].
  - rewrite Hf.
    assert (nty_event_del i (close_fd i r) = nty_event_del i (put i ev (close_fd i r))) as ->.
    { unfold nty_event_del, put, close_fd. rewrite !entry_in by done. cbn [array]. rewrite lookup_insert_eq.
      cbn [default from_option id mbind res_bind kernel output]. rewrite insert_insert_eq.
      destruct Hev as [E|[E <-]]; rewrite E; cbn; rewrite Hs; done. }
    (* closing first leaves the entry registered without a registration, until the del *)
    unfold nty_event_del, put, close_fd. rewrite entry_in by done. cbn [array].
    rewrite lookup_insert_eq. cbn [default from_option id mbind res_bind kernel output].
    rewrite Hs, Z.eqb_refl, Hf. cbn [negb mbind res_bind].
    unfold epoll_ctl, sys_close. rewrite lookup_delete_eq. cbn [snd].
    eexists. split; [done|]. split_and!; [|done|cbn; by rewrite lookup_delete_eq].
    rewrite insert_insert_eq. apply reactor_inv_put; [done..| |].
    + rewrite lookup_delete_eq. by constructor; cbn.
    + intros j Hne. by rewrite lookup_delete_ne.
Qed.

Lemma accept_cb_inv r c nb now :
  reactor_inv r -> (forall x, c = Some x -> in_array x = true /\ kernel r !! x = None) ->
  exists n r', accept_cb c nb now r = Ok (n, r') /\ reactor_inv r' /\ output r' = output r.
Proof.
  intros Hi Hc. unfold accept_cb. destruct c as [x|]; [|by eexists _, _].
  destruct nb; [|by eexists _, _]. destruct (Hc x eq_refl) as [Hin Hk].
  rewrite entry_in by done. cbn [mbind res_bind].
  destruct (enter_inv EPOLLIN x Recv_cb now r Hi Hin Hk eq_refl) as (n & r' & -> & Hi' & Ho); [by right|].
  cbn [mbind res_bind]. by eexists _, _.
Qed.

(** The body of the loop keeps the invariant. *)
Lemma run_event_inv r i m evs a a' :
  reactor_inv r -> kernel r !! i = Some (m, i) ->
  (Z.land evs EPOLLIN = 0 \/ Z.land m EPOLLIN <> 0) -> (Z.land evs EPOLLOUT = 0 \/ Z.land m EPOLLOUT <> 0) ->
  reply_ok r a -> reply_ok r a' ->
  exists r', run_event evs i a a' r = Ok r' /\ reactor_inv r'.
Proof.
  intros Hi Hk Hin Hout [Hd Ha] [Hd' Ha'].
  destruct (registered r i _ Hi Hk) as (Hr & ev & He & Hs & Hf & Hb & Hm & Hev & Hj & Hl).
  injection Hm as ->. unfold run_event. rewrite He. cbn [mbind res_bind].
  assert (forall b, (forall d, data b = Some d -> Z.of_nat (length d) < BUFFER_LENGTH) ->
    (forall c, accepted b = Some c -> in_array c = true /\ kernel r !! c = None) ->
    exists r', run_callback i b r = Ok r' /\ reactor_inv r') as Hrun.
  { intros b Hdb Hab. unfold run_callback. rewrite He. cbn [mbind res_bind].
    destruct (callback ev) eqn:Ecb; [..|done].
    - destruct (accept_cb_inv r (accepted b) (nonblocking b) (clock b) Hi Hab) as (n & r' & -> & ? & _). by exists r'.
    - rewrite Hf. destruct (recv_cb_inv r i ev (data b) (clock b)) as (n & r' & -> & ? & _); try done; [|by exists r'].
      destruct (data b) eqn:E; [by apply Hdb|done].
    - rewrite Hf. destruct (send_cb_inv r i ev (sent_n b) (clock b)) as (r' & -> & ? & _); try done; [by apply Hl|].
      by exists r'. }
  rewrite Hev. destruct (callback ev) eqn:Ecb; [..|done]; cbn [wanted] in *.
  3: { change (Z.land EPOLLOUT EPOLLIN =? 0) with true. rewrite andb_false_r. cbn [mbind res_bind].
       rewrite He. cbn [mbind res_bind]. rewrite Hev.
       destruct (_ && _); [by apply Hrun|by exists r]. }
  all: destruct Hout as [Hout|Hout]; [|done]; rewrite Hout.
  all: destruct (negb (Z.land evs EPOLLIN =? 0) && _);
    [destruct (Hrun a Hd Ha) as (r' & -> & Hi')|exists r; cbn [mbind res_bind]; by rewrite He].
  all: cbn [mbind res_bind]; try rewrite entry_in by done; by exists r'.
Qed.

(** A descriptor that is not registered becomes a listener. *)
Lemma addlistener_inv s now r :
  reactor_inv r -> in_array s = true -> kernel r !! s = None ->
  exists r', ntyreactor_addlistener s now r = Ok r' /\ reactor_inv r'.
Proof.
  intros Hi Hin Hk. unfold ntyreactor_addlistener. rewrite entry_in by done. cbn [mbind res_bind].
  destruct (enter_inv EPOLLIN s Accept_cb now r Hi Hin Hk eq_refl) as (n & r' & -> & Hi' & _); [by left|].
  cbn [mbind res_bind]. by eexists.
Qed.

(** The states of a reactor: made by ntyreactor_init, given listeners, and run. *)
Inductive reached : ntyreactor -> Prop :=
  | reached_init : reached ntyreactor_init
  | reached_listen s now r r' :
      reached r -> in_array s = true -> kernel r !! s = None ->
      ntyreactor_addlistener s now r = Ok r' -> reached r'
  | reached_event r i m evs a a' r' :
      reached r -> kernel r !! i = Some (m, i) ->
      (Z.land evs EPOLLIN = 0 \/ Z.land m EPOLLIN <> 0) -> (Z.land evs EPOLLOUT = 0 \/ Z.land m EPOLLOUT <> 0) ->
      reply_ok r a -> reply_ok r a' -> run_event evs i a a' r = Ok r' -> reached r'.

Lemma reached_inv r : sized -> reached r -> reactor_inv r.
Proof.
  intros Hz. induction 1 as [|s now r r' _ IH Hin Hk H|r i m evs a a' r' _ IH Hk H1 H2 Ha Ha' H].
  - by apply init_inv.
  - destruct (addlistener_inv s now r IH Hin Hk) as (r2 & E & ?). congruence.
  - destruct (run_event_inv r i m evs a a' IH Hk H1 H2 Ha Ha') as (r2 & E & ?). congruence.
Qed.

(** C32: Whatever the array that malloc returned holds, every event the kernel can report, with
    any answer to recv of less than 1024 bytes, any answer to send and any fresh descriptor
    from accept below the size of the array, is handled without a fault.  The entries stay in
    step with the kernel: one is registered exactly if its status is 1, for the event of its
    callback, except that an entry whose status happened to be 1 in the memory malloc returned
    is never registered.  [sized] says that the buffer of an entry is an array of 1024
    bytes. *)
Theorem reactor_event_safe r i m evs a a' :
  sized -> reached r -> kernel r !! i = Some (m, i) ->
  (Z.land evs EPOLLIN = 0 \/ Z.land m EPOLLIN <> 0) -> (Z.land evs EPOLLOUT = 0 \/ Z.land m EPOLLOUT <> 0) ->
  reply_ok r a -> reply_ok r a' ->
  exists r', run_event evs i a a' r = Ok r' /\ reached r' /\
    forall j, in_array j = true -> exists ev, entry r' j = Ok ev /\
      (kernel r' !! j = (if status ev =? 1 then Some (wanted (callback ev), j) else None) \/
       (status (junk j) = 1 /\ kernel r' !! j = None)).
Proof.
  intros Hz Hr Hk H1 H2 Ha Ha'. pose proof (reached_inv r Hz Hr) as Hi.
  destruct (run_event_inv r i m evs a a' Hi Hk H1 H2 Ha Ha') as (r' & E & Hi').
  exists r'. split; [done|]. split; [by apply (reached_event r i m evs a a')|]. intros j Hj. rewrite entry_in by done.
  eexists. split; [done|]. destruct (proj1 Hi' j Hj) as [_ Hreg Hun].
  destruct (kernel r' !! j) as [x|].
  - destruct (Hreg x eq_refl) as (-> & -> & _). by left.
  - destruct (Z.eqb_spec (status (default (junk j) (array r' !! j))) 1) as [Es|Es]; [right; auto|by left].
Qed.

(** C33: What a connection receives is sent back, whatever the array that malloc returned
    holds: the bytes recv stored, at least one and fewer than 1024, are the bytes given to send
    at the next event of the socket, which is armed for it; when send takes the first [n] of
    them, [n] > 0, the rest is dropped and the socket is armed to receive again.  [sized] says
    that the buffer of an entry is an array of 1024 bytes. *)
Theorem reactor_echoes r i ev d a a' n :
  sized -> reached r -> entry r i = Ok ev -> kernel r !! i = Some (EPOLLIN, i) -> callback ev = Recv_cb ->
  d <> [] -> Z.of_nat (length d) < BUFFER_LENGTH -> data a = Some d -> sent_n a' = n -> 0 < n ->
  returns (run_event EPOLLIN i a a r) (fun r1 =>
    kernel r1 !! i = Some (EPOLLOUT, i) /\
    returns (run_event EPOLLOUT i a' a' r1) (fun r2 =>
      output r2 = output r ++ [(i, take (Z.to_nat n) d)] /\ kernel r2 !! i = Some (EPOLLIN, i))).
Proof.
  intros Hz Hr He Hk Hcb Hd Hlen Ea En Hn. pose proof (reached_inv r Hz Hr) as Hi.
  destruct (registered r i _ Hi Hk) as (Hin & e & He' & Hs & Hf & Hb & Hm & Hev & _ & _).
  assert (e = ev) as -> by congruence. rewrite Hcb in Hev.
  unfold run_event at 1. rewrite He. cbn [mbind res_bind]. rewrite Hev. cbn [wanted].
  change (negb (Z.land EPOLLIN EPOLLIN =? 0)) with true. cbn [andb].
  unfold run_callback. rewrite He. cbn [mbind res_bind]. rewrite Hcb, Hf, Ea.
  destruct (recv_cb_inv r i ev (Some d) (clock a)) as (len & r1 & -> & Hi1 & Ho1 & Hrest); try done.
  destruct d as [|b d]; [done|]. destruct Hrest as (Hk1 & -> & e1 & He1 & Hc1 & Hl1 & Hf1 & Ht1).
  cbn [mbind res_bind]. rewrite He1. cbn [mbind res_bind].
  change (negb (Z.land EPOLLIN EPOLLOUT =? 0)) with false. cbn [andb]. apply returns_Ok. split; [done|].
  destruct (registered r1 i _ Hi1 Hk1) as (_ & e2 & He2 & Hs2 & _ & Hb2 & _ & Hev2 & _).
  assert (e2 = e1) as -> by congruence. rewrite Hc1 in Hev2.
  unfold run_event. rewrite He1. cbn [mbind res_bind]. rewrite Hev2. cbn [wanted].
  change (negb (Z.land EPOLLOUT EPOLLIN =? 0)) with false. cbn [andb mbind res_bind].
  rewrite He1. cbn [mbind res_bind]. rewrite Hev2. cbn [wanted].
  change (negb (Z.land EPOLLOUT EPOLLOUT =? 0)) with true. cbn [andb].
  unfold run_callback. rewrite He1. cbn [mbind res_bind]. rewrite Hc1, Hf1, En.
  destruct (send_cb_inv r1 i e1 n (clock a')) as (r2 & -> & Hi2 & Hrest); try done; [rewrite Hl1; lia|].
  rewrite (proj2 (Z.ltb_lt 0 n) Hn) in Hrest. destruct Hrest as [Ho2 Hk2].
  cbn [mbind res_bind]. apply returns_Ok. split; [|done]. rewrite Ho2, Ho1, Hl1. by rewrite Ht1.
Qed.
End Reactor.

(** A full buffer: the NUL behind 1024 received bytes is stored outside it. *)
Definition zero_event (i : Z) : ntyevent := mkEvent 0 0 Junk_cb 0 (replicate 1024 0) 0 0.
Definition one_client : res ntyreactor :=
  r ← ntyreactor_addlistener zero_event 3 0 ntyreactor_init;
  run_event zero_event EPOLLIN 3 (mkReply (Some 5) true None 0 0) (mkReply None true None 0 0) r.

Theorem recv_full_buffer_overflows :
  (r ← one_client;
   run_event zero_event EPOLLIN 5 (mkReply None true (Some (replicate 1024 65)) 0 0)
     (mkReply None true None 0 0) r) = Err OutOfBounds.
Proof. vm_compute. reflexivity. Qed.

(** Memory that is not zero: if the status of an entry happens to be 1, its first
    registration is a MOD, which fails, and the client is never served. *)
Definition one_event (i : Z) : ntyevent := mkEvent 0 0 Junk_cb (if i =? 5 then 1 else 0) (replicate 1024 0) 0 0.

Theorem junk_status_loses_client :
  exists r, (r ← ntyreactor_addlistener one_event 3 0 ntyreactor_init;
    run_event one_event EPOLLIN 3 (mkReply (Some 5) true None 0 0) (mkReply None true None 0 0) r) = Ok r /\
    kernel r !! 5 = None.
Proof. eexists. split; [vm_compute; reflexivity|]. vm_compute. reflexivity. Qed.

(** ** A client *)

Definition demo_reactor : ntyreactor := match one_client with Ok r => r | Err _ => ntyreactor_init end.
Definition nothing : reply := mkReply None true None 0 0.

Lemma zero_event_sized : sized zero_event.
Proof. done. Qed.

Lemma reply_nothing r : reply_ok r nothing.
Proof. by split. Qed.

Lemma demo_reactor_reached : reached zero_event demo_reactor.
Proof.
  destruct (ntyreactor_addlistener zero_event 3 0 ntyreactor_init) as [r|] eqn:E; [|by vm_compute in E].
  apply (reached_event zero_event r 3 EPOLLIN EPOLLIN (mkReply (Some 5) true None 0 0) nothing).
  - apply (reached_listen zero_event 3 0 ntyreactor_init); [constructor|by_decide|done|exact E].
  - vm_compute in E. injection E as <-. vm_compute. reflexivity.
  - right. by_decide.
  - by left.
  - split; [done|]. intros c [= <-]. vm_compute in E. injection E as <-. split; vm_compute; reflexivity.
  - apply reply_nothing.
  - vm_compute in E. injection E as <-. vm_compute. reflexivity.
Qed.

Definition demo_request : reply := mkReply None true (Some [104; 105]) 0 1.
Definition demo_answer : reply := mkReply None true None 2 2.

Lemma reactor_event_safe_witness :
  kernel demo_reactor !! 5 = Some (EPOLLIN, 5) /\
  exists r', run_event zero_event EPOLLIN 5 demo_request nothing demo_reactor = Ok r' /\ reached zero_event r' /\
    forall j, in_array j = true -> exists ev, entry zero_event r' j = Ok ev /\
      (kernel r' !! j = (if status ev =? 1 then Some (wanted (callback ev), j) else None) \/
       (status (zero_event j) = 1 /\ kernel r' !! j = None)).
Proof.
  assert (kernel demo_reactor !! 5 = Some (EPOLLIN, 5)) as Hk by (vm_compute; reflexivity).
  split; [exact Hk|].
  apply (reactor_event_safe zero_event demo_reactor 5 EPOLLIN EPOLLIN demo_request nothing
           zero_event_sized demo_reactor_reached Hk); [right; by_decide|by left| |apply reply_nothing].
  split; [|done]. intros d [= <-]. by_decide.
Defined.

Lemma reactor_echoes_witness :
  returns (run_event zero_event EPOLLIN 5 demo_request demo_request demo_reactor) (fun r1 =>
    kernel r1 !! 5 = Some (EPOLLOUT, 5) /\
    returns (run_event zero_event EPOLLOUT 5 demo_answer demo_answer r1) (fun r2 =>
      output r2 = output demo_reactor ++ [(5, [104; 105])] /\ kernel r2 !! 5 = Some (EPOLLIN, 5))).
Proof.
  destruct (entry zero_event demo_reactor 5) as [ev|] eqn:E; [|by vm_compute in E].
  apply (reactor_echoes zero_event demo_reactor 5 ev [104; 105] demo_request demo_answer 2
           zero_event_sized demo_reactor_reached E); try by_decide; try (vm_compute; reflexivity).
  - vm_compute in E. by injection E as <-.
Defined.
